(* ===== verification/_CoqProject ===== *)
-Q . S2P
Prelude.v
GoLib.v
GoStrings.v
Proto.v
Zinx.v
Models.v
Conf.v
OS.v
Broadcast.v
Pool.v
Reconnect.v
Registry.v
Store.v
Session.v
Room.v
Match.v
Gateway.v
GatewayTypes.v
Chat.v
User.v
Auth.v
Discovery.v
UserApps.v
Svchelper.v
Wiring.v
Mains.v
Clients.v
System.v
Handshake.v
