(* ===== verification/Prelude.v ===== *)
(** * cardwar: a verification library for the game server

    ** The program

    cardwar is a game server in Go.  Clients connect by websocket to a
    _gateway_ ([pkg/gateway]); a gateway forwards their messages, wrapped in an
    [Envelope], to _backends_: [apps/chatsvr], [apps/matchsvr], [apps/roomsvr]
    and [apps/sessionsvr].  Gateways and backends reach each other through a
    registry of connection pools ([pkg/registry.go], [pkg/pool.go]) whose entries
    reconnect by themselves.  Backends announce the messages they handle and
    send with a [ServiceHello]; their answers travel back through the gateway,
    which turns the tags of an envelope into properties of the client's
    connection and reports them to the session server.  The session server
    journals every change of a session ([pkg/persist]) so that a player can
    reconnect through any gateway, also after a restart, and expires the
    sessions of players who do not.  The user service and the job that feeds it
    ([apps/user]) are separate gRPC programs that find each other through etcd
    ([pkg/etcdutil]).  Under [tools/], a helper builds, starts, stops and inspects
    the services of a machine, and two clients exercise a gateway.

    ** The files, and what they model

    - Prelude: bytes, results of code that can panic, occurrences in a list,
      tactics.
    - GoLib: what the code uses of Go: 64-bit wrap-around, [strconv], [fnv]
      hashing, maps that may be nil, slices.
    - GoStrings: the packages [strings], [hex], [base64] and the queries of
      [net/url].
    - Proto: [protocol/msgid.go], [protocol/pb], [pkg/connkey], the service names
      of [pkg/conf/svc_define.go]; the class [Proto] of the encoders, with the
      documented round trip as [ProtoLaws].
    - Zinx: the network library's interface, the classes [Zinx] and [ZinxLaws],
      and the effects a handler emits.
    - Models: instances of these classes, for evaluation.
    - Conf: [pkg/conf/config.go] and the reload step of [conf_watcher.go].
    - OS: programs as trees of operating system calls, with a weakest
      precondition over all answers; used for the command-line tools.
    - Broadcast: [pkg/broadcast.go], [pkg/corouter], [pkg/server].
    - Pool: [pkg/pool.go]; Reconnect: its [reconnectLoop] as a state machine.
    - Registry: [pkg/registry.go], and the interface [BackendRouter] against
      which the theorems about the servers are proved.
    - Store: [pkg/persist/store.go], and the class [Durable]: what an application
      must promise of its snapshot and replay functions for the store to
      recover its state.
    - Session: [apps/sessionsvr/internal/router], an instance of [Durable].
    - Room, Match, Chat: the routers of these servers.
    - Gateway: [pkg/gateway], in a state monad with effects and panics.
    - GatewayTypes: every event of a running gateway, and the types of the
      properties it keeps on connections.
    - User: [apps/user/user-service/internal/handler], with the users in a heap
      because responses alias the stored records.
    - Auth: [pkg/auth/jwt.go], with the rounding of [float64] and the expiry of
      tokens.
    - Discovery: [pkg/etcdutil], [pkg/grpcserver], [pkg/grpcclient].
    - UserApps: the main functions of [apps/user/user-service] and
      [apps/user/user-job], and the job's consumer together with the instances of
      the service.
    - Svchelper: [tools/svchelper].
    - Wiring: what the main functions of the backends register and announce;
      Mains: the main functions themselves, and the gateway's.
    - Clients: [tools/testclient], and [tools/loadtest] as a state machine.
    - System, Handshake: theorems across several servers.

    ** How code becomes definitions

    A handler is a function from its state and request to the new state and the
    list of the effects (messages sent, connections stopped, routers registered)
    in the order the code performs them.  A definition keeps the name of its
    function, with a prefix where several functions share a name.  Time, random
    draws, the order of a map iteration and the outcome of a system call are
    arguments, so a theorem holds for all of them.  Code that waits is split at
    the wait: [CheckReconnect_send] and [CheckReconnect_end], [snapshot_write] and
    [snapshot_rotate], [expire_check] and [expire_commit], the events of
    Reconnect; the interleavings are the orders in which the pieces are applied.
    What arrives while a main function still dials is an argument too: the
    callbacks of the new connections ([DialWorld]) and, for the gateway, the
    hellos ([gw_Dial]).  A panic is a result; where the network library recovers
    it, in the hello handler, [hello_run] gives the state the gateway goes on with.
    Integers keep their width where the code computes with them.  There is no
    fuel: loops are recursions over the slice, the map's listing or the bytes of
    the journal, so every operation is total, and a run of a server is the
    reflexive and transitive closure of its steps.  A command-line program is a
    finite tree of calls; the loop that polls a port has the twenty rounds of the
    code, and an endless loop (the test client's sender) is a recursion over the
    outcomes of its sends.

    ** What the theorems show

    - Durability.  [store_recovers_live]: whatever sequence of journaled updates,
      snapshots with failing system calls and crashes, reopening the store
      recovers the live state.  [sessions_survive_restart] instantiates it for
      the session server.  [journal_roundtrip] is the format of the journal.
    - Sessions: [disconnect_respects_owner], [takeover_blocks_old_gateway],
      [expiry_exact], [reconnect_beats_expiry], [get_always_answers].
    - Rooms: [rooms_invariant], and the refinement of a relation between matches
      and players by [join_refines] and [leave_refines];
      [force_leave_same_as_leave]; [reconnected_redirects], about a handler that
      [session_notices_dropped] shows is never called.
    - Matches: [match_invariant] (queues below the threshold, loads equal to the
      number of matches), [enter_completes_match], [allocation_lifecycle],
      [least_loaded_is_minimal].
    - Gateway: [forward_exactly_once], [response_reaches_client],
      [session_answer_wakes_waiter], [route_index_exact]; [player_ids_typed]: no
      sequence of events makes the type assertion on the player id fail, and only
      a reload with a bad address or a hello with a repeated id can panic.
    - Pools: [dial_no_orphans], [sync_converges], [route_selects_healthy],
      [direct_route_exact], [reconnect_invariant], [stopped_loops_terminate],
      [cleanup_removes_exactly].
    - Across servers: [takeover_end_to_end], [private_chat_delivered],
      [match_result_reaches_session], [room_end_cleans_match],
      [announcements_hold], [handshake_installs_routes].
    - Start-up: [session_server_starts] and [gateway_starts] characterise the
      configurations with which the main functions reach their servers.
    - Users, tokens, discovery: [user_store_crud], [job_creates_users],
      [jwt_roundtrip], [jwt_expired_refused], [discovery_follows_registration],
      [user_service_discoverable].
    - Tools: [start_accounts_for_process], [start_is_bounded],
      [stop_kills_listeners_only] and [build_all_builds_tree] of the helper, over
      every answer of the operating system; [client_admitted]: the clients' URLs
      pass the gateway's authentication; [loadtest_keeps_books].
    - Limits of the code, each with the exact condition under which it shows:
      [append_during_snapshot_lost], [torn_line_loses_later_entries],
      [save_without_tags_diverges], [expiry_not_journaled],
      [reload_forgets_announced_routes], [closing_old_connection_drops_new],
      [empty_property_drops_message], [hello_during_dial],
      [hello_after_reconnection], [connected_elsewhere_not_cut_off],
      [instances_share_ids],
      [retry_disconnects_connected_player], [concurrent_joins_lose_player],
      [player_matched_with_self], [session_notices_dropped],
      [dead_connection_installed], [backoff_exceeds_limit],
      [reconnect_loses_direct_route], [list_users_never_ends],
      [jwt_large_ids_collide], [failed_keepalive_leaves_key],
      [listen_failure_leaves_registration], [player_tag_breaks_forward],
      [occupied_without_listener], [service_config_path], [latency_of_seconds].

    ** What is assumed

    Third-party code is a parameter with named laws: protobuf ([ProtoLaws]: a
    message within the ranges of its fields and with valid UTF-8 strings decodes
    to itself, an empty map becoming nil), zinx ([ZinxLaws]: properties are a map
    per connection; [AddRouter] panics on an id that has a router, and a panic
    of a handler is recovered by its worker: [repeated_api] and [hello_run]), the
    JSON encoding of the journal and of snapshots ([SessionJsonLaws]), JWT
    ([JwtLaws]: a signed token parses under its secret exactly while its [exp] and
    [nbf] allow it), etcd ([EtcdLaws]), YAML (an
    argument of [Load] and of the main functions), JSON messages (an argument of
    the job's consumer).  Nothing is assumed of the operating system.
    Each has an instance that satisfies the laws.  The bound [Z.of_nat (size ...)
    < max_int64] of the match theorems says that a load counter does not wrap.

    ** What is not modelled

    Generated gRPC stubs and descriptors; the transports (TCP and websocket frames,
    gRPC, NATS, etcd's protocol) and their interceptors; logging, and what the
    tools write to standard error; flags, signals and shutdown in the main
    functions; a connection that breaks while a later backend is still being
    dialled (its reconnect loop is the state machine of Reconnect, from any
    state); delays; the rounding and layout of the load test's report; the
    scheduling of
    goroutines below the pieces named above (a data race inside one piece is not
    represented). *)

From stdpp Require Export gmap strings list fin_maps numbers option relations.
From Stdlib Require Export ZArith Lia.
From Stdlib Require Strings.Byte.


(** ** Bytes

    A Go [string] is a [string] (a sequence of bytes); a Go [[]byte] is a list
    of bytes, where the nil slice and the empty slice are both []. *)
Abbreviation byte := Corelib.Init.Byte.byte (only parsing).
Abbreviation bytes := (list Corelib.Init.Byte.byte) (only parsing).

#[export] Instance byte_eq_decision : EqDecision byte := Strings.Byte.byte_eq_dec.

#[export] Program Instance byte_countable : Countable byte :=
  inj_countable Strings.Byte.to_N Strings.Byte.of_N _.
Next Obligation. intros b. apply Strings.Byte.of_to_N. Qed.

(** The Go conversions between the two. *)
Definition to_bytes (s : string) : bytes := Stdlib.Strings.String.list_byte_of_string s.
Definition of_bytes (b : bytes) : string := Stdlib.Strings.String.string_of_list_byte b.

Lemma of_to_bytes s : of_bytes (to_bytes s) = s.
Proof. apply Stdlib.Strings.String.string_of_list_byte_of_string. Qed.

Lemma to_of_bytes b : to_bytes (of_bytes b) = b.
Proof. apply Stdlib.Strings.String.list_byte_of_string_of_list_byte. Qed.

(** ** Results of code that can panic *)
Inductive result (A : Type) : Type :=
  | Ok (a : A)
  | Panic (why : string).
Arguments Ok {A} a.
Arguments Panic {A} why.

#[export] Instance result_ret : MRet result := λ A a, Ok a.
#[export] Instance result_bind : MBind result := λ A B f m,
  match m with Ok a => f a | Panic w => Panic w end.

#[export] Instance result_eq_decision `{EqDecision A} : EqDecision (result A).
Proof. solve_decision. Defined.

(** ** Occurrences in a list *)
Definition occurrences {A} `{EqDecision A} (x : A) (l : list A) : nat :=
  length (filter (x =.) l).

Section occurrences.
Context {A : Type} `{EqDecision A}.
Implicit Types (x y : A) (l k : list A).

Lemma occurrences_app x l k : occurrences x (l ++ k) = (occurrences x l + occurrences x k)%nat.
Proof. unfold occurrences. by rewrite filter_app, length_app. Qed.

Lemma occurrences_cons x y l :
  occurrences x (y :: l) = ((if decide (x = y) then 1 else 0) + occurrences x l)%nat.
Proof. unfold occurrences. rewrite filter_cons. by case_decide. Qed.

Lemma occurrences_0 x l : x ∉ l ↔ occurrences x l = 0%nat.
Proof.
  induction l as [|y l IH]; [split; [done|by intros _ ?%elem_of_nil]|].
  rewrite occurrences_cons, not_elem_of_cons, IH. case_decide; intuition lia.
Qed.

Lemma occurrences_elem_of x l : x ∈ l ↔ (0 < occurrences x l)%nat.
Proof. rewrite <-Nat.neq_0_lt_0, <-occurrences_0. destruct (decide (x ∈ l)); tauto. Qed.

Lemma NoDup_occurrences l : NoDup l ↔ ∀ x, (occurrences x l ≤ 1)%nat.
Proof.
  induction l as [|y l IH]; [split; [intros _ x; cbn; lia|intros _; apply NoDup_nil_2]|].
  rewrite NoDup_cons, IH, occurrences_0. split.
  - intros [Hy Hl] x. rewrite occurrences_cons. specialize (Hl x). case_decide; subst; lia.
  - intros Hl. split.
    + specialize (Hl y). rewrite occurrences_cons, decide_True in Hl by done. lia.
    + intros x. specialize (Hl x). rewrite occurrences_cons in Hl. lia.
Qed.
End occurrences.

(** ** Automation *)
Create HintDb cardwar.

(** Split every [match] and [if] of the goal or of a hypothesis. *)
Ltac split_matches :=
  repeat (case_match || case_decide || case_bool_decide); simplify_eq/=.

(** Settle a decidable, closed goal by evaluation. *)
Ltac evaluate := apply (bool_decide_unpack _); vm_compute; exact I.
