(* ===== verification/GoLib.v ===== *)
(** * What the code uses of Go and of its standard library

    Machine integers with their wrap-around, [strconv], [fmt]'s decimal verbs,
    [hash/fnv], maps that may be nil, and the slice idioms of the handlers. *)

From Stdlib Require Import Ascii.
From S2P Require Import Prelude.
#[local] Open Scope Z_scope.

(** ** Machine integers *)

Definition max_int64 : Z := 2^63 - 1.
Definition min_int64 : Z := - 2^63.
Definition max_uint64 : Z := 2^64 - 1.

Definition in_int64 (z : Z) : Prop := min_int64 ≤ z ≤ max_int64.
Definition in_uint64 (z : Z) : Prop := 0 ≤ z ≤ max_uint64.

#[export] Instance in_int64_dec z : Decision (in_int64 z).
Proof. unfold in_int64. apply _. Defined.
#[export] Instance in_uint64_dec z : Decision (in_uint64 z).
Proof. unfold in_uint64. apply _. Defined.

(** Truncation to an unsigned or signed integer of [w] bits. *)
Definition wrapU (w z : Z) : Z := z mod 2^w.
Definition wrapS (w z : Z) : Z := (z + 2^(w-1)) mod 2^w - 2^(w-1).

Definition uint32 (z : Z) : Z := wrapU 32 z.
Definition int64 (z : Z) : Z := wrapS 64 z.

Ltac unfold_ints :=
  unfold in_int64, in_uint64, min_int64, max_int64, max_uint64, int64, uint32,
    wrapU, wrapS in *.

Lemma int64_id z : in_int64 z → int64 z = z.
Proof.
  unfold_ints. intros H.
  replace (64 - 1) with 63 by lia. rewrite Z.mod_small; lia.
Qed.

Lemma int64_range z : in_int64 (int64 z).
Proof.
  unfold_ints. replace (64 - 1) with 63 by lia.
  pose proof (Z.mod_pos_bound (z + 2^63) (2^64) ltac:(lia)). lia.
Qed.

Lemma uint32_range z : 0 ≤ uint32 z < 2^32.
Proof. unfold_ints. apply Z.mod_pos_bound. lia. Qed.

(** ** [strconv] *)

Inductive NumError := ErrSyntax | ErrRange.

#[export] Instance NumError_eq_dec : EqDecision NumError.
Proof. solve_decision. Defined.

Definition digit_char (d : Z) : Ascii.ascii := Ascii.ascii_of_N (Z.to_N (48 + d)).

Definition digit_val (a : Ascii.ascii) : option Z :=
  let n := Z.of_N (Ascii.N_of_ascii a) in
  if (48 <=? n) && (n <=? 57) then Some (n - 48) else None.

(** Decimal digits of [n], most significant first, in front of [acc].  Each
    round emits one digit; a 64-bit number has at most 20. *)
Fixpoint fmt_digits (fuel : nat) (n : Z) (acc : string) : string :=
  match fuel with
  | O => acc
  | S fuel =>
      let acc' := String (digit_char (n mod 10)) acc in
      if n <? 10 then acc' else fmt_digits fuel (n / 10) acc'
  end.

(** [strconv.FormatUint(n, 10)] and [fmt]'s [%d] on a [uint64]. *)
Definition FormatUint (n : Z) : string := fmt_digits 20 n "".

(** [strconv.FormatInt(z, 10)] and [fmt]'s [%d] on an [int64]. *)
Definition FormatInt (z : Z) : string :=
  if z <? 0 then String "-"%char (FormatUint (- z)) else FormatUint z.

(** The digit loop of [strconv.ParseUint] in base 10, with its two overflow
    tests. *)
Fixpoint parse_digits (n : Z) (s : string) : Z * option NumError :=
  match s with
  | EmptyString => (n, None)
  | String c s =>
      match digit_val c with
      | None => (0, Some ErrSyntax)
      | Some d =>
          if max_uint64 / 10 + 1 <=? n then (max_uint64, Some ErrRange)
          else if max_uint64 <? n * 10 + d then (max_uint64, Some ErrRange)
          else parse_digits (n * 10 + d) s
      end
  end.

Definition ParseUint (s : string) : Z * option NumError :=
  match s with
  | EmptyString => (0, Some ErrSyntax)
  | _ => parse_digits 0 s
  end.

(** [strconv.ParseInt(s, 10, 64)]: the value is 0 on a syntax error and the
    nearest bound on a range error. *)
Definition ParseInt (s : string) : Z * option NumError :=
  let '(neg, s') :=
    match s with
    | String "+"%char r => (false, r)
    | String "-"%char r => (true, r)
    | _ => (false, s)
    end in
  match ParseUint s' with
  | (_, Some ErrSyntax) => (0, Some ErrSyntax)
  | (un, _) =>
      if negb neg && (2^63 <=? un) then (max_int64, Some ErrRange)
      else if neg && (2^63 <? un) then (min_int64, Some ErrRange)
      else (if neg then - un else un, None)
  end.

(** ** [hash/fnv]: the 32-bit FNV-1a hash *)

Definition fnv_offset32 : Z := 2166136261.
Definition fnv_prime32 : Z := 16777619.

Definition byte_val (b : byte) : Z := Z.of_N (Strings.Byte.to_N b).

Definition fnv32a (data : bytes) : Z :=
  foldl (λ h b, uint32 (Z.lxor h (byte_val b) * fnv_prime32)) fnv_offset32 data.

(** ** Maps from strings to strings that may be nil

    [None] is the nil map: reading it gives the zero value and its length is
    zero. *)
Abbreviation gomap := (option (gmap string string)) (only parsing).

Definition mget (m : gomap) (k : string) : string := default "" (m ≫= λ g, g !! k).
Definition mlen (m : gomap) : nat := from_option size 0%nat m.

(** A non-empty map literal. *)
Definition mlit (l : list (string * string)) : gomap := Some (list_to_map l).

(** ** Slices *)

(** [append(l[:i], l[i+1:]...)] *)
Definition remove_at {A} (i : nat) (l : list A) : list A := take i l ++ drop (S i) l.

(** * Lemmas *)

Lemma digit_val_char d : 0 ≤ d < 10 → digit_val (digit_char d) = Some d.
Proof.
  intros Hd.
  assert (d = 0 ∨ d = 1 ∨ d = 2 ∨ d = 3 ∨ d = 4 ∨ d = 5 ∨ d = 6 ∨ d = 7 ∨ d = 8 ∨ d = 9)
    as Hcases by lia.
  by repeat destruct Hcases as [->|Hcases]; subst.
Qed.

(** Reading the digits of [n] in front of [acc] continues at [acc] with [n]. *)
Lemma parse_fmt_digits fuel n acc :
  0 ≤ n < 10 ^ Z.of_nat fuel → n ≤ max_uint64 →
  parse_digits 0 (fmt_digits fuel n acc) = parse_digits n acc.
Proof.
  revert n acc. induction fuel as [|fuel IH]; intros n acc Hn Hmax.
  { change (10 ^ Z.of_nat 0) with 1 in Hn. by replace n with 0 by lia. }
  assert (n / 10 ≤ n) by (apply Z.div_le_upper_bound; nia).
  pose proof (Z.div_mod n 10 ltac:(lia)) as Hdm.
  pose proof (Z.mod_pos_bound n 10 ltac:(lia)) as Hmod.
  cbn [fmt_digits]. destruct (Z.ltb_spec n 10).
  - cbn [parse_digits]. rewrite digit_val_char by done.
    rewrite Z.mod_small by lia.
    change (max_uint64 / 10 + 1) with 1844674407370955162.
    destruct (Z.leb_spec 1844674407370955162 0); [lia|].
    destruct (Z.ltb_spec max_uint64 (0 * 10 + n)); [lia|].
    by replace (0 * 10 + n) with n by lia.
  - rewrite IH; [|split; [apply Z.div_pos; lia|]|lia].
    2: { apply Z.div_lt_upper_bound; [lia|].
         rewrite Nat2Z.inj_succ, Z.pow_succ_r in Hn by lia. lia. }
    cbn [parse_digits]. rewrite digit_val_char by done.
    replace (n / 10 * 10 + n mod 10) with n by lia.
    destruct (Z.leb_spec (max_uint64 / 10 + 1) (n / 10)).
    { pose proof (Z.div_le_mono n max_uint64 10 ltac:(lia) Hmax). lia. }
    destruct (Z.ltb_spec max_uint64 n); [lia|done].
Qed.

Lemma fmt_digits_shape fuel n acc :
  0 ≤ n → ∃ d r, 0 ≤ d < 10 ∧ fmt_digits (S fuel) n acc = String (digit_char d) r.
Proof.
  revert n acc. induction fuel as [|fuel IH]; intros n acc Hn;
    pose proof (Z.mod_pos_bound n 10 ltac:(lia)).
  - simpl. case_match; eauto.
  - cbn [fmt_digits]. destruct (n <? 10); [eauto|].
    apply (IH (n / 10)). apply Z.div_pos; lia.
Qed.

Lemma FormatUint_shape n :
  0 ≤ n → ∃ d r, 0 ≤ d < 10 ∧ FormatUint n = String (digit_char d) r.
Proof. apply fmt_digits_shape. Qed.

Lemma ParseUint_FormatUint n : in_uint64 n → ParseUint (FormatUint n) = (n, None).
Proof.
  intros Hn. destruct (FormatUint_shape n) as (d & r & _ & Hf); [by destruct Hn|].
  assert (FormatUint n ≠ EmptyString) as Hne by by rewrite Hf.
  unfold ParseUint. destruct (FormatUint n) as [|a s] eqn:E; [done|].
  rewrite <-E. unfold FormatUint. rewrite parse_fmt_digits; [done| |];
    unfold_ints; lia.
Qed.

(** A string starting with a digit is read as an unsigned number. *)
Lemma ParseInt_digit d r :
  0 ≤ d < 10 → ∀ n, ParseUint (String (digit_char d) r) = (n, None) → n < 2^63 →
  ParseInt (String (digit_char d) r) = (n, None).
Proof.
  intros Hd n Hp Hlt. unfold ParseInt.
  assert (d = 0 ∨ d = 1 ∨ d = 2 ∨ d = 3 ∨ d = 4 ∨ d = 5 ∨ d = 6 ∨ d = 7 ∨ d = 8 ∨ d = 9)
    as Hcases by lia.
  repeat destruct Hcases as [->|Hcases]; subst;
    match goal with |- context [digit_char ?d] =>
      let c := eval vm_compute in (digit_char d) in change (digit_char d) with c in * end;
    cbn -[ParseUint Z.pow]; rewrite Hp; cbn [negb andb];
    destruct (Z.leb_spec (2^63) n); lia || done.
Qed.

Lemma ParseInt_FormatInt z : in_int64 z → ParseInt (FormatInt z) = (z, None).
Proof.
  intros Hz. unfold FormatInt. destruct (Z.ltb_spec z 0).
  - unfold ParseInt. rewrite ParseUint_FormatUint by (unfold_ints; lia).
    cbn [negb andb]. destruct (Z.ltb_spec (2^63) (- z)); [unfold_ints; lia|].
    by rewrite Z.opp_involutive.
  - destruct (FormatUint_shape z) as (d & r & Hd & Hf); [lia|].
    rewrite Hf. apply ParseInt_digit; [done| |unfold_ints; lia].
    rewrite <-Hf. apply ParseUint_FormatUint. unfold_ints; lia.
Qed.

Lemma FormatInt_inj z1 z2 :
  in_int64 z1 → in_int64 z2 → FormatInt z1 = FormatInt z2 → z1 = z2.
Proof.
  intros H1 H2 Heq.
  assert ((z1, @None NumError) = (z2, None)) as [=]; [|done].
  by rewrite <-(ParseInt_FormatInt z1), <-(ParseInt_FormatInt z2), Heq.
Qed.

Lemma FormatUint_nonempty n : FormatUint n ≠ ""%string.
Proof.
  assert (∀ fuel acc, fmt_digits (S fuel) n acc ≠ ""%string) as Hf; [|apply (Hf 19%nat)].
  intros fuel. revert n. induction fuel as [|fuel IH]; intros n acc.
  - cbn. by destruct (n <? 10).
  - cbn [fmt_digits]. destruct (n <? 10); [done|apply IH].
Qed.

Lemma FormatInt_nonempty z : FormatInt z ≠ ""%string.
Proof.
  unfold FormatInt. destruct (Z.ltb_spec z 0); [done|].
  by destruct (FormatUint_shape z) as (d & r & _ & ->).
Qed.

Lemma fnv32a_range data : 0 ≤ fnv32a data < 2^32.
Proof.
  unfold fnv32a.
  assert (∀ h, 0 ≤ h < 2^32 →
    0 ≤ foldl (λ h b, uint32 (Z.lxor h (byte_val b) * fnv_prime32)) h data < 2^32) as H.
  { induction data as [|b data IH]; intros h Hh; [done|]. apply IH, uint32_range. }
  apply H. unfold fnv_offset32. lia.
Qed.

Lemma mget_nil k : mget None k = ""%string.
Proof. done. Qed.

Lemma mget_Some g k : mget (Some g) k = default ""%string (g !! k).
Proof. done. Qed.

Lemma remove_at_length {A} i (l : list A) :
  (i < length l)%nat → S (length (remove_at i l)) = length l.
Proof. intros. unfold remove_at. rewrite length_app, length_take, length_drop. lia. Qed.

Lemma remove_at_middle {A} (l k : list A) x :
  remove_at (length l) (l ++ x :: k) = l ++ k.
Proof.
  unfold remove_at. rewrite take_app_length.
  replace (S (length l)) with (length l + 1)%nat by lia.
  by rewrite <-drop_drop, drop_app_length.
Qed.

Lemma remove_at_fmap {A B} (f : A → B) i (l : list A) :
  f <$> remove_at i l = remove_at i (f <$> l).
Proof. unfold remove_at. by rewrite fmap_app, fmap_take, fmap_drop. Qed.

Lemma remove_at_sublist {A} i (l : list A) : remove_at i l `sublist_of` l.
Proof.
  unfold remove_at. rewrite <-(take_drop i l) at 3.
  apply sublist_app; [done|].
  replace (S i) with (i + 1)%nat by lia. rewrite <-drop_drop. apply sublist_drop.
Qed.

Lemma remove_at_NoDup {A} i (l : list A) : NoDup l → NoDup (remove_at i l).
Proof. intros H. eapply sublist_NoDup; [done|apply remove_at_sublist]. Qed.

Lemma remove_at_keeps {A} i j (l : list A) x : i ≠ j → l !! j = Some x → x ∈ remove_at i l.
Proof.
  intros Hne Hj. unfold remove_at. apply elem_of_app.
  destruct (decide (j < i)%nat); [left|right]; apply list_elem_of_lookup.
  - exists j. rewrite lookup_take. by rewrite decide_True.
  - exists (j - S i)%nat. rewrite lookup_drop, <-Hj. f_equal. lia.
Qed.

Lemma remove_at_elem_of {A} i (l : list A) x y :
  NoDup l → l !! i = Some x → y ∈ remove_at i l ↔ y ∈ l ∧ y ≠ x.
Proof.
  intros Hnd Hi. destruct (list_elem_of_split_length l i x Hi) as (l1 & l2 & -> & ->).
  rewrite remove_at_middle.
  apply NoDup_app in Hnd as (Hnd1 & Hdisj & Hnd2%NoDup_cons).
  set_solver.
Qed.

Lemma filter_Forall_id {A} (P : A → Prop) `{∀ x, Decision (P x)} (l : list A) :
  Forall P l → filter P l = l.
Proof.
  induction 1 as [|x l Hx _ IH]; [done|]. by rewrite filter_cons_True, IH.
Qed.

Lemma filter_Forall_nil {A} (P : A → Prop) `{∀ x, Decision (P x)} (l : list A) :
  Forall (λ x, ¬ P x) l → filter P l = [].
Proof. induction 1 as [|x l Hx _ IH]; [done|]. by rewrite filter_cons_False, IH. Qed.
