(* ===== verification/GoStrings.v ===== *)
(** * Strings as the tools and the discovery code use them

    Go's package [strings], [encoding/hex] and [encoding/base64].  A string is a
    sequence of bytes. *)

From Stdlib Require Import Ascii.
From S2P Require Import Prelude GoLib.
#[local] Open Scope Z_scope.

(** ** Prefixes, suffixes and occurrences *)

(** [s] without the prefix [p], if it has it. *)
Fixpoint strip_prefix (p s : string) : option string :=
  match p, s with
  | EmptyString, _ => Some s
  | String a p, String b s => if decide (a = b) then strip_prefix p s else None
  | String _ _, EmptyString => None
  end.

(** [strings.TrimPrefix] *)
Definition TrimPrefix (s p : string) : string := default s (strip_prefix p s).

(** [strings.HasSuffix] *)
Fixpoint HasSuffix (s suf : string) : bool :=
  if decide (s = suf) then true
  else match s with EmptyString => false | String _ s => HasSuffix s suf end.

(** [strings.Contains] *)
Fixpoint Contains (s sub : string) : bool :=
  match strip_prefix sub s with
  | Some _ => true
  | None => match s with EmptyString => false | String _ s => Contains s sub end
  end.

(** ** Splitting and joining *)

(** [strings.Split] with a separator of one byte. *)
Fixpoint Split (sep : ascii) (s : string) : list string :=
  match s with
  | EmptyString => [""%string]
  | String a s =>
      if decide (a = sep) then ""%string :: Split sep s
      else match Split sep s with
           | x :: xs => String a x :: xs
           | [] => [String a ""]
           end
  end.

(** [strings.Join] *)
Fixpoint Join (sep : string) (l : list string) : string :=
  match l with
  | [] => ""
  | [x] => x
  | x :: l => x +:+ sep +:+ Join sep l
  end.

(** The white space of ASCII: tab, newline, vertical tab, form feed, carriage
    return, blank. *)
Definition is_space (a : ascii) : bool :=
  let n := N_of_ascii a in ((9 <=? n) && (n <=? 13) || (n =? 32))%N.

(** [strings.Fields] of an ASCII string: [cur] is the field being read. *)
Fixpoint fields (cur s : string) : list string :=
  match s with
  | EmptyString => if decide (cur = ""%string) then [] else [cur]
  | String a s =>
      if is_space a then
        if decide (cur = ""%string) then fields "" s else cur :: fields "" s
      else fields (cur +:+ String a "") s
  end.
Definition Fields (s : string) : list string := fields "" s.

(** [strconv.Atoi] with its error ignored. *)
Definition Atoi (s : string) : Z := (ParseInt s).1.

(** [s[:len(s)-n]] *)
Definition drop_end (n : nat) (s : string) : result string :=
  if (String.length s <? n)%nat then Panic "slice bounds out of range"
  else Ok (String.substring 0 (String.length s - n) s).

(** [fmt]'s [%-ws]: blanks up to [w] characters, where a character of UTF-8 is
    counted by its first byte. *)
Fixpoint rune_count (s : string) : nat :=
  match s with
  | EmptyString => 0
  | String a s =>
      let n := N_of_ascii a in
      if ((128 <=? n) && (n <? 192))%N then rune_count s else S (rune_count s)
  end.
Fixpoint blanks (n : nat) : string :=
  match n with O => "" | S n => String " " (blanks n) end.
Definition pad_right (w : nat) (s : string) : string := s +:+ blanks (w - rune_count s).

(** ** Hexadecimal and base 64 *)

(** [hex.EncodeToString] *)
Definition hex_digit (n : N) : ascii :=
  ascii_of_N (if (n <? 10)%N then 48 + n else 87 + n)%N.
Fixpoint hex (b : bytes) : string :=
  match b with
  | [] => ""
  | c :: b =>
      let n := Strings.Byte.to_N c in
      String (hex_digit (n / 16)%N) (String (hex_digit (n mod 16)%N) (hex b))
  end.

(** The value of a character of the standard base 64 alphabet. *)
Definition b64_val (a : ascii) : option N :=
  let n := N_of_ascii a in
  if ((65 <=? n) && (n <=? 90))%N then Some (n - 65)%N
  else if ((97 <=? n) && (n <=? 122))%N then Some (n - 71)%N
  else if ((48 <=? n) && (n <=? 57))%N then Some (n + 4)%N
  else if (n =? 43)%N then Some 62%N
  else if (n =? 47)%N then Some 63%N
  else None.

Definition b64_char (a b c d : N) : ascii * ascii * ascii :=
  let v := (a * 262144 + b * 4096 + c * 64 + d)%N in
  (ascii_of_N (v / 65536)%N, ascii_of_N (v / 256 mod 256)%N, ascii_of_N (v mod 256)%N).

(** [StdEncoding.DecodeString] without its error: what is decoded before it.
    Padding is accepted at the end of a quantum only. *)
Fixpoint b64_quanta (l : list ascii) : string :=
  match l with
  | a :: b :: c :: d :: l =>
      match b64_val a, b64_val b with
      | Some va, Some vb =>
          match b64_val c with
          | Some vc =>
              match b64_val d with
              | Some vd =>
                  let '(x, y, z) := b64_char va vb vc vd in
                  String x (String y (String z (b64_quanta l)))
              | None =>
                  if decide (d = "="%char) then
                    let '(x, y, _) := b64_char va vb vc 0 in String x (String y "")
                  else ""
              end
          | None =>
              if decide (c = "="%char ∧ d = "="%char) then
                let '(x, _, _) := b64_char va vb 0 0 in String x ""
              else ""
          end
      | _, _ => ""
      end
  | _ => ""
  end.

Definition DecodeString (s : string) : string :=
  b64_quanta (filter (λ a, a ≠ "010"%char ∧ a ≠ "013"%char) (String.list_ascii_of_string s)).

(** ** Queries ([net/url]) *)

(** The characters [QueryEscape] leaves as they are. *)
Definition unreserved (a : ascii) : bool :=
  let n := N_of_ascii a in
  ((48 <=? n) && (n <=? 57) || (65 <=? n) && (n <=? 90) || (97 <=? n) && (n <=? 122) ||
   (n =? 45) || (n =? 46) || (n =? 95) || (n =? 126))%N.

Definition upper_hex (n : N) : ascii := ascii_of_N (if (n <? 10)%N then 48 + n else 55 + n)%N.
Definition unhex (a : ascii) : option N :=
  let n := N_of_ascii a in
  if ((48 <=? n) && (n <=? 57))%N then Some (n - 48)%N
  else if ((97 <=? n) && (n <=? 102))%N then Some (n - 87)%N
  else if ((65 <=? n) && (n <=? 70))%N then Some (n - 55)%N
  else None.

(** [url.QueryEscape] *)
Definition escape_char (a : ascii) (s : string) : string :=
  if unreserved a then String a s
  else if decide (a = " "%char) then String "+" s
  else let n := N_of_ascii a in
       String "%" (String (upper_hex (n / 16)) (String (upper_hex (n mod 16)) s)).
Fixpoint QueryEscape (s : string) : string :=
  match s with EmptyString => "" | String a s => escape_char a (QueryEscape s) end.

(** [url.QueryUnescape]; [None] for its error. *)
Fixpoint QueryUnescape (s : string) : option string :=
  match s with
  | EmptyString => Some ""%string
  | String "%"%char s =>
      match s with
      | String a (String b s) =>
          match unhex a, unhex b, QueryUnescape s with
          | Some x, Some y, Some s => Some (String (ascii_of_N (16 * x + y)) s)
          | _, _, _ => None
          end
      | _ => None
      end
  | String a s => String (if decide (a = "+"%char) then " "%char else a) <$> QueryUnescape s
  end.

(** [strings.Cut] at the first [sep]. *)
Fixpoint Cut (sep : ascii) (s : string) : string * string :=
  match s with
  | EmptyString => (""%string, ""%string)
  | String a s =>
      if decide (a = sep) then (""%string, s) else let '(k, v) := Cut sep s in (String a k, v)
  end.

(** [URL.Query] followed by [Get]: the first value of [key].  A piece with a
    semicolon or a bad escape is skipped, and so is an empty one. *)
Fixpoint query_get (pieces : list string) (key : string) : string :=
  match pieces with
  | [] => ""
  | piece :: pieces =>
      if Contains piece ";" || bool_decide (piece = ""%string) then query_get pieces key
      else
        let '(k, v) := Cut "="%char piece in
        match QueryUnescape k, QueryUnescape v with
        | Some k, Some v => if decide (k = key) then v else query_get pieces key
        | _, _ => query_get pieces key
        end
  end.
Definition Query_Get (rawQuery key : string) : string := query_get (Split "&"%char rawQuery) key.

(** * Lemmas *)

Lemma string_app_assoc (a b c : string) : a +:+ (b +:+ c) = (a +:+ b) +:+ c.
Proof. induction a as [|x a IH]; [done|]. exact (f_equal (String x) IH). Qed.

Lemma string_app_nil_r (a : string) : a +:+ "" = a.
Proof. induction a as [|x a IH]; [done|]. exact (f_equal (String x) IH). Qed.

Lemma string_app_inv (a b c : string) : a +:+ b = a +:+ c → b = c.
Proof. induction a as [|x a IH]; [done|]. intros [= Hx]. by apply IH. Qed.

Lemma strip_prefix_app p s : strip_prefix p (p +:+ s) = Some s.
Proof. induction p as [|a p IH]; [done|]. simpl. by rewrite decide_True. Qed.

Lemma strip_prefix_Some p s r : strip_prefix p s = Some r ↔ s = p +:+ r.
Proof.
  split; [|intros ->; apply strip_prefix_app].
  revert s. induction p as [|a p IH]; intros s; simpl; [by intros [= ->]|].
  destruct s as [|b s]; [done|]. case_decide; [|done]. intros Hs. subst b. by rewrite (IH s Hs).
Qed.

(** [Contains] finds exactly the substrings. *)
Lemma Contains_spec s sub : Contains s sub = true ↔ ∃ l r, s = l +:+ sub +:+ r.
Proof.
  split.
  - induction s as [|a s IH]; cbn [Contains].
    + destruct (strip_prefix sub "") as [r|] eqn:E; [|done].
      apply strip_prefix_Some in E. intros _. by exists ""%string, r.
    + destruct (strip_prefix sub (String a s)) as [r|] eqn:E.
      * apply strip_prefix_Some in E. intros _. by exists ""%string, r.
      * intros (l & r & ->)%IH. by exists (String a l), r.
  - intros (l & r & ->). induction l as [|a l IH].
    + change ("" +:+ sub +:+ r) with (sub +:+ r).
      destruct (sub +:+ r) eqn:E; cbn [Contains]; by rewrite <-E, strip_prefix_app.
    + change (String a l +:+ sub +:+ r) with (String a (l +:+ sub +:+ r)).
      cbn [Contains]. rewrite IH. by destruct (strip_prefix _ _).
Qed.

Lemma Contains_app_l l s sub : Contains s sub = true → Contains (l +:+ s) sub = true.
Proof.
  rewrite !Contains_spec. intros (l' & r & ->). exists (l +:+ l'), r.
  by rewrite <-!string_app_assoc.
Qed.

Lemma Contains_app_r r s sub : Contains s sub = true → Contains (s +:+ r) sub = true.
Proof.
  rewrite !Contains_spec. intros (l & r' & ->). exists l, (r' +:+ r).
  by rewrite <-!string_app_assoc.
Qed.

Lemma Split_cons sep s : ∃ x xs, Split sep s = x :: xs.
Proof.
  induction s as [|a s (x & xs & IH)]; [by eexists _, _|]. simpl.
  case_decide; rewrite ?IH; by eexists _, _.
Qed.

(** Joining the parts with the separator gives the string back. *)
Lemma Join_Split sep s : Join (String sep "") (Split sep s) = s.
Proof.
  induction s as [|a s IH]; [done|]. simpl.
  destruct (Split_cons sep s) as (x & xs & Hs). rewrite Hs in *.
  case_decide as Ha.
  - subst a. exact (f_equal (String sep) IH).
  - destruct xs as [|y xs]; exact (f_equal (String a) IH).
Qed.

(** What one of the lines contains, the whole text contains. *)
Lemma Contains_Split sep s line sub :
  line ∈ Split sep s → Contains line sub = true → Contains s sub = true.
Proof.
  revert line. induction s as [|a s IH]; intros line; simpl Split.
  - intros ->%list_elem_of_singleton. done.
  - destruct (Split_cons sep s) as (x & xs & Hs). rewrite Hs in *.
    assert (∀ t, Contains t sub = true → Contains (String a t) sub = true) as Hcons
      by (intros t; apply (Contains_app_l (String a ""))).
    case_decide as Ha.
    + intros [->|Hin]%elem_of_cons Hc.
      * apply (Contains_app_r (String a s) "" sub Hc).
      * apply Hcons. by eapply IH.
    + intros [->|Hin]%elem_of_cons Hc.
      * assert (String a s = String a x +:+ (match xs with [] => ""%string
          | _ => String sep (Join (String sep "") xs) end)) as ->.
        { rewrite <-(Join_Split sep s), Hs. destruct xs; simpl; [by rewrite string_app_nil_r|done]. }
        by apply Contains_app_r.
      * apply Hcons. eapply IH; [by right|done].
Qed.

Lemma drop_end_app s t : drop_end (String.length t) (s +:+ t) = Ok s.
Proof.
  unfold drop_end.
  assert (String.length (s +:+ t) = String.length s + String.length t)%nat as ->
    by (induction s as [|a s IH]; [done|exact (f_equal S IH)]).
  destruct (Nat.ltb_spec (String.length s + String.length t) (String.length t)); [lia|].
  replace (String.length s + String.length t - String.length t)%nat
    with (String.length s) by lia.
  f_equal. clear. induction s as [|a s IH]; [by destruct t|]. exact (f_equal (String a) IH).
Qed.

(** ** Queries *)

Lemma QueryUnescape_char a s : QueryUnescape (escape_char a s) = String a <$> QueryUnescape s.
Proof. destruct a as [[] [] [] [] [] [] [] []]; reflexivity. Qed.

Lemma QueryUnescape_escape s : QueryUnescape (QueryEscape s) = Some s.
Proof.
  induction s as [|a s IH]; [done|]. cbn [QueryEscape]. by rewrite QueryUnescape_char, IH.
Qed.

(** The characters that have a meaning in a query do not occur in an escaped
    string. *)
Fixpoint no_meta (s : string) : bool :=
  match s with
  | EmptyString => true
  | String a s => negb (bool_decide (a ∈ ["&"%char; ";"%char; "="%char])) && no_meta s
  end.

Lemma QueryEscape_no_meta s : no_meta (QueryEscape s) = true.
Proof.
  induction s as [|a s IH]; [done|]. cbn [QueryEscape].
  destruct a as [[] [] [] [] [] [] [] []]; exact IH.
Qed.

Lemma no_meta_Split s : no_meta s = true → Split "&"%char s = [s].
Proof.
  intros Hs. induction s as [|a s IH]; [done|]. cbn [no_meta] in Hs.
  apply andb_true_iff in Hs as [Ha Hs]. cbn [Split]. rewrite (IH Hs).
  rewrite decide_False; [done|]. intros ->. by vm_compute in Ha.
Qed.

Lemma no_meta_Contains s : no_meta s = true → Contains s ";" = false.
Proof.
  intros Hs. induction s as [|a s IH]; [done|]. cbn [no_meta] in Hs.
  apply andb_true_iff in Hs as [Ha Hs]. cbn [Contains strip_prefix].
  rewrite decide_False; [by apply IH|]. intros <-. by vm_compute in Ha.
Qed.

(** A parameter that was escaped is read back from the query. *)
Lemma Query_Get_escape s : Query_Get ("token=" +:+ QueryEscape s) "token" = s.
Proof.
  set (v := QueryEscape s). assert (no_meta v = true) as Hv by apply QueryEscape_no_meta.
  unfold Query_Get.
  assert (Split "&"%char ("token=" +:+ v) = ["token=" +:+ v]) as ->.
  { change (Split "&"%char (String "t" (String "o" (String "k" (String "e" (String "n" (String "=" v)))))) =
      ["token=" +:+ v]). cbn [Split]. by rewrite (no_meta_Split v Hv). }
  cbn [query_get].
  assert (Contains ("token=" +:+ v) ";" = false) as ->
    by (cbn; exact (no_meta_Contains v Hv)).
  change (Cut "="%char ("token=" +:+ v)) with ("token"%string, v).
  rewrite bool_decide_false by done. cbn [orb]. unfold v. rewrite QueryUnescape_escape. done.
Qed.
