(* ===== verification/Proto.v ===== *)
(** * The protocol: message identifiers, well-known keys and message types

    [protocol/msgid.go], [protocol/pb], [pkg/connkey] and the service names of
    [pkg/conf].  The protobuf runtime is a third-party library: [marshal] and
    [unmarshal] are the operations of a class, with the documented round trip
    as its law. *)

From Stdlib Require Import Ascii.
From S2P Require Import Prelude GoLib.
#[local] Open Scope Z_scope.

(** ** Message identifiers ([uint32]) *)

(** [pkg/const.go] *)
Definition MaxMsgID : Z := 1000.

Definition MsgIdPing : Z := 1.
Definition MsgIdPong : Z := 2.
Definition MsgIdChatReq : Z := 5.
Definition MsgIdChatResp : Z := 6.
Definition MsgIdMatchEnterReq : Z := 11.
Definition MsgIdMatchEnterResp : Z := 12.
Definition MsgIdMatchResultPush : Z := 13.
Definition MsgIdMatchAllocateReq : Z := 18.
Definition MsgIdMatchAllocateResp : Z := 19.
Definition MsgIdMatchQueryReq : Z := 20.
Definition MsgIdMatchQueryResp : Z := 21.
Definition MsgIdRoomJoinReq : Z := 14.
Definition MsgIdRoomJoinResp : Z := 15.
Definition MsgIdRoomLeaveReq : Z := 16.
Definition MsgIdRoomLeaveResp : Z := 17.
Definition MsgIdRoomDestroyedPush : Z := 22.
Definition MsgIdRoomEventPush : Z := 23.
Definition MsgIdSessionSave : Z := 1002.
Definition MsgIdSessionGet : Z := 1003.
Definition MsgIdSessionDisconnect : Z := 1004.
Definition MsgIdSessionReconnect : Z := 1005.
Definition MsgIdSessionForceLeave : Z := 1006.
Definition MsgIdSessionForceLeaveQueue : Z := 1007.
Definition MsgIdSessionReconnected : Z := 1008.
Definition MsgIdSessionInvalidate : Z := 1010.
Definition MsgIdServiceIdentity : Z := 1001.
Definition MsgIdServiceHello : Z := 1009.

(** ** Connection properties and tags *)

Definition PropPlayerID : string := "playerId".
Definition PropServerID : string := "server_id".
Definition PropConnType : string := "conn_type".

Definition TagPlayerID : string := "player_id".
Definition TagTargetPlayerID : string := "target_player_id".
Definition TagRoomSvrID : string := "room_server_id".
Definition TagMatchID : string := "match_id".
Definition TagMatchType : string := "match_type".
Definition TagSenderID : string := "sender_id".

Definition SyncTagKeys : list string := [TagRoomSvrID; TagMatchID; TagMatchType].

(** ** Service names *)

Definition SvcGateway : string := "gateway".
Definition SvcChatSvr : string := "chatsvr".
Definition SvcMatchSvr : string := "matchsvr".
Definition SvcRoomSvr : string := "roomsvr".
Definition SvcSessionSvr : string := "sessionsvr".

(** ** Messages *)

Record ChatReq := mkChatReq { cq_Content : string; cq_TargetPlayerId : Z }.

Record ChatResp := mkChatResp {
  cr_SenderPlayerId : Z; cr_Content : string; cr_Timestamp : Z; cr_TargetPlayerId : Z }.

Record Envelope := mkEnvelope { ev_ConnId : Z; ev_Data : bytes; ev_ConnTags : gomap }.

Record ServiceHello := mkServiceHello {
  sh_Service : string; sh_MsgIds : list Z; sh_SendMsgIds : list Z }.

Record MatchEnterReq := mkMatchEnterReq { mq_MatchType : string; mq_Elo : Z }.
Record MatchEnterResp := mkMatchEnterResp { mr_Status : string; mr_QueueSize : Z }.
Record MatchResultPush := mkMatchResultPush {
  mp_MatchId : string; mp_ServerId : string; mp_Players : list Z; mp_MatchType : string }.
Record MatchAllocateReq := mkMatchAllocateReq { aq_MatchId : string }.
Record MatchAllocateResp := mkMatchAllocateResp {
  ar_MatchId : string; ar_ServerId : string; ar_Error : string }.
Record MatchQueryReq := mkMatchQueryReq { qq_MatchId : string }.
Record MatchQueryResp := mkMatchQueryResp {
  qr_MatchId : string; qr_ServerId : string; qr_Found : bool }.

Record RoomJoinReq := mkRoomJoinReq { jq_MatchId : string }.
Record RoomJoinResp := mkRoomJoinResp {
  jr_Success : bool; jr_MatchId : string; jr_ServerId : string; jr_Error : string }.
Record RoomLeaveReq := mkRoomLeaveReq { lq_MatchId : string }.
Record RoomLeaveResp := mkRoomLeaveResp { lr_Success : bool; lr_Error : string }.
Record RoomEventPush := mkRoomEventPush {
  re_MatchId : string; re_PlayerId : string; re_Event : string; re_PlayerCount : Z }.
Record RoomDestroyedPush := mkRoomDestroyedPush { rd_MatchId : string }.

Record SessionData := mkSessionData {
  sd_PlayerId : Z; sd_GatewayId : string; sd_ConnTags : gomap; sd_DisconnectedAt : Z }.

(** ** Encoding

    [proto.Marshal] rejects strings that are not valid UTF-8 and a field holds
    an integer of its width: [wire_ok] is the set of messages the encoding is
    faithful on.  An empty map and a nil map have the same encoding, and
    decoding gives the nil map: [canon]. *)

Definition in_range (lo hi : Z) (a : ascii) : bool :=
  let n := Z.of_N (N_of_ascii a) in (lo <=? n) && (n <=? hi).

(** [utf8.ValidString] *)
Fixpoint valid_utf8 (s : string) : bool :=
  match s with
  | EmptyString => true
  | String a r =>
      if in_range 0 127 a then valid_utf8 r else
      match r with
      | EmptyString => false
      | String b r1 =>
          if in_range 194 223 a then in_range 128 191 b && valid_utf8 r1 else
          match r1 with
          | EmptyString => false
          | String c r2 =>
              if in_range 224 239 a then
                (if in_range 224 224 a then in_range 160 191 b
                 else if in_range 237 237 a then in_range 128 159 b
                 else in_range 128 191 b)
                && in_range 128 191 c && valid_utf8 r2
              else
              match r2 with
              | EmptyString => false
              | String d r3 =>
                  in_range 240 244 a &&
                  (if in_range 240 240 a then in_range 144 191 b
                   else if in_range 244 244 a then in_range 128 143 b
                   else in_range 128 191 b)
                  && in_range 128 191 c && in_range 128 191 d && valid_utf8 r3
              end
          end
      end
  end.

Definition utf8 (s : string) : Prop := valid_utf8 s = true.
Definition tags_ok (m : gomap) : Prop :=
  match m with None => True | Some g => map_Forall (λ k v, utf8 k ∧ utf8 v) g end.
Definition in_uint32 (z : Z) : Prop := 0 ≤ z < 2^32.

Definition canon_tags (m : gomap) : gomap :=
  match m with Some g => if decide (g = ∅) then None else Some g | None => None end.

Class Canonical (A : Type) := { canon : A → A; wire_ok : A → Prop }.

Class Wire (A : Type) := { marshal : A → bytes; unmarshal : bytes → option A }.

Class WireLaws (A : Type) `{Wire A, Canonical A} :=
  unmarshal_marshal : ∀ a : A, wire_ok a → unmarshal (marshal a) = Some (canon a).

#[export] Instance ChatReq_canon : Canonical ChatReq :=
  {| canon m := m; wire_ok m := utf8 (cq_Content m) ∧ in_int64 (cq_TargetPlayerId m) |}.
#[export] Instance ChatResp_canon : Canonical ChatResp :=
  {| canon m := m;
     wire_ok m := in_int64 (cr_SenderPlayerId m) ∧ utf8 (cr_Content m) ∧
                  in_int64 (cr_Timestamp m) ∧ in_int64 (cr_TargetPlayerId m) |}.
#[export] Instance Envelope_canon : Canonical Envelope :=
  {| canon m := mkEnvelope (ev_ConnId m) (ev_Data m) (canon_tags (ev_ConnTags m));
     wire_ok m := in_uint64 (ev_ConnId m) ∧ tags_ok (ev_ConnTags m) |}.
#[export] Instance ServiceHello_canon : Canonical ServiceHello :=
  {| canon m := m;
     wire_ok m := utf8 (sh_Service m) ∧ Forall in_uint32 (sh_MsgIds m) ∧
                  Forall in_uint32 (sh_SendMsgIds m) |}.
#[export] Instance MatchEnterReq_canon : Canonical MatchEnterReq :=
  {| canon m := m; wire_ok m := utf8 (mq_MatchType m) ∧ in_int64 (mq_Elo m) |}.
#[export] Instance MatchEnterResp_canon : Canonical MatchEnterResp :=
  {| canon m := m; wire_ok m := utf8 (mr_Status m) ∧ in_int64 (mr_QueueSize m) |}.
#[export] Instance MatchResultPush_canon : Canonical MatchResultPush :=
  {| canon m := m;
     wire_ok m := utf8 (mp_MatchId m) ∧ utf8 (mp_ServerId m) ∧
                  Forall in_int64 (mp_Players m) ∧ utf8 (mp_MatchType m) |}.
#[export] Instance MatchAllocateReq_canon : Canonical MatchAllocateReq :=
  {| canon m := m; wire_ok m := utf8 (aq_MatchId m) |}.
#[export] Instance MatchAllocateResp_canon : Canonical MatchAllocateResp :=
  {| canon m := m;
     wire_ok m := utf8 (ar_MatchId m) ∧ utf8 (ar_ServerId m) ∧ utf8 (ar_Error m) |}.
#[export] Instance MatchQueryReq_canon : Canonical MatchQueryReq :=
  {| canon m := m; wire_ok m := utf8 (qq_MatchId m) |}.
#[export] Instance MatchQueryResp_canon : Canonical MatchQueryResp :=
  {| canon m := m; wire_ok m := utf8 (qr_MatchId m) ∧ utf8 (qr_ServerId m) |}.
#[export] Instance RoomJoinReq_canon : Canonical RoomJoinReq :=
  {| canon m := m; wire_ok m := utf8 (jq_MatchId m) |}.
#[export] Instance RoomJoinResp_canon : Canonical RoomJoinResp :=
  {| canon m := m;
     wire_ok m := utf8 (jr_MatchId m) ∧ utf8 (jr_ServerId m) ∧ utf8 (jr_Error m) |}.
#[export] Instance RoomLeaveReq_canon : Canonical RoomLeaveReq :=
  {| canon m := m; wire_ok m := utf8 (lq_MatchId m) |}.
#[export] Instance RoomLeaveResp_canon : Canonical RoomLeaveResp :=
  {| canon m := m; wire_ok m := utf8 (lr_Error m) |}.
#[export] Instance RoomEventPush_canon : Canonical RoomEventPush :=
  {| canon m := m;
     wire_ok m := utf8 (re_MatchId m) ∧ utf8 (re_PlayerId m) ∧ utf8 (re_Event m) ∧
                  in_int64 (re_PlayerCount m) |}.
#[export] Instance RoomDestroyedPush_canon : Canonical RoomDestroyedPush :=
  {| canon m := m; wire_ok m := utf8 (rd_MatchId m) |}.
#[export] Instance SessionData_canon : Canonical SessionData :=
  {| canon m := mkSessionData (sd_PlayerId m) (sd_GatewayId m)
                  (canon_tags (sd_ConnTags m)) (sd_DisconnectedAt m);
     wire_ok m := in_int64 (sd_PlayerId m) ∧ utf8 (sd_GatewayId m) ∧
                  tags_ok (sd_ConnTags m) ∧ in_int64 (sd_DisconnectedAt m) |}.

(** The encodings of all the message types. *)
Class Proto := {
  proto_ChatReq :: Wire ChatReq;
  proto_ChatResp :: Wire ChatResp;
  proto_Envelope :: Wire Envelope;
  proto_ServiceHello :: Wire ServiceHello;
  proto_MatchEnterReq :: Wire MatchEnterReq;
  proto_MatchEnterResp :: Wire MatchEnterResp;
  proto_MatchResultPush :: Wire MatchResultPush;
  proto_MatchAllocateReq :: Wire MatchAllocateReq;
  proto_MatchAllocateResp :: Wire MatchAllocateResp;
  proto_MatchQueryReq :: Wire MatchQueryReq;
  proto_MatchQueryResp :: Wire MatchQueryResp;
  proto_RoomJoinReq :: Wire RoomJoinReq;
  proto_RoomJoinResp :: Wire RoomJoinResp;
  proto_RoomLeaveReq :: Wire RoomLeaveReq;
  proto_RoomLeaveResp :: Wire RoomLeaveResp;
  proto_RoomEventPush :: Wire RoomEventPush;
  proto_RoomDestroyedPush :: Wire RoomDestroyedPush;
  proto_SessionData :: Wire SessionData;
  (** what a failed decoding leaves in the message *)
  partial_RoomJoinReq : bytes → RoomJoinReq;
}.

(** The round trips the cross-component theorems rely on. *)
Class ProtoLaws `{Proto} := {
  laws_ChatReq :: WireLaws ChatReq;
  laws_ChatResp :: WireLaws ChatResp;
  laws_Envelope :: WireLaws Envelope;
  laws_ServiceHello :: WireLaws ServiceHello;
  laws_MatchEnterReq :: WireLaws MatchEnterReq;
  laws_MatchResultPush :: WireLaws MatchResultPush;
  laws_MatchAllocateReq :: WireLaws MatchAllocateReq;
  laws_RoomJoinReq :: WireLaws RoomJoinReq;
  laws_RoomLeaveReq :: WireLaws RoomLeaveReq;
  laws_RoomDestroyedPush :: WireLaws RoomDestroyedPush;
  laws_SessionData :: WireLaws SessionData;
}.

(** * Lemmas *)

Lemma canon_tags_get m k : mget (canon_tags m) k = mget m k.
Proof. destruct m as [g|]; [|done]. simpl. by case_decide as Hg; [rewrite Hg|]. Qed.

Lemma canon_tags_nonempty g : g ≠ ∅ → canon_tags (Some g) = Some g.
Proof. intros. simpl. by case_decide. Qed.

Lemma utf8_digits fuel n acc : 0 ≤ n → utf8 acc → utf8 (fmt_digits fuel n acc).
Proof.
  revert n acc. induction fuel as [|fuel IH]; intros n acc Hn Hacc; [done|].
  pose proof (Z.mod_pos_bound n 10 ltac:(lia)) as Hmod.
  assert (utf8 (String (digit_char (n mod 10)) acc)) as Hs.
  { revert Hmod. generalize (n mod 10). intros d Hd. unfold utf8. cbn [valid_utf8].
    replace (in_range 0 127 (digit_char d)) with true; [done|].
    unfold in_range, digit_char. rewrite N_ascii_embedding by lia. symmetry.
    apply andb_true_intro; split; apply Z.leb_le; lia. }
  cbn [fmt_digits]. destruct (n <? 10); [done|]. apply IH; [apply Z.div_pos; lia|done].
Qed.

Lemma utf8_FormatInt z : utf8 (FormatInt z).
Proof.
  unfold FormatInt. destruct (Z.ltb_spec z 0); [|by apply utf8_digits].
  change (utf8 (FormatUint (- z))). apply utf8_digits; [lia|done].
Qed.

Lemma utf8_FormatUint z : 0 ≤ z → utf8 (FormatUint z).
Proof. intros. by apply utf8_digits. Qed.

#[export] Hint Resolve utf8_FormatInt utf8_FormatUint : cardwar.

Lemma utf8_app s1 s2 : utf8 s1 → utf8 s2 → utf8 (s1 +:+ s2).
Proof.
  unfold utf8. intros H1 H2. remember (String.length s1) as n eqn:Hn.
  assert (String.length s1 ≤ n)%nat as Hle by lia. clear Hn.
  revert s1 H1 Hle. induction n as [|n IH]; intros s1 H1 Hle.
  { destruct s1; [done|simpl in Hle; lia]. }
  destruct s1 as [|a r]; [done|]. simpl in Hle. revert H1.
  change (String a r +:+ s2) with (String a (r +:+ s2)). cbn [valid_utf8].
  destruct (in_range 0 127 a); [intros; apply IH; [done|lia]|].
  destruct r as [|b r1]; [done|]. simpl in Hle. change (String b r1 +:+ s2) with (String b (r1 +:+ s2)).
  destruct (in_range 194 223 a).
  { intros [-> H1]%andb_prop. simpl. apply IH; [done|lia]. }
  destruct r1 as [|c r2]; [done|]. simpl in Hle. change (String c r2 +:+ s2) with (String c (r2 +:+ s2)).
  destruct (in_range 224 239 a).
  { intros [-> H1]%andb_prop. simpl. apply IH; [done|lia]. }
  destruct r2 as [|d r3]; [done|]. simpl in Hle. change (String d r3 +:+ s2) with (String d (r3 +:+ s2)).
  intros [-> H1]%andb_prop. simpl. apply IH; [done|lia].
Qed.

#[export] Hint Resolve utf8_app : cardwar.

Lemma tags_ok_mlit l : Forall (λ '(k, v), utf8 k ∧ utf8 v) l → tags_ok (mlit l).
Proof.
  intros Hl k v Hkv%elem_of_list_to_map_2. rewrite Forall_forall in Hl. apply (Hl _ Hkv).
Qed.
