(* ===== verification/Zinx.v ===== *)
(** * The network library's interface

    [github.com/aceld/zinx] is third-party code: what the servers use of it is
    the class [Zinx] over an opaque runtime state [W], with the documented
    behaviour of properties and of the connection manager as [ZinxLaws].
    Sending, stopping and registering routers are effects a handler emits in
    order; the code never looks at their results. *)

From S2P Require Import Prelude GoLib Proto.
#[local] Open Scope Z_scope.

(** A connection object ([ziface.IConnection]), compared by identity. *)
Abbreviation Conn := N (only parsing).

(** The dynamic values the code stores as connection properties. *)
Inductive Any :=
  | AInt64 (z : Z)
  | AString (s : string).

#[export] Instance Any_eq_dec : EqDecision Any.
Proof. solve_decision. Defined.

(** [fmt.Sprint] and [fmt]'s [%v] on such a value. *)
Definition Sprint (v : Any) : string :=
  match v with AInt64 z => FormatInt z | AString s => s end.

Class Zinx (W : Type) := {
  GetConnID : Conn → Z;
  RemoteAddr : Conn → string;
  GetProperty : W → Conn → string → option Any;
  SetProperty : W → Conn → string → Any → W;
  ConnMgrGet : W → Z → option Conn;
  ConnMgrRange : W → list Conn;
}.

Class ZinxLaws (W : Type) `{Zinx W} := {
  get_set_eq w c k v : GetProperty (SetProperty w c k v) c k = Some v;
  get_set_ne w c k v c' k' :
    (c, k) ≠ (c', k') → GetProperty (SetProperty w c k v) c' k' = GetProperty w c' k';
  mgr_get_set w c k v i : ConnMgrGet (SetProperty w c k v) i = ConnMgrGet w i;
  mgr_range_set w c k v : ConnMgrRange (SetProperty w c k v) = ConnMgrRange w;
  mgr_get_id w i c : ConnMgrGet w i = Some c → GetConnID c = i;
  mgr_range_get w c : c ∈ ConnMgrRange w ↔ ConnMgrGet w (GetConnID c) = Some c;
}.

(** The handlers ([ziface.IRouter]) the code registers. *)
Inductive Router :=
  | PingRouter
  | ServiceIdentityRouter (service : string) (forwardMsgIDs sendMsgIDs : list Z)
  | ServiceHelloRouter
  | ForwardRouter
  | ResponseRouter
  | SessionResponseRouter
  | ChatRouter
  | MatchRouter
  | RoomRouter
  | SessionRouter.

#[export] Instance Router_eq_dec : EqDecision Router.
Proof. solve_decision. Defined.

(** A request handed to a router ([ziface.IRequest]). *)
Record Request := mkRequest { rq_conn : Conn; rq_msgID : Z; rq_data : bytes }.

Inductive Effect :=
  | SendMsg (c : Conn) (msgID : Z) (data : bytes)
  | StopConn (c : Conn)
  | StopClient (client : N)
  | ServerAddRouter (msgID : Z) (r : Router)
  | ClientAddRouter (client : N) (msgID : Z) (r : Router).

#[export] Instance Effect_eq_dec : EqDecision Effect.
Proof. solve_decision. Defined.

(** Setting a list of properties on one connection, in order. *)
Definition SetProperties `{Zinx W} (w : W) (c : Conn) (l : list (string * string)) : W :=
  foldl (λ w '(k, v), SetProperty w c k (AString v)) w l.

(** * Lemmas *)

Section laws.
Context `{ZinxLaws W}.
Implicit Types (w : W) (c : Conn).

Lemma get_set w c k v c' k' :
  GetProperty (SetProperty w c k v) c' k' =
    if decide ((c, k) = (c', k')) then Some v else GetProperty w c' k'.
Proof. case_decide as E; [injection E as -> ->; apply get_set_eq|by apply get_set_ne]. Qed.

Lemma SetProperties_cons w c k v l :
  SetProperties w c ((k, v) :: l) = SetProperties (SetProperty w c k (AString v)) c l.
Proof. done. Qed.

Lemma mgr_get_sets w c l i : ConnMgrGet (SetProperties w c l) i = ConnMgrGet w i.
Proof.
  revert w. induction l as [|[k v] l IH]; intros w; [done|].
  by rewrite SetProperties_cons, IH, mgr_get_set.
Qed.

Lemma mgr_range_sets w c l : ConnMgrRange (SetProperties w c l) = ConnMgrRange w.
Proof.
  revert w. induction l as [|[k v] l IH]; intros w; [done|].
  by rewrite SetProperties_cons, IH, mgr_range_set.
Qed.

Lemma get_sets_other w c l c' k :
  c ≠ c' ∨ k ∉ l.*1 → GetProperty (SetProperties w c l) c' k = GetProperty w c' k.
Proof.
  revert w. induction l as [|[k' v] l IH]; intros w Hne; [done|].
  rewrite SetProperties_cons, IH by set_solver. apply get_set_ne. set_solver.
Qed.

(** With distinct keys, each of them ends up with its own value. *)
Lemma get_sets w c l k v :
  NoDup l.*1 → (k, v) ∈ l → GetProperty (SetProperties w c l) c k = Some (AString v).
Proof.
  revert w. induction l as [|[k' v'] l IH]; intros w Hnd Hin; [set_solver|].
  apply NoDup_cons in Hnd as [Hni Hnd]. rewrite SetProperties_cons.
  apply elem_of_cons in Hin as [[= <- <-]|Hin]; [|by apply IH].
  rewrite get_sets_other by auto. apply get_set_eq.
Qed.
End laws.

#[export] Hint Rewrite @mgr_get_set @mgr_range_set @mgr_get_sets @mgr_range_sets
  using typeclasses eauto : cardwar.
