(* ===== verification/Models.v ===== *)
(** * Concrete instances of the interfaces

    One instance of each class the development is parametrised by, used to
    evaluate the definitions on concrete inputs: an encoding of the messages
    through [Countable], and a network runtime whose properties are a finite
    map. *)

From S2P Require Import Prelude GoLib Proto Zinx.
#[local] Open Scope Z_scope.

(** ** An encoding of countable types as bytes, one bit per byte *)

Fixpoint bits_of (p : positive) : bytes :=
  match p with
  | xH => []
  | xO p => Byte.x00 :: bits_of p
  | xI p => Byte.x01 :: bits_of p
  end.

Fixpoint of_bits (b : bytes) : option positive :=
  match b with
  | [] => Some xH
  | Byte.x00 :: b => xO <$> of_bits b
  | Byte.x01 :: b => xI <$> of_bits b
  | _ => None
  end.

Lemma of_bits_of p : of_bits (bits_of p) = Some p.
Proof. induction p as [p IH|p IH|]; simpl; rewrite ?IH; done. Qed.

Definition count_marshal {A} `{Countable A, Canonical A} (a : A) : bytes :=
  bits_of (encode (canon a)).
Definition count_unmarshal {A} `{Countable A} (b : bytes) : option A :=
  of_bits b ≫= decode.

Lemma count_roundtrip {A} `{Countable A, Canonical A} (a : A) :
  count_unmarshal (count_marshal a) = Some (canon a).
Proof.
  unfold count_unmarshal, count_marshal. rewrite of_bits_of. simpl. apply decode_encode.
Qed.

#[export] Instance ChatReq_eq_dec : EqDecision ChatReq.
Proof. solve_decision. Defined.
#[export] Instance ChatReq_countable : Countable ChatReq.
Proof.
  refine (inj_countable' (λ m, (cq_Content m, cq_TargetPlayerId m))
            (λ '(a, b), mkChatReq a b) _).
  by intros [].
Defined.

#[export] Instance ChatResp_eq_dec : EqDecision ChatResp.
Proof. solve_decision. Defined.
#[export] Instance ChatResp_countable : Countable ChatResp.
Proof.
  refine (inj_countable' (λ m, (cr_SenderPlayerId m, cr_Content m, cr_Timestamp m, cr_TargetPlayerId m))
            (λ '(a, b, c, d), mkChatResp a b c d) _).
  by intros [].
Defined.

#[export] Instance Envelope_eq_dec : EqDecision Envelope.
Proof. solve_decision. Defined.
#[export] Instance Envelope_countable : Countable Envelope.
Proof.
  refine (inj_countable' (λ m, (ev_ConnId m, ev_Data m, ev_ConnTags m))
            (λ '(a, b, c), mkEnvelope a b c) _).
  by intros [].
Defined.

#[export] Instance ServiceHello_eq_dec : EqDecision ServiceHello.
Proof. solve_decision. Defined.
#[export] Instance ServiceHello_countable : Countable ServiceHello.
Proof.
  refine (inj_countable' (λ m, (sh_Service m, sh_MsgIds m, sh_SendMsgIds m))
            (λ '(a, b, c), mkServiceHello a b c) _).
  by intros [].
Defined.

#[export] Instance MatchEnterReq_eq_dec : EqDecision MatchEnterReq.
Proof. solve_decision. Defined.
#[export] Instance MatchEnterReq_countable : Countable MatchEnterReq.
Proof.
  refine (inj_countable' (λ m, (mq_MatchType m, mq_Elo m))
            (λ '(a, b), mkMatchEnterReq a b) _).
  by intros [].
Defined.

#[export] Instance MatchEnterResp_eq_dec : EqDecision MatchEnterResp.
Proof. solve_decision. Defined.
#[export] Instance MatchEnterResp_countable : Countable MatchEnterResp.
Proof.
  refine (inj_countable' (λ m, (mr_Status m, mr_QueueSize m))
            (λ '(a, b), mkMatchEnterResp a b) _).
  by intros [].
Defined.

#[export] Instance MatchResultPush_eq_dec : EqDecision MatchResultPush.
Proof. solve_decision. Defined.
#[export] Instance MatchResultPush_countable : Countable MatchResultPush.
Proof.
  refine (inj_countable' (λ m, (mp_MatchId m, mp_ServerId m, mp_Players m, mp_MatchType m))
            (λ '(a, b, c, d), mkMatchResultPush a b c d) _).
  by intros [].
Defined.

#[export] Instance MatchAllocateReq_eq_dec : EqDecision MatchAllocateReq.
Proof. solve_decision. Defined.
#[export] Instance MatchAllocateReq_countable : Countable MatchAllocateReq.
Proof.
  refine (inj_countable' (λ m, aq_MatchId m)
            (λ a, mkMatchAllocateReq a) _).
  by intros [].
Defined.

#[export] Instance MatchAllocateResp_eq_dec : EqDecision MatchAllocateResp.
Proof. solve_decision. Defined.
#[export] Instance MatchAllocateResp_countable : Countable MatchAllocateResp.
Proof.
  refine (inj_countable' (λ m, (ar_MatchId m, ar_ServerId m, ar_Error m))
            (λ '(a, b, c), mkMatchAllocateResp a b c) _).
  by intros [].
Defined.

#[export] Instance MatchQueryReq_eq_dec : EqDecision MatchQueryReq.
Proof. solve_decision. Defined.
#[export] Instance MatchQueryReq_countable : Countable MatchQueryReq.
Proof.
  refine (inj_countable' (λ m, qq_MatchId m)
            (λ a, mkMatchQueryReq a) _).
  by intros [].
Defined.

#[export] Instance MatchQueryResp_eq_dec : EqDecision MatchQueryResp.
Proof. solve_decision. Defined.
#[export] Instance MatchQueryResp_countable : Countable MatchQueryResp.
Proof.
  refine (inj_countable' (λ m, (qr_MatchId m, qr_ServerId m, qr_Found m))
            (λ '(a, b, c), mkMatchQueryResp a b c) _).
  by intros [].
Defined.

#[export] Instance RoomJoinReq_eq_dec : EqDecision RoomJoinReq.
Proof. solve_decision. Defined.
#[export] Instance RoomJoinReq_countable : Countable RoomJoinReq.
Proof.
  refine (inj_countable' (λ m, jq_MatchId m)
            (λ a, mkRoomJoinReq a) _).
  by intros [].
Defined.

#[export] Instance RoomJoinResp_eq_dec : EqDecision RoomJoinResp.
Proof. solve_decision. Defined.
#[export] Instance RoomJoinResp_countable : Countable RoomJoinResp.
Proof.
  refine (inj_countable' (λ m, (jr_Success m, jr_MatchId m, jr_ServerId m, jr_Error m))
            (λ '(a, b, c, d), mkRoomJoinResp a b c d) _).
  by intros [].
Defined.

#[export] Instance RoomLeaveReq_eq_dec : EqDecision RoomLeaveReq.
Proof. solve_decision. Defined.
#[export] Instance RoomLeaveReq_countable : Countable RoomLeaveReq.
Proof.
  refine (inj_countable' (λ m, lq_MatchId m)
            (λ a, mkRoomLeaveReq a) _).
  by intros [].
Defined.

#[export] Instance RoomLeaveResp_eq_dec : EqDecision RoomLeaveResp.
Proof. solve_decision. Defined.
#[export] Instance RoomLeaveResp_countable : Countable RoomLeaveResp.
Proof.
  refine (inj_countable' (λ m, (lr_Success m, lr_Error m))
            (λ '(a, b), mkRoomLeaveResp a b) _).
  by intros [].
Defined.

#[export] Instance RoomEventPush_eq_dec : EqDecision RoomEventPush.
Proof. solve_decision. Defined.
#[export] Instance RoomEventPush_countable : Countable RoomEventPush.
Proof.
  refine (inj_countable' (λ m, (re_MatchId m, re_PlayerId m, re_Event m, re_PlayerCount m))
            (λ '(a, b, c, d), mkRoomEventPush a b c d) _).
  by intros [].
Defined.

#[export] Instance RoomDestroyedPush_eq_dec : EqDecision RoomDestroyedPush.
Proof. solve_decision. Defined.
#[export] Instance RoomDestroyedPush_countable : Countable RoomDestroyedPush.
Proof.
  refine (inj_countable' (λ m, rd_MatchId m)
            (λ a, mkRoomDestroyedPush a) _).
  by intros [].
Defined.

#[export] Instance SessionData_eq_dec : EqDecision SessionData.
Proof. solve_decision. Defined.
#[export] Instance SessionData_countable : Countable SessionData.
Proof.
  refine (inj_countable' (λ m, (sd_PlayerId m, sd_GatewayId m, sd_ConnTags m, sd_DisconnectedAt m))
            (λ '(a, b, c, d), mkSessionData a b c d) _).
  by intros [].
Defined.

(** Decoding an envelope also accepts the bytes of other message types, as the
    tag-based format does; a single 0xff byte is malformed. *)
Definition envelope_unmarshal (b : bytes) : option Envelope :=
  if decide (b = [Byte.xff]) then None
  else Some (default (mkEnvelope 0 [] None) (count_unmarshal b)).

Lemma bits_of_ff p : bits_of p ≠ [Byte.xff].
Proof. by destruct p. Qed.

#[export] Instance count_proto : Proto := {|
  proto_ChatReq := {| marshal := count_marshal; unmarshal := count_unmarshal |};
  proto_ChatResp := {| marshal := count_marshal; unmarshal := count_unmarshal |};
  proto_Envelope := {| marshal := count_marshal; unmarshal := envelope_unmarshal |};
  proto_ServiceHello := {| marshal := count_marshal; unmarshal := count_unmarshal |};
  proto_MatchEnterReq := {| marshal := count_marshal; unmarshal := count_unmarshal |};
  proto_MatchEnterResp := {| marshal := count_marshal; unmarshal := count_unmarshal |};
  proto_MatchResultPush := {| marshal := count_marshal; unmarshal := count_unmarshal |};
  proto_MatchAllocateReq := {| marshal := count_marshal; unmarshal := count_unmarshal |};
  proto_MatchAllocateResp := {| marshal := count_marshal; unmarshal := count_unmarshal |};
  proto_MatchQueryReq := {| marshal := count_marshal; unmarshal := count_unmarshal |};
  proto_MatchQueryResp := {| marshal := count_marshal; unmarshal := count_unmarshal |};
  proto_RoomJoinReq := {| marshal := count_marshal; unmarshal := count_unmarshal |};
  proto_RoomJoinResp := {| marshal := count_marshal; unmarshal := count_unmarshal |};
  proto_RoomLeaveReq := {| marshal := count_marshal; unmarshal := count_unmarshal |};
  proto_RoomLeaveResp := {| marshal := count_marshal; unmarshal := count_unmarshal |};
  proto_RoomEventPush := {| marshal := count_marshal; unmarshal := count_unmarshal |};
  proto_RoomDestroyedPush := {| marshal := count_marshal; unmarshal := count_unmarshal |};
  proto_SessionData := {| marshal := count_marshal; unmarshal := count_unmarshal |};
  partial_RoomJoinReq _ := mkRoomJoinReq ""
|}.

#[export] Instance count_proto_laws : ProtoLaws.
Proof.
  split; intros m _; try apply count_roundtrip.
  simpl. unfold envelope_unmarshal, count_marshal. case_decide as Hff.
  { by apply bits_of_ff in Hff. }
  unfold count_unmarshal. by rewrite of_bits_of; simpl; rewrite decode_encode.
Qed.

(** ** A network runtime *)

Record World := mkWorld { w_props : gmap (N * string) Any; w_conns : gset N }.

#[export] Instance World_zinx : Zinx World := {|
  GetConnID c := Z.of_N c;
  RemoteAddr c := "10.0.0.1:" +:+ FormatUint (Z.of_N c);
  GetProperty w c k := w_props w !! (c, k);
  SetProperty w c k v := mkWorld (<[(c, k) := v]> (w_props w)) (w_conns w);
  ConnMgrGet w i :=
    if decide (0 ≤ i ∧ Z.to_N i ∈ w_conns w) then Some (Z.to_N i) else None;
  ConnMgrRange w := elements (w_conns w);
|}.

#[export] Instance World_laws : ZinxLaws World.
Proof.
  split; simpl.
  - intros. apply lookup_insert_eq.
  - intros. by apply lookup_insert_ne.
  - done.
  - done.
  - intros w i c. case_decide; [|done]. intros [= <-]. lia.
  - intros w c. rewrite elem_of_elements, N2Z.id. case_decide; naive_solver lia.
Qed.

Definition empty_world : World := mkWorld ∅ ∅.
