(* ===== verification/Conf.v ===== *)
(** * Configuration

    [pkg/conf]: the configuration records, [ParseHostPort], [LookupServer],
    [Load] and the reload step of [Watch].  The YAML decoder is third-party
    code and is a parameter of [Load]. *)

From Stdlib Require Import Ascii.
From S2P Require Import Prelude GoLib Proto.
#[local] Open Scope Z_scope.

Record ServerNode := mkServerNode {
  sn_ID : string; sn_TCPListen : string; sn_WSListen : string;
  sn_Listen : string; sn_PublicAddr : string }.

#[export] Instance ServerNode_eq_dec : EqDecision ServerNode.
Proof. solve_decision. Defined.

Record BackendRoute := mkBackendRoute {
  br_Forward : list Z; br_RouteKey : string; br_RouteType : string }.

#[export] Instance BackendRoute_eq_dec : EqDecision BackendRoute.
Proof. solve_decision. Defined.

Record GatewayConfig := mkGatewayConfig {
  gc_JWTSecret : string; gc_Routes : gmap string BackendRoute }.

Record Config := mkConfig {
  cfg_Services : gmap string (list ServerNode);
  cfg_Gateway : GatewayConfig;
  cfg_GRPC : gmap string Z }.

(** [&Config{}] *)
Definition zero_config : Config := mkConfig ∅ (mkGatewayConfig "" ∅) ∅.

(** [GlobalConfig.Services[service]]: the nil slice for an absent key. *)
Definition services_of (cfg : Config) (service : string) : list ServerNode :=
  default [] (cfg_Services cfg !! service).

(** ** Addresses *)

(** [strings.IndexByte] and [strings.LastIndexByte]. *)
Definition index_byte (c : ascii) (l : list ascii) : option nat :=
  fst <$> list_find (eq c) l.
Definition last_index_byte (c : ascii) (l : list ascii) : option nat :=
  (λ i, length l - 1 - i)%nat <$> index_byte c (reverse l).

Inductive AddrError := MissingPort | TooManyColons | MissingBracket | UnexpectedBracket.

Abbreviation chars := String.list_ascii_of_string (only parsing).
Abbreviation of_chars := String.string_of_list_ascii (only parsing).

(** [net.SplitHostPort] *)
Definition SplitHostPort (hostport : list ascii) :
    (list ascii * list ascii) + AddrError :=
  match last_index_byte ":" hostport with
  | None => inr MissingPort
  | Some i =>
      let finish (host : list ascii) (j k : nat) :=
        if index_byte "[" (drop j hostport) is Some _ then inr UnexpectedBracket
        else if index_byte "]" (drop k hostport) is Some _ then inr UnexpectedBracket
        else inl (host, drop (S i) hostport) in
      if decide (head hostport = Some "["%char) then
        match index_byte "]" hostport with
        | None => inr MissingBracket
        | Some e =>
            if (S e =? length hostport)%nat then inr MissingPort
            else if (S e =? i)%nat then finish (drop 1 (take e hostport)) 1%nat (S e)
            else if decide (hostport !! S e = Some ":"%char) then inr TooManyColons
            else inr MissingPort
        end
      else
        let host := take i hostport in
        if index_byte ":" host is Some _ then inr TooManyColons else finish host 0%nat 0%nat
  end.

Definition ParseHostPort (addr : string) : result (string * Z) :=
  match SplitHostPort (chars addr) with
  | inr _ => Panic ("invalid address: " +:+ addr)
  | inl (host, portStr) =>
      match ParseInt (of_chars portStr) with
      | (port, None) => Ok (of_chars host, port)
      | (_, Some _) => Panic ("invalid port: " +:+ addr)
      end
  end.

(** ** Looking up a server *)

Definition LookupServer (servers : list ServerNode) (id name : string) : result ServerNode :=
  match servers with
  | [] => Panic ("no " +:+ name +:+ " configured")
  | first :: _ =>
      if decide (id = ""%string) then Ok first
      else match list_find (λ s, sn_ID s = id) servers with
           | Some (_, s) => Ok s
           | None => Panic (name +:+ " ID not found in config: " +:+ id)
           end
  end.

(** ** Loading and reloading *)

Inductive LoadError := ReadError | ParseError.

Section load.
(** [yaml.Unmarshal(data, &cfg)] on a zero configuration: the configuration
    it leaves behind and whether it failed. *)
Context (yaml : bytes → Config * bool).

(** [Load]: the new value of [GlobalConfig] and the error.  [file] is the
    result of [os.ReadFile]. *)
Definition Load (file : option bytes) : Config * option LoadError :=
  match file with
  | None => (zero_config, Some ReadError)
  | Some data =>
      let '(cfg, failed) := yaml data in
      (cfg, if failed : bool then Some ParseError else None)
  end.

(** One event of the [Watch] goroutine: the new [GlobalConfig] and the
    configuration passed to the reload callback, if it is called.
    [relevant] is [ev.Op & (Write|Create) != 0]. *)
Definition watch_event (global : Config) (relevant : bool) (file : option bytes) :
    Config * option Config :=
  if negb relevant then (global, None)
  else match Load file with
       | (cfg, Some _) => (cfg, None)
       | (cfg, None) => (cfg, Some cfg)
       end.
End load.

(** * Theorems *)

Lemma ParseHostPort_panics addr why :
  ParseHostPort addr = Panic why →
  why = ("invalid address: " +:+ addr)%string ∨ why = ("invalid port: " +:+ addr)%string.
Proof. unfold ParseHostPort. repeat case_match; naive_solver. Qed.

Lemma index_byte_None c l : index_byte c l = None ↔ c ∉ l.
Proof.
  unfold index_byte. rewrite fmap_None, list_find_None, Forall_forall. naive_solver.
Qed.

Lemma last_index_byte_app c l k :
  c ∉ k → last_index_byte c (l ++ c :: k) = Some (length l).
Proof.
  intros Hk. unfold last_index_byte, index_byte.
  rewrite reverse_app, reverse_cons, <-app_assoc.
  rewrite list_find_app_r.
  2: { apply list_find_None, Forall_forall. intros x Hx Heq. subst x. rewrite elem_of_reverse in Hx. done. }
  simpl. rewrite decide_True by done. simpl. f_equal.
  rewrite length_reverse, length_app. simpl. lia.
Qed.

Lemma chars_digits fuel n acc c :
  c ∈ chars (fmt_digits fuel n acc) → c ∈ chars acc ∨ ∃ d, 0 ≤ d < 10 ∧ c = digit_char d.
Proof.
  revert n acc. induction fuel as [|fuel IH]; intros n acc; [by left|].
  pose proof (Z.mod_pos_bound n 10 ltac:(lia)).
  cbn [fmt_digits]. destruct (n <? 10).
  - intros [->|Hc]%elem_of_cons; eauto.
  - intros [[->|Hc]%elem_of_cons|]%IH; eauto.
Qed.

Lemma digit_not_special d c :
  0 ≤ d < 10 → c ∈ [":"%char; "["%char; "]"%char] → digit_char d ≠ c.
Proof.
  intros Hd Hc Heq. apply (f_equal digit_val) in Heq. rewrite digit_val_char in Heq by done.
  repeat (apply elem_of_cons in Hc as [->|Hc]; [done|]). by apply elem_of_nil in Hc.
Qed.

Lemma FormatUint_not_special n c :
  c ∈ [":"%char; "["%char; "]"%char] → c ∉ chars (FormatUint n).
Proof.
  intros Hc [Hin|(d & Hd & ->)]%chars_digits; [by apply elem_of_nil in Hin|].
  by eapply digit_not_special.
Qed.

Lemma chars_app s1 s2 : chars (s1 +:+ s2) = chars s1 ++ chars s2.
Proof. induction s1; simpl; [done|]. by f_equal. Qed.

(** The address of a listener splits back into its host and its port. *)
Lemma ParseHostPort_join host port :
  (∀ c, c ∈ [":"%char; "["%char; "]"%char] → c ∉ chars host) →
  0 ≤ port ≤ max_int64 →
  ParseHostPort (host +:+ ":" +:+ FormatInt port) = Ok (host, port).
Proof.
  intros Hhost Hport. unfold ParseHostPort, FormatInt.
  destruct (Z.ltb_spec port 0); [lia|].
  rewrite chars_app. change (chars (":" +:+ FormatUint port)) with
    (":"%char :: chars (FormatUint port)).
  assert (SplitHostPort (chars host ++ ":"%char :: chars (FormatUint port)) =
          inl (chars host, chars (FormatUint port))) as ->.
  { assert (∀ c, c ∈ ["["%char; "]"%char] →
      index_byte c (chars host ++ ":"%char :: chars (FormatUint port)) = None) as Hno.
    { intros c Hc. apply index_byte_None. rewrite not_elem_of_app, not_elem_of_cons.
      pose proof (FormatUint_not_special port c). pose proof (Hhost c).
      assert (c ≠ ":"%char) by (intros ->; set_solver). set_solver. }
    unfold SplitHostPort. rewrite last_index_byte_app by (apply FormatUint_not_special; set_solver).
    rewrite decide_False.
    2: { intros Hh. specialize (Hno "["%char ltac:(set_solver)).
         apply index_byte_None in Hno. apply Hno.
         destruct (chars host ++ _); simplify_eq/=. set_solver. }
    rewrite take_app_length.
    rewrite (proj2 (index_byte_None ":" (chars host))) by (apply Hhost; set_solver).
    rewrite !drop_0, !Hno by set_solver.
    replace (S (length (chars host))) with (length (chars host) + 1)%nat by lia.
    by rewrite <-drop_drop, drop_app_length. }
  simpl. rewrite !String.string_of_list_ascii_of_string.
  pose proof (ParseInt_FormatInt port) as Hp. unfold FormatInt in Hp.
  destruct (Z.ltb_spec port 0); [lia|]. rewrite Hp by (unfold_ints; lia). done.
Qed.

Lemma LookupServer_Ok servers id name s :
  LookupServer servers id name = Ok s → s ∈ servers ∧ (id ≠ ""%string → sn_ID s = id).
Proof.
  unfold LookupServer. destruct servers as [|first rest]; [done|].
  case_decide; [intros [= <-]; set_solver|].
  destruct (list_find _ _) as [[i s']|] eqn:Hf; intros [= <-].
  apply list_find_Some in Hf as (Hl & HP & _). split; [by eapply list_elem_of_lookup_2|done].
Qed.
