(* ===== verification/OS.v ===== *)
(** * Programs that talk to the operating system

    The command-line tools as trees of calls: a program returns, halts the
    process, or makes a call and continues with the answer.  Nothing is assumed
    of the answers, so a statement about every run holds whatever the file
    system, the processes and the network do.  The trees are finite: a program
    of this type makes finitely many calls on every run. *)

From Stdlib Require Import Ascii.
From S2P Require Import Prelude GoLib GoStrings Conf.
#[local] Open Scope Z_scope.

(** ** Calls and answers *)

Inductive StatResult := StatOk | StatNotExist | StatError.

(** An instance whose port somebody listens on ([runInfo] of [showStatus]). *)
Record runInfo := mkRunInfo { ri_svc : string; ri_id : string; ri_port : Z }.

Inductive Call :=
  | ReadDir (path : string)
  | Stat (path : string)
  | MkdirAll (path : string)
  | OpenLog (path : string)
  | ReadFile (path : string)
  | WriteFile (path data : string)
  | Netstat
  | RunCmd (env argv : list string)
  | StartCmd (log : string) (argv : list string)
  | FindProcess (pid : Z)
  | KillProc (pid : Z)
  | Sleep (ns : Z)
  | Now
  | HttpPost (url body : string)
  | Stdout (s : string)
  | RangeServices (m : gmap string (list ServerNode))
  | RangePorts (m : gmap string Z)
  | RangePids (m : gmap Z runInfo).

(** The answers.  Where the code ignores an error the answer has none: the
    entries of a directory that cannot be read are none.  [Netstat] gives the
    output and whether the command failed, [RunCmd] whether it succeeded,
    [StartCmd] the process id, [FindProcess] whether there is such a process (on
    Unix it always succeeds).  A map is visited in some order. *)
Definition Ans (c : Call) : Type :=
  match c with
  | ReadDir _ => list (string * bool)
  | Stat _ => StatResult
  | ReadFile _ => option string
  | Netstat => string * bool
  | RunCmd _ _ | FindProcess _ => bool
  | StartCmd _ _ => option Z
  | Now => Z
  | HttpPost _ _ => option string
  | RangeServices m => {l | l ≡ₚ map_to_list m}
  | RangePorts m => {l | l ≡ₚ map_to_list m}
  | RangePids m => {l | l ≡ₚ map_to_list m}
  | MkdirAll _ | OpenLog _ | WriteFile _ _ | KillProc _ | Sleep _ | Stdout _ => unit
  end.

(** [os.Exit(code)], or a panic. *)
Inductive halt := Exit (code : Z) | Panics (why : string).

Inductive prog (A : Type) : Type :=
  | Return (a : A)
  | Halt (h : halt)
  | Do (c : Call) (k : Ans c → prog A).
Arguments Return {A} a.
Arguments Halt {A} h.
Arguments Do {A} c k.

Fixpoint prog_bind {A B} (f : A → prog B) (p : prog A) : prog B :=
  match p with
  | Return a => f a
  | Halt h => Halt h
  | Do c k => Do c (λ r, prog_bind f (k r))
  end.

#[export] Instance prog_ret : MRet prog := @Return.
#[export] Instance prog_mbind : MBind prog := @prog_bind.

Definition call (c : Call) : prog (Ans c) := Do c Return.
Definition exit {A} (code : Z) : prog A := Halt (Exit code).

(** A computation that can panic. *)
Definition of_result {A} (r : result A) : prog A :=
  match r with Ok a => Return a | Panic why => Halt (Panics why) end.

Fixpoint for_each {A} (l : list A) (f : A → prog unit) : prog unit :=
  match l with
  | [] => mret tt
  | x :: l => f x;; for_each l f
  end.

(** [fmt.Println] and [fmt.Printf] *)
Definition Println (s : string) : prog unit := call (Stdout (s +:+ String "010"%char "")).

(** ** Runs *)

(** A call with the answer it got. *)
Definition event : Type := {c : Call & Ans c}.

(** In every run of [p] that starts after the events [tr], the outcome and all
    the events satisfy [Q]. *)
Fixpoint wp {A} (p : prog A) (tr : list event) (Q : A + halt → list event → Prop) : Prop :=
  match p with
  | Return a => Q (inl a) tr
  | Halt h => Q (inr h) tr
  | Do c k => ∀ r, wp (k r) (tr ++ [existT c r]) Q
  end.

Definition every_run {A} (p : prog A) (Q : A + halt → list event → Prop) : Prop := wp p [] Q.

(** One run, against an operating system with state [W]. *)
Fixpoint run {W A} (os : W → ∀ c, Ans c * W) (p : prog A) (w : W) (tr : list event) :
    (A + halt) * list event * W :=
  match p with
  | Return a => (inl a, tr, w)
  | Halt h => (inr h, tr, w)
  | Do c k => let '(r, w) := os w c in run os (k r) w (tr ++ [existT c r])
  end.

(** ** What happened *)

Definition started_by (e : event) : option Z :=
  let 'existT c r := e in
  match c return Ans c → option Z with StartCmd _ _ => λ r, r | _ => λ _, None end r.
Definition killed_by (e : event) : option Z :=
  match projT1 e with KillProc pid => Some pid | _ => None end.
Definition slept_by (e : event) : option Z :=
  match projT1 e with Sleep ns => Some ns | _ => None end.
Definition listed_by (e : event) : option string :=
  let 'existT c r := e in
  match c return Ans c → option string with Netstat => λ r, Some r.1 | _ => λ _, None end r.
Definition ran_by (e : event) : option (list string) :=
  match projT1 e with RunCmd _ argv => Some argv | _ => None end.

(** The processes started and killed, the delays, the outputs of [netstat] and
    the commands run, in order. *)
Definition started (tr : list event) : list Z := omap started_by tr.
Definition killed (tr : list event) : list Z := omap killed_by tr.
Definition slept (tr : list event) : list Z := omap slept_by tr.
Definition listed (tr : list event) : list string := omap listed_by tr.
Definition ran (tr : list event) : list (list string) := omap ran_by tr.

(** * Lemmas *)

Section logic.
Context {A : Type}.
Implicit Types (p : prog A) (tr : list event) (Q : A + halt → list event → Prop).

Lemma wp_mono p tr Q Q' : (∀ o tr', Q o tr' → Q' o tr') → wp p tr Q → wp p tr Q'.
Proof.
  intros HQ. revert tr. induction p as [a|h|c k IH]; intros tr; simpl; [by apply HQ..|].
  intros Hk r. by apply IH.
Qed.

Lemma wp_bind {B} (p : prog B) (f : B → prog A) tr Q :
  wp (p ≫= f) tr Q ↔
  wp p tr (λ o tr', match o with inl b => wp (f b) tr' Q | inr h => Q (inr h) tr' end).
Proof.
  unfold mbind, prog_mbind. revert tr.
  induction p as [b|h|c k IH]; intros tr; simpl; [done..|].
  split; intros Hk r; by apply IH.
Qed.

Lemma wp_call (c : Call) (f : Ans c → prog A) tr Q :
  (∀ r, wp (f r) (tr ++ [existT c r]) Q) → wp (call c ≫= f) tr Q.
Proof. done. Qed.

(** A run of a program is one of its runs. *)
Lemma run_wp {W} (os : W → ∀ c, Ans c * W) p w tr Q :
  wp p tr Q → Q (run os p w tr).1.1 (run os p w tr).1.2.
Proof.
  revert w tr. induction p as [a|h|c k IH]; intros w tr; simpl; [done..|].
  intros Hk. destruct (os w c) as [r w']. by apply IH.
Qed.

Lemma wp_of_result (r : result A) tr Q :
  (∀ a, r = Ok a → Q (inl a) tr) → (∀ why, r = Panic why → Q (inr (Panics why)) tr) →
  wp (of_result r) tr Q.
Proof. intros HO HP. destruct r; simpl; auto. Qed.
End logic.

(** A loop keeps an invariant that its body keeps; [I] may depend on the number
    of iterations done. *)
Lemma wp_for_each {B} (l : list B) (f : B → prog unit) tr (I : nat → list event → Prop)
    (E : halt → list event → Prop) :
  I 0%nat tr →
  (∀ i x tr', l !! i = Some x → I i tr' →
     wp (f x) tr' (λ o tr'', match o with inl _ => I (S i) tr'' | inr h => E h tr'' end)) →
  wp (for_each l f) tr (λ o tr', match o with inl _ => I (length l) tr' | inr h => E h tr' end).
Proof.
  revert tr I. induction l as [|x l IH]; intros tr I HI Hf; [done|].
  cbn [for_each]. apply wp_bind. eapply wp_mono; [|by apply (Hf 0%nat)].
  intros [[]|h] tr' HI'; [|done]. apply (IH tr' (λ i, I (S i))); [done|].
  intros i y tr'' Hy. by apply (Hf (S i)).
Qed.

Lemma started_app tr tr' : started (tr ++ tr') = started tr ++ started tr'.
Proof. apply omap_app. Qed.
Lemma killed_app tr tr' : killed (tr ++ tr') = killed tr ++ killed tr'.
Proof. apply omap_app. Qed.
Lemma slept_app tr tr' : slept (tr ++ tr') = slept tr ++ slept tr'.
Proof. apply omap_app. Qed.
Lemma listed_app tr tr' : listed (tr ++ tr') = listed tr ++ listed tr'.
Proof. apply omap_app. Qed.
Lemma ran_app tr tr' : ran (tr ++ tr') = ran tr ++ ran tr'.
Proof. apply omap_app. Qed.

#[export] Hint Rewrite started_app killed_app slept_app listed_app ran_app : os_trace.

(** What the last event adds. *)
Ltac trace := autorewrite with os_trace; simpl; rewrite ?app_nil_r.

(** ** Programs that only make some calls *)

Fixpoint only {A} (P : Call → Prop) (E : halt → Prop) (p : prog A) : Prop :=
  match p with
  | Return _ => True
  | Halt h => E h
  | Do c k => P c ∧ ∀ r, only P E (k r)
  end.

(** Every value [p] can return satisfies [R]. *)
Fixpoint returns {A} (R : A → Prop) (p : prog A) : Prop :=
  match p with
  | Return a => R a
  | Halt _ => True
  | Do c k => ∀ r, returns R (k r)
  end.

Lemma only_bind {A B} P E (p : prog A) (f : A → prog B) :
  only P E p → (∀ a, only P E (f a)) → only P E (p ≫= f).
Proof.
  intros Hp Hf. unfold mbind, prog_mbind. induction p as [a|h|c k IH]; simpl in *; [done..|].
  destruct Hp as [Hc Hk]. split; [done|]. intros r. by apply IH.
Qed.

Lemma only_call (P : Call → Prop) E c : P c → only P E (call c).
Proof. done. Qed.

Lemma only_for_each {A} P E (l : list A) (f : A → prog unit) :
  (∀ x, only P E (f x)) → only P E (for_each l f).
Proof. intros Hf. induction l; [done|]. by apply only_bind. Qed.

Create HintDb os.
#[export] Hint Resolve only_bind only_call only_for_each : os.

(** The calls that neither start nor stop a process, wait, nor read the network
    table. *)
Definition quiet (c : Call) : Prop :=
  match c with
  | Netstat | StartCmd _ _ | KillProc _ | Sleep _ => False
  | _ => True
  end.

(** What the quiet calls leave as it was. *)
Definition same_effects (tr tr' : list event) : Prop :=
  started tr' = started tr ∧ killed tr' = killed tr ∧
  slept tr' = slept tr ∧ listed tr' = listed tr.

Lemma wp_quiet {A} E R (p : prog A) tr :
  only quiet E p → returns R p →
  wp p tr (λ o tr', same_effects tr tr' ∧ match o with inl a => R a | inr h => E h end).
Proof.
  revert tr. induction p as [a|h|c k IH]; intros tr Hp HR; simpl in *; [done..|].
  destruct Hp as [Hc Hk]. intros r. eapply wp_mono; [|by apply IH].
  intros o tr' [(H1 & H2 & H3 & H4) Ho]. split; [|done].
  rewrite started_app in H1. rewrite killed_app in H2.
  rewrite slept_app in H3. rewrite listed_app in H4.
  destruct c; simpl in Hc; try done; simpl in *; rewrite ?app_nil_r in *; done.
Qed.

Lemma returns_any {A} (p : prog A) : returns (λ _, True) p.
Proof. by induction p. Qed.

(** A quiet program first: the rest runs after the same effects. *)
Lemma wp_quiet_bind {A B} E R (p : prog A) (f : A → prog B) tr Q :
  only quiet E p → returns R p →
  (∀ tr' h, same_effects tr tr' → E h → Q (inr h) tr') →
  (∀ tr' a, same_effects tr tr' → R a → wp (f a) tr' Q) →
  wp (p ≫= f) tr Q.
Proof.
  intros Hp HR HE HQ. apply wp_bind. eapply wp_mono; [|by eapply wp_quiet].
  intros [a|h] tr' [Heff Ho]; auto.
Qed.
#[export] Hint Resolve returns_any : os.

(** ** Runs with the answers of a given environment *)

(** In every run whose events satisfy [good], [Q] holds. *)
Definition given {A} (good : event → Prop) (p : prog A) (tr : list event)
    (Q : A + halt → list event → Prop) : Prop :=
  wp p tr (λ o tr', Forall good tr' → Q o tr').

Section given.
Context (good : event → Prop).

Lemma wp_extends {A} (p : prog A) tr : wp p tr (λ _ tr', tr `prefix_of` tr').
Proof.
  revert tr. induction p as [a|h|c k IH]; intros tr; simpl; [done..|].
  intros r. eapply wp_mono; [|apply IH]. intros o tr' H1. etrans; [|exact H1]. by exists [existT c r].
Qed.

Lemma wp_and {A} (p : prog A) tr Q Q' :
  wp p tr Q → wp p tr Q' → wp p tr (λ o tr', Q o tr' ∧ Q' o tr').
Proof. revert tr. induction p; intros tr; simpl; auto. Qed.

Lemma wp_impl {A} (P : Prop) (p : prog A) tr Q :
  (P → wp p tr Q) → wp p tr (λ o tr', P → Q o tr').
Proof. revert tr. induction p; intros tr H0; simpl in *; auto. Qed.

(** A call gets one of the good answers. *)
Lemma given_call {A} c (k : Ans c → prog A) tr Q :
  (∀ r, good (existT c r) → given good (k r) (tr ++ [existT c r]) Q) →
  given good (call c ≫= k) tr Q.
Proof.
  intros Hk r. specialize (Hk r). apply wp_impl in Hk.
  eapply wp_mono; [|apply (wp_and _ _ _ _ Hk (wp_extends _ _))].
  intros o tr' [HQ [ext ->]] Hgood. apply HQ; [|done].
  rewrite !Forall_app in Hgood. destruct Hgood as [[_ Hr] _]. exact (Forall_inv Hr).
Qed.

Lemma given_mono {A} (p : prog A) tr Q Q' :
  (∀ o tr', Q o tr' → Q' o tr') → given good p tr Q → given good p tr Q'.
Proof. intros HQ. apply wp_mono. auto. Qed.

Lemma given_bind {A B} (p : prog A) (f : A → prog B) tr Q :
  given good p tr (λ o tr', match o with inl a => given good (f a) tr' Q | inr h => Q (inr h) tr' end) →
  given good (p ≫= f) tr Q.
Proof.
  intros Hp. apply wp_bind. eapply wp_mono; [|exact Hp]. intros [a|h] tr' H1; [|done].
  (* the events up to here are good if all of them are *)
  apply wp_impl in H1.
  eapply wp_mono; [|apply (wp_and _ _ _ _ H1 (wp_extends _ _))].
  intros o tr'' [HQ [ext ->]] Hgood. apply HQ; [|done]. by apply Forall_app in Hgood as [? _].
Qed.
End given.
