(* ===== verification/Broadcast.v ===== *)
(** * Common routers and the broadcaster

    [pkg/corouter] (ping, service identity), [pkg/server] (the routers every
    backend registers) and [pkg/broadcast.go]. *)

From S2P Require Import Prelude GoLib Proto Zinx.
#[local] Open Scope Z_scope.

Section common.
Context `{Proto}.

(** ** [corouter.PingRouter] *)
Definition ping_Handle (request : Request) : list Effect :=
  [SendMsg (rq_conn request) MsgIdPong (to_bytes "pong-server")].

(** ** [corouter.ServiceIdentityRouter]: record the caller's identity and
    announce the message ids of this backend. *)
Definition identity_Handle `{Zinx W} (service : string) (forwardMsgIDs sendMsgIDs : list Z)
    (w : W) (request : Request) : W * list Effect :=
  let identity := of_bytes (rq_data request) in
  let w := SetProperty w (rq_conn request) PropConnType (AString identity) in
  if (length forwardMsgIDs =? 0)%nat && (length sendMsgIDs =? 0)%nat then (w, [])
  else
    let hello := marshal (mkServiceHello service forwardMsgIDs sendMsgIDs) in
    (w, [SendMsg (rq_conn request) MsgIdServiceHello hello]).

(** ** [server.New]: the routers a backend starts with *)
Definition server_New (service : string) (forwardMsgIDs sendMsgIDs : list Z) :
    list (Z * Router) :=
  [(MsgIdPing, PingRouter);
   (MsgIdServiceIdentity, ServiceIdentityRouter service forwardMsgIDs sendMsgIDs)].

(** ** The broadcaster *)
Section broadcaster.
Context `{Zinx W}.

(** The connections that identified themselves as gateways, in the order
    the connection manager visits them. *)
Definition is_gateway (w : W) (c : Conn) : Prop :=
  GetProperty w c PropConnType = Some (AString SvcGateway).
#[export] Instance is_gateway_dec w c : Decision (is_gateway w c).
Proof. unfold is_gateway. apply _. Defined.

Definition sendToAll (w : W) (msgID : Z) (data : bytes) : list Effect :=
  (λ c, SendMsg c msgID data) <$> filter (is_gateway w) (ConnMgrRange w).

Definition ToAll (w : W) (msgID : Z) (payload : bytes) : list Effect :=
  sendToAll w msgID (marshal (mkEnvelope 0 payload None)).

Definition ToPlayer (w : W) (msgID targetPlayerID : Z) (payload : bytes) : list Effect :=
  sendToAll w msgID
    (marshal (mkEnvelope 0 payload
                (mlit [(TagTargetPlayerID, FormatInt targetPlayerID)]))).
End broadcaster.

Definition ToConn (msgID connID : Z) (payload : bytes) (gatewayConn : Conn) : list Effect :=
  [SendMsg gatewayConn msgID (marshal (mkEnvelope connID payload None))].
End common.

(** ** Theorems *)

Section theorems.
Context `{Proto, ZinxLaws W}.
Implicit Types (w : W).

Lemma elem_of_sendToAll w msgID data e :
  e ∈ sendToAll w msgID data ↔
    ∃ c, c ∈ ConnMgrRange w ∧ is_gateway w c ∧ e = SendMsg c msgID data.
Proof.
  unfold sendToAll. rewrite list_elem_of_fmap.
  setoid_rewrite list_elem_of_filter. naive_solver.
Qed.
End theorems.
