(* ===== verification/Pool.v ===== *)
(** * Backend connection pools

    [pkg/pool.go]: the routing strategies, the pool and its operations.  A
    callback of the network library is a definition of its own, applied when
    the library calls it; waiting for a connection or for a timer is an
    argument that says how the wait ended.  The reconnect loop is the state
    machine of the file Reconnect. *)

From S2P Require Import Prelude GoLib Proto Zinx Conf Models.
#[local] Open Scope Z_scope.

(** ** Routing strategies *)

(** A [RouteFunc]: the runtime (for connection properties), the draw that
    [rand.Intn] makes if it is called, the key and the healthy connections. *)
Definition RouteFunc (W : Type) : Type := W → nat → string → list Conn → option Conn.

Section routes.
Context `{Zinx W}.

Definition DirectRoute : RouteFunc W := λ w _ key healthy,
  snd <$> list_find (λ c, Sprint <$> GetProperty w c PropServerID = Some key) healthy.

Definition HashRoute : RouteFunc W := λ _ _ key healthy,
  match healthy with
  | [] => None
  | _ => healthy !! Z.to_nat (fnv32a (to_bytes key) mod Z.of_nat (length healthy))
  end.

(** [rand.Intn(n)] with draw [r]. *)
Definition Intn (r n : nat) : nat := (r mod n)%nat.

Definition RandomRoute : RouteFunc W := λ _ r _ healthy,
  match healthy with
  | [] => None
  | _ => healthy !! Intn r (length healthy)
  end.

Definition RouteFuncFor (routeType : string) : RouteFunc W :=
  if decide (routeType = "random"%string) then RandomRoute
  else if decide (routeType = "direct"%string) then DirectRoute
  else HashRoute.
End routes.

(** ** Pool entries *)

(** [time.Duration] in nanoseconds. *)
Definition second : Z := 1000000000.
Definition dialTimeout : Z := 3 * second.
Definition reconnectTimeout : Z := 5 * second.
Definition reconnectMaxBackoff : Z := 5 * second.
Definition reconnectInitBackoff : Z := 200 * 1000000.

Record connEntry := mkEntry {
  ce_addr : string;
  ce_routers : list (Z * Router);
  ce_identity : string;
  ce_client : option N;
  ce_conn : option Conn;
  ce_healthy : bool;
  ce_stopped : bool;
  ce_backoff : Z;
  ce_reconnecting : bool;
  ce_failLogged : bool }.

#[export] Instance connEntry_eq_dec : EqDecision connEntry.
Proof. solve_decision. Defined.

(** A fresh entry for a server that is not connected yet. *)
Definition new_entry (addr : string) (routers : list (Z * Router)) (identity : string)
    (backoff : Z) : connEntry :=
  mkEntry addr routers identity None None false false backoff false false.

(** [e.conn = conn; e.client = client; e.healthy = true] *)
Definition entry_up (conn : Conn) (client : N) (e : connEntry) : connEntry :=
  mkEntry (ce_addr e) (ce_routers e) (ce_identity e) (Some client) (Some conn) true
    (ce_stopped e) (ce_backoff e) (ce_reconnecting e) (ce_failLogged e).

(** [e.stopped = true] *)
Definition entry_stop (e : connEntry) : connEntry :=
  mkEntry (ce_addr e) (ce_routers e) (ce_identity e) (ce_client e) (ce_conn e)
    (ce_healthy e) true (ce_backoff e) (ce_reconnecting e) (ce_failLogged e).

(** [e.routers = append(e.routers, ...)] *)
Definition entry_add_router (msgID : Z) (r : Router) (e : connEntry) : connEntry :=
  mkEntry (ce_addr e) (ce_routers e ++ [(msgID, r)]) (ce_identity e) (ce_client e)
    (ce_conn e) (ce_healthy e) (ce_stopped e) (ce_backoff e) (ce_reconnecting e)
    (ce_failLogged e).

(** The locked part of [OnDisconnect]: the new entry, and whether a reconnect
    loop is started. *)
Definition entry_down (e : connEntry) : connEntry * bool :=
  let spawn := negb (ce_reconnecting e || ce_stopped e) in
  (mkEntry (ce_addr e) (ce_routers e) (ce_identity e) (ce_client e) None false
     (ce_stopped e) (ce_backoff e) (ce_reconnecting e || spawn) (ce_failLogged e), spawn).

(** The announcement every connect callback sends first. *)
Definition send_identity (identity : string) (conn : Conn) : list Effect :=
  if decide (identity = ""%string) then []
  else [SendMsg conn MsgIdServiceIdentity (to_bytes identity)].

(** [client.AddRouter(rc.MsgID, rc.Router)] for each router in turn. *)
Definition add_routers (client : N) (routers : list (Z * Router)) : list Effect :=
  (λ rc, ClientAddRouter client rc.1 rc.2) <$> routers.

(** ** The pool *)

Record Pool (W : Type) := mkPool { p_conns : list connEntry; p_routeFn : RouteFunc W }.
Arguments mkPool {W}.
Arguments p_conns {W}.
Arguments p_routeFn {W}.

(** How a wait for a connection ends: with the connection, or with the timeout. *)
Abbreviation Dialed := (option Conn) (only parsing).

Section pool.
Context `{Zinx W}.
Implicit Types (p : Pool W) (w : W).

Definition set_conns p (l : list connEntry) : Pool W := mkPool l (p_routeFn p).
Definition set_routeFn p (f : RouteFunc W) : Pool W := mkPool (p_conns p) f.

Definition NewPool (conns : list (option Conn)) (servers : list ServerNode)
    (routers : list (Z * Router)) (routeFn : RouteFunc W) : result (Pool W) :=
  if (length servers <? length conns)%nat then Panic "index out of range"
  else Ok (mkPool (zip_with (λ conn srv,
             mkEntry (sn_Listen srv) routers "" None conn (bool_decide (is_Some conn))
               false reconnectInitBackoff false false) conns servers) routeFn).

Definition HealthyConns p : list Conn :=
  omap (λ e, if ce_healthy e && negb (ce_stopped e) then ce_conn e else None) (p_conns p).

Definition Route p w (draw : nat) (key : string) : option Conn :=
  p_routeFn p w draw key (HealthyConns p).

Definition OnDisconnect p (idx : nat) : result (Pool W * bool) :=
  match p_conns p !! idx with
  | None => Panic "index out of range"
  | Some e =>
      let '(e', spawn) := entry_down e in
      Ok (set_conns p (<[idx := e']> (p_conns p)), spawn)
  end.

(** *** [Dial] *)

(** What happens to the new pool while [Dial] waits: the callbacks of its clients,
    and how the wait ends.  Messages of the servers are handled meanwhile too, but
    nobody has the pool yet, so they cannot change it: what they do to the rest of
    a gateway is in [gw_Dial] of the file Gateway.  [dw_clients] are the clients
    it creates, by index. *)
Inductive DialEvent := ConnStarts (idx : nat) (conn : Conn) | ConnStops (idx : nat).

Record DialWorld := mkDialWorld {
  dw_clients : nat → N; dw_events : list DialEvent; dw_timeout : bool }.

(** The loop over the servers: one entry and one client for each. *)
Definition Dial_start (servers : list ServerNode) (routers : list (Z * Router))
    (routeFn : RouteFunc W) (identity : string) (clients : nat → N) :
    result (Pool W * list Effect) :=
  foldr (λ srv r, ParseHostPort (sn_Listen srv) ≫= λ _, r)
    (Ok (mkPool ((λ srv, new_entry (sn_Listen srv) routers identity second) <$> servers) routeFn,
         concat (imap (λ i _, add_routers (clients i) routers) servers))) servers.

(** The connect callback of the client of entry [idx]. *)
Definition Dial_OnConnStart p w (idx : nat) (srv : ServerNode) (identity : string)
    (conn : Conn) (client : N) : Pool W * W * list Effect :=
  (set_conns p (alter (entry_up conn client) idx (p_conns p)),
   SetProperty w conn PropServerID (AString (sn_ID srv)),
   send_identity identity conn).

(** [!e.healthy && !e.stopped && !e.reconnecting] *)
Definition never_connected (e : connEntry) : bool :=
  negb (ce_healthy e) && negb (ce_stopped e) && negb (ce_reconnecting e).

(** The timeout branch: start a reconnect loop for each entry that never
    connected.  The second component lists the loops that start. *)
Definition Dial_timeout p : Pool W * list nat :=
  (set_conns p ((λ e, if never_connected e then (entry_down e).1 else e) <$> p_conns p),
   fst <$> filter (λ ie : nat * connEntry, never_connected ie.2 = true)
                  (imap pair (p_conns p))).

(** One callback while [Dial] waits.  [spawned] collects the entries whose
    reconnect loop has been started. *)
Definition Dial_event (servers : list ServerNode) (identity : string) (clients : nat → N)
    (acc : Pool W * W * list Effect * list nat) (ev : DialEvent) :
    Pool W * W * list Effect * list nat :=
  let '(p, w, es, spawned) := acc in
  match ev with
  | ConnStarts idx conn =>
      match servers !! idx with
      | None => acc
      | Some srv =>
          let '(p, w, es') := Dial_OnConnStart p w idx srv identity conn (clients idx) in
          (p, w, es ++ es', spawned)
      end
  | ConnStops idx =>
      match OnDisconnect p idx with
      | Panic _ => acc
      | Ok (p, spawn) => (p, w, es, if spawn : bool then spawned ++ [idx] else spawned)
      end
  end.

(** [Dial]: the pool, the effects, and the reconnect loops it started. *)
Definition Dial (cfg : Config) w (service : string) (routers : list (Z * Router))
    (routeFn : RouteFunc W) (identity : string) (dw : DialWorld) :
    result (Pool W * W * list Effect * list nat) :=
  match services_of cfg service with
  | [] => Panic ("no " +:+ service +:+ " configured")
  | servers =>
      Dial_start servers routers routeFn identity (dw_clients dw) ≫= λ '(p, es),
      let '(p, w, es, spawned) :=
        foldl (Dial_event servers identity (dw_clients dw)) (p, w, es, []) (dw_events dw) in
      if dw_timeout dw then
        let '(p, spawned') := Dial_timeout p in Ok (p, w, es, spawned ++ spawned')
      else Ok (p, w, es, spawned)
  end.

(** *** Routers added while running *)

(** What zinx says when [AddRouter] is given an id that has a router. *)
Definition repeated_api (msgID : Z) : string := "repeated api , msgID = " +:+ FormatInt msgID.

(** The first entry with the connection and a client.  The client has exactly
    the routers of its entry ([Dial], [AddServer] and the reconnect loop register
    [e.routers], and this function adds to both), so [e.client.AddRouter] panics
    when the id is among them: before the entry is changed, and before [e.mu] is
    unlocked. *)
Definition AddConnectionRouter p (conn : Conn) (msgID : Z) (r : Router) :
    result (Pool W * list Effect) :=
  match list_find (λ e, ce_conn e = Some conn ∧ is_Some (ce_client e)) (p_conns p) with
  | Some (i, e) =>
      if decide (msgID ∈ (ce_routers e).*1) then Panic (repeated_api msgID)
      else
        Ok (set_conns p (<[i := entry_add_router msgID r e]> (p_conns p)),
            match ce_client e with
            | Some client => [ClientAddRouter client msgID r]
            | None => []
            end)
  | None => Ok (p, [])
  end.

(** *** Servers added and removed while running *)

Definition AddServer p w (srv : ServerNode) (routers : list (Z * Router))
    (routeFn : RouteFunc W) (identity : string) (outcome : Dialed) (client : N) :
    result (Pool W * W * list Effect) :=
  let entry := new_entry (sn_Listen srv) routers identity reconnectInitBackoff in
  ParseHostPort (sn_Listen srv) ≫= λ _,
  match outcome with
  | Some conn =>
      Ok (mkPool (p_conns p ++ [entry_up conn client entry]) routeFn,
          SetProperty w conn PropServerID (AString (sn_ID srv)),
          add_routers client routers ++ send_identity identity conn)
  | None =>
      Ok (mkPool (p_conns p ++ [entry_stop entry]) routeFn, w,
          add_routers client routers ++ [StopClient client])
  end.

Definition RemoveServer p (addr : string) : Pool W * list Effect :=
  match list_find (λ e, ce_addr e = addr ∧ ce_stopped e = false) (p_conns p) with
  | None => (p, [])
  | Some (i, e) =>
      (set_conns p (<[i := entry_stop e]> (p_conns p)),
       match ce_conn e with Some c => [StopConn c] | None => [] end)
  end.

Definition ServerAddrs p : list string :=
  ce_addr <$> filter (λ e, ce_stopped e = false) (p_conns p).

(** The additions of [Sync], in the order [todo] of the map iteration.
    [dialed] gives the outcome of each dial and the client it created. *)
Fixpoint sync_add p w (current : gset string) (todo : list (string * ServerNode))
    (routers : list (Z * Router)) (routeFn : RouteFunc W) (identity : string)
    (dialed : string → Dialed * N) : result (Pool W * W * list Effect) :=
  match todo with
  | [] => Ok (p, w, [])
  | (addr, srv) :: todo =>
      if decide (addr ∈ current) then
        sync_add p w current todo routers routeFn identity dialed
      else
        let '(outcome, client) := dialed addr in
        AddServer p w srv routers routeFn identity outcome client ≫= λ '(p, w, es),
        sync_add p w current todo routers routeFn identity dialed ≫= λ '(p, w, es'),
        Ok (p, w, es ++ es')
  end.

Fixpoint sync_remove p (wanted : gmap string ServerNode) (todo : list string) :
    Pool W * list Effect :=
  match todo with
  | [] => (p, [])
  | addr :: todo =>
      match wanted !! addr with
      | Some _ => sync_remove p wanted todo
      | None =>
          let '(p, es) := RemoveServer p addr in
          let '(p, es') := sync_remove p wanted todo in
          (p, es ++ es')
      end
  end.

(** [wanted[srv.Listen] = srv] for each server in turn. *)
Definition wanted_map (servers : list ServerNode) : gmap string ServerNode :=
  foldl (λ m srv, <[sn_Listen srv := srv]> m) ∅ servers.

(** [Sync], with the iteration orders of its two maps. *)
Definition Sync p w (servers : list ServerNode) (routers : list (Z * Router))
    (routeFn : RouteFunc W) (identity : string) (dialed : string → Dialed * N)
    (order_wanted : list (string * ServerNode)) (order_current : list string) :
    result (Pool W * W * list Effect) :=
  let current : gset string := list_to_set (ServerAddrs p) in
  let wanted := wanted_map servers in
  sync_add p w current order_wanted routers routeFn identity dialed ≫= λ '(p, w, es),
  let '(p, es') := sync_remove p wanted order_current in
  Ok (set_routeFn p routeFn, w, es ++ es').

Definition Close p : Pool W * list Effect :=
  (set_conns p (entry_stop <$> p_conns p),
   omap (λ e, StopConn <$> ce_conn e) (p_conns p)).
End pool.

(** * Theorems *)

Section route_theorems.
Context `{Zinx W}.
Implicit Types (w : W).

(** A routing strategy only ever picks one of the connections it is given. *)
Definition picks_member (f : RouteFunc W) : Prop :=
  ∀ w r key healthy c, f w r key healthy = Some c → c ∈ healthy.

Lemma HashRoute_index_lt (key : string) (n : nat) :
  (0 < n)%nat → (Z.to_nat (fnv32a (to_bytes key) mod Z.of_nat n) < n)%nat.
Proof.
  intros Hn. pose proof (Z.mod_pos_bound (fnv32a (to_bytes key)) (Z.of_nat n) ltac:(lia)).
  lia.
Qed.

Lemma HashRoute_total w r key healthy :
  healthy ≠ [] → is_Some (HashRoute w r key healthy).
Proof.
  intros Hne. unfold HashRoute. destruct healthy as [|c l]; [done|].
  apply lookup_lt_is_Some, HashRoute_index_lt. simpl. lia.
Qed.

Lemma RandomRoute_total w r key healthy :
  healthy ≠ [] → is_Some (RandomRoute w r key healthy).
Proof.
  intros Hne. unfold RandomRoute, Intn. destruct healthy as [|c l]; [done|].
  apply lookup_lt_is_Some. apply Nat.mod_upper_bound. done.
Qed.

Lemma HashRoute_member : picks_member HashRoute.
Proof.
  intros w r key healthy c. unfold HashRoute. destruct healthy; [done|].
  apply list_elem_of_lookup_2.
Qed.

Lemma RandomRoute_member : picks_member RandomRoute.
Proof.
  intros w r key healthy c. unfold RandomRoute. destruct healthy; [done|].
  apply list_elem_of_lookup_2.
Qed.

Lemma DirectRoute_Some w r key healthy c :
  DirectRoute w r key healthy = Some c →
  c ∈ healthy ∧ Sprint <$> GetProperty w c PropServerID = Some key.
Proof.
  unfold DirectRoute. intros ([i c'] & Hf & [= ->])%fmap_Some.
  apply list_find_Some in Hf as (Hl & HP & _). eauto using list_elem_of_lookup_2.
Qed.

Lemma DirectRoute_None w r key healthy :
  DirectRoute w r key healthy = None ↔
  ∀ c, c ∈ healthy → Sprint <$> GetProperty w c PropServerID ≠ Some key.
Proof. unfold DirectRoute. by rewrite fmap_None, list_find_None, Forall_forall. Qed.

Lemma DirectRoute_member : picks_member DirectRoute.
Proof. intros w r key healthy c Hc. by apply DirectRoute_Some in Hc as [? _]. Qed.

Lemma RouteFuncFor_member routeType : picks_member (RouteFuncFor routeType).
Proof.
  unfold RouteFuncFor. repeat case_decide;
    auto using RandomRoute_member, DirectRoute_member, HashRoute_member.
Qed.
End route_theorems.

#[export] Hint Resolve HashRoute_member RandomRoute_member DirectRoute_member
  RouteFuncFor_member : cardwar.

(** ** Addresses of the servers in use *)

Definition addrs_of (l : list connEntry) : list string :=
  ce_addr <$> filter (λ e, ce_stopped e = false) l.

Lemma addrs_of_app l k : addrs_of (l ++ k) = addrs_of l ++ addrs_of k.
Proof. unfold addrs_of. by rewrite filter_app, fmap_app. Qed.

Lemma addrs_of_cons e l :
  addrs_of (e :: l) = (if ce_stopped e then [] else [ce_addr e]) ++ addrs_of l.
Proof. unfold addrs_of. rewrite filter_cons. by destruct (ce_stopped e). Qed.

(** How many entries in use have the address [a]. *)
Definition uses `{Zinx W} (p : Pool W) (a : string) : nat := occurrences a (ServerAddrs p).

Section sync.
Context `{Zinx W}.
Implicit Types (p : Pool W) (w : W).

Lemma HealthyConns_entry p c :
  c ∈ HealthyConns p ↔
  ∃ e, e ∈ p_conns p ∧ ce_conn e = Some c ∧ ce_healthy e = true ∧ ce_stopped e = false.
Proof.
  unfold HealthyConns. rewrite list_elem_of_omap. split.
  - intros (e & He & Hc). exists e.
    destruct (ce_healthy e), (ce_stopped e); simplify_eq/=; eauto.
  - intros (e & He & Hc & Hh & Hs). exists e. by rewrite Hh, Hs.
Qed.

Lemma AddServer_addrs p w srv routers routeFn identity outcome client p' w' es :
  AddServer p w srv routers routeFn identity outcome client = Ok (p', w', es) →
  ServerAddrs p' = ServerAddrs p ++ (if outcome is Some _ then [sn_Listen srv] else []).
Proof.
  unfold AddServer, ServerAddrs. destruct (ParseHostPort _); [|done]. simpl.
  destruct outcome as [conn|]; intros [= <- <- <-]; apply addrs_of_app.
Qed.

(** [RemoveServer] stops one entry, also where several have the address. *)
Lemma RemoveServer_uses p addr a :
  uses (RemoveServer p addr).1 a = (uses p a - (if decide (a = addr) then 1 else 0))%nat.
Proof.
  unfold RemoveServer, uses, ServerAddrs. fold (addrs_of (p_conns p)).
  destruct (list_find _ _) as [[i e]|] eqn:Hf; simpl.
  - apply list_find_Some in Hf as (Hl & [Ha Hs] & _).
    fold (addrs_of (<[i:=entry_stop e]> (p_conns p))).
    destruct (list_elem_of_split_length _ _ _ Hl) as (l1 & l2 & -> & ->).
    rewrite insert_app_r_alt, Nat.sub_diag by lia. simpl.
    rewrite !addrs_of_app, !addrs_of_cons, !occurrences_app, Hs, Ha. simpl.
    rewrite occurrences_cons. cbn [app]. destruct (decide (a = addr)); simpl; lia.
  - fold (addrs_of (p_conns p)). case_decide; [|lia]. subst.
    assert (addr ∉ addrs_of (p_conns p)) as Hn; [|apply occurrences_0 in Hn; lia].
    intros (e & -> & [Hs Hin]%list_elem_of_filter)%list_elem_of_fmap.
    apply list_find_None in Hf. rewrite Forall_forall in Hf. by apply (Hf e).
Qed.

Lemma sync_remove_uses p wanted todo a :
  NoDup todo →
  uses (sync_remove p wanted todo).1 a =
    (uses p a - (if decide (a ∈ todo ∧ wanted !! a = None) then 1 else 0))%nat.
Proof.
  revert p. induction todo as [|x todo IH]; intros p Hnd.
  { cbn [sync_remove fst]. case_decide as Ha; [|lia]. by destruct Ha as [?%elem_of_nil _]. }
  apply NoDup_cons in Hnd as [Hx Hnd]. cbn [sync_remove].
  destruct (wanted !! x) as [srv|] eqn:Hw.
  - rewrite IH by done. repeat case_decide; try lia; set_solver.
  - pose proof (RemoveServer_uses p x a) as Hr. destruct (RemoveServer p x) as [p1 es1].
    specialize (IH p1 Hnd). destruct (sync_remove p1 wanted todo) as [p2 es2]. simpl in *.
    rewrite IH, Hr. destruct (decide (a = x)) as [->|Hne].
    + rewrite decide_False by tauto. rewrite decide_True; [lia|]. split; [left|done].
    + repeat case_decide; try lia; set_solver.
Qed.

Lemma sync_add_uses p w current todo routers routeFn identity dialed p' w' es a :
  sync_add p w current todo routers routeFn identity dialed = Ok (p', w', es) →
  (∀ x srv, (x, srv) ∈ todo → sn_Listen srv = x) →
  NoDup todo.*1 →
  uses p' a =
    (uses p a + (if decide (a ∈ todo.*1 ∧ a ∉ current ∧ is_Some (dialed a).1)
                 then 1 else 0))%nat.
Proof.
  revert p w es. induction todo as [|[x srv] todo IH]; intros p w es; cbn [sync_add].
  { intros [= <- <- <-] _ _. rewrite decide_False; [lia|]. by intros [?%elem_of_nil _]. }
  intros Hok Hkey Hnd. apply NoDup_cons in Hnd as [Hx Hnd].
  assert (sn_Listen srv = x) as Hlx by (apply (Hkey x srv); by left).
  assert (∀ y s, (y, s) ∈ todo → sn_Listen s = y) as Hkey'
    by (intros y s ?; apply Hkey; by right).
  case_decide as Hc.
  { rewrite (IH p w es Hok Hkey' Hnd). simpl. repeat case_decide; try lia; set_solver. }
  destruct (dialed x) as [outcome client] eqn:Hd.
  destruct (AddServer _ _ _ _ _ _ _ _) as [[[p1 w1] es1]|] eqn:HA; [|done]. simpl in Hok.
  destruct (sync_add p1 _ _ _ _ _ _ _) as [[[p2 w2] es2]|] eqn:HS; [|done].
  simpl in Hok. injection Hok as <- <- <-.
  apply AddServer_addrs in HA. rewrite (IH p1 w1 es2 HS Hkey' Hnd). clear IH HS Hkey Hkey'.
  unfold uses at 1. rewrite HA, occurrences_app. fold (uses p a). simpl.
  destruct (decide (a = x)) as [->|Hne].
  - rewrite Hd. simpl. rewrite (decide_False (P := x ∈ _ ∧ _)) by (intros [? _]; done).
    destruct outcome as [c|]; simpl.
    + rewrite Hlx, decide_True by (split_and!; [left|done|by eexists]).
      rewrite occurrences_cons, decide_True by done. cbn. lia.
    + rewrite decide_False by (by intros (_ & _ & ?%is_Some_None)). cbn. lia.
  - assert (occurrences a (if outcome is Some _ then [sn_Listen srv] else []) = 0%nat) as ->.
    { apply occurrences_0. rewrite Hlx. destruct outcome; set_solver. }
    repeat case_decide; try lia; set_solver.
Qed.

Lemma wanted_map_spec servers a srv :
  wanted_map servers !! a = Some srv → srv ∈ servers ∧ sn_Listen srv = a.
Proof.
  unfold wanted_map. induction servers as [|s servers IH] using rev_ind; [done|].
  rewrite foldl_snoc, lookup_insert. case_decide as Ha; [intros [= <-]; set_solver|].
  intros [? ?]%IH. set_solver.
Qed.

Lemma wanted_map_dom servers a :
  is_Some (wanted_map servers !! a) ↔ a ∈ sn_Listen <$> servers.
Proof.
  unfold wanted_map. induction servers as [|s servers IH] using rev_ind; simpl.
  { rewrite lookup_empty. split; [intros [? ?]; done|set_solver]. }
  rewrite foldl_snoc, fmap_app, elem_of_app, <-IH, lookup_insert.
  case_decide; subst; set_solver.
Qed.

Lemma Sync_uses p w servers routers routeFn identity dialed ow oc p' w' es :
  ow ≡ₚ map_to_list (wanted_map servers) →
  oc ≡ₚ elements (list_to_set (ServerAddrs p) : gset string) →
  Sync p w servers routers routeFn identity dialed ow oc = Ok (p', w', es) →
  (∀ a, uses p' a =
     if decide (a ∈ sn_Listen <$> servers) then
       if decide (a ∈ ServerAddrs p) then uses p a
       else if decide (is_Some (dialed a).1) then 1%nat else 0%nat
     else (uses p a - 1)%nat) ∧ p_routeFn p' = routeFn.
Proof.
  intros How Hoc. unfold Sync.
  destruct (sync_add _ _ _ _ _ _ _ _) as [[[p1 w1] es1]|] eqn:HA; [|done]. simpl.
  destruct (sync_remove p1 _ oc) as [p2 es2] eqn:HR. intros [= <- <- <-].
  split; [|done]. intros a. change (uses (set_routeFn p2 routeFn) a) with (uses p2 a).
  assert (NoDup oc) as Hnd by (rewrite Hoc; apply NoDup_elements).
  pose proof (sync_remove_uses p1 (wanted_map servers) oc a Hnd) as Hr.
  rewrite HR in Hr. simpl in Hr. rewrite Hr.
  apply (sync_add_uses _ _ _ _ _ _ _ _ _ _ _ a) in HA as ->;
    [|intros x srv; rewrite How, elem_of_map_to_list; intros Hx;
      by apply wanted_map_spec in Hx as [_ ?]|rewrite How; apply NoDup_fst_map_to_list].
  assert (a ∈ ow.*1 ↔ a ∈ sn_Listen <$> servers) as Hkeys.
  { rewrite How, <-wanted_map_dom, list_elem_of_fmap. split.
    - intros ([x s] & -> & Hx%elem_of_map_to_list). by exists s.
    - intros [s Hs]. exists (a, s). by rewrite elem_of_map_to_list. }
  assert (wanted_map servers !! a = None ↔ a ∉ sn_Listen <$> servers) as Hnone
    by (rewrite <-wanted_map_dom, eq_None_not_Some; done).
  assert (a ∈ oc ↔ a ∈ ServerAddrs p) as Hcur
    by (rewrite Hoc, elem_of_elements; apply elem_of_list_to_set).
  assert (a ∉ ServerAddrs p → uses p a = 0%nat) as H0 by apply occurrences_0.
  assert (a ∈ (list_to_set (ServerAddrs p) : gset string) ↔ a ∈ ServerAddrs p) as Hset
    by apply elem_of_list_to_set.
  repeat case_decide; try tauto; try lia; rewrite H0 by tauto; lia.
Qed.
End sync.

(** ** Properties *)

Section properties.
Context `{Zinx W}.
Implicit Types (p : Pool W) (w : W).

(** C26: [Route] with any of the configured strategies returns a connection of
    an entry that is healthy and not stopped, and with a strategy other than
    "direct" it returns one whenever there is one. *)
Theorem route_selects_healthy p w draw key routeType :
  (∀ c, Route (set_routeFn p (RouteFuncFor routeType)) w draw key = Some c →
     ∃ e, e ∈ p_conns p ∧ ce_conn e = Some c ∧ ce_healthy e = true ∧ ce_stopped e = false) ∧
  (routeType ≠ "direct"%string →
     (∃ e, e ∈ p_conns p ∧ is_Some (ce_conn e) ∧ ce_healthy e = true ∧ ce_stopped e = false) →
     is_Some (Route (set_routeFn p (RouteFuncFor routeType)) w draw key)).
Proof.
  unfold Route. simpl. change (HealthyConns _) with (HealthyConns p). split.
  - intros c Hc%RouteFuncFor_member. by apply HealthyConns_entry.
  - intros Hd (e & He & [c Hc] & Hh & Hs).
    assert (HealthyConns p ≠ []) as Hne.
    { assert (c ∈ HealthyConns p) as Hin by (apply HealthyConns_entry; eauto).
      intros Hnil. rewrite Hnil in Hin. by apply elem_of_nil in Hin. }
    unfold RouteFuncFor. repeat case_decide; [|done|];
      auto using HashRoute_total, RandomRoute_total.
Qed.

(** When the healthy connections carry pairwise distinct server ids,
    [DirectRoute] returns exactly the connection of the requested instance. *)
Theorem direct_route_exact w draw key healthy c :
  (∀ c1 c2, c1 ∈ healthy → c2 ∈ healthy →
     Sprint <$> GetProperty w c1 PropServerID = Some key →
     Sprint <$> GetProperty w c2 PropServerID = Some key → c1 = c2) →
  DirectRoute w draw key healthy = Some c ↔
    c ∈ healthy ∧ Sprint <$> GetProperty w c PropServerID = Some key.
Proof.
  intros Huniq. split; [apply DirectRoute_Some|]. intros [Hin Hkey].
  destruct (DirectRoute w draw key healthy) as [c'|] eqn:Hr.
  - apply DirectRoute_Some in Hr as [Hin' Hkey']. f_equal. by apply Huniq.
  - rewrite DirectRoute_None in Hr. by apply Hr in Hin.
Qed.

(** C8: [Sync] converges to the configured servers, whatever order the maps are
    iterated in.  Exactly: an address that is configured keeps its entries in
    use, or gets one if it had none and the dial succeeds; an address that is
    not configured loses one entry; the routing strategy is the new one.  So
    from a pool that has no address twice, the addresses in use afterwards have
    no duplicates and are exactly the configured ones that were in use before or
    could be dialed.  (A pool has an address twice where the configuration
    listed it twice: [Dial] makes an entry for each line, and [Sync] then stops
    only one of them.) *)
Theorem sync_converges p w servers routers routeFn identity dialed ow oc p' w' es :
  ow ≡ₚ map_to_list (wanted_map servers) →
  oc ≡ₚ elements (list_to_set (ServerAddrs p) : gset string) →
  Sync p w servers routers routeFn identity dialed ow oc = Ok (p', w', es) →
  (∀ a, uses p' a =
     if decide (a ∈ sn_Listen <$> servers) then
       if decide (a ∈ ServerAddrs p) then uses p a
       else if decide (is_Some (dialed a).1) then 1%nat else 0%nat
     else (uses p a - 1)%nat) ∧
  (NoDup (ServerAddrs p) →
     NoDup (ServerAddrs p') ∧
     ∀ a, a ∈ ServerAddrs p' ↔
       a ∈ sn_Listen <$> servers ∧ (a ∈ ServerAddrs p ∨ is_Some (dialed a).1)) ∧
  p_routeFn p' = routeFn.
Proof.
  intros How Hoc HS.
  destruct (Sync_uses p w servers routers routeFn identity dialed ow oc p' w' es How Hoc HS)
    as [Huse Hfn].
  split_and!; [exact Huse| |exact Hfn]. intros Hnd.
  rewrite NoDup_occurrences in Hnd.
  assert (∀ a, a ∈ ServerAddrs p ↔ uses p a = 1%nat) as Hp.
  { intros a. specialize (Hnd a). rewrite occurrences_elem_of. fold (uses p a) in *. lia. }
  split.
  - apply NoDup_occurrences. intros a. fold (uses p' a). rewrite Huse.
    specialize (Hnd a). fold (uses p a) in Hnd. repeat case_decide; lia.
  - intros a. rewrite occurrences_elem_of. fold (uses p' a). rewrite Huse, Hp.
    specialize (Hnd a). fold (uses p a) in Hnd. specialize (Hp a).
    repeat case_decide; intuition lia.
Qed.
End properties.

(** ** Dialling *)

Section dial_theorems.
Context `{Zinx W}.
Implicit Types (p : Pool W) (w : W).

(** The loops that have been started are those of the entries flagged as
    reconnecting, one for each. *)
Definition loops_inv (addrs : list string) p (spawned : list nat) : Prop :=
  NoDup spawned ∧ ce_addr <$> p_conns p = addrs ∧
  (∀ i e, p_conns p !! i = Some e →
     ce_stopped e = false ∧ (ce_reconnecting e = true ↔ i ∈ spawned)) ∧
  ∀ i, i ∈ spawned → is_Some (p_conns p !! i).

(** Entry [i] is healthy or somebody is working on it. *)
Definition attended p (spawned : list nat) (i : nat) : Prop :=
  ∀ e, p_conns p !! i = Some e → ce_healthy e = true ∨ i ∈ spawned.

Lemma loops_inv_up addrs p spawned i conn client :
  loops_inv addrs p spawned →
  loops_inv addrs (set_conns p (alter (entry_up conn client) i (p_conns p))) spawned.
Proof.
  intros (Hnd & Ha & He & Hs). split_and!; [done| | |]; simpl.
  - rewrite <-Ha. apply list_eq. intros j. rewrite !list_lookup_fmap.
    destruct (decide (i = j)) as [<-|Hne]; [|by rewrite list_lookup_alter_ne].
    rewrite list_lookup_alter_eq. by destruct (p_conns p !! i).
  - intros j e Hj. destruct (decide (i = j)) as [<-|Hne].
    + rewrite list_lookup_alter_eq in Hj. apply fmap_Some in Hj as (e0 & He0 & ->). exact (He i e0 He0).
    + rewrite list_lookup_alter_ne in Hj by done. by apply He.
  - intros j Hj. destruct (decide (i = j)) as [<-|Hne].
    + rewrite list_lookup_alter_eq. by apply fmap_is_Some, Hs.
    + rewrite list_lookup_alter_ne by done. by apply Hs.
Qed.

Lemma loops_inv_down addrs p spawned i e :
  loops_inv addrs p spawned → p_conns p !! i = Some e →
  loops_inv addrs (set_conns p (<[i := (entry_down e).1]> (p_conns p)))
    (if (entry_down e).2 then spawned ++ [i] else spawned) ∧
  i ∈ (if (entry_down e).2 then spawned ++ [i] else spawned).
Proof.
  intros (Hnd & Ha & He & Hs) Hi. destruct (He i e Hi) as [Hst Hrc].
  pose proof (lookup_lt_Some _ _ _ Hi) as Hlt.
  assert (ce_addr <$> <[i := (entry_down e).1]> (p_conns p) = addrs) as Ha'.
  { rewrite list_fmap_insert, list_insert_id; [done|]. by rewrite list_lookup_fmap, Hi. }
  unfold entry_down in *. rewrite Hst, orb_false_r in *. simpl in *.
  destruct (ce_reconnecting e) eqn:Hr; simpl in *.
  - split; [|by apply Hrc]. split_and!; [done|done| |].
    + intros j e'. simpl. rewrite list_lookup_insert. case_decide as Hij; [|by apply He].
      destruct Hij as [<- _]. intros [= <-]. simpl. split; [done|exact Hrc].
    + intros j Hj. simpl. apply list_lookup_insert_is_Some. by apply Hs.
  - assert (i ∉ spawned) as Hni by (intros Hin; by apply Hrc in Hin).
    split; [|set_solver]. split_and!; [|done| |].
    + apply NoDup_app. split_and!; [done|set_solver|apply NoDup_singleton].
    + intros j e'. simpl. rewrite list_lookup_insert. case_decide as Hij.
      * destruct Hij as [<- _]. intros [= <-]. simpl. set_solver.
      * intros Hj. destruct (He j e' Hj) as [? Hx]. split; [done|]. rewrite Hx.
        apply lookup_lt_Some in Hj. set_unfold. naive_solver.
    + intros j Hj. simpl. apply list_lookup_insert_is_Some.
      apply elem_of_app in Hj as [Hj| ->%list_elem_of_singleton]; [by apply Hs|by rewrite Hi].
Qed.

Lemma Dial_event_ok addrs servers identity clients p w es spawned ev p' w' es' spawned' :
  loops_inv addrs p spawned →
  Dial_event servers identity clients (p, w, es, spawned) ev = (p', w', es', spawned') →
  loops_inv addrs p' spawned' ∧
  (∀ i, attended p spawned i → attended p' spawned' i) ∧
  (∀ i c, ev = ConnStarts i c → (i < length servers)%nat → attended p' spawned' i).
Proof.
  intros Hinv Hev. destruct ev as [idx conn|idx]; simpl in Hev.
  - destruct (servers !! idx) as [srv|] eqn:Hsrv; injection Hev as <- <- <- <-.
    + split_and!; [by apply loops_inv_up| |].
      * intros i Hi e. simpl. destruct (decide (idx = i)) as [<-|Hne].
        -- rewrite list_lookup_alter_eq. intros (e0 & _ & ->)%fmap_Some. by left.
        -- rewrite list_lookup_alter_ne by done. apply Hi.
      * intros i c [= <- <-] _ e. simpl. rewrite list_lookup_alter_eq.
        intros (e0 & _ & ->)%fmap_Some. by left.
    + split_and!; [done|done|]. intros i c [= <- <-] Hlt.
      apply lookup_lt_is_Some in Hlt as [srv Hs]. congruence.
  - split_and!; [| |done].
    all: unfold OnDisconnect in Hev; destruct (p_conns p !! idx) as [e|] eqn:Hi;
      [|by injection Hev as <- <- <- <-].
    all: destruct (loops_inv_down addrs p spawned idx e Hinv Hi) as [Hinv' Hin].
    all: destruct (entry_down e) as [e' spawn]; injection Hev as <- <- <- <-; simpl in *.
    + done.
    + intros i Hat e0. simpl. rewrite list_lookup_insert. case_decide as Hd.
      * destruct Hd as [<- _]. intros _. by right.
      * intros Hl. destruct (Hat e0 Hl); [by left|right]. destruct spawn; set_solver.
Qed.

Lemma Dial_events_ok addrs servers identity clients evs p w es spawned p' w' es' spawned' :
  loops_inv addrs p spawned →
  foldl (Dial_event servers identity clients) (p, w, es, spawned) evs = (p', w', es', spawned') →
  loops_inv addrs p' spawned' ∧
  (∀ i, attended p spawned i → attended p' spawned' i) ∧
  (∀ i c, ConnStarts i c ∈ evs → (i < length servers)%nat → attended p' spawned' i).
Proof.
  revert p w es spawned. induction evs as [|ev evs IH]; intros p w es spawned Hinv Hev.
  { injection Hev as <- <- <- <-. split_and!; [done|done|]. by intros i c ?%elem_of_nil. }
  cbn [foldl] in Hev.
  destruct (Dial_event _ _ _ _ ev) as [[[p1 w1] es1] sp1] eqn:H1.
  apply (Dial_event_ok addrs) in H1 as (Hinv1 & Hk1 & Hs1); [|done].
  destruct (IH _ _ _ _ Hinv1 Hev) as (Hinv2 & Hk2 & Hs2).
  split_and!; [done|by auto|]. intros i c [<-|Hin]%elem_of_cons Hlt; [|by eauto].
  by eapply Hk2, Hs1.
Qed.

Lemma Dial_timeout_spawned p i :
  i ∈ (Dial_timeout p).2 ↔ ∃ e, p_conns p !! i = Some e ∧ never_connected e = true.
Proof.
  simpl. rewrite list_elem_of_fmap. split.
  - intros ([j e] & -> & [He Hin]%list_elem_of_filter). exists e. split; [|done].
    apply elem_of_lookup_imap in Hin as (k & e' & [= -> ->] & Hk). done.
  - intros (e & He & Hn). exists (i, e). split; [done|]. apply list_elem_of_filter.
    split; [done|]. apply elem_of_lookup_imap. eauto.
Qed.

Lemma Dial_timeout_ok addrs p spawned :
  loops_inv addrs p spawned →
  loops_inv addrs (Dial_timeout p).1 (spawned ++ (Dial_timeout p).2) ∧
  ∀ i, attended (Dial_timeout p).1 (spawned ++ (Dial_timeout p).2) i.
Proof.
  intros (Hnd & Ha & He & Hs). pose proof (Dial_timeout_spawned p) as Hsp.
  assert (∀ i e, p_conns p !! i = Some e →
    i ∈ (Dial_timeout p).2 ↔ never_connected e = true) as Hone.
  { intros i e Hie. rewrite Hsp. split; [intros (e0 & ? & ?); congruence|eauto]. }
  assert (∀ i e', p_conns (Dial_timeout p).1 !! i = Some e' → ∃ e, p_conns p !! i = Some e ∧
    e' = if never_connected e then (entry_down e).1 else e) as Hl.
  { intros i e'. simpl. rewrite list_lookup_fmap. intros (e & ? & ->)%fmap_Some. eauto. }
  split; [split_and!|].
  - apply NoDup_app. split_and!; [done| |].
    + intros i Hi (e & Hie & Hn)%Hsp. apply (He i e Hie) in Hi. unfold never_connected in Hn.
      rewrite Hi, andb_false_r in Hn. done.
    + simpl. eapply sublist_NoDup; [|apply fmap_sublist, sublist_filter].
      rewrite fmap_imap. apply NoDup_alt. intros i j x. rewrite !list_lookup_imap.
      intros (? & _ & ->)%fmap_Some (? & _ & Heq)%fmap_Some. exact Heq.
  - rewrite <-Ha. simpl. rewrite <-list_fmap_compose. apply list_fmap_ext. intros i e _. simpl.
    by destruct (never_connected e).
  - intros i e' (e & Hie & ->)%Hl. destruct (He i e Hie) as [Hst Hrc].
    rewrite elem_of_app, (Hone i e Hie). unfold never_connected, entry_down. rewrite Hst.
    destruct (ce_healthy e) eqn:Hh, (ce_reconnecting e) eqn:Hr; simpl; rewrite ?Hst, ?Hr;
      intuition congruence.
  - intros i [Hi|Hi]%elem_of_app; simpl; rewrite list_lookup_fmap; apply fmap_is_Some.
    + by apply Hs.
    + apply Hsp in Hi as (e & -> & _). done.
  - intros i e' (e & Hie & ->)%Hl. destruct (He i e Hie) as [Hst Hrc].
    rewrite elem_of_app, (Hone i e Hie). unfold never_connected, entry_down. rewrite Hst.
    destruct (ce_healthy e) eqn:Hh, (ce_reconnecting e) eqn:Hr; simpl; rewrite ?Hh;
      intuition congruence.
Qed.

Lemma Dial_start_ok servers routers routeFn identity clients p es :
  Dial_start servers routers routeFn identity clients = Ok (p, es) →
  loops_inv (sn_Listen <$> servers) p [] ∧ p_routeFn p = routeFn.
Proof.
  unfold Dial_start. set (r := (_, concat _)). intros Hr.
  assert (r = (p, es)) as [= <- _].
  { clearbody r. clear -Hr. induction servers as [|srv l IH]; [by injection Hr|]. simpl in Hr.
    destruct (ParseHostPort _); [|done]. by apply IH. }
  split; [|done]. split_and!; [apply NoDup_nil_2| | |by intros i ?%elem_of_nil]; simpl.
  - by rewrite <-list_fmap_compose.
  - intros i e. rewrite list_lookup_fmap. intros (srv & _ & ->)%fmap_Some. simpl.
    rewrite elem_of_nil. naive_solver.
Qed.

Lemma loops_inv_ServerAddrs addrs p spawned : loops_inv addrs p spawned → ServerAddrs p = addrs.
Proof.
  intros (_ & Ha & He & _). unfold ServerAddrs. rewrite <-Ha. f_equal.
  apply filter_Forall_id, Forall_lookup. intros i e Hi. by apply (He i e Hi).
Qed.

(** The services [Dial] accepts. *)
Definition dialable (cfg : Config) (service : string) : Prop :=
  services_of cfg service ≠ [] ∧
  Forall (λ srv, ∃ a, ParseHostPort (sn_Listen srv) = Ok a) (services_of cfg service).

Lemma Dial_start_returns servers routers routeFn identity clients :
  (∃ r, Dial_start (W := W) servers routers routeFn identity clients = Ok r) ↔
  Forall (λ srv, ∃ a, ParseHostPort (sn_Listen srv) = Ok a) servers.
Proof.
  unfold Dial_start. set (r := (_, concat _)). clearbody r.
  induction servers as [|srv l IH]; simpl; [split; [by constructor|eauto]|].
  rewrite Forall_cons, <-IH. destruct (ParseHostPort _); simpl; [naive_solver|].
  split; [by intros [? ?]|by intros [[? ?] _]].
Qed.

(** [Dial] returns exactly for such a service, with one entry per server, however
    many of them it could reach. *)
Lemma Dial_returns cfg w service routers routeFn identity dw :
  (∃ r, Dial cfg w service routers routeFn identity dw = Ok r) ↔ dialable cfg service.
Proof.
  unfold Dial, dialable. destruct (services_of cfg service) as [|x l]; [split; [by intros []|naive_solver]|].
  rewrite <-(Dial_start_returns _ routers routeFn identity (dw_clients dw)).
  destruct (Dial_start _ _ _ _ _) as [[p es]|]; simpl; [|split; [by intros []|by intros [_ []]]].
  destruct (foldl _ _ _) as [[[p1 w1] es1] sp1]. split; [by eauto|intros _]. destruct (dw_timeout dw); eauto.
Qed.

Lemma Dial_servers cfg w service routers routeFn identity dw p' w' es spawned :
  Dial cfg w service routers routeFn identity dw = Ok (p', w', es, spawned) →
  ServerAddrs p' = sn_Listen <$> services_of cfg service.
Proof.
  intros HD. apply (loops_inv_ServerAddrs _ _ spawned).
  unfold Dial in HD. destruct (services_of cfg service) as [|x l]; [done|].
  destruct (Dial_start _ _ _ _ _) as [[p es0]|] eqn:HS; [|done].
  apply Dial_start_ok in HS as [Hinv _]. cbn in HD.
  destruct (foldl _ _ _) as [[[p1 w1] es1] sp1] eqn:Hev.
  apply (Dial_events_ok _ _ _ _ _ _ _ _ _ _ _ _ _ Hinv) in Hev as (Hinv1 & _ & _).
  destruct (dw_timeout dw).
  - destruct (Dial_timeout_ok _ _ _ Hinv1). by injection HD as <- <- <- <-.
  - by injection HD as <- <- <- <-.
Qed.

(** C34: When [Dial] returns, whatever connected or broke while it waited, the pool
    has one entry per configured server, in order, and nobody is forgotten: each
    entry is healthy or has a reconnect loop, and no entry has two.  The wait
    ends with the timeout, or once every server has connected. *)
Theorem dial_no_orphans cfg w service routers routeFn identity dw p' w' es spawned :
  Dial cfg w service routers routeFn identity dw = Ok (p', w', es, spawned) →
  dw_timeout dw = true ∨
    (∀ i, (i < length (services_of cfg service))%nat → ∃ c, ConnStarts i c ∈ dw_events dw) →
  ServerAddrs p' = sn_Listen <$> services_of cfg service ∧
  NoDup spawned ∧
  ∀ i e, p_conns p' !! i = Some e → ce_healthy e = true ∨ i ∈ spawned.
Proof.
  intros HD Hend.
  assert (loops_inv (sn_Listen <$> services_of cfg service) p' spawned ∧
    ∀ i, attended p' spawned i) as [(Hnd & Ha & He & _) Hat].
  2: { split_and!; [by eapply Dial_servers|done|intros i e; apply Hat]. }
  unfold Dial in HD. destruct (services_of cfg service) as [|x l] eqn:Hsv; [done|].
  set (servers := x :: l) in *. clearbody servers.
  destruct (Dial_start _ _ _ _ _) as [[p es0]|] eqn:HS; [|done].
  apply Dial_start_ok in HS as [Hinv _]. simpl in HD.
  destruct (foldl _ _ _) as [[[p1 w1] es1] sp1] eqn:Hev.
  apply (Dial_events_ok _ _ _ _ _ _ _ _ _ _ _ _ _ Hinv) in Hev as (Hinv1 & _ & Hstart).
  destruct (dw_timeout dw) eqn:Ht.
  - destruct (Dial_timeout_ok _ _ _ Hinv1). by injection HD as <- <- <- <-.
  - injection HD as <- <- <- <-. split; [done|]. destruct Hend as [|Hend]; [done|].
    intros i e Hi. assert (i < length servers)%nat as Hlt.
    { destruct Hinv1 as (_ & Ha & _). apply (f_equal length) in Ha.
      rewrite !length_fmap in Ha. apply lookup_lt_Some in Hi. lia. }
    destruct (Hend i Hlt) as [c Hc]. exact (Hstart i c Hc Hlt e Hi).
Qed.
End dial_theorems.

(** ** Concrete inputs *)

Definition wit_pool_world : World :=
  mkWorld {[ (1%N, PropServerID) := AString "a"; (2%N, PropServerID) := AString "b" ]}
    {[ 1%N; 2%N ]}.
Definition wit_node : ServerNode := mkServerNode "a" "" "" "127.0.0.1:9000" "".
Definition wit_dialed : string → option Conn * N := λ _, (Some 1%N, 4%N).

Lemma direct_route_exact_witness :
  DirectRoute wit_pool_world 0%nat "b" [1%N; 2%N] = Some 2%N.
Proof.
  apply (direct_route_exact wit_pool_world 0%nat "b" [1%N; 2%N] 2%N).
  - intros c1 c2 Hc1 Hc2 Hk1 Hk2.
    apply elem_of_cons in Hc1 as [->|Hc1]; [discriminate Hk1|].
    apply elem_of_cons in Hc2 as [->|Hc2]; [discriminate Hk2|].
    apply list_elem_of_singleton in Hc1 as ->. apply list_elem_of_singleton in Hc2 as ->. reflexivity.
  - split; [evaluate|reflexivity].
Defined.

(** A configuration that lists a server twice. *)
Definition wit_twice_pool : Pool World :=
  mkPool [new_entry "127.0.0.1:9000" [] "gateway" second;
          new_entry "127.0.0.1:9000" [] "gateway" second] HashRoute.

Lemma sync_converges_witness :
  (∃ p' w' es, Sync (mkPool [] HashRoute) empty_world [wit_node] [] HashRoute "gateway" wit_dialed
      [("127.0.0.1:9000"%string, wit_node)] [] = Ok (p', w', es) ∧
    NoDup (ServerAddrs p')) ∧
  (∃ p' w' es, Sync wit_twice_pool empty_world [] [] HashRoute "gateway" wit_dialed
      [] ["127.0.0.1:9000"%string] = Ok (p', w', es) ∧ uses p' "127.0.0.1:9000" = 1%nat).
Proof.
  split.
  - do 3 eexists. split; [reflexivity|].
    refine (proj1 (proj1 (proj2 (sync_converges (mkPool [] HashRoute) empty_world [wit_node] []
      HashRoute "gateway" wit_dialed [("127.0.0.1:9000"%string, wit_node)] [] _ _ _ _ _ eq_refl))
      NoDup_nil_2)).
    + evaluate.
    + evaluate.
  - do 3 eexists. split; [reflexivity|].
    refine (proj1 (sync_converges wit_twice_pool empty_world [] []
      HashRoute "gateway" wit_dialed [] ["127.0.0.1:9000"%string] _ _ _ _ _ eq_refl)
      "127.0.0.1:9000"%string).
    + evaluate.
    + evaluate.
Defined.

Definition wit_dial_cfg : Config :=
  mkConfig {[ "chatsvr"%string := [wit_node] ]} (cfg_Gateway zero_config) ∅.
Definition wit_dial_world : DialWorld :=
  mkDialWorld (λ _, 4%N) [ConnStarts 0 1%N; ConnStops 0] false.

Lemma dial_no_orphans_witness :
  ∃ p' w' es, Dial wit_dial_cfg empty_world "chatsvr" [] HashRoute "gateway" wit_dial_world
      = Ok (p', w', es, [0%nat]) ∧ ServerAddrs p' = ["127.0.0.1:9000"%string].
Proof.
  do 3 eexists. split; [reflexivity|].
  refine (proj1 (dial_no_orphans wit_dial_cfg empty_world "chatsvr" [] HashRoute "gateway"
    wit_dial_world _ _ _ _ eq_refl _)).
  right. intros i Hi. exists 1%N. destruct i as [|i].
  - left.
  - vm_compute in Hi. lia.
Defined.
