(* ===== verification/Reconnect.v ===== *)
(** * The reconnect loop of a pool entry

    [reconnectLoop] of [pkg/pool.go] as a state machine: the entry, the loops
    running for it and what each waits for.  An event is one atomic piece of
    the code (a callback, a wake-up, one branch of the [select]). *)

From S2P Require Import Prelude GoLib Proto Zinx Conf Pool Models.
#[local] Open Scope Z_scope.

(** ** The pieces of the loop *)

(** The connect callback of a reconnecting client: it announces the identity
    and hands the connection over on [connCh]. *)
Definition reconnect_OnConnStart {W} (e : connEntry) (w : W) (conn : Conn) :
    W * list Effect :=
  (w, send_identity (ce_identity e) conn).

(** A connection arrived: the entry is healthy again and the loop returns. *)
Definition reconnect_success (conn : Conn) (client : N) (e : connEntry) : connEntry :=
  mkEntry (ce_addr e) (ce_routers e) (ce_identity e) (Some client) (Some conn) true
    (ce_stopped e) reconnectInitBackoff false false.

(** The end of a failed attempt: [None] when the loop returns because the entry
    is stopped, otherwise the entry with its backoff doubled up to the limit. *)
Definition reconnect_fail (e : connEntry) : option connEntry :=
  if ce_stopped e then None
  else Some (mkEntry (ce_addr e) (ce_routers e) (ce_identity e) (ce_client e) (ce_conn e)
               (ce_healthy e) (ce_stopped e)
               (if ce_backoff e <? reconnectMaxBackoff then int64 (ce_backoff e * 2)
                else ce_backoff e)
               (ce_reconnecting e) true).

(** ** The state machine

    It follows one entry from its creation; what the callbacks send and the
    routers a new client is given are [reconnect_OnConnStart] and
    [add_routers]. *)

(** A loop sleeps, or has started a client and waits on [connCh], a channel
    with room for one value: a connection or nil. *)
Inductive LoopSt :=
  | Sleeping
  | Waiting (client : N) (connCh : option (option Conn)).

Record RState := mkRState {
  rs_entry : connEntry;
  rs_loops : list LoopSt;
  rs_dead : list Conn (* connections whose stop callback has run *) }.

Inductive Event :=
  | EvUp (add : bool) (c : Conn) (client : N) (* connect callback of [Dial], or of [AddServer] *)
  | EvDown (c : option Conn)    (* stop callback of the client in use *)
  | EvWake (i : nat) (client : N) (* [time.Sleep] returns, a client is started *)
  | EvStart (i : nat) (c : Conn) (* connect callback of that client *)
  | EvStop (i : nat)             (* its stop callback *)
  | EvRecv (i : nat)             (* [conn := <-connCh] *)
  | EvTimeout (i : nat)          (* [<-time.After(reconnectTimeout)] *)
  | EvRemove.                    (* [RemoveServer] or [Close] *)

(** [p.OnDisconnect(idx)] on this entry. *)
Definition down (s : RState) : RState :=
  let '(e, spawn) := entry_down (rs_entry s) in
  mkRState e (if spawn : bool then rs_loops s ++ [Sleeping] else rs_loops s) (rs_dead s).

Definition set_loop (i : nat) (l : LoopSt) (s : RState) : RState :=
  mkRState (rs_entry s) (<[i := l]> (rs_loops s)) (rs_dead s).

Definition kill (c : option Conn) (s : RState) : RState :=
  mkRState (rs_entry s) (rs_loops s) (option_list c ++ rs_dead s).

(** The attempt of loop [i] failed. *)
Definition attempt_failed (i : nat) (s : RState) : RState :=
  match reconnect_fail (rs_entry s) with
  | None => mkRState (rs_entry s) (remove_at i (rs_loops s)) (rs_dead s)
  | Some e => mkRState e (<[i := Sleeping]> (rs_loops s)) (rs_dead s)
  end.

(** One event; [None] when it cannot happen in this state. *)
Definition rstep (ev : Event) (s : RState) : option RState :=
  match ev with
  | EvUp add c client =>
      Some (if add && ce_stopped (rs_entry s) then s
            else mkRState (entry_up c client (rs_entry s)) (rs_loops s) (rs_dead s))
  | EvDown c => Some (kill c (down s))
  | EvRemove => Some (mkRState (entry_stop (rs_entry s)) (rs_loops s) (rs_dead s))
  | EvWake i client =>
      match rs_loops s !! i with
      | Some Sleeping => Some (set_loop i (Waiting client None) s)
      | _ => None
      end
  | EvStart i c =>
      match rs_loops s !! i with
      | Some (Waiting client None) => Some (set_loop i (Waiting client (Some (Some c))) s)
      | _ => None
      end
  | EvStop i =>
      match rs_loops s !! i with
      | Some (Waiting client ch) =>
          let s := kill (mjoin ch) (down s) in
          Some (match ch with
                | None => set_loop i (Waiting client (Some None)) s
                | Some _ => s
                end)
      | _ => None
      end
  | EvRecv i =>
      match rs_loops s !! i with
      | Some (Waiting client (Some (Some c))) =>
          Some (mkRState (reconnect_success c client (rs_entry s))
                  (remove_at i (rs_loops s)) (rs_dead s))
      | Some (Waiting client (Some None)) => Some (attempt_failed i s)
      | _ => None
      end
  | EvTimeout i =>
      match rs_loops s !! i with
      | Some (Waiting client _) => Some (attempt_failed i s)
      | _ => None
      end
  end.

Definition rsteps : relation RState := λ s s', ∃ ev, rstep ev s = Some s'.

(** Run a list of events. *)
Fixpoint rrun (evs : list Event) (s : RState) : option RState :=
  match evs with
  | [] => Some s
  | ev :: evs => rstep ev s ≫= rrun evs
  end.

(** The entries [Dial], [NewPool] and [AddServer] create. *)
Definition initial_entry (e : connEntry) : Prop :=
  ce_reconnecting e = false ∧ (ce_healthy e = true → is_Some (ce_conn e)) ∧
  (ce_backoff e = second ∨ ce_backoff e = reconnectInitBackoff).

Definition reachable (s : RState) : Prop :=
  ∃ e, initial_entry e ∧ rtc rsteps (mkRState e [] []) s.

(** * Theorems *)

(** The durations the backoff goes through: from 200ms or from one second,
    doubled while below the limit. *)
Definition backoff_values : list Z :=
  [reconnectInitBackoff; 2 * reconnectInitBackoff; 4 * reconnectInitBackoff;
   8 * reconnectInitBackoff; 16 * reconnectInitBackoff; 32 * reconnectInitBackoff;
   second; 2 * second; 4 * second; 8 * second].

Record RInv (s : RState) : Prop := {
  inv_one : (length (rs_loops s) ≤ 1)%nat;
  inv_flag : rs_loops s ≠ [] → ce_reconnecting (rs_entry s) = true;
  inv_live : ce_reconnecting (rs_entry s) = true → ce_stopped (rs_entry s) = false →
             rs_loops s ≠ [];
  inv_healthy : ce_healthy (rs_entry s) = true → is_Some (ce_conn (rs_entry s));
  inv_backoff : ce_backoff (rs_entry s) ∈ backoff_values }.

Lemma backoff_double b :
  b ∈ backoff_values → (if b <? reconnectMaxBackoff then int64 (b * 2) else b) ∈ backoff_values.
Proof.
  intros Hb. unfold backoff_values in *.
  repeat (apply elem_of_cons in Hb as [->|Hb]; [vm_compute; repeat constructor|]).
  by apply elem_of_nil in Hb.
Qed.

Lemma down_inv s : RInv s → RInv (down s).
Proof.
  intros [H1 H2 HL H3 H4]. unfold down, entry_down.
  destruct (ce_reconnecting (rs_entry s)) eqn:Hr; simpl.
  - split; simpl; auto; done.
  - assert (rs_loops s = []) as Hnil
      by (destruct (rs_loops s); [done|]; discriminate H2; done).
    rewrite Hnil in *.
    destruct (ce_stopped (rs_entry s)) eqn:Hs; split; simpl; auto; done.
Qed.

Lemma kill_inv c s : RInv s → RInv (kill c s).
Proof. by intros []. Qed.

Lemma set_loop_inv i l s : RInv s → RInv (set_loop i l s).
Proof.
  intros [H1 H2 HL H3 H4]. split; simpl; [by rewrite length_insert| | |done..].
  - intros Hne. apply H2. intros Hnil. by rewrite Hnil in Hne.
  - intros Hr Hs. specialize (HL Hr Hs). by destruct (rs_loops s), i.
Qed.

Lemma remove_at_singleton {A} i (l : list A) :
  (length l ≤ 1)%nat → is_Some (l !! i) → remove_at i l = [].
Proof.
  intros Hl [x Hx]. destruct l as [|y [|z l]]; simpl in *; [done| |lia].
  by destruct i as [|i].
Qed.

Lemma attempt_failed_inv i s :
  RInv s → is_Some (rs_loops s !! i) → RInv (attempt_failed i s).
Proof.
  intros [H1 H2 HL H3 H4] Hi. unfold attempt_failed, reconnect_fail.
  destruct (ce_stopped (rs_entry s)) eqn:Hs; split; simpl; auto; try congruence.
  - rewrite remove_at_singleton by done. simpl. lia.
  - rewrite remove_at_singleton by done. done.
  - by rewrite length_insert.
  - intros Hne. apply H2. intros Hnil. by rewrite Hnil in Hne.
  - intros Hr _. specialize (HL Hr eq_refl). by destruct (rs_loops s), i.
  - by apply backoff_double.
Qed.

Lemma rstep_inv ev s s' : RInv s → rstep ev s = Some s' → RInv s'.
Proof.
  intros Hinv. destruct ev as [add c cl|c|i cl|i c|i|i|i|]; simpl.
  - intros [= <-]. destruct (add && _); [done|]. destruct Hinv. split; simpl; eauto.
  - intros [= <-]. by apply kill_inv, down_inv.
  - destruct (rs_loops s !! i) as [[]|]; try done. intros [= <-]. by apply set_loop_inv.
  - destruct (rs_loops s !! i) as [[|cl []]|]; try done. intros [= <-]. by apply set_loop_inv.
  - destruct (rs_loops s !! i) as [[|cl ch]|]; try done. intros [= <-].
    destruct ch; [|apply set_loop_inv]; by apply kill_inv, down_inv.
  - destruct (rs_loops s !! i) as [[|cl [[c|]|]]|] eqn:Hi; try done; intros [= <-].
    + destruct Hinv as [H1 _ _ _ _]. split; simpl; eauto; try done.
      * rewrite remove_at_singleton by eauto. simpl. lia.
      * rewrite remove_at_singleton by eauto. done.
      * left.
    + apply attempt_failed_inv; eauto.
  - destruct (rs_loops s !! i) as [[|cl ch]|] eqn:Hi; try done. intros [= <-].
    apply attempt_failed_inv; eauto.
  - intros [= <-]. destruct Hinv. split; simpl; auto; done.
Qed.

Lemma reachable_inv s : reachable s → RInv s.
Proof.
  intros (e & (Hr & Hh & Hb) & Hrun).
  assert (RInv (mkRState e [] [])) as Hinit.
  { split; simpl; [lia|done|congruence|done|]. destruct Hb as [->| ->]; repeat constructor. }
  revert Hinit. induction Hrun as [s|s s' s'' [ev Hev] _ IH]; [done|].
  intros Hinv. eapply IH, rstep_inv; eauto.
Qed.

(** ** Properties *)

(** C9: At any time at most one reconnect loop runs for an entry, and for an
    entry still in use exactly while it is flagged as reconnecting; a healthy
    entry has a connection; and the backoff stays between 200ms and 8s. *)
Theorem reconnect_invariant s :
  reachable s →
  (length (rs_loops s) ≤ 1)%nat ∧
  (rs_loops s ≠ [] → ce_reconnecting (rs_entry s) = true) ∧
  (ce_reconnecting (rs_entry s) = true → ce_stopped (rs_entry s) = false → rs_loops s ≠ []) ∧
  (ce_healthy (rs_entry s) = true → is_Some (ce_conn (rs_entry s))) ∧
  reconnectInitBackoff ≤ ce_backoff (rs_entry s) ≤ 8 * second.
Proof.
  intros [H1 H2 HL H3 H4]%reachable_inv. split_and!; [done..| |];
    repeat (apply elem_of_cons in H4 as [->|H4]; [by vm_compute|]);
    by apply elem_of_nil in H4.
Qed.

(** Once an entry is stopped it stays stopped, no event starts another loop,
    and every attempt that completes ends its loop. *)
Theorem stopped_entry_quiesces ev s s' :
  ce_stopped (rs_entry s) = true → rstep ev s = Some s' →
  ce_stopped (rs_entry s') = true ∧
  (length (rs_loops s') ≤ length (rs_loops s))%nat ∧
  (∀ i, ev = EvRecv i ∨ ev = EvTimeout i → (length (rs_loops s') < length (rs_loops s))%nat).
Proof.
  intros Hs. destruct ev as [add c cl|c|i cl|i c|i|i|i|]; simpl.
  - intros [= <-]. destruct (add && _); simpl; naive_solver.
  - intros [= <-]. unfold down, entry_down. rewrite Hs, orb_true_r. simpl. naive_solver.
  - destruct (rs_loops s !! i) as [[]|]; try done. intros [= <-]. simpl.
    rewrite length_insert. naive_solver.
  - destruct (rs_loops s !! i) as [[|? []]|]; try done. intros [= <-]. simpl.
    rewrite length_insert. naive_solver.
  - destruct (rs_loops s !! i) as [[|? ch]|]; try done. intros [= <-].
    unfold down, entry_down. rewrite Hs, orb_true_r.
    destruct ch; simpl; rewrite ?length_insert; naive_solver.
  - destruct (rs_loops s !! i) as [[|? [[]|]]|] eqn:Hi; try done; intros [= <-];
      unfold attempt_failed, reconnect_fail; rewrite ?Hs; simpl;
      apply lookup_lt_Some, remove_at_length in Hi; auto with lia.
  - destruct (rs_loops s !! i) as [[|? ch]|] eqn:Hi; try done; intros [= <-];
      unfold attempt_failed, reconnect_fail; rewrite ?Hs; simpl;
      apply lookup_lt_Some, remove_at_length in Hi; auto with lia.
  - intros [= <-]. simpl. naive_solver.
Qed.

(** What the loops still have to do: a sleeping one wakes up and tries once more. *)
Definition loop_work (l : LoopSt) : nat := match l with Sleeping => 2 | Waiting _ _ => 1 end.
Definition loops_work (ls : list LoopSt) : nat := sum_list (loop_work <$> ls).
Definition work (s : RState) : nat := loops_work (rs_loops s).

(** The steps of the loops themselves. *)
Definition loop_event (ev : Event) : bool :=
  match ev with EvWake _ _ | EvRecv _ | EvTimeout _ => true | _ => false end.
Definition loop_events (evs : list Event) : nat := length (filter (λ ev, loop_event ev = true) evs).

Lemma loops_work_app ls ls' : loops_work (ls ++ ls') = (loops_work ls + loops_work ls')%nat.
Proof.
  induction ls as [|l ls IH]; [done|].
  change (loop_work l + loops_work (ls ++ ls') = loop_work l + loops_work ls + loops_work ls')%nat. lia.
Qed.

Lemma loops_work_insert i l l' ls :
  ls !! i = Some l → (loops_work (<[i := l']> ls) + loop_work l = loops_work ls + loop_work l')%nat.
Proof.
  intros Hi. rewrite <-(take_drop_middle ls i l Hi) at 2.
  rewrite insert_take_drop by (by eapply lookup_lt_Some).
  rewrite !loops_work_app. change (loops_work (?x :: ?k)) with (loop_work x + loops_work k)%nat. lia.
Qed.

Lemma loops_work_remove i l ls :
  ls !! i = Some l → (loops_work (remove_at i ls) + loop_work l = loops_work ls)%nat.
Proof.
  intros Hi. rewrite <-(take_drop_middle ls i l Hi) at 2. unfold remove_at.
  rewrite !loops_work_app. change (loops_work (?x :: ?k)) with (loop_work x + loops_work k)%nat. lia.
Qed.

(** With a stopped entry, a step of a loop uses up work and no event adds any. *)
Lemma stopped_step_work ev s s' :
  ce_stopped (rs_entry s) = true → rstep ev s = Some s' →
  ((if loop_event ev then 1 else 0) + work s' ≤ work s)%nat.
Proof.
  intros Hs. unfold work. destruct ev as [add c cl|c|i cl|i c|i|i|i|]; simpl.
  - intros [= <-]. by destruct (add && _).
  - intros [= <-]. unfold down, entry_down. by rewrite Hs, orb_true_r.
  - destruct (rs_loops s !! i) as [[]|] eqn:Hi; try done. intros [= <-]. simpl.
    pose proof (loops_work_insert i _ (Waiting cl None) _ Hi). simpl in *. lia.
  - destruct (rs_loops s !! i) as [[|cl []]|] eqn:Hi; try done. intros [= <-]. simpl.
    pose proof (loops_work_insert i _ (Waiting cl (Some (Some c))) _ Hi). simpl in *. lia.
  - destruct (rs_loops s !! i) as [[|cl ch]|] eqn:Hi; try done. intros [= <-].
    unfold down, entry_down. rewrite Hs, orb_true_r. destruct ch; simpl; [done|].
    pose proof (loops_work_insert i _ (Waiting cl (Some None)) _ Hi). simpl in *. lia.
  - destruct (rs_loops s !! i) as [[|cl [[]|]]|] eqn:Hi; try done; intros [= <-];
      unfold attempt_failed, reconnect_fail; rewrite ?Hs; simpl;
      apply loops_work_remove in Hi; simpl in *; lia.
  - destruct (rs_loops s !! i) as [[|cl ch]|] eqn:Hi; try done; intros [= <-];
      unfold attempt_failed, reconnect_fail; rewrite ?Hs; simpl;
      apply loops_work_remove in Hi; simpl in *; lia.
  - by intros [= <-].
Qed.

Lemma stopped_run evs s s' :
  ce_stopped (rs_entry s) = true → rrun evs s = Some s' →
  ce_stopped (rs_entry s') = true ∧ (loop_events evs + work s' ≤ work s)%nat.
Proof.
  revert s. induction evs as [|ev evs IH]; intros s Hs; simpl.
  { intros [= <-]. split; [done|]. unfold loop_events. simpl. lia. }
  destruct (rstep ev s) as [s1|] eqn:H1; [|done]. simpl. intros Hr.
  destruct (stopped_entry_quiesces ev s s1 Hs H1) as [Hs1 _].
  destruct (IH s1 Hs1 Hr) as [Hs2 Hw]. split; [done|].
  pose proof (stopped_step_work ev s s1 Hs H1) as Hstep.
  unfold loop_events in *. rewrite filter_cons. destruct (loop_event ev); simpl in *; lia.
Qed.

(** C22: The reconnect loops of a stopped entry terminate.  Once [RemoveServer] or
    [Close] has stopped an entry, its loops make at most two more steps each, in
    any interleaving with any callbacks, before there is no loop left; and as
    long as one is left it can take a step (a sleeping loop wakes up, a waiting
    one times out), so it is never stuck. *)
Theorem stopped_loops_terminate s evs s' :
  ce_stopped (rs_entry s) = true → rrun evs s = Some s' →
  (loop_events evs ≤ 2 * length (rs_loops s))%nat ∧
  (loop_events evs = work s → rs_loops s' = []) ∧
  (rs_loops s' ≠ [] → ∃ ev s'', loop_event ev = true ∧ rstep ev s' = Some s'').
Proof.
  intros Hs Hr. destruct (stopped_run evs s s' Hs Hr) as [Hs' Hw].
  assert (∀ ls, loops_work ls ≤ 2 * length ls ∧ length ls ≤ loops_work ls)%nat as Hb.
  { induction ls as [|l ls IH]; [done|].
    change (loops_work (l :: ls)) with (loop_work l + loops_work ls)%nat. destruct l; simpl; lia. }
  split_and!.
  - destruct (Hb (rs_loops s)). unfold work in Hw. lia.
  - intros He. destruct (Hb (rs_loops s')). unfold work in *.
    destruct (rs_loops s'); simpl in *; [done|lia].
  - intros Hne. destruct (rs_loops s') as [|l ls] eqn:Hl; [done|]. destruct l as [|cl ch].
    + exists (EvWake 0 0%N). eexists. split; [done|]. simpl. by rewrite Hl.
    + exists (EvTimeout 0). eexists. split; [done|]. simpl. by rewrite Hl.
Qed.

(** A connection that stops between its connect callback and the loop's
    receive is installed as healthy although it is dead, with no loop left to
    replace it: the stop callback finds the entry flagged as reconnecting and
    [connCh] full, so neither of its two signals has an effect. *)
Theorem dead_connection_installed e client c dead :
  ce_reconnecting e = true →
  ∃ s, rrun [EvStart 0 c; EvStop 0; EvRecv 0] (mkRState e [Waiting client None] dead) = Some s ∧
       ce_healthy (rs_entry s) = true ∧ ce_conn (rs_entry s) = Some c ∧
       c ∈ rs_dead s ∧ rs_loops s = [] ∧ ce_reconnecting (rs_entry s) = false.
Proof.
  intros Hr. simpl. unfold down, entry_down. simpl. rewrite Hr. simpl.
  eexists. split_and!; [done..|left|done|done].
Qed.

(** The doubling stops only after the limit has been passed: five failed
    attempts after a loss take the delay from 200ms to 6.4s, above
    [reconnectMaxBackoff]. *)
Theorem backoff_exceeds_limit e client dead :
  ce_stopped e = false → ce_backoff e = reconnectInitBackoff →
  ∃ s, rrun (concat (replicate 5 [EvWake 0 client; EvTimeout 0]))
         (mkRState e [Sleeping] dead) = Some s ∧
       ce_backoff (rs_entry s) = 6400 * 1000000 ∧
       reconnectMaxBackoff < ce_backoff (rs_entry s).
Proof.
  intros Hs Hb. simpl. unfold attempt_failed, reconnect_fail. simpl.
  do 5 (rewrite ?Hs; simpl). rewrite ?Hs, Hb. simpl.
  eexists. split_and!; [done|by vm_compute..].
Qed.

(** A reconnected connection has no server id, so a pool with the "direct"
    strategy never routes to it, whereas the first connection of [Dial] is
    found under its server id. *)
Theorem reconnect_loses_direct_route `{ZinxLaws W} (w : W) p e srv identity conn client draw :
  GetProperty w conn PropServerID = None →
  (∀ key, DirectRoute (reconnect_OnConnStart e w conn).1 draw key [conn] = None) ∧
  DirectRoute (Dial_OnConnStart p w 0 srv identity conn client).1.2 draw (sn_ID srv) [conn]
    = Some conn.
Proof.
  intros Hnone. split.
  - intros key. apply DirectRoute_None. intros c ->%list_elem_of_singleton. simpl.
    by rewrite Hnone.
  - unfold DirectRoute. simpl. rewrite get_set_eq. simpl. by rewrite decide_True.
Qed.

(** ** Concrete inputs *)

Definition wit_entry : connEntry := new_entry "127.0.0.1:9000" [] "gateway" reconnectInitBackoff.
Definition wit_down_entry : connEntry := (entry_down wit_entry).1.

Lemma reconnect_invariant_witness :
  (length (rs_loops (mkRState wit_down_entry [Sleeping] [])) ≤ 1)%nat.
Proof.
  apply (reconnect_invariant (mkRState wit_down_entry [Sleeping] [])).
  exists wit_entry. split.
  - split; [reflexivity|]. split; [discriminate|right; reflexivity].
  - apply rtc_once. exists (EvDown None). reflexivity.
Defined.

Lemma stopped_entry_quiesces_witness :
  ce_stopped (rs_entry (mkRState (entry_stop wit_down_entry) [Waiting 1%N None] [])) = true.
Proof.
  apply (stopped_entry_quiesces (EvWake 0%nat 1%N) (mkRState (entry_stop wit_down_entry) [Sleeping] [])
    (mkRState (entry_stop wit_down_entry) [Waiting 1%N None] [])); reflexivity.
Defined.

Lemma stopped_loops_terminate_witness :
  rs_loops (mkRState (entry_stop wit_down_entry) [] []) = [].
Proof.
  assert (rrun [EvWake 0 1%N; EvStop 0; EvRecv 0] (mkRState (entry_stop wit_down_entry) [Sleeping] []) =
    Some (mkRState (entry_stop wit_down_entry) [] [])) as Hr by reflexivity.
  exact (proj1 (proj2 (stopped_loops_terminate (mkRState (entry_stop wit_down_entry) [Sleeping] [])
    [EvWake 0 1%N; EvStop 0; EvRecv 0] _ eq_refl Hr)) eq_refl).
Defined.

Lemma dead_connection_installed_witness :
  ∃ s, rrun [EvStart 0%nat 5%N; EvStop 0%nat; EvRecv 0%nat] (mkRState wit_down_entry [Waiting 1%N None] []) = Some s ∧
    ce_healthy (rs_entry s) = true ∧ ce_conn (rs_entry s) = Some 5%N ∧ 5%N ∈ rs_dead s ∧
    rs_loops s = [] ∧ ce_reconnecting (rs_entry s) = false.
Proof. apply (dead_connection_installed wit_down_entry 1%N 5%N []). reflexivity. Defined.

Lemma backoff_exceeds_limit_witness :
  ∃ s, rrun (concat (replicate 5 [EvWake 0%nat 1%N; EvTimeout 0%nat])) (mkRState wit_entry [Sleeping] []) = Some s ∧
    ce_backoff (rs_entry s) = 6400 * 1000000 ∧ reconnectMaxBackoff < ce_backoff (rs_entry s).
Proof. apply (backoff_exceeds_limit wit_entry 1%N []); reflexivity. Defined.

Lemma reconnect_loses_direct_route_witness :
  ∀ key, DirectRoute (reconnect_OnConnStart wit_entry empty_world 5%N).1 0%nat key [5%N] = None.
Proof.
  apply (reconnect_loses_direct_route empty_world (mkPool [] HashRoute) wit_entry
    (mkServerNode "a" "" "" "" "") "gateway" 5%N 1%N 0%nat). reflexivity.
Defined.
