(* ===== verification/Registry.v ===== *)
(** * The registry of backends

    [pkg/registry.go]: one pool per backend service, and the interface
    [BackendRouter] through which the servers use it. *)

From S2P Require Import Prelude GoLib Proto Zinx Conf Pool Models.
#[local] Open Scope Z_scope.

(** What a server needs of its registry: a connection of the named backend for
    a routing key, or none. *)
Class BackendRouter (R : Type) := RouteTo : R → string → string → option Conn.

(** A fixed routing table, for evaluating the servers on their own. *)
#[export] Instance table_router : BackendRouter (string → string → option Conn) := λ f, f.

Record Registry (W : Type) := mkRegistry {
  rg_backends : gmap string (Pool W); rg_identity : string }.
Arguments mkRegistry {W}.
Arguments rg_backends {W}.
Arguments rg_identity {W}.

Section registry.
Context `{Zinx W}.
Implicit Types (r : Registry W) (w : W).

Definition NewRegistry (identity : string) : Registry W := mkRegistry ∅ identity.

Definition set_backends r (m : gmap string (Pool W)) : Registry W :=
  mkRegistry m (rg_identity r).

(** [Registry.Dial] *)
Definition reg_Dial (cfg : Config) r w (service : string) (routers : list (Z * Router))
    (routeFn : RouteFunc W) (dw : DialWorld) : result (Registry W * W * list Effect) :=
  Dial cfg w service routers routeFn (rg_identity r) dw ≫= λ '(pool, w, es, _),
  Ok (set_backends r (<[service := pool]> (rg_backends r)), w, es).

(** [Registry.RouteTo] *)
Definition reg_RouteTo r w (draw : nat) (backend key : string) : option Conn :=
  rg_backends r !! backend ≫= λ p, Route p w draw key.

(** [Registry.Pool] *)
Definition reg_Pool r (backend : string) : option (Pool W) := rg_backends r !! backend.

Definition reg_SetPool r (backend : string) (p : Pool W) : Registry W :=
  set_backends r (<[backend := p]> (rg_backends r)).

(** [CleanupBackends], visiting the backends in the order [order] of the map
    iteration. *)
Fixpoint CleanupBackends r (keep : gset string) (order : list string) :
    Registry W * list Effect :=
  match order with
  | [] => (r, [])
  | name :: order =>
      if decide (name ∈ keep) then CleanupBackends r keep order
      else
        let es := from_option (λ p, (Close p).2) [] (rg_backends r !! name) in
        let '(r, es') :=
          CleanupBackends (set_backends r (delete name (rg_backends r))) keep order in
        (r, es ++ es')
  end.

(** [SyncBackend], with what [Sync] needs to know of the world. *)
Definition SyncBackend (cfg : Config) r w (service : string) (routers : list (Z * Router))
    (routeFn : RouteFunc W) (dialed : string → Dialed * N)
    (order_wanted : list (string * ServerNode)) (order_current : list string) :
    result (Registry W * W * list Effect) :=
  match rg_backends r !! service with
  | None => Ok (r, w, [])
  | Some pool =>
      Sync pool w (services_of cfg service) routers routeFn (rg_identity r) dialed
        order_wanted order_current ≫= λ '(pool, w, es),
      Ok (reg_SetPool r service pool, w, es)
  end.
End registry.

(** The registry together with the runtime and the next random draw implements
    the interface. *)
#[export] Instance registry_router `{Zinx W} : BackendRouter (Registry W * W * nat) :=
  λ '(r, w, draw) backend key, reg_RouteTo r w draw backend key.

(** * Theorems *)

Section theorems.
Context `{Zinx W}.
Implicit Types (r : Registry W) (w : W).

Lemma cleanup_backends_lookup r keep order name :
  rg_backends (CleanupBackends r keep order).1 !! name =
    if decide (name ∈ order ∧ name ∉ keep) then None else rg_backends r !! name.
Proof.
  revert r. induction order as [|x order IH]; intros r; cbn [CleanupBackends].
  { rewrite decide_False; [done|]. intros [Hn _]. by apply elem_of_nil in Hn. }
  destruct (decide (x ∈ keep)) as [Hx|Hx].
  - rewrite IH. apply decide_ext. rewrite elem_of_cons. naive_solver.
  - specialize (IH (set_backends r (delete x (rg_backends r)))).
    destruct (CleanupBackends _ _ _) as [r' es']. simpl in *. rewrite IH.
    rewrite lookup_delete.
    repeat case_decide; rewrite ?elem_of_cons in *; naive_solver.
Qed.

Lemma cleanup_backends_effects r keep order name p c :
  rg_backends r !! name = Some p → name ∉ keep → name ∈ order → NoDup order →
  c ∈ HealthyConns p → StopConn c ∈ (CleanupBackends r keep order).2.
Proof.
  intros Hp Hk Hin Hnd Hc. revert r Hp Hin Hnd.
  induction order as [|x order IH]; intros r Hp Hin Hnd; [by apply elem_of_nil in Hin|].
  apply NoDup_cons in Hnd as [Hx Hnd]. simpl. case_decide as Hxk.
  { apply elem_of_cons in Hin as [->|Hin]; [done|]. by apply IH. }
  destruct (CleanupBackends _ _ _) as [r' es'] eqn:Hc'. simpl.
  apply elem_of_app. apply elem_of_cons in Hin as [->|Hin].
  - left. rewrite Hp. simpl. apply HealthyConns_entry in Hc as (e & He & Hec & _).
    apply list_elem_of_omap. exists e. split; [done|]. by rewrite Hec.
  - right. change es' with ((r', es').2). rewrite <-Hc'. apply IH; [|done|done].
    simpl. rewrite lookup_delete_ne; [done|]. intros ->. done.
Qed.

(** C28: [CleanupBackends] removes exactly the backends that are not kept,
    whatever order it visits them in: a removed backend routes nowhere and
    all its healthy connections are stopped, a kept one routes as before. *)
Theorem cleanup_removes_exactly r w draw keep order :
  order ≡ₚ (map_to_list (rg_backends r)).*1 →
  let r' := (CleanupBackends r keep order).1 in
  let es := (CleanupBackends r keep order).2 in
  (∀ name key, name ∈ keep → RouteTo (r', w, draw) name key = RouteTo (r, w, draw) name key) ∧
  (∀ name key, name ∉ keep → RouteTo (r', w, draw) name key = None) ∧
  (∀ name p c, rg_backends r !! name = Some p → name ∉ keep → c ∈ HealthyConns p →
     StopConn c ∈ es).
Proof.
  intros Hord.
  assert (∀ name, name ∈ order ↔ is_Some (rg_backends r !! name)) as Hdom.
  { intros name. rewrite Hord, list_elem_of_fmap. split.
    - intros ([x p] & -> & Hx%elem_of_map_to_list). by exists p.
    - intros [p Hp]. exists (name, p). by rewrite elem_of_map_to_list. }
  cbn zeta. split_and!.
  - intros name key Hk. unfold RouteTo, registry_router, reg_RouteTo.
    rewrite cleanup_backends_lookup, decide_False by naive_solver. done.
  - intros name key Hk. unfold RouteTo, registry_router, reg_RouteTo.
    rewrite cleanup_backends_lookup. case_decide as Hd; [done|].
    destruct (rg_backends r !! name) eqn:Hl; [|done].
    exfalso. apply Hd. split; [apply Hdom|]; eauto.
  - intros name p c Hp Hk Hc. eapply cleanup_backends_effects; eauto.
    + apply Hdom; eauto.
    + rewrite Hord. apply NoDup_fst_map_to_list.
Qed.
End theorems.

(** ** Concrete inputs *)

Definition wit_registry : Registry World :=
  mkRegistry {[ "roomsvr"%string :=
    mkPool [entry_up 1%N 4%N (new_entry "127.0.0.1:9000" [] "gateway" second)] HashRoute ]} "gateway".

Lemma cleanup_removes_exactly_witness :
  StopConn 1%N ∈ (CleanupBackends wit_registry ∅ ["roomsvr"%string]).2.
Proof.
  refine (proj2 (proj2 (cleanup_removes_exactly wit_registry empty_world 0%nat ∅ ["roomsvr"%string] _))
    "roomsvr"%string _ 1%N eq_refl _ _).
  - evaluate.
  - evaluate.
  - left.
Defined.
