(* ===== verification/Store.v ===== *)
(** * The journal and snapshot store

    [pkg/persist/store.go].  The files of the data directory are part of the
    state; an operating-system call that may fail takes its outcome as an
    argument.  [Snapshot] is in two parts, because it writes the snapshot file
    without holding the lock that [Append] takes. *)

From S2P Require Import Prelude GoLib.
#[local] Open Scope Z_scope.

(** ** Reading lines: [bufio.Scanner] with [ScanLines] *)

Definition newline : byte := Byte.x0a.
Definition carriage_return : byte := Byte.x0d.

(** [bufio.MaxScanTokenSize] *)
Definition MaxScanTokenSize : Z := 64 * 1024.

(** The lines of a file, without their newlines; the last one may be
    unterminated, and an empty unterminated rest is no line. *)
Fixpoint split_lines (cur : bytes) (b : bytes) : list bytes :=
  match b with
  | [] => if decide (cur = []) then [] else [cur]
  | c :: b => if decide (c = newline) then cur :: split_lines [] b
              else split_lines (cur ++ [c]) b
  end.

Definition drop_cr (l : bytes) : bytes :=
  if decide (last l = Some carriage_return) then take (length l - 1) l else l.

(** The tokens [Scan] yields, and whether it ends with [ErrTooLong]. *)
Fixpoint scan_tokens (ls : list bytes) : list bytes * bool :=
  match ls with
  | [] => ([], false)
  | l :: ls =>
      if MaxScanTokenSize <=? Z.of_nat (length l) then ([], true)
      else let '(ts, e) := scan_tokens ls in (drop_cr l :: ts, e)
  end.

Definition Scan (file : bytes) : list bytes * bool := scan_tokens (split_lines [] file).

(** ** Configuration and state *)

(** The callbacks of a service with in-memory state [S]; a replay or load that
    fails says so next to the state it leaves. *)
Record StoreConfig (S : Type) := mkStoreConfig {
  sc_Snapshot : option (S → option bytes);
  sc_LoadSnapshot : option (bytes → S → S * bool);
  sc_Replay : option (bytes → S → S * bool);
  sc_SnapshotInterval : Z;
  sc_MaxJournalSize : Z }.
Arguments mkStoreConfig {S}.
Arguments sc_Snapshot {S}.
Arguments sc_LoadSnapshot {S}.
Arguments sc_Replay {S}.
Arguments sc_SnapshotInterval {S}.
Arguments sc_MaxJournalSize {S}.

Definition defaultSnapshotInterval : Z := 30 * 1000000000.
Definition defaultMaxJournalSize : Z := 256 * 1024 * 1024.

(** The files of the data directory: [snapshot.json], its temporary, and
    [journal.log]. *)
Record Files := mkFiles {
  f_snapshot : option bytes; f_tmp : option bytes; f_journal : option bytes }.

Definition no_files : Files := mkFiles None None None.

(** An open store: [closed], whether the journal's file handle is open, and the
    sticky error of the buffered writer.  [Append] flushes, so the buffer is
    empty between calls unless that error is set. *)
Record Store := mkStore { st_closed : bool; st_open : bool; st_buferr : bool }.

Inductive StoreError :=
  | SnapshotRequired | LoadRequired | ReplayRequired
  | CreateDir | OpenJournal | StoreClosed | AppendFailed
  | SerializeFailed | WriteFailed | RenameFailed | RecreateFailed
  | ReplayEntry (n : nat) | ScanTooLong | OpenFailed | CloseFailed.

Section store.
Context {S : Type}.
Implicit Types (s : S) (fs : Files) (cfg : StoreConfig S).

(** *** Recovery *)

Fixpoint replay_tokens (replay : bytes → S → S * bool) (count : nat) (ts : list bytes) s :
    S * option StoreError :=
  match ts with
  | [] => (s, None)
  | t :: ts =>
      if decide (t = []) then replay_tokens replay count ts s
      else match replay t s with
           | (s, true) => (s, Some (ReplayEntry count))
           | (s, false) => replay_tokens replay (count + 1) ts s
           end
  end.

(** [open_ok] is false when [os.Open] fails for a reason other than a missing
    file. *)
Definition replayJournal (replay : bytes → S → S * bool) fs (open_ok : bool) s :
    S * option StoreError :=
  match f_journal fs with
  | None => (s, None)
  | Some file =>
      if negb open_ok then (s, Some OpenFailed)
      else
        let '(ts, too_long) := Scan file in
        match replay_tokens replay 0 ts s with
        | (s, Some e) => (s, Some e)
        | (s, None) => (s, if too_long : bool then Some ScanTooLong else None)
        end
  end.

(** [os.ReadFile] and [cfg.LoadSnapshot]: an error is only logged. *)
Definition load_snapshot (load : bytes → S → S * bool) fs (read_ok : bool) s : S :=
  match f_snapshot fs with
  | Some data => if read_ok then (load data s).1 else s
  | None => s
  end.

Record OpenOutcome := mkOpenOutcome {
  oo_mkdir : bool; oo_read : bool; oo_open : bool; oo_append : bool }.
Definition open_all_ok : OpenOutcome := mkOpenOutcome true true true true.

Definition set_defaults cfg : StoreConfig S :=
  mkStoreConfig (sc_Snapshot cfg) (sc_LoadSnapshot cfg) (sc_Replay cfg)
    (if sc_SnapshotInterval cfg <=? 0 then defaultSnapshotInterval
     else sc_SnapshotInterval cfg)
    (if sc_MaxJournalSize cfg <=? 0 then defaultMaxJournalSize
     else sc_MaxJournalSize cfg).

(** [OpenStore]: the recovered state, the files, and the open store with its
    configuration or an error. *)
Definition OpenStore cfg (o : OpenOutcome) fs s :
    S * Files * (Store * StoreConfig S + StoreError) :=
  match sc_Snapshot cfg, sc_LoadSnapshot cfg, sc_Replay cfg with
  | None, _, _ => (s, fs, inr SnapshotRequired)
  | Some _, None, _ => (s, fs, inr LoadRequired)
  | Some _, Some _, None => (s, fs, inr ReplayRequired)
  | Some _, Some load, Some replay =>
      if negb (oo_mkdir o) then (s, fs, inr CreateDir)
      else
        let s := load_snapshot load fs (oo_read o) s in
        let s := (replayJournal replay fs (oo_open o) s).1 in
        if negb (oo_append o) then (s, fs, inr OpenJournal)
        else (s, mkFiles (f_snapshot fs) (f_tmp fs) (Some (default [] (f_journal fs))),
              inl (mkStore false true false, set_defaults cfg))
  end.

(** *** Appending *)

(** [write] is the number of bytes that reach the file before an error, or
    [None] when everything is written. *)
Definition Append (st : Store) fs (entry : bytes) (write : option nat) :
    Store * Files * option StoreError :=
  if st_closed st then (st, fs, Some StoreClosed)
  else if st_buferr st then (st, fs, Some AppendFailed)
  else
    let buf := entry ++ [newline] in
    if negb (st_open st) then (mkStore false (st_open st) true, fs, Some AppendFailed)
    else
      let put b := mkFiles (f_snapshot fs) (f_tmp fs) (Some (default [] (f_journal fs) ++ b)) in
      match write with
      | None => (st, put buf, None)
      | Some k => (mkStore false (st_open st) true, put (take k buf), Some AppendFailed)
      end.

(** *** Snapshots *)

Record SnapOutcome := mkSnapOutcome {
  so_write : option nat; so_rename : bool; so_remove : bool; so_reopen : bool }.
Definition snap_all_ok : SnapOutcome := mkSnapOutcome None true true true.

(** The part before the lock: serialise [s], write the temporary file, rename
    it over the snapshot. *)
Definition snapshot_write (snapshot : S → option bytes) (o : SnapOutcome) fs s :
    Files * option StoreError :=
  match snapshot s with
  | None => (fs, Some SerializeFailed)
  | Some data =>
      match so_write o with
      | Some k => (mkFiles (f_snapshot fs) (Some (take k data)) (f_journal fs), Some WriteFailed)
      | None =>
          if negb (so_rename o) then
            (mkFiles (f_snapshot fs) (Some data) (f_journal fs), Some RenameFailed)
          else (mkFiles (Some data) None (f_journal fs), None)
      end
  end.

(** The part under the lock: close and delete the journal, create an empty
    one. *)
Definition snapshot_rotate (o : SnapOutcome) (st : Store) fs :
    Store * Files * option StoreError :=
  if st_closed st then (st, fs, Some StoreClosed)
  else
    let left_over := if so_remove o then None else f_journal fs in
    if negb (so_reopen o) then
      (mkStore false false (st_buferr st), mkFiles (f_snapshot fs) (f_tmp fs) left_over,
       Some RecreateFailed)
    else
      (mkStore false true false,
       mkFiles (f_snapshot fs) (f_tmp fs) (Some (default [] left_over)), None).

Definition Snapshot (snapshot : S → option bytes) (o : SnapOutcome) (st : Store) fs s :
    Store * Files * option StoreError :=
  match snapshot_write snapshot o fs s with
  | (fs, Some e) => (st, fs, Some e)
  | (fs, None) => snapshot_rotate o st fs
  end.

(** [Close]: flushing writes nothing; closing the file fails when it has been
    closed before, or for a reason of its own when [close_ok] is false. *)
Definition store_Close (close_ok : bool) (st : Store) : Store * option StoreError :=
  (mkStore true false (st_buferr st),
   if st_open st && close_ok then None else Some CloseFailed).

(** [journalSize] and one tick of [StartAutoSnapshot]: nothing once the store
    is closed, otherwise a snapshot; the size limit only logs. *)
Definition journalSize fs : Z := Z.of_nat (length (default [] (f_journal fs))).

Definition auto_snapshot_tick (snapshot : S → option bytes) (o : SnapOutcome)
    (st : Store) fs s : Store * Files * option StoreError :=
  if st_closed st then (st, fs, None) else Snapshot snapshot o st fs s.
End store.

(** * Theorems *)

(** An entry that is one line of the journal and nothing else. *)
Definition wf_entry (e : bytes) : Prop :=
  e ≠ [] ∧ (newline ∉ e) ∧ last e ≠ Some carriage_return ∧ Z.of_nat (length e) < MaxScanTokenSize.

#[export] Instance wf_entry_dec e : Decision (wf_entry e).
Proof. unfold wf_entry. apply _. Defined.

(** What appending the entries [es] to an empty journal leaves in the file. *)
Definition journal_of (es : list bytes) : bytes := concat ((λ e, e ++ [newline]) <$> es).

Lemma journal_of_app es es' : journal_of (es ++ es') = journal_of es ++ journal_of es'.
Proof. unfold journal_of. by rewrite fmap_app, concat_app. Qed.

Lemma journal_of_cons e es rest :
  journal_of (e :: es) ++ rest = e ++ newline :: (journal_of es ++ rest).
Proof. unfold journal_of. simpl. by rewrite <-!app_assoc. Qed.

Lemma split_lines_line cur e rest :
  newline ∉ e → split_lines cur (e ++ newline :: rest) = (cur ++ e) :: split_lines [] rest.
Proof.
  revert cur. induction e as [|c e IH]; intros cur He; simpl.
  - by rewrite app_nil_r.
  - rewrite decide_False by set_solver. rewrite IH by set_solver. by rewrite <-app_assoc.
Qed.

Lemma split_lines_rest cur e :
  newline ∉ e → cur ++ e ≠ [] → split_lines cur e = [cur ++ e].
Proof.
  revert cur. induction e as [|c e IH]; intros cur He Hne; simpl.
  - rewrite app_nil_r in *. by rewrite decide_False.
  - rewrite decide_False by set_solver. rewrite IH; [by rewrite <-app_assoc|set_solver|].
    rewrite <-app_assoc. done.
Qed.

Lemma split_lines_journal es rest :
  Forall wf_entry es → split_lines [] (journal_of es ++ rest) = es ++ split_lines [] rest.
Proof.
  induction 1 as [|e es (Hne & Hnl & _) _ IH]; [done|].
  rewrite journal_of_cons, split_lines_line by done. simpl. by rewrite IH.
Qed.

Lemma drop_cr_wf e : wf_entry e → drop_cr e = e.
Proof. intros (_ & _ & Hcr & _). unfold drop_cr. by rewrite decide_False. Qed.

Lemma scan_tokens_wf es rest :
  Forall wf_entry es →
  scan_tokens (es ++ rest) = (es ++ (scan_tokens rest).1, (scan_tokens rest).2).
Proof.
  induction 1 as [|e es He _ IH]; simpl; [by destruct (scan_tokens rest)|].
  destruct (Z.leb_spec MaxScanTokenSize (Z.of_nat (length e))).
  { destruct He as (_ & _ & _ & ?). lia. }
  by rewrite IH, drop_cr_wf.
Qed.

Section recovery.
Context {S : Type}.
Context (snapshot : S → option bytes) (load replay : bytes → S → S * bool).
Implicit Types (s : S) (es : list bytes).

Definition replay_all es s : S := foldl (λ s e, (replay e s).1) s es.

Lemma replay_all_app es es' s : replay_all (es ++ es') s = replay_all es' (replay_all es s).
Proof. apply foldl_app. Qed.

Lemma replay_tokens_all n es rest s :
  Forall wf_entry es → (∀ e s, e ∈ es → (replay e s).2 = false) →
  replay_tokens replay n (es ++ rest) s =
    replay_tokens replay (n + length es)%nat rest (replay_all es s).
Proof.
  intros Hwf. revert n s. induction Hwf as [|e es He _ IH]; intros n s Hok; simpl.
  { by rewrite Nat.add_0_r. }
  rewrite decide_False by by destruct He.
  specialize (Hok e s (list_elem_of_here _ _)) as He0.
  destruct (replay e s) as [s' b]. simpl in *. subst b.
  rewrite IH by (intros; apply Hok; by right). f_equal. lia.
Qed.

Lemma replayJournal_lines fs es s :
  default [] (f_journal fs) = journal_of es →
  Forall wf_entry es → (∀ e s, e ∈ es → (replay e s).2 = false) →
  replayJournal replay fs true s = (replay_all es s, None).
Proof.
  intros Hj Hwf Hok. unfold replayJournal. destruct (f_journal fs) as [file|]; simpl in Hj.
  - subst file. unfold Scan. rewrite <-(app_nil_r (journal_of es)), split_lines_journal by done.
    rewrite scan_tokens_wf by done. simpl. rewrite app_nil_r.
    rewrite <-(app_nil_r es) at 1. by rewrite replay_tokens_all.
  - destruct es as [|e es]; [done|]. by destruct e.
Qed.
End recovery.

(** What a service must provide for its store to recover it: entries that are
    single lines and replay without error, a snapshot that loads back, and
    idempotent replay. *)
Class Durable {S : Type} (snapshot : S → option bytes) (load replay : bytes → S → S * bool)
    (s0 : S) := {
  dur_entry : bytes → Prop;
  dur_good : S → Prop;
  dur_entry_wf e : dur_entry e → wf_entry e;
  dur_entry_replay e s : dur_entry e → (replay e s).2 = false;
  dur_good_init : dur_good s0;
  dur_good_replay e s : dur_entry e → dur_good s → dur_good (replay e s).1;
  dur_snapshot s : dur_good s → ∃ data, snapshot s = Some data ∧ load data s0 = (s, false);
  dur_idempotent es s : Forall dur_entry es → dur_good s →
    replay_all replay es (replay_all replay es s) = replay_all replay es s;
}.

(** A service with its store: the in-memory state, the files, the store. *)
Record Sys (S : Type) := mkSys { sy_live : S; sy_files : Files; sy_store : Store }.
Arguments mkSys {S}.
Arguments sy_live {S}.
Arguments sy_files {S}.
Arguments sy_store {S}.

Section durability.
Context {S : Type} {snapshot : S → option bytes} {load replay : bytes → S → S * bool} {s0 : S}.
Context {D : Durable snapshot load replay s0}.

Definition dur_config (interval limit : Z) : StoreConfig S :=
  mkStoreConfig (Some snapshot) (Some load) (Some replay) interval limit.

(** Opening the store on [files], all calls succeeding. *)
Definition reopen (files : Files) : S * Files * (Store * StoreConfig S + StoreError) :=
  OpenStore (dur_config 0 0) open_all_ok files s0.

(** What the service and its environment do: update the state and append the
    entry; take a snapshot, whatever the system calls return; crash and
    restart, also between the two parts of a snapshot. *)
Inductive sys_step : Sys S → Sys S → Prop :=
  | sys_update e s fs st st' fs' :
      dur_entry e → Append st fs e None = (st', fs', None) →
      sys_step (mkSys s fs st) (mkSys (replay e s).1 fs' st')
  | sys_snapshot o s fs st st' fs' err :
      Snapshot snapshot o st fs s = (st', fs', err) →
      sys_step (mkSys s fs st) (mkSys s fs' st')
  | sys_crash s fs st s' fs' st' cfg :
      reopen fs = (s', fs', inl (st', cfg)) →
      sys_step (mkSys s fs st) (mkSys s' fs' st')
  | sys_crash_in_snapshot o s fs st fs1 err s' fs' st' cfg :
      snapshot_write snapshot o fs s = (fs1, err) →
      reopen fs1 = (s', fs', inl (st', cfg)) →
      sys_step (mkSys s fs st) (mkSys s' fs' st').

(** The live state is the snapshot with the journal replayed over it. *)
Definition durable_inv (y : Sys S) : Prop :=
  ∃ es, Forall dur_entry es ∧
    default [] (f_journal (sy_files y)) = journal_of es ∧
    dur_good (load_snapshot load (sy_files y) true s0) ∧
    replay_all replay es (load_snapshot load (sy_files y) true s0) = sy_live y.

Lemma replay_all_good es s :
  Forall dur_entry es → dur_good s → dur_good (replay_all replay es s).
Proof.
  intros Hes. revert s. induction Hes as [|e es He _ IH]; intros s Hs; [done|].
  apply IH. by apply dur_good_replay.
Qed.

Lemma dur_wf es : Forall dur_entry es → Forall wf_entry es.
Proof. intros H. eapply Forall_impl; [done|]. apply dur_entry_wf. Qed.

Lemma reopen_live y :
  durable_inv y →
  ∃ fs' st' cfg, reopen (sy_files y) = (sy_live y, fs', inl (st', cfg)) ∧
    f_snapshot fs' = f_snapshot (sy_files y) ∧
    default [] (f_journal fs') = default [] (f_journal (sy_files y)).
Proof.
  intros (es & Hes & Hj & Hg & Hl). unfold reopen, OpenStore. simpl.
  rewrite (replayJournal_lines replay (sy_files y) es _ Hj); [|by apply dur_wf|].
  - rewrite Hl. eauto 10.
  - intros e s He. apply dur_entry_replay. by eapply Forall_forall in He.
Qed.

Lemma durable_files y fs' st' :
  durable_inv y → f_snapshot fs' = f_snapshot (sy_files y) →
  default [] (f_journal fs') = default [] (f_journal (sy_files y)) →
  durable_inv (mkSys (sy_live y) fs' st').
Proof.
  intros (es & Hes & Hj & Hg & Hl) Hs Hj'. exists es. simpl.
  rewrite Hj', Hj. unfold load_snapshot in *. by rewrite Hs.
Qed.

(** Replacing the snapshot by one of the live state keeps the journal valid,
    because replay is idempotent. *)
Lemma snapshot_write_inv o s fs st fs1 err :
  durable_inv (mkSys s fs st) → snapshot_write snapshot o fs s = (fs1, err) →
  durable_inv (mkSys s fs1 st) ∧ f_journal fs1 = f_journal fs ∧
  (err = None → load_snapshot load fs1 true s0 = s ∧ dur_good s).
Proof.
  intros Hinv. pose proof Hinv as (es & Hes & Hj & Hg & Hl). simpl in *.
  assert (dur_good s) as Hgs by (rewrite <-Hl; by apply replay_all_good).
  destruct (dur_snapshot s Hgs) as (data & Hsnap & Hload).
  unfold snapshot_write. rewrite Hsnap.
  destruct (so_write o) as [k|]; [intros [= <- <-]|].
  { split; [|done]. by apply (durable_files (mkSys s fs st)). }
  destruct (so_rename o); intros [= <- <-]; simpl.
  - split; [|split; [done|]].
    + exists es. unfold load_snapshot. simpl. rewrite Hload. split_and!; try done.
      rewrite <-Hl. by apply dur_idempotent.
    + intros _. unfold load_snapshot. simpl. by rewrite Hload.
  - split; [|done]. by apply (durable_files (mkSys s fs st)).
Qed.

Lemma sys_step_inv y y' : durable_inv y → sys_step y y' → durable_inv y'.
Proof.
  intros Hinv Hstep. destruct Hstep as
    [e s fs st st' fs' He HA|o s fs st st' fs' err HS|s fs st s' fs' st' cfg Ho
    |o s fs st fs1 err s' fs' st' cfg HW Ho].
  - destruct Hinv as (es & Hes & Hj & Hg & Hl). simpl in *.
    unfold Append in HA. repeat case_match; try discriminate. injection HA as <- <-.
    exists (es ++ [e]). simpl. unfold load_snapshot in *. simpl.
    rewrite Forall_app, Forall_singleton, journal_of_app, Hj, replay_all_app.
    split_and!; [done|done| |done|by rewrite <-Hl].
    unfold journal_of. simpl. by rewrite app_nil_r.
  - unfold Snapshot in HS. destruct (snapshot_write _ _ _ _) as [fs1 err1] eqn:HW.
    destruct (snapshot_write_inv _ _ _ _ _ _ Hinv HW) as (Hinv1 & Hj1 & Hnone).
    destruct err1 as [e1|]; [by injection HS as <- <- <-|].
    destruct (Hnone eq_refl) as [Hls Hgs].
    unfold snapshot_rotate in HS. destruct (st_closed st); [by injection HS as <- <- <-|].
    assert (∀ fs2 j, f_snapshot fs2 = f_snapshot fs1 →
      default [] (f_journal fs2) = default [] (if j : bool then None else f_journal fs1) →
      ∀ st2, durable_inv (mkSys s fs2 st2)) as Hrot.
    { intros fs2 [] Hs2 Hj2 st2; [|by eapply (durable_files (mkSys s fs1 st))].
      exists []. simpl. rewrite Hj2. unfold load_snapshot in *. rewrite Hs2, Hls. done. }
    destruct (so_reopen o); injection HS as <- <- <-; by eapply (Hrot _ (so_remove o)).
  - destruct (reopen_live _ Hinv) as (fs2 & st2 & cfg2 & Ho2 & Hs2 & Hj2). simpl in *.
    rewrite Ho2 in Ho. injection Ho as <- <- <- <-. by apply (durable_files (mkSys s fs st)).
  - destruct (snapshot_write_inv _ _ _ _ _ _ Hinv HW) as (Hinv1 & _).
    destruct (reopen_live _ Hinv1) as (fs2 & st2 & cfg2 & Ho2 & Hs2 & Hj2). simpl in *.
    rewrite Ho2 in Ho. injection Ho as <- <- <- <-. by apply (durable_files (mkSys s fs1 st)).
Qed.

Lemma durable_run y st :
  rtc sys_step (mkSys s0 no_files st) y → durable_inv y.
Proof.
  intros Hrun. assert (durable_inv (mkSys s0 no_files st)) as Hinit.
  { exists []. split_and!; try done. apply dur_good_init. }
  revert Hinit. induction Hrun; eauto using sys_step_inv.
Qed.
End durability.

(** ** Properties *)

(** A run of successful appends. *)
Definition append_all (st : Store) (fs : Files) (es : list bytes) : Files :=
  foldl (λ fs e, (Append st fs e None).1.2) fs es.

Definition open_store : Store := mkStore false true false.

Lemma append_all_journal fs es :
  append_all open_store fs es =
    mkFiles (f_snapshot fs) (f_tmp fs)
      (match es with [] => f_journal fs | _ => Some (default [] (f_journal fs) ++ journal_of es) end).
Proof.
  unfold append_all. revert fs. induction es as [|e es IH]; intros fs; [by destruct fs|].
  simpl. rewrite IH. simpl. f_equal. destruct es; simpl.
  - unfold journal_of. simpl. by rewrite app_nil_r.
  - f_equal. rewrite <-(app_nil_r (journal_of (e :: _))), journal_of_cons, app_nil_r.
    by rewrite <-!app_assoc.
Qed.

(** Entries appended to a new journal are read back by the scanner in
    order, one token per entry and without an error. *)
Theorem journal_roundtrip es :
  Forall wf_entry es →
  Scan (default [] (f_journal (append_all open_store no_files es))) = (es, false).
Proof.
  intros Hwf. rewrite append_all_journal. unfold Scan.
  assert (default [] (f_journal (mkFiles None None match es with [] => None
    | _ => Some (journal_of es) end)) = journal_of es ++ []) as Hj
    by (destruct es; simpl; by rewrite ?app_nil_r).
  simpl in *. rewrite Hj, split_lines_journal by done. simpl. rewrite scan_tokens_wf by done.
  simpl. by rewrite app_nil_r.
Qed.

Lemma journal_roundtrip_witness :
  Scan (default [] (f_journal (append_all open_store no_files [[Byte.x61]; [Byte.x62; Byte.x63]])))
    = ([[Byte.x61]; [Byte.x62; Byte.x63]], false).
Proof. apply journal_roundtrip. evaluate. Defined.

(** A service whose state is the last entry, for the witnesses. *)
Section register.
Definition reg_snapshot (s : bytes) : option bytes := Some s.
Definition reg_load (d : bytes) (_ : bytes) : bytes * bool := (d, false).
Definition reg_replay (e : bytes) (s : bytes) : bytes * bool :=
  if decide (head e = Some Byte.x7b) then (e, false) else (s, true).

Lemma reg_replay_all es s :
  Forall (λ e, wf_entry e ∧ head e = Some Byte.x7b) es →
  replay_all reg_replay es s = default s (last es).
Proof.
  intros Hes. revert s. induction Hes as [|e es [_ He] _ IH]; intros s; [done|].
  unfold replay_all in *. simpl. unfold reg_replay at 2.
  destruct (decide _) as [_|]; [|done]. simpl. rewrite IH.
  destruct es as [|e' es]; [done|].
  change (last (e :: e' :: es)) with (last (e' :: es)).
  destruct (last (e' :: es)) eqn:E; [done|]. by apply last_None in E.
Qed.

#[export] Instance reg_durable : Durable reg_snapshot reg_load reg_replay [].
Proof.
  refine {| dur_entry := λ e, wf_entry e ∧ head e = Some Byte.x7b; dur_good := λ _, True |};
    try done.
  - by intros e [].
  - intros e s [_ He]. unfold reg_replay. by destruct (decide _).
  - intros s _. by exists s.
  - intros es s Hes _. rewrite !reg_replay_all by done. by destruct (last es).
Defined.
End register.

Section durability_properties.
Context {S : Type} {snapshot : S → option bytes} {load replay : bytes → S → S * bool} {s0 : S}.
Context {D : Durable snapshot load replay s0}.

(** C2: After any sequence of updates that are journaled, snapshots in which any
    of the system calls may fail, and crashes (also between the two parts of a
    snapshot), opening the store again recovers the live state. *)
Theorem store_recovers_live y st :
  rtc (sys_step (D := D)) (mkSys s0 no_files st) y →
  ∃ fs' st' cfg,
    reopen (snapshot := snapshot) (load := load) (replay := replay) (s0 := s0) (sy_files y)
      = (sy_live y, fs', inl (st', cfg)) ∧
    st_closed st' = false ∧ st_open st' = true ∧ st_buferr st' = false.
Proof.
  intros Hrun. destruct (reopen_live y (durable_run _ _ Hrun)) as (fs' & st' & cfg & Ho & _).
  exists fs', st', cfg. split; [done|].
  unfold reopen, OpenStore in Ho. simpl in Ho. by injection Ho as _ _ <- _.
Qed.

(** C39: An entry appended while a snapshot is between writing its file and
    taking the lock is acknowledged, yet opening the store afterwards recovers
    the state without it. *)
Theorem append_during_snapshot_lost s fs e fs1 st2 fs2 st3 fs3 :
  durable_inv (D := D) (mkSys s fs open_store) → dur_entry e →
  snapshot_write snapshot snap_all_ok fs s = (fs1, None) →
  Append open_store fs1 e None = (st2, fs2, None) →
  snapshot_rotate snap_all_ok st2 fs2 = (st3, fs3, None) →
  (reopen (snapshot := snapshot) (load := load) (replay := replay) (s0 := s0) fs3).1.1 = s.
Proof.
  intros Hinv He HW HA HR.
  destruct (snapshot_write_inv _ _ _ _ _ _ Hinv HW) as (_ & _ & Hnone).
  destruct (Hnone eq_refl) as [Hls Hgs].
  unfold Append in HA. simpl in HA. injection HA as <- <-.
  unfold snapshot_rotate in HR. simpl in HR. injection HR as <- <-.
  unfold reopen, OpenStore. simpl. unfold load_snapshot in *. simpl. rewrite Hls.
  unfold replayJournal. simpl. done.
Qed.

(** When a crash leaves part of a line at the end of the journal, opening
    the store appends the next entry to that line; if the joined line does not
    replay, every later entry is lost at the following restart. *)
Theorem torn_line_loses_later_entries fs es torn e es' :
  Forall dur_entry es → f_journal fs = Some (journal_of es ++ torn) →
  torn ≠ [] → (newline ∉ torn) → wf_entry (torn ++ e) → Forall dur_entry es' →
  (∀ s, replay (torn ++ e) s = (s, true)) →
  (reopen (snapshot := snapshot) (load := load) (replay := replay) (s0 := s0)
     (append_all open_store fs (e :: es'))).1.1
  = replay_all replay es (load_snapshot load fs true s0).
Proof.
  intros Hes Hj Ht Hnl Hwf Hes' Hbad. rewrite append_all_journal.
  unfold reopen, OpenStore, load_snapshot. simpl. rewrite Hj. simpl.
  unfold replayJournal. simpl. unfold Scan.
  rewrite <-(app_nil_r (journal_of (e :: es'))), journal_of_cons.
  rewrite <-!app_assoc, split_lines_journal by (by apply dur_wf).
  rewrite (app_assoc torn e), split_lines_line by (by destruct Hwf as (_ & ? & _)).
  rewrite (split_lines_journal es' []) by (by apply dur_wf). simpl. rewrite app_nil_r.
  rewrite (scan_tokens_wf es) by (by apply dur_wf).
  rewrite <-(app_nil_r ((torn ++ e) :: es')), scan_tokens_wf
    by (constructor; [done|by apply dur_wf]). simpl.
  rewrite replay_tokens_all; [|by apply dur_wf|].
  - simpl. rewrite decide_False by (by destruct Hwf). by rewrite Hbad.
  - intros e' s He'. apply dur_entry_replay. by eapply Forall_forall in He'.
Qed.
End durability_properties.

Definition entry_a : bytes := [Byte.x7b; Byte.x61].
Definition entry_b : bytes := [Byte.x7b; Byte.x62].

Lemma entry_ok b : b = Byte.x61 ∨ b = Byte.x62 →
  wf_entry [Byte.x7b; b] ∧ head [Byte.x7b; b] = Some Byte.x7b.
Proof. intros [-> | ->]; evaluate. Qed.

Lemma store_recovers_live_witness :
  ∃ fs st cfg, reopen (snapshot := reg_snapshot) (load := reg_load) (replay := reg_replay)
      (s0 := []) (mkFiles (Some entry_a) None (Some (journal_of [entry_b])))
    = (entry_b, fs, inl (st, cfg)) ∧
    st_closed st = false ∧ st_open st = true ∧ st_buferr st = false.
Proof.
  apply (store_recovers_live (D := reg_durable)
    (mkSys entry_b (mkFiles (Some entry_a) None (Some (journal_of [entry_b]))) open_store) open_store).
  eapply rtc_l. { apply (sys_update (D := reg_durable) entry_a); [apply entry_ok; auto|reflexivity]. }
  eapply rtc_l. { eapply (sys_snapshot snap_all_ok); reflexivity. }
  eapply rtc_l. { apply (sys_update (D := reg_durable) entry_b); [apply entry_ok; auto|reflexivity]. }
  apply rtc_refl.
Defined.

Lemma append_during_snapshot_lost_witness :
  (reopen (snapshot := reg_snapshot) (load := reg_load) (replay := reg_replay) (s0 := [])
     (mkFiles (Some []) None (Some []))).1.1 = [] ∧ (reg_replay entry_a []).1 ≠ [].
Proof.
  split; [|done].
  eapply (append_during_snapshot_lost (D := reg_durable) [] no_files entry_a).
  - exists []. done.
  - apply entry_ok; auto.
  - reflexivity.
  - reflexivity.
  - reflexivity.
Defined.

Lemma torn_line_loses_later_entries_witness :
  (reopen (snapshot := reg_snapshot) (load := reg_load) (replay := reg_replay) (s0 := [])
     (append_all open_store (mkFiles None None (Some [Byte.x61])) [entry_a; entry_b])).1.1 = [].
Proof.
  apply (torn_line_loses_later_entries (D := reg_durable) (mkFiles None None (Some [Byte.x61]))
    [] [Byte.x61] entry_a [entry_b]).
  - constructor.
  - reflexivity.
  - discriminate.
  - evaluate.
  - evaluate.
  - constructor; [apply entry_ok; auto|constructor].
  - intros s. reflexivity.
Defined.
