(* ===== verification/Session.v ===== *)
(** * The session server

    [apps/sessionsvr/internal/router]: sessions by player, their journal, and
    the expiry scan.  The clock, the outcome of a journal write and the order
    of a map iteration are arguments. *)

From S2P Require Import Prelude GoLib Proto Zinx Registry Store Models.
#[local] Open Scope Z_scope.

(** ** State *)

Record Session := mkSession {
  s_PlayerID : Z; s_GatewayID : string; s_ConnTags : gomap; s_DisconnectedAt : Z }.

#[export] Instance Session_eq_dec : EqDecision Session.
Proof. solve_decision. Defined.

Definition fresh_session (playerID : Z) : Session := mkSession playerID "" None 0.

Abbreviation Sessions := (gmap Z Session) (only parsing).

(** [SessionTTL] in seconds *)
Definition SessionTTL : Z := 120.

Record journalEntry := mkJournalEntry {
  je_OP : string; je_PlayerID : Z; je_GatewayID : string; je_ConnTags : gomap;
  je_DisconnectedAt : Z; je_TS : Z }.

Record sessionPersist := mkSessionPersist {
  sp_PlayerID : Z; sp_GatewayID : string; sp_ConnTags : gomap; sp_DisconnectedAt : Z }.

(** The JSON texts of a journal entry and of a snapshot.  A snapshot with a
    null session, which [snapshotSessions] never writes, is not represented. *)
Class SessionJson := {
  json_entry : journalEntry → bytes;
  parse_entry : bytes → option journalEntry;
  json_state : gmap Z sessionPersist → bytes;
  parse_state : bytes → option (gmap Z sessionPersist);
}.

Definition valid_entry (e : journalEntry) : Prop :=
  utf8 (je_OP e) ∧ in_int64 (je_PlayerID e) ∧ utf8 (je_GatewayID e) ∧ tags_ok (je_ConnTags e) ∧
  in_int64 (je_DisconnectedAt e) ∧ in_int64 (je_TS e).
Definition canon_entry (e : journalEntry) : journalEntry :=
  mkJournalEntry (je_OP e) (je_PlayerID e) (je_GatewayID e) (canon_tags (je_ConnTags e))
    (je_DisconnectedAt e) (je_TS e).
Definition valid_persist (p : Z) (sp : sessionPersist) : Prop :=
  in_int64 p ∧ in_int64 (sp_PlayerID sp) ∧ utf8 (sp_GatewayID sp) ∧ tags_ok (sp_ConnTags sp) ∧
  in_int64 (sp_DisconnectedAt sp).
Definition canon_persist (sp : sessionPersist) : sessionPersist :=
  mkSessionPersist (sp_PlayerID sp) (sp_GatewayID sp) (canon_tags (sp_ConnTags sp))
    (sp_DisconnectedAt sp).

(** What [encoding/json] documents: valid UTF-8 strings and integers survive,
    an empty map marked omitempty comes back nil, and a value is one line. *)
Class SessionJsonLaws `{SessionJson} := {
  parse_json_entry e : valid_entry e → parse_entry (json_entry e) = Some (canon_entry e);
  json_entry_line e :
    json_entry e ≠ [] ∧ (newline ∉ json_entry e) ∧ last (json_entry e) ≠ Some carriage_return;
  parse_json_state m :
    map_Forall valid_persist m → parse_state (json_state m) = Some (canon_persist <$> m);
}.

Section sessions.
Context `{Proto, SessionJson, Zinx W, BackendRouter R}.
Implicit Types (m : Sessions) (w : W) (reg : R) (d : SessionData) (now : Z).

(** ** Persistence ([persist.go]) *)

Definition copyTags (src : gomap) : gomap :=
  match src with None => None | Some g => Some (map_fold (λ k v dst, <[k := v]> dst) ∅ g) end.

Definition snapshotSessions m : option bytes :=
  Some (json_state (map_fold (λ _ s state,
    <[s_PlayerID s := mkSessionPersist (s_PlayerID s) (s_GatewayID s) (copyTags (s_ConnTags s))
                        (s_DisconnectedAt s)]> state) ∅ m)).

Definition loadSnapshot (data : bytes) m : Sessions * bool :=
  match parse_state data with
  | None => (m, true)
  | Some state =>
      (map_fold (λ _ sp m,
         <[sp_PlayerID sp := mkSession (sp_PlayerID sp) (sp_GatewayID sp) (sp_ConnTags sp)
                               (sp_DisconnectedAt sp)]> m) m state, false)
  end.

(** The three cases of [replaySession]. *)
Definition replay_save (e : journalEntry) m : Sessions :=
  let s := default (fresh_session (je_PlayerID e)) (m !! je_PlayerID e) in
  <[je_PlayerID e :=
      mkSession (s_PlayerID s) (je_GatewayID e)
        (if je_ConnTags e is Some _ then je_ConnTags e else s_ConnTags s) 0]> m.

Definition replay_disconnect (e : journalEntry) m : Sessions :=
  match m !! je_PlayerID e with
  | None => m
  | Some s =>
      if bool_decide (s_GatewayID s ≠ ""%string) &&
         bool_decide (s_GatewayID s ≠ je_GatewayID e) then m
      else
        <[je_PlayerID e :=
            mkSession (s_PlayerID s)
              (if decide (s_GatewayID s = ""%string) then je_GatewayID e else s_GatewayID s)
              (if s_ConnTags s is None then je_ConnTags e else s_ConnTags s)
              (if decide (je_DisconnectedAt e ≠ 0) then je_DisconnectedAt e
               else s_DisconnectedAt s)]> m
  end.

Definition replay_reconnect (e : journalEntry) m : Sessions :=
  match m !! je_PlayerID e with
  | None => m
  | Some s =>
      <[je_PlayerID e :=
          mkSession (s_PlayerID s) (je_GatewayID e)
            (if je_ConnTags e is Some _ then je_ConnTags e else s_ConnTags s) 0]> m
  end.

Definition replay_entry (e : journalEntry) m : Sessions :=
  if decide (je_OP e = "save"%string) then replay_save e m
  else if decide (je_OP e = "disconnect"%string) then replay_disconnect e m
  else if decide (je_OP e = "reconnect"%string) then replay_reconnect e m
  else m.

Definition replaySession (entry : bytes) m : Sessions * bool :=
  match parse_entry entry with
  | None => (m, true)
  | Some e => (replay_entry e m, false)
  end.

(** [InitStore]'s configuration *)
Definition session_store_config : StoreConfig Sessions :=
  mkStoreConfig (Some snapshotSessions) (Some loadSnapshot) (Some replaySession) 0 0.

(** The package's variables: [sessions], [store], and the files behind it. *)
Record SessSt := mkSessSt {
  ss_sessions : Sessions; ss_store : option Store; ss_files : Files }.

(** Sampled by a handler: the clock in seconds and in milliseconds, and the
    outcome of the journal write. *)
Record Env := mkEnv { env_now : Z; env_millis : Z; env_write : option nat }.

Definition journalAppend (env : Env) (e : journalEntry) (st : SessSt) : SessSt :=
  match ss_store st with
  | None => st
  | Some store =>
      let e := mkJournalEntry (je_OP e) (je_PlayerID e) (je_GatewayID e) (je_ConnTags e)
                 (je_DisconnectedAt e) (env_millis env) in
      let '(store, fs, _) := Append store (ss_files st) (json_entry e) (env_write env) in
      mkSessSt (ss_sessions st) (Some store) fs
  end.

(** ** Handlers ([session_router.go]) *)

Definition set_sessions (st : SessSt) m : SessSt := mkSessSt m (ss_store st) (ss_files st).

Definition handleSave (env : Env) (request : Request) (st : SessSt) : SessSt * list Effect :=
  match unmarshal (A := SessionData) (rq_data request) with
  | None => (st, [])
  | Some d =>
      let s := default (fresh_session (sd_PlayerId d)) (ss_sessions st !! sd_PlayerId d) in
      let st := set_sessions st (<[sd_PlayerId d :=
        mkSession (s_PlayerID s) (sd_GatewayId d) (sd_ConnTags d) 0]> (ss_sessions st)) in
      (journalAppend env
         (mkJournalEntry "save" (sd_PlayerId d) (sd_GatewayId d) (sd_ConnTags d) 0 0) st, [])
  end.

Definition handleGet (request : Request) (st : SessSt) : SessSt * list Effect :=
  match unmarshal (A := SessionData) (rq_data request) with
  | None => (st, [])
  | Some d =>
      let resp := match ss_sessions st !! sd_PlayerId d with
                  | Some s => mkSessionData (sd_PlayerId d) (s_GatewayID s) (s_ConnTags s)
                                (s_DisconnectedAt s)
                  | None => mkSessionData (sd_PlayerId d) "" None 0
                  end in
      (st, [SendMsg (rq_conn request) MsgIdSessionGet (marshal resp)])
  end.

Definition handleDisconnect (env : Env) (request : Request) (st : SessSt) :
    SessSt * list Effect :=
  match unmarshal (A := SessionData) (rq_data request) with
  | None => (st, [])
  | Some d =>
      let s := default (fresh_session (sd_PlayerId d)) (ss_sessions st !! sd_PlayerId d) in
      let st := set_sessions st (<[sd_PlayerId d := s]> (ss_sessions st)) in
      if bool_decide (s_GatewayID s ≠ ""%string) &&
         bool_decide (s_GatewayID s ≠ sd_GatewayId d) then (st, [])
      else
        let s := mkSession (s_PlayerID s)
          (if decide (s_GatewayID s = ""%string) then sd_GatewayId d else s_GatewayID s)
          (if s_ConnTags s is None then sd_ConnTags d else s_ConnTags s) (env_now env) in
        let st := set_sessions st (<[sd_PlayerId d := s]> (ss_sessions st)) in
        (journalAppend env
           (mkJournalEntry "disconnect" (sd_PlayerId d) (sd_GatewayId d) (sd_ConnTags d)
              (env_now env) 0) st, [])
  end.

(** [server] is the running server, if the router has one. *)
Definition handleReconnect (env : Env) (server : option W) (request : Request) (st : SessSt) :
    SessSt * list Effect :=
  match unmarshal (A := SessionData) (rq_data request) with
  | None => (st, [])
  | Some d =>
      match ss_sessions st !! sd_PlayerId d with
      | None => (st, [])
      | Some s =>
          let oldGatewayID := s_GatewayID s in
          let tags := if (0 <? mlen (sd_ConnTags d))%nat then sd_ConnTags d else s_ConnTags s in
          let s := mkSession (s_PlayerID s) (sd_GatewayId d) tags 0 in
          let resp := marshal
            (mkSessionData (s_PlayerID s) (s_GatewayID s) (s_ConnTags s) 0) in
          let st := set_sessions st (<[sd_PlayerId d := s]> (ss_sessions st)) in
          let st := journalAppend env
            (mkJournalEntry "reconnect" (sd_PlayerId d) (sd_GatewayId d) (sd_ConnTags d) 0 0)
            st in
          let invalidations :=
            match server with
            | Some w =>
                if bool_decide (oldGatewayID ≠ ""%string) &&
                   bool_decide (oldGatewayID ≠ sd_GatewayId d) then
                  (λ c, SendMsg c MsgIdSessionInvalidate
                     (marshal (mkSessionData (sd_PlayerId d) oldGatewayID None 0)))
                    <$> ConnMgrRange w
                else []
            | None => []
            end in
          (st, SendMsg (rq_conn request) MsgIdSessionReconnect resp :: invalidations)
      end
  end.

(** [SessionRouter.Handle] *)
Definition session_Handle (env : Env) (server : option W) (request : Request) (st : SessSt) :
    SessSt * list Effect :=
  if rq_msgID request =? MsgIdSessionSave then handleSave env request st
  else if rq_msgID request =? MsgIdSessionGet then handleGet request st
  else if rq_msgID request =? MsgIdSessionDisconnect then handleDisconnect env request st
  else if rq_msgID request =? MsgIdSessionReconnect then handleReconnect env server request st
  else (st, []).

(** ** Expiry ([expiry.go]) *)

Definition notifyForceLeaveRoom reg (playerID : Z) (matchID serverID : string) : list Effect :=
  let key := if decide (serverID = ""%string) then matchID else serverID in
  match RouteTo reg SvcRoomSvr key with
  | None => []
  | Some c => [SendMsg c MsgIdSessionForceLeave
                 (marshal (mkSessionData playerID "" (mlit [(TagMatchID, matchID)]) 0))]
  end.

Definition notifyForceLeaveQueue reg (playerID : Z) (matchType : string) : list Effect :=
  match RouteTo reg SvcMatchSvr matchType with
  | None => []
  | Some c => [SendMsg c MsgIdSessionForceLeaveQueue
                 (marshal (mkSessionData playerID "" (mlit [(TagMatchType, matchType)]) 0))]
  end.

(** The check under the read lock. *)
Definition expire_check now (s : Session) : bool :=
  negb (s_DisconnectedAt s =? 0) && negb (int64 (now - s_DisconnectedAt s) <? SessionTTL).

(** The check under the write lock, the deletion and the notifications. *)
Definition expire_commit reg now (key : Z) (st : SessSt) : SessSt * list Effect :=
  match ss_sessions st !! key with
  | None => (st, [])
  | Some s =>
      if negb (s_DisconnectedAt s =? 0) && (SessionTTL <=? int64 (now - s_DisconnectedAt s)) then
        let matchID := mget (s_ConnTags s) TagMatchID in
        let matchType := mget (s_ConnTags s) TagMatchType in
        let roomSvrID := mget (s_ConnTags s) TagRoomSvrID in
        (set_sessions st (delete key (ss_sessions st)),
         (if decide (matchID ≠ ""%string)
          then notifyForceLeaveRoom reg (s_PlayerID s) matchID roomSvrID else []) ++
         (if decide (matchType ≠ ""%string)
          then notifyForceLeaveQueue reg (s_PlayerID s) matchType else []))
      else (st, [])
  end.

(** One tick, over the keys in the order [Range] visits them. *)
Fixpoint expiry_tick reg now (keys : list Z) (st : SessSt) : SessSt * list Effect :=
  match keys with
  | [] => (st, [])
  | key :: keys =>
      let '(st, es) :=
        match ss_sessions st !! key with
        | Some s => if expire_check now s then expire_commit reg now key st else (st, [])
        | None => (st, [])
        end in
      let '(st, es') := expiry_tick reg now keys st in
      (st, es ++ es')
  end.
End sessions.

(** * Theorems *)

Section handlers.
Context `{ProtoLaws, SessionJson, Zinx W, BackendRouter R}.
Implicit Types (m : Sessions) (w : W) (reg : R) (d : SessionData) (now : Z) (st : SessSt).

Lemma journalAppend_sessions env e st :
  ss_sessions (journalAppend env e st) = ss_sessions st.
Proof.
  unfold journalAppend. destruct (ss_store st); [|done].
  by destruct (Append _ _ _ _) as [[??]?].
Qed.

(** A disconnect report is accepted when the session is unowned or owned by
    the reporting gateway. *)
Definition accepts_disconnect m d : Prop :=
  match m !! sd_PlayerId d with
  | None => True
  | Some s => s_GatewayID s = ""%string ∨ s_GatewayID s = sd_GatewayId d
  end.
#[export] Instance accepts_disconnect_dec m d : Decision (accepts_disconnect m d).
Proof. unfold accepts_disconnect. destruct (m !! _); apply _. Defined.

Lemma stale_guard (g g' : string) :
  bool_decide (g ≠ ""%string) && bool_decide (g ≠ g') =
    negb (bool_decide (g = ""%string ∨ g = g')).
Proof. repeat case_bool_decide; naive_solver. Qed.

Lemma handleDisconnect_stale env request st d s :
  unmarshal (rq_data request) = Some d →
  ss_sessions st !! sd_PlayerId d = Some s →
  s_GatewayID s ≠ ""%string → s_GatewayID s ≠ sd_GatewayId d →
  handleDisconnect env request st = (st, []).
Proof.
  intros Hd Hs Hne Hst. unfold handleDisconnect. rewrite Hd, Hs. simpl.
  rewrite !bool_decide_true by done. simpl. unfold set_sessions.
  rewrite insert_id by done. by destruct st.
Qed.

(** C16: A disconnect report marks the player's session disconnected at the
    current time, under the gateway that reported it, exactly when no other
    gateway owns the session; a report from any other gateway changes nothing,
    in memory or in the journal. *)
Theorem disconnect_respects_owner env request st d :
  unmarshal (rq_data request) = Some d →
  let st' := (handleDisconnect env request st).1 in
  (handleDisconnect env request st).2 = [] ∧
  (accepts_disconnect (ss_sessions st) d → sd_GatewayId d ≠ ""%string →
     ∃ s', ss_sessions st' = <[sd_PlayerId d := s']> (ss_sessions st) ∧
       s_GatewayID s' = sd_GatewayId d ∧ s_DisconnectedAt s' = env_now env ∧
       (∀ s, ss_sessions st !! sd_PlayerId d = Some s →
          s_ConnTags s ≠ None → s_ConnTags s' = s_ConnTags s)) ∧
  (¬ accepts_disconnect (ss_sessions st) d → st' = st).
Proof.
  intros Hd. cbn zeta. split; [|split].
  - unfold handleDisconnect. rewrite Hd. simpl. by case_match.
  - intros Hacc Hne. unfold handleDisconnect. rewrite Hd. cbn zeta.
    rewrite stale_guard. unfold accepts_disconnect in Hacc.
    destruct (ss_sessions st !! sd_PlayerId d) as [s|] eqn:Hs; simpl.
    + rewrite bool_decide_true by done. simpl. rewrite journalAppend_sessions. simpl.
      rewrite insert_insert_eq. eexists. split; [done|]. simpl. split_and!; [|done|].
      * destruct (decide _); naive_solver.
      * intros ? [= <-]. by destruct (s_ConnTags s).
    + rewrite journalAppend_sessions. simpl. rewrite insert_insert_eq.
      eexists. split; [done|]. done.
  - intros Hacc. unfold accepts_disconnect in Hacc.
    destruct (ss_sessions st !! sd_PlayerId d) as [s|] eqn:Hs; [|done].
    rewrite (handleDisconnect_stale _ _ _ d s); naive_solver.
Qed.

Lemma handleReconnect_Some env server request st d s :
  unmarshal (rq_data request) = Some d → ss_sessions st !! sd_PlayerId d = Some s →
  ∃ tags, ss_sessions (handleReconnect env server request st).1 =
    <[sd_PlayerId d := mkSession (s_PlayerID s) (sd_GatewayId d) tags 0]> (ss_sessions st) ∧
    (tags = s_ConnTags s ∨ tags = sd_ConnTags d).
Proof.
  intros Hd Hs. unfold handleReconnect. rewrite Hd, Hs. cbn [fst].
  rewrite journalAppend_sessions. eexists. split; [done|]. destruct (_ <? _)%nat; auto.
Qed.

(** When a player reconnects through a second gateway, the new gateway is
    answered, every connection of the server is told to invalidate the player
    on the first gateway, and a disconnect report the first gateway sends
    afterwards is ignored, so the session stays connected. *)
Theorem takeover_blocks_old_gateway env env' w req req' st d d' s :
  unmarshal (rq_data req) = Some d → ss_sessions st !! sd_PlayerId d = Some s →
  s_GatewayID s ≠ ""%string → sd_GatewayId d ≠ ""%string → sd_GatewayId d ≠ s_GatewayID s →
  unmarshal (rq_data req') = Some d' → sd_PlayerId d' = sd_PlayerId d →
  sd_GatewayId d' = s_GatewayID s →
  let st1 := (handleReconnect env (Some w) req st).1 in
  let es := (handleReconnect env (Some w) req st).2 in
  (∃ resp, head es = Some (SendMsg (rq_conn req) MsgIdSessionReconnect resp)) ∧
  (∀ c, c ∈ ConnMgrRange w →
     SendMsg c MsgIdSessionInvalidate
       (marshal (mkSessionData (sd_PlayerId d) (s_GatewayID s) None 0)) ∈ es) ∧
  handleDisconnect env' req' st1 = (st1, []) ∧
  (∃ s', ss_sessions st1 !! sd_PlayerId d = Some s' ∧ s_DisconnectedAt s' = 0 ∧
     s_GatewayID s' = sd_GatewayId d).
Proof.
  intros Hd Hs Ho Hn Hne Hd' Hp Hg. cbn zeta.
  destruct (handleReconnect_Some env (Some w) req st d s Hd Hs) as (tags & Hst & _).
  split_and!.
  - unfold handleReconnect. rewrite Hd, Hs. simpl. eauto.
  - intros c Hc. unfold handleReconnect. rewrite Hd, Hs. cbn [snd].
    rewrite !bool_decide_true by done. cbn [andb]. apply elem_of_cons. right.
    apply list_elem_of_fmap. by exists c.
  - eapply handleDisconnect_stale; [done| | |].
    + rewrite Hp, Hst. apply lookup_insert_eq.
    + done.
    + simpl. by rewrite Hg.
  - rewrite Hst. eexists. split; [apply lookup_insert_eq|done].
Qed.

(** Every well-formed lookup is answered with exactly one message, on the
    connection that asked, and decoding the answer gives the stored session, or
    a session that was never disconnected when there is none. *)
Theorem get_always_answers request st d :
  unmarshal (rq_data request) = Some d → in_int64 (sd_PlayerId d) →
  (∀ s, ss_sessions st !! sd_PlayerId d = Some s →
     utf8 (s_GatewayID s) ∧ tags_ok (s_ConnTags s) ∧ in_int64 (s_DisconnectedAt s)) →
  ∃ data, handleGet request st = (st, [SendMsg (rq_conn request) MsgIdSessionGet data]) ∧
    unmarshal data = Some
      (match ss_sessions st !! sd_PlayerId d with
       | Some s => mkSessionData (sd_PlayerId d) (s_GatewayID s) (canon_tags (s_ConnTags s))
                     (s_DisconnectedAt s)
       | None => mkSessionData (sd_PlayerId d) "" None 0
       end).
Proof.
  intros Hd Hp Hok. unfold handleGet. rewrite Hd. eexists. split; [reflexivity|].
  destruct (ss_sessions st !! sd_PlayerId d) as [s|] eqn:Hs.
  - destruct (Hok s eq_refl) as (? & ? & ?). by rewrite unmarshal_marshal.
  - rewrite unmarshal_marshal; [done|]. split_and!; try done; unfold_ints; lia.
Qed.
End handlers.

Section expiry.
Context `{ProtoLaws, SessionJson, Zinx W, BackendRouter R}.
Implicit Types (m : Sessions) (reg : R) (now : Z) (st : SessSt).

Definition expired now (s : Session) : Prop :=
  s_DisconnectedAt s ≠ 0 ∧ SessionTTL ≤ now - s_DisconnectedAt s.
#[export] Instance expired_dec now s : Decision (expired now s).
Proof. unfold expired. apply _. Defined.

(** Timestamps as the clock gives them. *)
Definition timed (s : Session) : Prop := 0 ≤ s_DisconnectedAt s ≤ max_int64.

(** What the owner of an expired session's room and queue is told. *)
Definition expiry_notices reg (s : Session) : list Effect :=
  (if decide (mget (s_ConnTags s) TagMatchID ≠ ""%string)
   then notifyForceLeaveRoom reg (s_PlayerID s) (mget (s_ConnTags s) TagMatchID)
          (mget (s_ConnTags s) TagRoomSvrID) else []) ++
  (if decide (mget (s_ConnTags s) TagMatchType ≠ ""%string)
   then notifyForceLeaveQueue reg (s_PlayerID s) (mget (s_ConnTags s) TagMatchType) else []).

Lemma expire_check_expired now s :
  0 ≤ now ≤ max_int64 → timed s → expire_check now s = bool_decide (expired now s).
Proof.
  intros Hnow Ht. unfold expire_check, expired, timed in *.
  rewrite int64_id by (unfold_ints; lia).
  destruct (Z.eqb_spec (s_DisconnectedAt s) 0), (Z.ltb_spec (now - s_DisconnectedAt s) SessionTTL);
    case_bool_decide; simpl; lia.
Qed.

Lemma expire_commit_checked reg now key st s :
  ss_sessions st !! key = Some s →
  expire_commit reg now key st =
    if expire_check now s then (set_sessions st (delete key (ss_sessions st)), expiry_notices reg s)
    else (st, []).
Proof.
  intros Hs. unfold expire_commit, expire_check. rewrite Hs, Z.leb_antisym. done.
Qed.

Lemma expiry_tick_lookup reg now keys st k :
  ss_sessions (expiry_tick reg now keys st).1 !! k =
    match ss_sessions st !! k with
    | Some s => if decide (k ∈ keys ∧ expire_check now s = true) then None else Some s
    | None => None
    end.
Proof.
  revert st. induction keys as [|key keys IH]; intros st; cbn [expiry_tick].
  { destruct (ss_sessions st !! k) as [s|] eqn:Hs; cbn [fst]; rewrite Hs; [|done].
    rewrite decide_False; [done|]. intros [Hk _]. by apply elem_of_nil in Hk. }
  destruct (ss_sessions st !! key) as [s0|] eqn:Hs0.
  2: { specialize (IH st). destruct (expiry_tick reg now keys st) as [st' es'].
       cbn [fst] in *. rewrite IH.
       destruct (ss_sessions st !! k) as [s|] eqn:Hs; [|done].
       apply decide_ext. rewrite elem_of_cons. naive_solver. }
  rewrite (expire_commit_checked _ _ _ _ _ Hs0).
  destruct (expire_check now s0) eqn:Hc.
  - specialize (IH (set_sessions st (delete key (ss_sessions st)))).
    destruct (expiry_tick reg now keys _) as [st' es']. cbn [fst] in *. rewrite IH.
    unfold set_sessions; cbn [ss_sessions]. rewrite lookup_delete. destruct (decide (key = k)) as [->|Hne].
    + rewrite Hs0, decide_True; [done|]. split; [left|done].
    + destruct (ss_sessions st !! k) as [s|] eqn:Hs; [|done].
      apply decide_ext. rewrite elem_of_cons. naive_solver.
  - specialize (IH st). destruct (expiry_tick reg now keys st) as [st' es'].
    cbn [fst] in *. rewrite IH.
    destruct (ss_sessions st !! k) as [s|] eqn:Hs; [|done].
    apply decide_ext. rewrite elem_of_cons. split; [naive_solver|]. intros [[->|?] ?]; [congruence|done].
Qed.

Lemma expiry_tick_effects reg now keys st e :
  NoDup keys →
  e ∈ (expiry_tick reg now keys st).2 ↔
    ∃ k s, k ∈ keys ∧ ss_sessions st !! k = Some s ∧ expire_check now s = true ∧
      e ∈ expiry_notices reg s.
Proof.
  revert st. induction keys as [|key keys IH]; intros st Hnd; cbn [expiry_tick].
  { split; [by intros ?%elem_of_nil|]. intros (? & ? & Hk & _). by apply elem_of_nil in Hk. }
  apply NoDup_cons in Hnd as [Hni Hnd].
  destruct (ss_sessions st !! key) as [s0|] eqn:Hs0.
  2: { specialize (IH st Hnd). destruct (expiry_tick reg now keys st) as [st' es'].
       cbn [snd app] in *. rewrite IH. setoid_rewrite elem_of_cons. naive_solver. }
  rewrite (expire_commit_checked _ _ _ _ _ Hs0).
  destruct (expire_check now s0) eqn:Hc.
  - specialize (IH (set_sessions st (delete key (ss_sessions st))) Hnd).
    destruct (expiry_tick reg now keys _) as [st' es']. cbn [snd] in *.
    rewrite elem_of_app, IH. setoid_rewrite elem_of_cons. simpl. split.
    + intros [He|(k & s & Hk & Hs & Hr)]; [exists key, s0; naive_solver|].
      rewrite lookup_delete_Some in Hs. naive_solver.
    + intros (k & s & [->|Hk] & Hs & Hr); [left; naive_solver|]. right. exists k, s.
      rewrite lookup_delete_ne by (intros ->; done). done.
  - specialize (IH st Hnd). destruct (expiry_tick reg now keys st) as [st' es'].
    cbn [snd app] in *. rewrite IH. setoid_rewrite elem_of_cons. split.
    + naive_solver.
    + intros (k & s & [->|Hk] & Hs & Hr); [naive_solver congruence|by exists k, s].
Qed.

(** C15: One expiry tick deletes exactly the sessions that have been
    disconnected for the time to live or longer, in whatever order the map is
    visited, and the messages it sends are exactly the force-leave
    notifications of those sessions. *)
Theorem expiry_exact reg now keys st :
  0 ≤ now ≤ max_int64 → map_Forall (λ _, timed) (ss_sessions st) →
  NoDup keys → (∀ k, k ∈ keys ↔ k ∈ dom (ss_sessions st)) →
  (∀ k, ss_sessions (expiry_tick reg now keys st).1 !! k =
     match ss_sessions st !! k with
     | Some s => if decide (expired now s) then None else Some s
     | None => None
     end) ∧
  (∀ e, e ∈ (expiry_tick reg now keys st).2 ↔
     ∃ k s, ss_sessions st !! k = Some s ∧ expired now s ∧ e ∈ expiry_notices reg s).
Proof.
  intros Hnow Ht Hnd Hk. split.
  - intros k. rewrite expiry_tick_lookup.
    destruct (ss_sessions st !! k) as [s|] eqn:Hs; [|done]. apply decide_ext.
    rewrite expire_check_expired, bool_decide_eq_true, Hk, elem_of_dom, Hs; naive_solver.
  - intros e. rewrite expiry_tick_effects by done. split.
    + intros (k & s & _ & Hs & Hc & He). exists k, s.
      rewrite expire_check_expired, bool_decide_eq_true in Hc by eauto. done.
    + intros (k & s & Hs & Hc & He). exists k, s. rewrite Hk, elem_of_dom, Hs.
      rewrite expire_check_expired, bool_decide_eq_true by eauto. done.
Qed.

(** C31: A session whose player reconnects or is saved after the scan found it
    expired, and before the scan takes the write lock, survives and nobody is
    notified. *)
Theorem reconnect_beats_expiry reg now env server request st d s st' es :
  unmarshal (rq_data request) = Some d → ss_sessions st !! sd_PlayerId d = Some s →
  expire_check now s = true →
  (st', es) = handleReconnect env server request st ∨ (st', es) = handleSave env request st →
  expire_commit reg now (sd_PlayerId d) st' = (st', []) ∧
  is_Some (ss_sessions st' !! sd_PlayerId d).
Proof.
  intros Hd Hs _ Hst.
  assert (∃ s', ss_sessions st' !! sd_PlayerId d = Some s' ∧ s_DisconnectedAt s' = 0)
    as (s' & Hs' & H0').
  { destruct Hst as [Hst|Hst].
    - destruct (handleReconnect_Some env server request st d s Hd Hs) as (tags & Hr & _).
      rewrite <-Hst in Hr. simpl in Hr. rewrite Hr, lookup_insert_eq. eauto.
    - unfold handleSave in Hst. rewrite Hd in Hst. injection Hst as -> ->.
      rewrite journalAppend_sessions. simpl. rewrite lookup_insert_eq. eauto. }
  split; [|eauto]. rewrite (expire_commit_checked _ _ _ _ _ Hs').
  unfold expire_check. by rewrite H0'.
Qed.
End expiry.

(** ** Replay is idempotent on the entries the gateways cause *)

(** The journal entries of gateways with a non-empty id, which report tags only
    when they save. *)
Definition gateway_entry (e : journalEntry) : Prop :=
  valid_entry e ∧ je_GatewayID e ≠ ""%string ∧ canon_tags (je_ConnTags e) = je_ConnTags e ∧
  (je_OP e = "save"%string ∨
   je_OP e = "disconnect"%string ∧ je_ConnTags e = None ∧ je_DisconnectedAt e ≠ 0 ∨
   je_OP e = "reconnect"%string ∧ je_ConnTags e = None).

Definition good_session (p : Z) (s : Session) : Prop :=
  s_PlayerID s = p ∧ in_int64 p ∧ s_GatewayID s ≠ ""%string ∧ utf8 (s_GatewayID s) ∧
  tags_ok (s_ConnTags s) ∧ canon_tags (s_ConnTags s) = s_ConnTags s ∧
  in_int64 (s_DisconnectedAt s).

Section idempotence.
Context (p : Z).
Implicit Types (e : journalEntry) (es : list journalEntry) (o : option Session) (s : Session).

(** The effect of one entry on the session of player [p]. *)
Definition player_step o e : option Session :=
  if decide (je_PlayerID e = p) then replay_entry e (from_option (λ s, {[p := s]}) ∅ o) !! p
  else o.
Definition player_run es o : option Session := foldl player_step o es.

Definition is_save e : Prop := je_PlayerID e = p ∧ je_OP e = "save"%string.
Definition is_reset e : Prop :=
  is_save e ∨ je_PlayerID e = p ∧ je_OP e = "reconnect"%string.
#[local] Instance is_save_dec e : Decision (is_save e).
Proof. unfold is_save. apply _. Defined.
#[local] Instance is_reset_dec e : Decision (is_reset e).
Proof. unfold is_reset. apply _. Defined.

(** The step of a gateway's entry, in closed form. *)
Definition step_spec o e : option Session :=
  if decide (je_PlayerID e ≠ p) then o
  else if decide (je_OP e = "save"%string) then
    Some (mkSession (from_option s_PlayerID p o) (je_GatewayID e)
      (if je_ConnTags e is Some _ then je_ConnTags e else o ≫= s_ConnTags) 0)
  else if decide (je_OP e = "reconnect"%string) then
    (λ s, mkSession (s_PlayerID s) (je_GatewayID e) (s_ConnTags s) 0) <$> o
  else
    (λ s, if decide (s_GatewayID s = je_GatewayID e)
          then mkSession (s_PlayerID s) (s_GatewayID s) (s_ConnTags s) (je_DisconnectedAt e)
          else s) <$> o.

Lemma lookup_single o : (from_option (λ s, {[p := s]}) ∅ o : gmap Z Session) !! p = o.
Proof. destruct o; simpl; by simplify_map_eq. Qed.

Lemma player_step_spec o e :
  gateway_entry e → (∀ s, o = Some s → s_GatewayID s ≠ ""%string) →
  player_step o e = step_spec o e.
Proof.
  intros (_ & Hgw & _ & Hop) Ho. unfold player_step, step_spec.
  destruct (decide (je_PlayerID e = p)) as [Hp|Hne]; [|by rewrite decide_True].
  rewrite decide_False by tauto. unfold replay_entry.
  destruct Hop as [Hop|[(Hop & Ht & Hd)|(Hop & Ht)]]; rewrite Hop.
  - rewrite !decide_True by done. unfold replay_save. rewrite Hp, lookup_single, lookup_insert_eq.
    by destruct o.
  - rewrite !decide_False by done. rewrite decide_True by done.
    unfold replay_disconnect. rewrite Hp, lookup_single. destruct o as [s|]; [|by simplify_map_eq].
    specialize (Ho s eq_refl). cbn [fmap option_fmap option_map].
    destruct (decide (s_GatewayID s = je_GatewayID e)) as [He|He].
    + rewrite (bool_decide_false (s_GatewayID s ≠ je_GatewayID e)) by auto.
      rewrite andb_false_r, lookup_insert_eq, (decide_False (P := s_GatewayID s = ""%string)) by done.
      rewrite decide_True by done. by destruct (s_ConnTags s); rewrite ?Ht.
    + rewrite !bool_decide_true by done. simpl. by simplify_map_eq.
  - rewrite !decide_False by done. rewrite !decide_True by done.
    unfold replay_reconnect. rewrite Hp, lookup_single, Ht.
    destruct o as [s|]; [|by simplify_map_eq]. by rewrite lookup_insert_eq.
Qed.

Definition spec_run es o : option Session := foldl step_spec o es.

Lemma step_spec_gw o e s :
  je_GatewayID e ≠ ""%string → (∀ s, o = Some s → s_GatewayID s ≠ ""%string) →
  step_spec o e = Some s → s_GatewayID s ≠ ""%string.
Proof.
  intros He Ho. unfold step_spec. repeat case_decide; [by apply Ho|by intros [= <-]| |];
    destruct o as [s0|]; simpl; [|done| |done]; [by intros [= <-]|].
  specialize (Ho s0 eq_refl). case_decide; intros [= <-]; done.
Qed.

Lemma player_run_spec es o :
  Forall gateway_entry es → (∀ s, o = Some s → s_GatewayID s ≠ ""%string) →
  player_run es o = spec_run es o.
Proof.
  intros Hes. revert o. induction Hes as [|e es He _ IH]; intros o Ho; [done|].
  unfold player_run, spec_run in *. simpl. rewrite player_step_spec by done.
  apply IH. intros s. apply step_spec_gw; [apply He|done].
Qed.

(** Gateway and time of a session; its tags. *)
Definition gd o : option (string * Z) := (λ s, (s_GatewayID s, s_DisconnectedAt s)) <$> o.
Definition tg o : gomap := o ≫= s_ConnTags.

Lemma gd_step o1 o2 e : gd o1 = gd o2 → gd (step_spec o1 e) = gd (step_spec o2 e).
Proof.
  intros Hgd. unfold step_spec. repeat case_decide; [done|done| |];
    destruct o1, o2; simplify_eq/=; try done.
  unfold gd. cbn [fmap option_fmap option_map]. repeat case_decide; simpl; congruence.
Qed.

Lemma gd_run es o1 o2 : gd o1 = gd o2 → gd (spec_run es o1) = gd (spec_run es o2).
Proof. revert o1 o2. induction es as [|e es IH]; intros o1 o2 Hgd; [done|]. apply IH, gd_step, Hgd. Qed.

Lemma gd_save es o1 o2 : Exists is_save es → gd (spec_run es o1) = gd (spec_run es o2).
Proof.
  intros Hex. revert o1 o2. induction Hex as [e es [Hp Hop]|e es _ IH]; intros o1 o2; [|apply IH].
  apply (gd_run es). unfold step_spec. rewrite Hp, Hop.
  by destruct (decide (p ≠ p)).
Qed.

Lemma gd_reset es s1 s2 :
  Exists is_reset es → gd (spec_run es (Some s1)) = gd (spec_run es (Some s2)).
Proof.
  intros Hex. revert s1 s2. induction Hex as [e es Hr|e es _ IH]; intros s1 s2.
  - apply (gd_run es). unfold step_spec. destruct Hr as [[Hp Hop]|[Hp Hop]];
      rewrite Hp, Hop; by destruct (decide (p ≠ p)).
  - assert (∀ s, ∃ s', step_spec (Some s) e = Some s') as Hstep.
    { intros s. unfold step_spec. repeat case_decide; simpl; eauto. }
    destruct (Hstep s1) as [s1' H1], (Hstep s2) as [s2' H2].
    unfold spec_run in *. simpl. rewrite H1, H2. apply IH.
Qed.

(** Without a reset, the gateway of the session stays the same, and its
    disconnects either determine the time or change nothing. *)
Definition hits g e : Prop := je_PlayerID e = p ∧ je_GatewayID e = g.

Lemma run_disconnects es s :
  Forall (λ e, ¬ is_reset e) es →
  ∃ t, spec_run es (Some s) =
         Some (mkSession (s_PlayerID s) (s_GatewayID s) (s_ConnTags s) t) ∧
    (Forall (λ e, ¬ hits (s_GatewayID s) e) es → t = s_DisconnectedAt s) ∧
    (∀ s', s_GatewayID s' = s_GatewayID s → Exists (hits (s_GatewayID s)) es →
       gd (spec_run es (Some s')) = Some (s_GatewayID s, t)).
Proof.
  intros Hes. revert s. induction Hes as [|e es He _ IH]; intros s.
  { exists (s_DisconnectedAt s). destruct s; split_and!; try done. by intros ? _ ?%Exists_nil. }
  assert (∀ s, step_spec (Some s) e = Some (if decide (hits (s_GatewayID s) e)
    then mkSession (s_PlayerID s) (s_GatewayID s) (s_ConnTags s) (je_DisconnectedAt e) else s))
    as Hstep.
  { intros s0. unfold step_spec, hits, is_reset, is_save in *.
    repeat case_decide; simpl; try done; repeat case_decide; naive_solver. }
  destruct (IH (if decide (hits (s_GatewayID s) e)
    then mkSession (s_PlayerID s) (s_GatewayID s) (s_ConnTags s) (je_DisconnectedAt e) else s))
    as (t & Hrun & Hnone & Hsome).
  exists t. unfold spec_run in *. simpl. rewrite Hstep.
  destruct (decide (hits (s_GatewayID s) e)) as [Hh|Hh]; simpl in *.
  - split_and!; [done|intros []%Forall_cons; done|]. intros s' Hs' _. rewrite Hstep, Hs'.
    rewrite decide_True by done.
    assert (∀ s1 s2, gd (Some s1) = gd (Some s2) →
      gd (foldl step_spec (Some s1) es) = gd (foldl step_spec (Some s2) es)) as Hcong
      by (intros; by apply gd_run).
    rewrite (Hcong _ (mkSession (s_PlayerID s) (s_GatewayID s) (s_ConnTags s)
      (je_DisconnectedAt e))) by done. by rewrite Hrun.
  - split_and!; [done|intros [_ Hf]%Forall_cons; by apply Hnone|].
    intros s' Hs' [?|Hex]%Exists_cons; [done|]. rewrite Hstep, Hs', decide_False by done. auto.
Qed.

Definition next_tags (t : gomap) e : gomap :=
  if decide (is_save e) then (if je_ConnTags e is Some _ then je_ConnTags e else t) else t.

Lemma tg_run es o : tg (spec_run es o) = foldl next_tags (tg o) es.
Proof.
  revert o. induction es as [|e es IH]; intros o; [done|].
  change (tg (spec_run es (step_spec o e)) = foldl next_tags (next_tags (tg o) e) es).
  rewrite IH. f_equal. unfold step_spec, next_tags, is_save.
  destruct (decide (je_PlayerID e ≠ p)) as [|Hp%dec_stable]; [by rewrite decide_False by tauto|].
  destruct (decide (je_OP e = "save"%string)).
  - by rewrite decide_True by tauto.
  - destruct (decide (_ ∧ _)) as [[]|]; [done|]. case_decide; destruct o; simpl; try done. by case_decide.
Qed.

Lemma next_tags_idem es t : foldl next_tags (foldl next_tags t es) es = foldl next_tags t es.
Proof.
  assert ((∀ t, foldl next_tags t es = t) ∨ ∃ t0, ∀ t, foldl next_tags t es = t0) as [Hid|[t0 Hc]].
  { induction es as [|e es [Hid|[t0 Hc]]]; simpl; [by left| |by right; exists t0].
    unfold next_tags at 2 4. destruct (decide (is_save e)); [|by left].
    destruct (je_ConnTags e); [right; eauto|by left]. }
  - by rewrite !Hid.
  - by rewrite !Hc.
Qed.

Lemma pid_run es o s :
  (∀ s, o = Some s → s_PlayerID s = p) → spec_run es o = Some s → s_PlayerID s = p.
Proof.
  revert o. induction es as [|e es IH]; intros o Ho; [apply Ho|]. apply IH. intros s'.
  unfold step_spec. repeat case_decide; [apply Ho| | |]; destruct o as [s0|]; simpl; try done.
  all: intros [= <-]; try done; specialize (Ho s0 eq_refl); simpl; try done.
  by case_decide.
Qed.

Lemma run_None es : ¬ Exists is_save es → spec_run es None = None.
Proof.
  intros Hn. induction es as [|e es IH]; [done|].
  rewrite Exists_cons in Hn. unfold spec_run in *. simpl.
  replace (step_spec None e) with (@None Session); [apply IH; tauto|].
  unfold step_spec, is_save in *. 
  destruct (decide (je_PlayerID e ≠ p)) as [|Hp%dec_stable]; [done|].
  destruct (decide (je_OP e = "save"%string)); [exfalso; apply Hn; by left|]. by case_decide.
Qed.

Lemma spec_run_Some es s : is_Some (spec_run es (Some s)).
Proof.
  revert s. induction es as [|e es IH]; intros s; [eauto|].
  assert (∃ s', step_spec (Some s) e = Some s') as [s' Hs'].
  { unfold step_spec. repeat case_decide; simpl; eauto. }
  unfold spec_run in *. simpl. rewrite Hs'. apply IH.
Qed.

Lemma session_ext o1 o2 :
  gd o1 = gd o2 → tg o1 = tg o2 → (∀ s, o1 = Some s → s_PlayerID s = p) →
  (∀ s, o2 = Some s → s_PlayerID s = p) → o1 = o2.
Proof.
  destruct o1 as [[]|], o2 as [[]|]; simpl; intros Hgd Htg H1 H2; try done.
  specialize (H1 _ eq_refl). specialize (H2 _ eq_refl). simplify_eq/=. done.
Qed.

Lemma spec_run_gd_idem es o : gd (spec_run es (spec_run es o)) = gd (spec_run es o).
Proof.
  destruct (decide (Exists is_save es)) as [Hs|Hs]; [by apply gd_save|].
  destruct o as [s|]; [|by rewrite !run_None].
  destruct (decide (Exists is_reset es)) as [Hr|Hr].
  { destruct (spec_run_Some es s) as [s' Hs']. rewrite Hs', <-Hs'. rewrite Hs' at 1.
    by apply gd_reset. }
  apply not_Exists_Forall in Hr; [|apply _].
  destruct (run_disconnects es s Hr) as (t & Hrun & Hnone & Hsome).
  rewrite Hrun. destruct (decide (Exists (λ e, je_PlayerID e = p ∧ je_GatewayID e = s_GatewayID s) es))
    as [Hx|Hx].
  - rewrite Hsome by done. done.
  - apply not_Exists_Forall in Hx; [|apply _]. rewrite (Hnone Hx).
    replace (mkSession _ _ _ _) with s by by destruct s. rewrite Hrun, (Hnone Hx). by destruct s.
Qed.

Lemma spec_run_idem es o :
  (∀ s, o = Some s → s_PlayerID s = p) →
  spec_run es (spec_run es o) = spec_run es o.
Proof.
  intros Ho. apply session_ext.
  - apply spec_run_gd_idem.
  - by rewrite !tg_run, next_tags_idem.
  - intros s. apply pid_run. intros s'. by apply pid_run.
  - intros s. by apply pid_run.
Qed.
End idempotence.

(** ** The session server is durable *)

Section recovery.
Context `{SessionJsonLaws}.
Implicit Types (m : Sessions) (e : journalEntry) (es : list journalEntry).

Lemma replay_entry_lookup e m p : replay_entry e m !! p = player_step p (m !! p) e.
Proof.
  unfold player_step. destruct (decide (je_PlayerID e = p)) as [Hp|Hne].
  - subst p. unfold replay_entry, replay_save, replay_disconnect, replay_reconnect.
    rewrite !lookup_single.
    destruct (m !! je_PlayerID e) as [s|] eqn:Hs; simpl;
      repeat case_match; simplify_map_eq; done.
  - unfold replay_entry, replay_save, replay_disconnect, replay_reconnect.
    repeat case_match; by simplify_map_eq.
Qed.

Definition entries_run es m : Sessions := foldl (λ m e, replay_entry e m) m es.

Lemma entries_run_lookup es m p : entries_run es m !! p = player_run p es (m !! p).
Proof.
  revert m. induction es as [|e es IH]; intros m; [done|].
  unfold entries_run, player_run in *. simpl. by rewrite IH, replay_entry_lookup.
Qed.

Lemma entries_run_idem es m :
  Forall gateway_entry es → map_Forall good_session m →
  entries_run es (entries_run es m) = entries_run es m.
Proof.
  intros Hes Hm. apply map_eq. intros p. rewrite !entries_run_lookup.
  assert (∀ s, m !! p = Some s → s_GatewayID s ≠ ""%string) as Hgw
    by (intros s Hs; by apply (Hm p s Hs)).
  assert (∀ s, m !! p = Some s → s_PlayerID s = p) as Hpid
    by (intros s Hs; by apply (Hm p s Hs)).
  rewrite (player_run_spec p es (m !! p)) by done. rewrite player_run_spec; [|done|].
  - by apply spec_run_idem.
  - intros s. generalize (m !! p) as o, Hgw. clear Hpid Hgw.
    induction Hes as [|e es He _ IH]; intros o Ho; [apply Ho|]. apply IH.
    intros s'. apply step_spec_gw; [apply He|done].
Qed.

Lemma replay_entry_good e m :
  gateway_entry e → map_Forall good_session m → map_Forall good_session (replay_entry e m).
Proof.
  intros He Hm p s. rewrite replay_entry_lookup, player_step_spec; [|done|].
  2: { intros s' Hs'. by apply (Hm p s' Hs'). }
  destruct He as ((_ & Hp & Hgu & Hto & Hd & _) & Hg & Hc & Hop).
  unfold step_spec. destruct (decide _) as [|Hpe%dec_stable]; [by apply Hm|].
  assert (in_int64 0) by (unfold_ints; lia).
  destruct (m !! p) as [s0|] eqn:Hs0.
  - pose proof (Hm p s0 Hs0) as (? & ? & ? & ? & ? & ? & ?).
    repeat case_decide; simpl; intros [= <-]; try (split_and!; simpl; done).
    + split_and!; simpl; try done; by destruct (je_ConnTags e).
    + case_decide; split_and!; simpl; done.
  - repeat case_decide; simpl; try done. intros [= <-].
    split_and!; simpl; try done; try (by rewrite <-Hpe); by destruct (je_ConnTags e).
Qed.

Lemma replaySession_entry e m :
  gateway_entry e → replaySession (json_entry e) m = (replay_entry e m, false).
Proof.
  intros (Hv & _ & Hc & _). unfold replaySession. rewrite parse_json_entry by done.
  unfold canon_entry. rewrite Hc. by destruct e.
Qed.

(** The lines the journal of this server consists of. *)
Definition session_line (b : bytes) : Prop :=
  ∃ e, b = json_entry e ∧ gateway_entry e ∧ Z.of_nat (length b) < MaxScanTokenSize.

Lemma session_lines_run bs m :
  Forall session_line bs →
  ∃ es, Forall gateway_entry es ∧ ∀ m, replay_all replaySession bs m = entries_run es m.
Proof.
  induction 1 as [|b bs (e & -> & He & _) _ (es & Hes & IH)]; [by exists []|].
  exists (e :: es). split; [by constructor|]. intros m'. unfold replay_all in *. simpl.
  by rewrite replaySession_entry, IH.
Qed.

Lemma copyTags_id t : copyTags t = t.
Proof.
  destruct t as [g|]; [|done]. unfold copyTags. f_equal.
  apply (map_fold_weak_ind (λ r g, r = g)); [done|]. by intros k v g' r _ ->.
Qed.

Definition to_persist (s : Session) : sessionPersist :=
  mkSessionPersist (s_PlayerID s) (s_GatewayID s) (s_ConnTags s) (s_DisconnectedAt s).

Lemma snapshot_state m :
  map_Forall (λ p s, s_PlayerID s = p) m →
  snapshotSessions m = Some (json_state (to_persist <$> m)).
Proof.
  intros Hm. unfold snapshotSessions. do 2 f_equal. revert Hm.
  apply (map_fold_weak_ind (λ r m, map_Forall (λ p s, s_PlayerID s = p) m → r = to_persist <$> m)).
  { intros _. by rewrite fmap_empty. }
  intros p s m' r Hp IH Hm. rewrite map_Forall_insert in Hm by done. destruct Hm as [Hs Hm].
  rewrite IH by done. subst p. by rewrite copyTags_id, fmap_insert.
Qed.

Lemma load_state m :
  map_Forall good_session m → loadSnapshot (json_state (to_persist <$> m)) ∅ = (m, false).
Proof.
  intros Hm. unfold loadSnapshot. rewrite parse_json_state.
  2: { intros p sp. rewrite lookup_fmap. intros (s & Hs & ->)%fmap_Some.
       destruct (Hm p s Hs) as (? & ? & ? & ? & ? & ? & ?). split_and!; simpl; try done.
       by subst p. }
  assert (canon_persist <$> (to_persist <$> m) = to_persist <$> m) as ->.
  { rewrite <-map_fmap_compose. apply map_fmap_ext. intros p s Hs.
    destruct (Hm p s Hs) as (_ & _ & _ & _ & _ & Hc & _).
    unfold canon_persist, to_persist. simpl. by rewrite Hc. }
  f_equal.
  enough (∀ sps : gmap Z sessionPersist, map_Forall (λ p sp, sp_PlayerID sp = p) sps →
    map_fold (λ _ sp m, <[sp_PlayerID sp := mkSession (sp_PlayerID sp) (sp_GatewayID sp)
      (sp_ConnTags sp) (sp_DisconnectedAt sp)]> m) ∅ sps =
    (λ sp, mkSession (sp_PlayerID sp) (sp_GatewayID sp) (sp_ConnTags sp)
      (sp_DisconnectedAt sp)) <$> sps) as Hfold.
  { rewrite Hfold.
    - rewrite <-map_fmap_compose. etrans; [|apply map_fmap_id]. apply map_fmap_ext. by intros ? [] _.
    - intros p sp. rewrite lookup_fmap. intros (s & Hs & ->)%fmap_Some. by apply (Hm p s Hs). }
  intros sps. apply (map_fold_weak_ind (λ r sps, map_Forall _ sps → r = _ <$> sps)).
  { intros _. by rewrite fmap_empty. }
  intros p sp m' r Hp IH Hsp. rewrite map_Forall_insert in Hsp by done. destruct Hsp as [Hs Hsp].
  rewrite IH by done. subst p. by rewrite fmap_insert.
Qed.

#[export] Instance session_durable :
  Durable snapshotSessions loadSnapshot replaySession (∅ : Sessions).
Proof.
  refine {| dur_entry := session_line; dur_good := map_Forall good_session |}.
  - intros b (e & -> & He & Hlen). destruct (json_entry_line e) as (? & ? & ?). done.
  - intros b m (e & -> & He & _). by rewrite replaySession_entry.
  - apply map_Forall_empty.
  - intros b m (e & -> & He & _) Hm. rewrite replaySession_entry by done.
    by apply replay_entry_good.
  - intros m Hm. exists (json_state (to_persist <$> m)). split; [|by apply load_state].
    apply snapshot_state. intros p s Hs. by apply (Hm p s Hs).
  - intros bs m Hbs Hm. destruct (session_lines_run bs m Hbs) as (es & Hes & Hrun).
    rewrite !Hrun. by apply entries_run_idem.
Defined.
End recovery.

Section restart.
Context `{ProtoLaws, SessionJsonLaws, Zinx W}.
Implicit Types (m : Sessions) (st : SessSt) (d : SessionData).

(** What a gateway sends: its own non-empty id, tags only in a save, and in
    every save the tags the session has, if it has any; a disconnect follows
    a save. *)
Definition conforming_data (env : Env) (msgID : Z) m d : Prop :=
  in_int64 (sd_PlayerId d) ∧ utf8 (sd_GatewayId d) ∧ sd_GatewayId d ≠ ""%string ∧
  tags_ok (sd_ConnTags d) ∧ canon_tags (sd_ConnTags d) = sd_ConnTags d ∧
  (msgID = MsgIdSessionSave → sd_ConnTags d = None →
     ∀ s, m !! sd_PlayerId d = Some s → s_ConnTags s = None) ∧
  (msgID = MsgIdSessionDisconnect → sd_ConnTags d = None ∧ is_Some (m !! sd_PlayerId d)) ∧
  (msgID = MsgIdSessionReconnect → sd_ConnTags d = None) ∧
  Forall (λ '(op, t), Z.of_nat (length (json_entry
     (mkJournalEntry op (sd_PlayerId d) (sd_GatewayId d) (sd_ConnTags d) t (env_millis env))))
     < MaxScanTokenSize) [("save"%string, 0); ("disconnect"%string, env_now env); ("reconnect"%string, 0)].

(** The clock has a value, and the journal write succeeds. *)
Definition conforming_env (env : Env) : Prop :=
  env_now env ≠ 0 ∧ in_int64 (env_now env) ∧ in_int64 (env_millis env) ∧ env_write env = None.

Inductive sess_step : SessSt → SessSt → Prop :=
  | sess_handle env server request st st' es :
      ss_store st = Some open_store → conforming_env env →
      (∀ d, unmarshal (rq_data request) = Some d →
         conforming_data env (rq_msgID request) (ss_sessions st) d) →
      session_Handle env server request st = (st', es) →
      sess_step st st'
  | sess_snapshot o st store store' fs' err :
      ss_store st = Some store →
      Snapshot snapshotSessions o store (ss_files st) (ss_sessions st) = (store', fs', err) →
      sess_step st (mkSessSt (ss_sessions st) (Some store') fs')
  | sess_restart st m' fs' store' cfg :
      OpenStore session_store_config open_all_ok (ss_files st) ∅ = (m', fs', inl (store', cfg)) →
      sess_step st (mkSessSt m' (Some store') fs').

Definition session_init : SessSt :=
  mkSessSt ∅ (Some open_store) (mkFiles None None (Some [])).

(** One entry was journaled, and replaying it is what happened in memory. *)
Definition journaled st st' : Prop :=
  ∃ e, session_line (json_entry e) ∧ gateway_entry e ∧
    ss_sessions st' = replay_entry e (ss_sessions st) ∧
    ss_store st' = Some open_store ∧
    Append open_store (ss_files st) (json_entry e) None = (open_store, ss_files st', None).

Lemma journaled_intro env e st m' :
  ss_store st = Some open_store → conforming_env env →
  in_int64 (je_PlayerID e) → utf8 (je_GatewayID e) → je_GatewayID e ≠ ""%string →
  tags_ok (je_ConnTags e) → canon_tags (je_ConnTags e) = je_ConnTags e →
  in_int64 (je_DisconnectedAt e) → je_TS e = 0 →
  (je_OP e = "save"%string ∨
   je_OP e = "disconnect"%string ∧ je_ConnTags e = None ∧ je_DisconnectedAt e ≠ 0 ∨
   je_OP e = "reconnect"%string ∧ je_ConnTags e = None) →
  Z.of_nat (length (json_entry (mkJournalEntry (je_OP e) (je_PlayerID e) (je_GatewayID e)
     (je_ConnTags e) (je_DisconnectedAt e) (env_millis env)))) < MaxScanTokenSize →
  m' = replay_entry e (ss_sessions st) →
  journaled st (journalAppend env e (set_sessions st m')).
Proof.
  intros Hst (_ & _ & Hts & Hw) Hp Hg Hgn Ht Hc Hd _ Hop Hlen ->.
  exists (mkJournalEntry (je_OP e) (je_PlayerID e) (je_GatewayID e) (je_ConnTags e)
            (je_DisconnectedAt e) (env_millis env)).
  assert (gateway_entry (mkJournalEntry (je_OP e) (je_PlayerID e) (je_GatewayID e)
    (je_ConnTags e) (je_DisconnectedAt e) (env_millis env))) as Hge.
  { split; [|done]. split_and!; simpl; try done.
    by destruct Hop as [->|[[-> _]|[-> _]]]. }
  unfold journalAppend. simpl. rewrite Hst, Hw. simpl. split_and!; [|done| |done|done].
  - eexists. split; [done|]. split; [done|apply Hlen].
  - done.
Qed.

Lemma set_sessions_id st : set_sessions st (ss_sessions st) = st.
Proof. by destruct st. Qed.

Lemma handleSave_journaled env request st d :
  ss_store st = Some open_store → conforming_env env → unmarshal (rq_data request) = Some d →
  conforming_data env MsgIdSessionSave (ss_sessions st) d →
  journaled st (handleSave env request st).1.
Proof.
  intros Hst Henv Hd (Hp & Hg & Hgn & Ht & Hc & Hsv & _ & _ & Hlen);
    rewrite !Forall_cons in Hlen; destruct Hlen as (Hl1 & Hl2 & Hl3 & _).
  unfold handleSave. rewrite Hd. cbn [fst]. apply journaled_intro; try done.
  - by left.
  - change (replay_entry ?e ?m) with (replay_save e m). unfold replay_save. simpl.
    destruct (ss_sessions st !! sd_PlayerId d) as [s|] eqn:Hs; simpl;
      destruct (sd_ConnTags d) eqn:Htags; try done.
    by rewrite (Hsv eq_refl eq_refl s).
Qed.

Lemma handleDisconnect_journaled env request st d :
  ss_store st = Some open_store → conforming_env env → unmarshal (rq_data request) = Some d →
  conforming_data env MsgIdSessionDisconnect (ss_sessions st) d →
  journaled st (handleDisconnect env request st).1 ∨ (handleDisconnect env request st).1 = st.
Proof.
  intros Hst Henv Hd (Hp & Hg & Hgn & Ht & Hc & _ & Hds & _ & Hlen);
    rewrite !Forall_cons in Hlen; destruct Hlen as (Hl1 & Hl2 & Hl3 & _).
  destruct (Hds eq_refl) as [Htn [s Hs]].
  destruct (decide (s_GatewayID s = ""%string ∨ s_GatewayID s = sd_GatewayId d)) as [Ho|Ho].
  - left. unfold handleDisconnect. rewrite Hd, Hs. cbn [default from_option id].
    rewrite insert_id, set_sessions_id by done. rewrite stale_guard.
    rewrite bool_decide_true by done. cbn [negb fst].
    apply journaled_intro; try done.
    + by apply Henv.
    + right. left. split_and!; [done|done|apply Henv].
    + change (replay_entry ?e ?m) with (replay_disconnect e m).
      unfold replay_disconnect. cbn [je_PlayerID je_GatewayID je_DisconnectedAt je_ConnTags].
      rewrite Hs, stale_guard. rewrite bool_decide_true by done. cbn [negb].
      rewrite (decide_True (P := env_now env ≠ 0)) by apply Henv. done.
  - right. by rewrite (handleDisconnect_stale env request st d s) by naive_solver.
Qed.

Lemma handleReconnect_journaled env server request st d :
  ss_store st = Some open_store → conforming_env env → unmarshal (rq_data request) = Some d →
  conforming_data env MsgIdSessionReconnect (ss_sessions st) d →
  journaled st (handleReconnect env server request st).1 ∨
  (handleReconnect env server request st).1 = st.
Proof.
  intros Hst Henv Hd (Hp & Hg & Hgn & Ht & Hc & _ & _ & Hrc & Hlen);
    rewrite !Forall_cons in Hlen; destruct Hlen as (Hl1 & Hl2 & Hl3 & _).
  specialize (Hrc eq_refl). unfold handleReconnect. rewrite Hd.
  destruct (ss_sessions st !! sd_PlayerId d) as [s|] eqn:Hs; [left|by right].
  cbn [fst]. apply journaled_intro; try done.
  - by right; right.
  - change (replay_entry ?e ?m) with (replay_reconnect e m).
    unfold replay_reconnect. simpl. by rewrite Hs, Hrc.
Qed.

Definition sess_inv st : Prop :=
  ∃ store, ss_store st = Some store ∧
    durable_inv (D := session_durable) (mkSys (ss_sessions st) (ss_files st) store).

Lemma sess_inv_journaled st st' : journaled st st' → sess_inv st → sess_inv st'.
Proof.
  intros (e & Hl & Hge & Hm & Hst & HA) (store & Hst0 & Hinv). exists open_store.
  split; [done|]. rewrite Hm.
  replace (replay_entry e (ss_sessions st)) with (replaySession (json_entry e) (ss_sessions st)).1
    by by rewrite replaySession_entry.
  eapply sys_step_inv; [|by eapply (sys_update (D := session_durable))].
  by eapply (durable_files (mkSys _ _ store)).
Qed.

Lemma sess_step_inv st st' : sess_step st st' → sess_inv st → sess_inv st'.
Proof.
  intros Hstep Hinv. destruct Hstep as
    [env server request st st' es Hst Henv Hconf HH|o st store store' fs' err Hst HS
    |st m' fs' store' cfg Ho].
  - replace st' with (session_Handle env server request st).1 by by rewrite HH. clear HH.
    unfold session_Handle.
    destruct (unmarshal (rq_data request)) as [d|] eqn:Hd.
    2: { unfold handleSave, handleGet, handleDisconnect, handleReconnect. rewrite Hd.
         by repeat case_match. }
    specialize (Hconf d eq_refl).
    destruct (Z.eqb_spec (rq_msgID request) MsgIdSessionSave) as [He|_].
    { rewrite He in Hconf. eapply sess_inv_journaled; [|done].
      by eapply handleSave_journaled. }
    destruct (Z.eqb_spec (rq_msgID request) MsgIdSessionGet) as [He|_].
    { unfold handleGet. by rewrite Hd. }
    destruct (Z.eqb_spec (rq_msgID request) MsgIdSessionDisconnect) as [He|_].
    { rewrite He in Hconf.
      destruct (handleDisconnect_journaled env request st d) as [Hj| ->]; try done.
      by eapply sess_inv_journaled. }
    destruct (Z.eqb_spec (rq_msgID request) MsgIdSessionReconnect) as [He|_]; [|done].
    rewrite He in Hconf.
    destruct (handleReconnect_journaled env server request st d) as [Hj| ->]; try done.
    by eapply sess_inv_journaled.
  - destruct Hinv as (store0 & Hst0 & Hinv). rewrite Hst in Hst0. injection Hst0 as <-.
    exists store'. split; [done|]. eapply sys_step_inv; [done|].
    by eapply (sys_snapshot (D := session_durable)).
  - destruct Hinv as (store0 & Hst0 & Hinv). exists store'. split; [done|].
    eapply sys_step_inv; [exact Hinv|]. by eapply (sys_crash (D := session_durable)).
Qed.

(** C1: While gateways follow their protocol (a non-empty id, tags in every
    save of a tagged session, disconnects only after a save), the sessions
    server can be restarted at any point of any run of requests, snapshots and
    restarts: opening the store recovers exactly the sessions it had. *)
Theorem sessions_survive_restart st :
  rtc sess_step session_init st →
  ∃ fs' store' cfg,
    OpenStore session_store_config open_all_ok (ss_files st) ∅ =
      (ss_sessions st, fs', inl (store', cfg)).
Proof.
  intros Hrun. assert (sess_inv session_init) as Hinit.
  { exists open_store. split; [done|]. exists []. split_and!; done. }
  assert (sess_inv st) as (store & _ & Hinv)
    by (induction Hrun; eauto using sess_step_inv).
  destruct (reopen_live _ Hinv) as (fs' & store' & cfg & Ho & _). eauto.
Qed.
End restart.

Section divergence.
Context `{ProtoLaws, SessionJsonLaws, Zinx W, BackendRouter R}.
Implicit Types (m : Sessions) (st : SessSt) (d : SessionData) (reg : R).

(** A save without tags clears the tags of a session in memory, but its
    journal entry keeps them: replaying the journal after the save restores
    the tags the gateway removed. *)
Theorem save_without_tags_diverges env request st d s g :
  unmarshal (rq_data request) = Some d → sd_ConnTags d = None →
  ss_sessions st !! sd_PlayerId d = Some s → s_ConnTags s = Some g →
  let e := mkJournalEntry "save" (sd_PlayerId d) (sd_GatewayId d) None 0 (env_millis env) in
  (ss_sessions (handleSave env request st).1 !! sd_PlayerId d) ≫= s_ConnTags = None ∧
  (replay_entry e (ss_sessions st) !! sd_PlayerId d) ≫= s_ConnTags = Some g.
Proof.
  intros Hd Ht Hs Hg. cbn zeta. split.
  - unfold handleSave. rewrite Hd. cbn [fst]. rewrite journalAppend_sessions. simpl.
    by rewrite lookup_insert_eq.
  - change (replay_entry ?e ?m) with (replay_save e m). unfold replay_save. simpl.
    by rewrite lookup_insert_eq, Hs.
Qed.

(** Deleting an expired session is not journaled: the tick leaves the files
    as they were, so a restart brings every expired session back. *)
Theorem expiry_not_journaled reg now keys st m fs store cfg :
  OpenStore session_store_config open_all_ok (ss_files st) ∅ = (m, fs, inl (store, cfg)) →
  OpenStore session_store_config open_all_ok (ss_files (expiry_tick reg now keys st).1) ∅ =
    (m, fs, inl (store, cfg)).
Proof.
  intros Ho. replace (ss_files (expiry_tick reg now keys st).1) with (ss_files st); [done|].
  clear Ho. revert st. induction keys as [|key keys IH]; intros st; [done|].
  cbn [expiry_tick]. destruct (ss_sessions st !! key) as [s|] eqn:Hs.
  - rewrite (expire_commit_checked _ _ _ _ _ Hs). destruct (expire_check now s).
    + specialize (IH (set_sessions st (delete key (ss_sessions st)))).
      by destruct (expiry_tick reg now keys _).
    + specialize (IH st). by destruct (expiry_tick reg now keys _).
  - specialize (IH st). by destruct (expiry_tick reg now keys _).
Qed.
End divergence.

(** ** Concrete inputs *)

#[export] Instance journalEntry_eq_dec : EqDecision journalEntry.
Proof. solve_decision. Defined.
#[export] Instance journalEntry_countable : Countable journalEntry.
Proof.
  refine (inj_countable' (λ e, (je_OP e, je_PlayerID e, je_GatewayID e, je_ConnTags e,
      je_DisconnectedAt e, je_TS e))
    (λ '(a, b, c, d, e, f), mkJournalEntry a b c d e f) _).
  by intros [].
Defined.
#[export] Instance sessionPersist_eq_dec : EqDecision sessionPersist.
Proof. solve_decision. Defined.
#[export] Instance sessionPersist_countable : Countable sessionPersist.
Proof.
  refine (inj_countable' (λ e, (sp_PlayerID e, sp_GatewayID e, sp_ConnTags e, sp_DisconnectedAt e))
    (λ '(a, b, c, d), mkSessionPersist a b c d) _).
  by intros [].
Defined.

(** A one-line text format: an opening brace, then bits. *)
Definition brace (p : positive) : bytes := Byte.x7b :: bits_of p.
Definition unbrace (b : bytes) : option positive :=
  match b with Byte.x7b :: b => of_bits b | _ => None end.

#[export] Instance count_json : SessionJson := {|
  json_entry e := brace (encode (canon_entry e));
  parse_entry b := unbrace b ≫= decode;
  json_state m := brace (encode (canon_persist <$> m));
  parse_state b := unbrace b ≫= decode;
|}.

Lemma bits_of_bytes p b : b ∈ bits_of p → b = Byte.x00 ∨ b = Byte.x01.
Proof.
  induction p as [p IH|p IH|]; simpl; rewrite ?elem_of_cons; [naive_solver..|].
  by intros ?%elem_of_nil.
Qed.

#[export] Instance count_json_laws : SessionJsonLaws.
Proof.
  split.
  - intros e _. simpl. rewrite of_bits_of. simpl. apply decode_encode.
  - intros e. simpl. split_and!; [done| |].
    + unfold brace. rewrite not_elem_of_cons. split; [done|].
      intros [|]%bits_of_bytes; done.
    + intros Hl%last_Some_elem_of. unfold brace in Hl.
      apply elem_of_cons in Hl as [|[|]%bits_of_bytes]; done.
  - intros m _. simpl. rewrite of_bits_of. simpl. apply decode_encode.
Qed.

Definition wit_env : Env := mkEnv 1000 1000000 None.
Definition wit_tags : gomap := mlit [(TagMatchID, "m1"%string); (TagRoomSvrID, "room1"%string)].
Definition wit_req (msgID : Z) (gw : string) (tags : gomap) : Request :=
  mkRequest 9 msgID (marshal (mkSessionData 7 gw tags 0)).
Definition wit_st (s : Session) : SessSt :=
  mkSessSt {[7 := s]} (Some open_store) (mkFiles None None (Some [])).
Definition wit_session : Session := mkSession 7 "gw1" wit_tags 0.
Definition wit_world : World := mkWorld ∅ {[ 1%N; 2%N ]}.
Definition wit_reg : string → string → option Conn := λ _ _, Some 5%N.

Lemma disconnect_respects_owner_witness :
  (handleDisconnect wit_env (wit_req MsgIdSessionDisconnect "gw1" None) (wit_st wit_session)).2 = [].
Proof.
  apply (disconnect_respects_owner wit_env (wit_req MsgIdSessionDisconnect "gw1" None)
    (wit_st wit_session) (mkSessionData 7 "gw1" None 0)). vm_compute. reflexivity.
Defined.

Lemma takeover_blocks_old_gateway_witness :
  let st1 := (handleReconnect wit_env (Some wit_world) (wit_req MsgIdSessionReconnect "gw2" None)
                (wit_st wit_session)).1 in
  handleDisconnect wit_env (wit_req MsgIdSessionDisconnect "gw1" None) st1 = (st1, []).
Proof.
  apply (takeover_blocks_old_gateway wit_env wit_env wit_world
    (wit_req MsgIdSessionReconnect "gw2" None) (wit_req MsgIdSessionDisconnect "gw1" None)
    (wit_st wit_session) (mkSessionData 7 "gw2" None 0) (mkSessionData 7 "gw1" None 0) wit_session);
    try done; vm_compute; reflexivity.
Defined.

Lemma get_always_answers_witness :
  ∃ data, handleGet (wit_req MsgIdSessionGet "" None) (wit_st wit_session) =
    (wit_st wit_session, [SendMsg 9 MsgIdSessionGet data]) ∧
    unmarshal data = Some (mkSessionData 7 "gw1" wit_tags 0).
Proof.
  apply (get_always_answers (wit_req MsgIdSessionGet "" None) (wit_st wit_session)
    (mkSessionData 7 "" None 0)).
  - vm_compute. reflexivity.
  - evaluate.
  - intros s [= <-]. split_and!; [reflexivity| |evaluate].
    evaluate.
Defined.

Lemma expiry_exact_witness :
  ss_sessions (expiry_tick wit_reg 1200 [7] (wit_st (mkSession 7 "gw1" wit_tags 1000))).1 !! 7 = None.
Proof.
  apply (proj1 (expiry_exact wit_reg 1200 [7] (wit_st (mkSession 7 "gw1" wit_tags 1000))
    ltac:(unfold_ints; lia) ltac:(evaluate)
    ltac:(evaluate)
    ltac:(intros k; simpl; rewrite dom_singleton, elem_of_singleton; apply list_elem_of_singleton)) 7).
Defined.

Lemma reconnect_beats_expiry_witness :
  let st' := (handleReconnect wit_env (Some wit_world) (wit_req MsgIdSessionReconnect "gw1" None)
                (wit_st (mkSession 7 "gw1" wit_tags 1000))).1 in
  expire_commit wit_reg 1200 7 st' = (st', []) ∧ is_Some (ss_sessions st' !! 7).
Proof.
  apply (reconnect_beats_expiry wit_reg 1200 wit_env (Some wit_world)
    (wit_req MsgIdSessionReconnect "gw1" None) (wit_st (mkSession 7 "gw1" wit_tags 1000))
    (mkSessionData 7 "gw1" None 0) (mkSession 7 "gw1" wit_tags 1000) _
    (handleReconnect wit_env (Some wit_world) (wit_req MsgIdSessionReconnect "gw1" None)
       (wit_st (mkSession 7 "gw1" wit_tags 1000))).2).
  - vm_compute. reflexivity.
  - reflexivity.
  - reflexivity.
  - left. reflexivity.
Defined.

Lemma sessions_survive_restart_witness :
  let st := (session_Handle (W := World) wit_env None (wit_req MsgIdSessionSave "gw1" wit_tags)
               session_init).1 in
  ∃ fs' store' cfg, OpenStore session_store_config open_all_ok (ss_files st) ∅ =
    (ss_sessions st, fs', inl (store', cfg)).
Proof.
  apply (sessions_survive_restart (W := World)). apply rtc_once.
  eapply (sess_handle wit_env None (wit_req MsgIdSessionSave "gw1" wit_tags)).
  - reflexivity.
  - split_and!; try done; evaluate.
  - intros d Hd.
    assert (d = mkSessionData 7 "gw1" wit_tags 0) as ->
      by (vm_compute in Hd |- *; by injection Hd as <-).
    split; [evaluate|]. split; [reflexivity|]. split; [discriminate|].
    split; [evaluate|]. split; [reflexivity|]. split; [intros _; discriminate|].
    split; [discriminate|]. split; [discriminate|]. evaluate.
  - apply surjective_pairing.
Defined.

Lemma save_without_tags_diverges_witness :
  (ss_sessions (handleSave wit_env (wit_req MsgIdSessionSave "gw1" None) (wit_st wit_session)).1 !! 7)
    ≫= s_ConnTags = None.
Proof.
  apply (save_without_tags_diverges wit_env (wit_req MsgIdSessionSave "gw1" None) (wit_st wit_session)
    (mkSessionData 7 "gw1" None 0) wit_session
    (list_to_map [(TagMatchID, "m1"%string); (TagRoomSvrID, "room1"%string)])); try done.
Defined.

Lemma expiry_not_journaled_witness :
  ∃ m fs store cfg,
    OpenStore session_store_config open_all_ok
      (ss_files (expiry_tick wit_reg 1200 [7] (wit_st (mkSession 7 "gw1" wit_tags 1000))).1) ∅ =
    (m, fs, inl (store, cfg)).
Proof.
  do 4 eexists.
  apply (expiry_not_journaled wit_reg 1200 [7] (wit_st (mkSession 7 "gw1" wit_tags 1000))).
  reflexivity.
Defined.
