(* ===== verification/Room.v ===== *)
(** * The room server

    [apps/roomsvr/internal/router/room_router.go]: the players of each match,
    joining, leaving, forced leaving and reconnection. *)

From S2P Require Import Prelude GoLib Proto Zinx Broadcast Registry Models.
#[local] Open Scope Z_scope.

(** ** State *)

Record roomPlayer := mkRoomPlayer { rp_playerID : string; rp_conn : Conn; rp_senderID : Z }.

#[export] Instance roomPlayer_eq_dec : EqDecision roomPlayer.
Proof. solve_decision. Defined.

(** [rooms]: match id to players, in the order they joined *)
Abbreviation Rooms := (gmap string (list roomPlayer)) (only parsing).

Section rooms.
Context `{Proto, BackendRouter R}.
Implicit Types (rooms : Rooms) (reg : option R) (env : Envelope) (conn : Conn).

(** The loops that look for a player. *)
Definition find_player (playerID : string) (players : list roomPlayer) :
    option (nat * roomPlayer) :=
  list_find (λ p, rp_playerID p = playerID) players.

Definition sendJoinResp conn (senderID : Z) (matchID : string) (success : bool)
    (errMsg : string) : list Effect :=
  [SendMsg conn MsgIdRoomJoinResp
     (marshal (mkEnvelope senderID (marshal (mkRoomJoinResp success matchID "" errMsg)) None))].

Definition notifyMatchSvr reg (matchID : string) : list Effect :=
  match reg with
  | None => []
  | Some reg =>
      match RouteTo reg SvcMatchSvr matchID with
      | None => []
      | Some c => [SendMsg c MsgIdRoomDestroyedPush
                     (marshal (mkEnvelope 0 (marshal (mkRoomDestroyedPush matchID)) None))]
      end
  end.

Definition broadcastRoomEvent (matchId : string) (members : list roomPlayer)
    (playerID event : string) (count : nat) : list Effect :=
  let push := marshal (mkRoomEventPush matchId playerID event (Z.of_nat count)) in
  members ≫= λ p, ToConn MsgIdRoomEventPush (rp_senderID p) push (rp_conn p).

(** *** Joining: [LoadOrStore], the search, and [Store] *)

Definition join_load (matchId : string) rooms : list roomPlayer * Rooms :=
  match rooms !! matchId with
  | Some players => (players, rooms)
  | None => ([], <[matchId := []]> rooms)
  end.

Definition join_store env conn (matchId : string) (players : list roomPlayer) rooms :
    Rooms * list Effect :=
  let playerID := mget (ev_ConnTags env) TagPlayerID in
  let rp := mkRoomPlayer playerID conn (ev_ConnId env) in
  match find_player playerID players with
  | Some _ => (rooms, sendJoinResp conn (ev_ConnId env) matchId false "already in room")
  | None =>
      let players := players ++ [rp] in
      (<[matchId := players]> rooms,
       sendJoinResp conn (ev_ConnId env) matchId true "" ++
       (if (1 <? length players)%nat then
          broadcastRoomEvent matchId (take (length players - 1) players) playerID "joined"
            (length players)
        else []))
  end.

Definition handleJoin env conn rooms : Rooms * list Effect :=
  match unmarshal (A := RoomJoinReq) (ev_Data env) with
  | None => (rooms, sendJoinResp conn (ev_ConnId env)
                      (jq_MatchId (partial_RoomJoinReq (ev_Data env))) false "invalid request")
  | Some req =>
      let '(players, rooms) := join_load (jq_MatchId req) rooms in
      join_store env conn (jq_MatchId req) players rooms
  end.

(** *** Leaving *)

Definition handleLeave reg env conn rooms : Rooms * list Effect :=
  match unmarshal (A := RoomLeaveReq) (ev_Data env) with
  | None => (rooms, [])
  | Some req =>
      let playerID := mget (ev_ConnTags env) TagPlayerID in
      match rooms !! lq_MatchId req with
      | None => (rooms, [])
      | Some players =>
          match find_player playerID players with
          | None => (rooms, [])
          | Some (idx, leftPlayer) =>
              let players := remove_at idx players in
              let '(rooms, es) :=
                if (length players =? 0)%nat then
                  (delete (lq_MatchId req) rooms, notifyMatchSvr reg (lq_MatchId req))
                else
                  (<[lq_MatchId req := players]> rooms,
                   broadcastRoomEvent (lq_MatchId req) players playerID "left" (length players)) in
              let resp := marshal (mkRoomLeaveResp true "") in
              (rooms, es ++ [SendMsg conn MsgIdRoomLeaveResp
                               (marshal (mkEnvelope (rp_senderID leftPlayer) resp None))])
          end
      end
  end.

Definition handleForceLeave reg (request : Request) rooms : Rooms * list Effect :=
  match unmarshal (A := SessionData) (rq_data request) with
  | None => (rooms, [])
  | Some data =>
      let matchID := mget (sd_ConnTags data) TagMatchID in
      let playerID := FormatInt (sd_PlayerId data) in
      match rooms !! matchID with
      | None => (rooms, [])
      | Some players =>
          match find_player playerID players with
          | None => (rooms, [])
          | Some (idx, leftPlayer) =>
              let players := remove_at idx players in
              let '(rooms, es) :=
                if (length players =? 0)%nat then
                  (delete matchID rooms, notifyMatchSvr reg matchID)
                else
                  (<[matchID := players]> rooms,
                   broadcastRoomEvent matchID players playerID "left" (length players)) in
              let resp := marshal (mkRoomLeaveResp true "") in
              (rooms, es ++ [SendMsg (rq_conn request) MsgIdRoomLeaveResp
                               (marshal (mkEnvelope (rp_senderID leftPlayer) resp None))])
          end
      end
  end.

(** *** Reconnection *)

Definition handleReconnected (request : Request) rooms : Rooms * list Effect :=
  match unmarshal (A := SessionData) (rq_data request) with
  | None => (rooms, [])
  | Some data =>
      let matchID := mget (sd_ConnTags data) TagMatchID in
      let playerID := mget (sd_ConnTags data) TagPlayerID in
      let senderID := (ParseUint (mget (sd_ConnTags data) TagSenderID)).1 in
      match rooms !! matchID with
      | None => (rooms, [])
      | Some players =>
          match find_player playerID players with
          | None => (rooms, [])
          | Some (i, p) =>
              (<[matchID :=
                   <[i := mkRoomPlayer (rp_playerID p) (rq_conn request) senderID]> players]>
                 rooms, [])
          end
      end
  end.

(** [RoomRouter.Handle] *)
Definition room_Handle reg (request : Request) rooms : Rooms * list Effect :=
  match unmarshal (A := Envelope) (rq_data request) with
  | None => (rooms, [])
  | Some env =>
      if rq_msgID request =? MsgIdRoomJoinReq then handleJoin env (rq_conn request) rooms
      else if rq_msgID request =? MsgIdRoomLeaveReq then
        handleLeave reg env (rq_conn request) rooms
      else if rq_msgID request =? MsgIdSessionReconnected then handleReconnected request rooms
      else if rq_msgID request =? MsgIdSessionForceLeave then handleForceLeave reg request rooms
      else (rooms, [])
  end.
End rooms.

(** * Theorems *)

(** The players of a match, and the abstract state: who is in which match. *)
Definition players_of (rooms : Rooms) (m : string) : list string :=
  rp_playerID <$> default [] (rooms !! m).
Definition member (rooms : Rooms) (m p : string) : Prop := p ∈ players_of rooms m.

#[export] Instance member_dec rooms m p : Decision (member rooms m p).
Proof. unfold member. apply _. Defined.

(** A stored room has at least one player, and nobody twice. *)
Definition room_ok (players : list roomPlayer) : Prop :=
  players ≠ [] ∧ NoDup (rp_playerID <$> players).
Definition rooms_ok (rooms : Rooms) : Prop := map_Forall (λ _, room_ok) rooms.

Section lemmas.
Implicit Types (rooms : Rooms) (l : list roomPlayer).

Lemma find_player_Some p l i rp :
  find_player p l = Some (i, rp) → l !! i = Some rp ∧ rp_playerID rp = p.
Proof. intros (? & ? & _)%list_find_Some. done. Qed.

Lemma find_player_None p l : find_player p l = None ↔ p ∉ rp_playerID <$> l.
Proof.
  unfold find_player. rewrite list_find_None, Forall_forall, list_elem_of_fmap.
  split; [intros H (rp & -> & Hin)|intros H rp Hin <-]; naive_solver.
Qed.

Lemma members_insert rooms m l m' :
  players_of (<[m := l]> rooms) m' = if decide (m = m') then rp_playerID <$> l
    else players_of rooms m'.
Proof. unfold players_of. rewrite lookup_insert. by case_decide. Qed.

Lemma members_delete rooms m m' :
  players_of (delete m rooms) m' = if decide (m = m') then [] else players_of rooms m'.
Proof. unfold players_of. rewrite lookup_delete. by case_decide. Qed.

(** Removing the player found at [i] removes exactly that player. *)
Lemma remove_player_elem l i rp q :
  NoDup (rp_playerID <$> l) → l !! i = Some rp →
  q ∈ rp_playerID <$> remove_at i l ↔ q ∈ rp_playerID <$> l ∧ q ≠ rp_playerID rp.
Proof.
  intros Hnd Hi. rewrite remove_at_fmap. apply (remove_at_elem_of i _ (rp_playerID rp)).
  - done.
  - by rewrite list_lookup_fmap, Hi.
Qed.
End lemmas.

Section properties.
Context `{Proto, BackendRouter R}.
Implicit Types (rooms : Rooms) (reg : option R) (env : Envelope) (conn : Conn).

(** Both ways of leaving are this operation. *)
Definition leave_room reg (m p : string) conn rooms : Rooms * list Effect :=
  match rooms !! m with
  | None => (rooms, [])
  | Some players =>
      match find_player p players with
      | None => (rooms, [])
      | Some (idx, leftPlayer) =>
          let players := remove_at idx players in
          let '(rooms, es) :=
            if (length players =? 0)%nat then (delete m rooms, notifyMatchSvr reg m)
            else (<[m := players]> rooms,
                  broadcastRoomEvent m players p "left" (length players)) in
          (rooms, es ++ [SendMsg conn MsgIdRoomLeaveResp
            (marshal (mkEnvelope (rp_senderID leftPlayer) (marshal (mkRoomLeaveResp true "")) None))])
      end
  end.

Lemma handleLeave_room reg env conn rooms req :
  unmarshal (ev_Data env) = Some req →
  handleLeave reg env conn rooms =
    leave_room reg (lq_MatchId req) (mget (ev_ConnTags env) TagPlayerID) conn rooms.
Proof. intros Hr. unfold handleLeave. by rewrite Hr. Qed.

Lemma handleForceLeave_room reg request rooms d :
  unmarshal (rq_data request) = Some d →
  handleForceLeave reg request rooms =
    leave_room reg (mget (sd_ConnTags d) TagMatchID) (FormatInt (sd_PlayerId d))
      (rq_conn request) rooms.
Proof. intros Hd. unfold handleForceLeave. by rewrite Hd. Qed.

Lemma leave_room_Some reg m p conn rooms players i rp :
  rooms !! m = Some players → find_player p players = Some (i, rp) →
  leave_room reg m p conn rooms =
    ((if (length (remove_at i players) =? 0)%nat then delete m rooms
      else <[m := remove_at i players]> rooms),
     (if (length (remove_at i players) =? 0)%nat then notifyMatchSvr reg m
      else broadcastRoomEvent m (remove_at i players) p "left" (length (remove_at i players))) ++
     [SendMsg conn MsgIdRoomLeaveResp
        (marshal (mkEnvelope (rp_senderID rp) (marshal (mkRoomLeaveResp true "")) None))]).
Proof. intros Hm Hf. unfold leave_room. rewrite Hm, Hf. by destruct (_ =? 0)%nat. Qed.

Lemma leave_room_ok reg m p conn rooms :
  rooms_ok rooms → rooms_ok (leave_room reg m p conn rooms).1.
Proof.
  intros Hok. destruct (rooms !! m) as [players|] eqn:Hm.
  2: { unfold leave_room. by rewrite Hm. }
  destruct (find_player p players) as [[i rp]|] eqn:Hf.
  2: { unfold leave_room. by rewrite Hm, Hf. }
  rewrite (leave_room_Some _ _ _ _ _ _ _ _ Hm Hf). cbn [fst].
  destruct (Hok m players Hm) as [_ Hnd].
  destruct (Nat.eqb_spec (length (remove_at i players)) 0) as [_|Hne].
  - by apply map_Forall_delete.
  - apply map_Forall_insert_2; [|done]. split; [by destruct (remove_at i players)|].
    rewrite remove_at_fmap. by apply remove_at_NoDup.
Qed.

Lemma leave_room_members reg m p conn rooms m' p' :
  rooms_ok rooms →
  member (leave_room reg m p conn rooms).1 m' p' ↔ member rooms m' p' ∧ (m', p') ≠ (m, p).
Proof.
  intros Hok. destruct (rooms !! m) as [players|] eqn:Hm.
  2: { unfold leave_room. rewrite Hm. cbn [fst]. split; [|tauto]. intros Hp. split; [done|].
       intros [= Hm1 Hp1]; subst m' p'. unfold member, players_of in Hp. rewrite Hm in Hp.
       by apply elem_of_nil in Hp. }
  destruct (find_player p players) as [[i rp]|] eqn:Hf.
  2: { unfold leave_room. rewrite Hm, Hf. cbn [fst]. split; [|tauto]. intros Hp. split; [done|].
       intros [= Hm1 Hp1]; subst m' p'. apply find_player_None in Hf. unfold member, players_of in Hp.
       by rewrite Hm in Hp. }
  rewrite (leave_room_Some _ _ _ _ _ _ _ _ Hm Hf). cbn [fst].
  apply find_player_Some in Hf as [Hi <-]. destruct (Hok m players Hm) as [_ Hnd].
  pose proof (remove_player_elem players i rp p' Hnd Hi) as Hrm.
  unfold member. destruct (Nat.eqb_spec (length (remove_at i players)) 0) as [He%nil_length_inv|_].
  - rewrite members_delete. rewrite He in Hrm. destruct (decide (m = m')) as [<-|Hne].
    + unfold players_of. rewrite Hm. simpl. simpl in Hrm. rewrite Hrm.
      split; intros [? Hx]; (split; [done|]); [by intros [= ->]|by intros ->].
    + split; [intros ?; split; [done|by intros [= ->]]|tauto].
  - rewrite members_insert. destruct (decide (m = m')) as [<-|Hne].
    + unfold players_of. rewrite Hm. simpl. rewrite Hrm.
      split; intros [? Hx]; (split; [done|]); [by intros [= ->]|by intros ->].
    + split; [intros ?; split; [done|by intros [= ->]]|tauto].
Qed.

Lemma broadcastRoomEvent_elem m members p event n e :
  e ∈ broadcastRoomEvent m members p event n ↔
    ∃ rp, rp ∈ members ∧ e = SendMsg (rp_conn rp) MsgIdRoomEventPush
      (marshal (mkEnvelope (rp_senderID rp)
         (marshal (mkRoomEventPush m p event (Z.of_nat n))) None)).
Proof.
  unfold broadcastRoomEvent, ToConn. rewrite list_elem_of_bind. cbn zeta.
  setoid_rewrite list_elem_of_singleton. naive_solver.
Qed.

Lemma handleJoin_new env conn rooms req :
  unmarshal (ev_Data env) = Some req →
  let m := jq_MatchId req in let p := mget (ev_ConnTags env) TagPlayerID in
  let room := default [] (rooms !! m) in
  ¬ member rooms m p →
  handleJoin env conn rooms =
    (<[m := room ++ [mkRoomPlayer p conn (ev_ConnId env)]]> rooms,
     sendJoinResp conn (ev_ConnId env) m true "" ++
     broadcastRoomEvent m room p "joined" (S (length room))).
Proof.
  intros Hr m p room Hn. unfold handleJoin. rewrite Hr. fold m.
  assert (find_player p room = None) as Hf by by apply find_player_None.
  assert (join_load m rooms = (room, if rooms !! m is Some _ then rooms else <[m := []]> rooms))
    as -> by (unfold join_load, room; by destruct (rooms !! m)).
  unfold join_store. fold p. rewrite Hf, length_app, Nat.add_1_r. cbn [length Nat.sub].
  rewrite Nat.sub_0_r, take_app_length. f_equal.
  - destruct (rooms !! m) eqn:Hm; [done|]. by rewrite insert_insert_eq.
  - f_equal. by destruct room.
Qed.

Lemma handleJoin_member env conn rooms req :
  unmarshal (ev_Data env) = Some req →
  member rooms (jq_MatchId req) (mget (ev_ConnTags env) TagPlayerID) →
  handleJoin env conn rooms =
    (rooms, sendJoinResp conn (ev_ConnId env) (jq_MatchId req) false "already in room").
Proof.
  intros Hr Hm. unfold handleJoin, join_load. rewrite Hr. unfold member, players_of in Hm.
  destruct (rooms !! jq_MatchId req) as [l|]; [|by apply elem_of_nil in Hm].
  unfold join_store. simpl in Hm.
  destruct (find_player _ l) eqn:Hf; [done|]. by apply find_player_None in Hf.
Qed.

Lemma handleJoin_ok env conn rooms : rooms_ok rooms → rooms_ok (handleJoin env conn rooms).1.
Proof.
  intros Hok. destruct (unmarshal (A := RoomJoinReq) (ev_Data env)) as [req|] eqn:Hr.
  2: { unfold handleJoin. by rewrite Hr. }
  destruct (decide (member rooms (jq_MatchId req) (mget (ev_ConnTags env) TagPlayerID))) as [Hm|Hm].
  - by rewrite (handleJoin_member _ _ _ _ Hr Hm).
  - rewrite (handleJoin_new _ _ _ _ Hr Hm). cbn [fst]. apply map_Forall_insert_2; [|done].
    split; [by destruct (default [] _)|]. rewrite fmap_app. apply NoDup_app. split_and!.
    + destruct (rooms !! jq_MatchId req) eqn:Hl; simpl; [by apply (Hok _ _ Hl)|constructor].
    + intros q Hq. simpl. rewrite list_elem_of_singleton. by intros ->.
    + apply NoDup_singleton.
Qed.

Lemma reconnected_players (players : list roomPlayer) (i : nat) rp rp' :
  players !! i = Some rp → rp_playerID rp' = rp_playerID rp →
  rp_playerID <$> <[i := rp']> players = rp_playerID <$> players.
Proof.
  intros Hi Hid. rewrite list_fmap_insert, Hid. apply list_insert_id.
  by rewrite list_lookup_fmap, Hi.
Qed.

Lemma handleReconnected_ok request rooms :
  rooms_ok rooms → rooms_ok (handleReconnected request rooms).1.
Proof.
  intros Hok. unfold handleReconnected. destruct (unmarshal _) as [d|]; [|done].
  destruct (rooms !! _) as [players|] eqn:Hm; [|done].
  destruct (find_player _ _) as [[i rp]|] eqn:Hf; [|done].
  apply find_player_Some in Hf as [Hi _]. destruct (Hok _ _ Hm) as [Hne Hnd].
  apply map_Forall_insert_2; [|done]. split.
  - intros He%(f_equal length). rewrite length_insert in He. by destruct players.
  - by rewrite (reconnected_players _ _ _ _ Hi).
Qed.

Definition room_run reg (reqs : list Request) rooms : Rooms :=
  foldl (λ r q, (room_Handle reg q r).1) rooms reqs.

(** C10: Whatever requests arrive, in whatever order, every stored room has at
    least one player and no player twice. *)
Theorem rooms_invariant reg reqs : rooms_ok (room_run reg reqs ∅).
Proof.
  assert (∀ rooms, rooms_ok rooms → rooms_ok (room_run reg reqs rooms)) as Hrun.
  { induction reqs as [|q reqs IH]; intros rooms Hok; [done|]. apply IH.
    unfold room_Handle. destruct (unmarshal _) as [env|]; [|done].
    repeat case_match; [by apply handleJoin_ok| |by apply handleReconnected_ok| |done].
    - unfold handleLeave. destruct (unmarshal (ev_Data env)) as [req|] eqn:Hr; [|done].
      by apply leave_room_ok.
    - unfold handleForceLeave. destruct (unmarshal (rq_data q)) as [d|] eqn:Hd; [|done].
      by apply leave_room_ok. }
  apply Hrun, map_Forall_empty.
Qed.

(** C11: Joining refines adding a pair to a relation between matches and
    players: a player already in the match is refused and nothing changes; any
    other player is added, to that match only, is told so, and exactly the
    players who were in the match before are told about it, with the new
    number of players. *)
Theorem join_refines env conn rooms req :
  unmarshal (ev_Data env) = Some req →
  let m := jq_MatchId req in let p := mget (ev_ConnTags env) TagPlayerID in
  let room := default [] (rooms !! m) in
  let '(rooms', es) := handleJoin env conn rooms in
  (member rooms m p →
     rooms' = rooms ∧ es = sendJoinResp conn (ev_ConnId env) m false "already in room") ∧
  (¬ member rooms m p →
     (∀ m' p', member rooms' m' p' ↔ member rooms m' p' ∨ (m', p') = (m, p)) ∧
     es = sendJoinResp conn (ev_ConnId env) m true "" ++
          broadcastRoomEvent m room p "joined" (S (length room))).
Proof.
  intros Hr m p room.
  destruct (decide (member rooms m p)) as [Hm|Hm].
  - rewrite (handleJoin_member _ _ _ _ Hr Hm). naive_solver.
  - rewrite (handleJoin_new _ _ _ _ Hr Hm). split; [done|]. intros _. split; [|done].
    intros m' p'. unfold member. rewrite members_insert.
    destruct (decide (jq_MatchId req = m')) as [<-|Hne].
    + rewrite fmap_app, elem_of_app. unfold players_of. simpl.
      rewrite list_elem_of_singleton. split; (intros [?|He]; [by left|right]).
      * by rewrite He.
      * by injection He.
    + split; [auto|]. intros [?|[= -> ->]]; done.
Qed.

(** C12: Leaving refines removing the pair: the player is out of that match and
    nothing else changes; when others remain, each of them is told and the
    match server is not; when the player was the last one, the room is deleted
    and the match server is told the match is over. *)
Theorem leave_refines reg env conn rooms req :
  rooms_ok rooms → unmarshal (ev_Data env) = Some req →
  let m := lq_MatchId req in let p := mget (ev_ConnTags env) TagPlayerID in
  member rooms m p →
  let '(rooms', es) := handleLeave reg env conn rooms in
  (∀ m' p', member rooms' m' p' ↔ member rooms m' p' ∧ (m', p') ≠ (m, p)) ∧
  (players_of rooms m = [p] →
     rooms' !! m = None ∧
     ∀ e, e ∈ notifyMatchSvr reg m → e ∈ es) ∧
  (players_of rooms m ≠ [p] →
     (∀ rp, rp ∈ default [] (rooms' !! m) →
        SendMsg (rp_conn rp) MsgIdRoomEventPush (marshal (mkEnvelope (rp_senderID rp)
          (marshal (mkRoomEventPush m p "left"
             (Z.of_nat (length (players_of rooms m)) - 1))) None)) ∈ es) ∧
     ∀ c data, SendMsg c MsgIdRoomDestroyedPush data ∉ es) ∧
  ∃ data, last es = Some (SendMsg conn MsgIdRoomLeaveResp data).
Proof.
  intros Hok Hr m p Hm. rewrite (handleLeave_room reg env conn rooms req Hr). fold m p.
  pose proof (leave_room_members reg m p conn rooms) as Hmem.
  unfold member, players_of in Hm.
  destruct (rooms !! m) as [players|] eqn:Hl; [|by apply elem_of_nil in Hm].
  destruct (find_player p players) as [[i rp]|] eqn:Hf; [|by apply find_player_None in Hf].
  rewrite (leave_room_Some reg m p conn rooms players i rp Hl Hf) in *. cbn [fst] in Hmem.
  split; [intros; by apply Hmem|]. clear Hmem.
  apply find_player_Some in Hf as [Hi Hid].
  assert (length players = S (length (remove_at i players))) as Hlen.
  { apply lookup_lt_Some in Hi. rewrite remove_at_length by done. lia. }
  unfold players_of. rewrite Hl. cbn [default from_option id].
  split_and!; [| |rewrite last_snoc; eauto].
  - intros Hp. assert (length (remove_at i players) = 0%nat) as ->.
    { apply (f_equal length) in Hp. rewrite length_fmap in Hp. simpl in Hp. lia. }
    simpl. rewrite lookup_delete_eq. split; [done|]. intros e He. apply elem_of_app. by left.
  - intros Hp. destruct (Nat.eqb_spec (length (remove_at i players)) 0) as [H0'|Hn0].
    { exfalso. apply Hp. rewrite H0' in Hlen. destruct players as [|rp' [|]]; try done.
      destruct i as [|i]; [|done]. injection Hi as ->. simpl. by rewrite Hid. }
    rewrite lookup_insert_eq. split.
    + intros rp' Hrp. apply elem_of_app. left. apply broadcastRoomEvent_elem.
      exists rp'. split; [done|]. rewrite length_fmap, Hlen.
      repeat f_equal. lia.
    + intros c data [He|He]%elem_of_app.
      * apply broadcastRoomEvent_elem in He as (? & _ & [=]).
      * apply list_elem_of_singleton in He. by injection He.
Qed.

(** The entry of player [q] in match [m]. *)
Definition entry_of rooms (m q : string) : option roomPlayer :=
  snd <$> find_player q (default [] (rooms !! m)).

Lemma entry_of_None rooms m q : entry_of rooms m q = None ↔ ¬ member rooms m q.
Proof. unfold entry_of, member, players_of. by rewrite fmap_None, find_player_None. Qed.

(** C30: A forced leave after a session expired does what the player's own leave
    request, arriving on a gateway's connection [conn], would do: the same rooms,
    the same events for those who stay or the same notice to the match server,
    and the same answer, addressed to the client the player joined with.  Only
    the answer is sent elsewhere: on the connection of the session server, whose
    message this is, and not on a gateway's; and if the player is not in the
    match neither does anything. *)
Theorem force_leave_same_as_leave reg request env conn rooms d req :
  unmarshal (rq_data request) = Some d → unmarshal (ev_Data env) = Some req →
  let m := mget (sd_ConnTags d) TagMatchID in
  let p := FormatInt (sd_PlayerId d) in
  lq_MatchId req = m → mget (ev_ConnTags env) TagPlayerID = p →
  match entry_of rooms m p with
  | None =>
      handleForceLeave reg request rooms = (rooms, []) ∧ handleLeave reg env conn rooms = (rooms, [])
  | Some rp => ∃ rooms' es,
      let answer := marshal (mkEnvelope (rp_senderID rp) (marshal (mkRoomLeaveResp true "")) None) in
      handleLeave reg env conn rooms = (rooms', es ++ [SendMsg conn MsgIdRoomLeaveResp answer]) ∧
      handleForceLeave reg request rooms =
        (rooms', es ++ [SendMsg (rq_conn request) MsgIdRoomLeaveResp answer]) ∧
      ∀ c data, SendMsg c MsgIdRoomLeaveResp data ∉ es
  end.
Proof.
  intros Hd Hr m p Hm Hp.
  rewrite (handleForceLeave_room _ _ _ _ Hd), (handleLeave_room _ _ _ _ _ Hr), Hm, Hp. fold m p.
  unfold entry_of. destruct (rooms !! m) as [players|] eqn:Hl; simpl.
  2: { unfold leave_room. by rewrite Hl. }
  destruct (find_player p players) as [[i rp]|] eqn:Hf; simpl.
  2: { unfold leave_room. by rewrite Hl, Hf. }
  rewrite !(leave_room_Some _ _ _ _ _ _ _ _ Hl Hf). do 2 eexists.
  split; [reflexivity|]. split; [reflexivity|]. intros c data.
  destruct (_ =? 0)%nat.
  - unfold notifyMatchSvr. destruct reg as [r|]; [|apply not_elem_of_nil].
    destruct (RouteTo r _ _); [|apply not_elem_of_nil]. by intros [=]%list_elem_of_singleton.
  - by intros (? & _ & [=])%broadcastRoomEvent_elem.
Qed.

Lemma find_player_insert l i rp rp' q :
  find_player (rp_playerID rp) l = Some (i, rp) → rp_playerID rp' = rp_playerID rp →
  snd <$> find_player q (<[i := rp']> l) =
    if decide (q = rp_playerID rp) then Some rp' else snd <$> find_player q l.
Proof.
  intros Hf Hid. revert i Hf. induction l as [|x l IH]; intros i Hf; [done|].
  unfold find_player in *. simpl in Hf. case_decide as Hx.
  - injection Hf as <- ->. simpl. rewrite Hid. repeat case_decide; congruence || done.
  - apply fmap_Some in Hf as ([j y] & Hf & [= -> ->]). specialize (IH j Hf). simpl.
    destruct (decide (rp_playerID x = q)) as [Hq|Hq].
    + rewrite decide_False by congruence. done.
    + rewrite <-!option_fmap_compose. exact IH.
Qed.

(** Who stays in the room is told. *)
Lemma leave_room_tells reg m q conn rooms players i x rp :
  rooms !! m = Some players → find_player q players = Some (i, x) →
  rp ∈ players → rp_playerID rp ≠ q →
  SendMsg (rp_conn rp) MsgIdRoomEventPush (marshal (mkEnvelope (rp_senderID rp)
    (marshal (mkRoomEventPush m q "left" (Z.of_nat (length players - 1)))) None))
  ∈ (leave_room reg m q conn rooms).2.
Proof.
  intros Hm Hf Hin Hne. rewrite (leave_room_Some _ _ _ _ _ _ _ _ Hm Hf). cbn [snd].
  apply find_player_Some in Hf as [Hi Hq].
  assert (rp ∈ remove_at i players) as Hrm.
  { apply list_elem_of_lookup in Hin as [j Hj]. apply (remove_at_keeps i j); [|done].
    intros ->. rewrite Hi in Hj. by injection Hj as ->. }
  assert (length (remove_at i players) = (length players - 1)%nat) as Hlen
    by (pose proof (remove_at_length i players (lookup_lt_Some _ _ _ Hi)); lia).
  destruct (Nat.eqb_spec (length (remove_at i players)) 0) as [H0'%nil_length_inv|_].
  { rewrite H0' in Hrm. by apply elem_of_nil in Hrm. }
  apply elem_of_app. left. apply broadcastRoomEvent_elem. exists rp. by rewrite Hlen.
Qed.

(** C29: What the reconnection handler of the room router does: the notice
    replaces the connection and the sender id of that player in that match and
    changes nothing else (the order of the players, every other player's entry
    and every other match stay as they are, and nothing is sent).  Afterwards
    the events about another player, one who leaves or one who joins, reach the
    reconnected player on the new connection with the new sender id.  (The room
    server does not register this message id, so that the handler is never
    called: [session_notices_dropped] in the file Wiring.) *)
Theorem reconnected_redirects reg request rooms d m p sid :
  unmarshal (rq_data request) = Some d →
  mget (sd_ConnTags d) TagMatchID = m → mget (sd_ConnTags d) TagPlayerID = p →
  mget (sd_ConnTags d) TagSenderID = FormatUint sid → in_uint64 sid → member rooms m p →
  ∃ rooms', handleReconnected request rooms = (rooms', []) ∧
  (∀ m', m' ≠ m → rooms' !! m' = rooms !! m') ∧
  players_of rooms' m = players_of rooms m ∧
  (∀ q, entry_of rooms' m q =
     if decide (q = p) then Some (mkRoomPlayer p (rq_conn request) sid) else entry_of rooms m q) ∧
  let told q event n := SendMsg (rq_conn request) MsgIdRoomEventPush (marshal (mkEnvelope sid
    (marshal (mkRoomEventPush m q event (Z.of_nat n))) None)) in
  (∀ env conn req q, unmarshal (ev_Data env) = Some req → lq_MatchId req = m →
     mget (ev_ConnTags env) TagPlayerID = q → q ≠ p → member rooms m q →
     told q "left"%string (length (players_of rooms m) - 1)%nat
       ∈ (handleLeave reg env conn rooms').2) ∧
  (∀ env conn req q, unmarshal (ev_Data env) = Some req → jq_MatchId req = m →
     mget (ev_ConnTags env) TagPlayerID = q → ¬ member rooms m q →
     told q "joined"%string (S (length (players_of rooms m)))
       ∈ (handleJoin env conn rooms').2).
Proof.
  intros Hd Hmid Hpid Hsid Hu Hm. unfold handleReconnected.
  rewrite Hd, Hmid, Hpid, Hsid, ParseUint_FormatUint by done. clear Hd Hmid Hpid Hsid.
  unfold member, players_of in Hm.
  destruct (rooms !! m) as [players|] eqn:Hl; [|by apply elem_of_nil in Hm].
  destruct (find_player p players) as [[i rp0]|] eqn:Hf; [|by apply find_player_None in Hf].
  apply find_player_Some in Hf as Hi. destruct Hi as [Hi Hid]. subst p.
  set (rp' := mkRoomPlayer (rp_playerID rp0) (rq_conn request) sid). cbn [fst].
  set (players' := <[i := rp']> players).
  assert (rp_playerID <$> players' = rp_playerID <$> players) as Hids
    by (by apply reconnected_players with rp0).
  assert (length players' = length players) as Hlen by apply length_insert.
  assert (rp' ∈ players') as Hin.
  { apply list_elem_of_lookup. exists i. apply list_lookup_insert_eq. by eapply lookup_lt_Some. }
  assert (∀ q, member (<[m:=players']> rooms) m q ↔ member rooms m q) as Hmem.
  { intros q. unfold member. rewrite members_insert, decide_True by done.
    unfold players_of. by rewrite Hl, Hids. }
  eexists. split; [reflexivity|]. split_and!.
  - intros m' Hne. by apply lookup_insert_ne.
  - rewrite members_insert, decide_True by done. unfold players_of. by rewrite Hl.
  - intros q. unfold entry_of. rewrite lookup_insert_eq, Hl. exact (find_player_insert _ _ _ rp' q Hf eq_refl).
  - intros env conn req q Hr Hmq Hq Hne Hmb. rewrite (handleLeave_room _ _ _ _ _ Hr), Hmq, Hq.
    unfold players_of. rewrite Hl. simpl. rewrite length_fmap, <-Hlen.
    destruct (find_player q players') as [[j x]|] eqn:Hfq.
    2: { apply Hmem in Hmb. unfold member, players_of in Hmb. rewrite lookup_insert_eq in Hmb.
         by apply find_player_None in Hfq. }
    eapply (leave_room_tells reg m q conn (<[m:=players']> rooms) players' j x rp');
      [apply lookup_insert_eq|done|done|by apply not_eq_sym].
  - intros env conn req q Hr Hmq Hq Hnm. subst m q.
    rewrite (handleJoin_new _ _ _ _ Hr) by (intros Hx; by apply Hnm, Hmem). cbn [snd].
    rewrite lookup_insert_eq. cbn [default from_option id]. apply elem_of_app. right.
    apply broadcastRoomEvent_elem. exists rp'. split; [done|].
    unfold players_of. rewrite Hl. cbn [default from_option id].
    by rewrite length_fmap, length_insert.
Qed.

(** Two joins of one match are not atomic: when both look the room up before
    either stores it, both players are told they joined, and only the one that
    stores last is in the room. *)
Theorem concurrent_joins_lose_player env1 env2 conn1 conn2 m rooms :
  let p1 := mget (ev_ConnTags env1) TagPlayerID in
  let p2 := mget (ev_ConnTags env2) TagPlayerID in
  p1 ≠ p2 → ¬ member rooms m p1 → ¬ member rooms m p2 →
  let '(l1, rooms1) := join_load m rooms in
  let '(l2, rooms2) := join_load m rooms1 in
  let '(rooms3, es1) := join_store env1 conn1 m l1 rooms2 in
  let '(rooms4, es2) := join_store env2 conn2 m l2 rooms3 in
  head es1 = head (sendJoinResp conn1 (ev_ConnId env1) m true "") ∧
  head es2 = head (sendJoinResp conn2 (ev_ConnId env2) m true "") ∧
  ¬ member rooms4 m p1 ∧ member rooms4 m p2.
Proof.
  intros p1 p2 Hne H1 H2.
  set (room := default [] (rooms !! m)).
  assert (find_player p1 room = None) as Hf1 by by apply find_player_None.
  assert (find_player p2 room = None) as Hf2 by by apply find_player_None.
  set (rooms1 := if rooms !! m is Some _ then rooms else <[m := []]> rooms).
  assert (join_load m rooms = (room, rooms1)) as ->
    by (unfold join_load, room, rooms1; by destruct (rooms !! m)).
  assert (join_load m rooms1 = (room, rooms1)) as ->.
  { unfold join_load. assert (rooms1 !! m = Some room) as ->; [|done].
    unfold rooms1, room. destruct (rooms !! m) eqn:Hm; [done|]. apply lookup_insert_eq. }
  unfold join_store. fold p1 p2. rewrite Hf1, Hf2. split_and!; [done|done| |].
  - unfold member. rewrite members_insert, decide_True by done. rewrite fmap_app, elem_of_app.
    simpl. rewrite list_elem_of_singleton. intros [?|?]; done.
  - unfold member. rewrite members_insert, decide_True by done. rewrite fmap_app, elem_of_app.
    right. simpl. by apply list_elem_of_singleton.
Qed.
End properties.

(** ** Concrete inputs *)

Definition wit_player (p : string) (c : Conn) : roomPlayer := mkRoomPlayer p c 3.
Definition wit_rooms : Rooms := {[ "m1"%string := [wit_player "1" 8; wit_player "2" 9] ]}.
Definition wit_join_env (p : string) : Envelope :=
  mkEnvelope 4 (marshal (mkRoomJoinReq "m1")) (mlit [(TagPlayerID, p)]).
Definition wit_leave_env (p : string) : Envelope :=
  mkEnvelope 4 (marshal (mkRoomLeaveReq "m1")) (mlit [(TagPlayerID, p)]).
Definition wit_room_reg : option (string → string → option Conn) := Some (λ _ _, Some 5%N).
Definition wit_force_req : Request :=
  mkRequest 6 MsgIdSessionForceLeave
    (marshal (mkSessionData 2 "" (mlit [(TagMatchID, "m1"%string)]) 0)).
Definition wit_reconnected_req : Request :=
  mkRequest 6 MsgIdSessionReconnected
    (marshal (mkSessionData 2 "" (mlit [(TagMatchID, "m1"%string); (TagPlayerID, "2"%string);
       (TagSenderID, "77"%string)]) 0)).

Lemma wit_rooms_ok : rooms_ok wit_rooms.
Proof. apply map_Forall_singleton. split; [done|]. evaluate. Qed.

Lemma join_refines_witness :
  let '(rooms', es) := handleJoin (wit_join_env "3") 8%N wit_rooms in
  (member wit_rooms "m1" "3" →
     rooms' = wit_rooms ∧ es = sendJoinResp 8%N 4 "m1" false "already in room") ∧
  (¬ member wit_rooms "m1" "3" →
     (∀ m' p', member rooms' m' p' ↔ member wit_rooms m' p' ∨ (m', p') = ("m1", "3")%string) ∧
     es = sendJoinResp 8%N 4 "m1" true "" ++
          broadcastRoomEvent "m1" [wit_player "1" 8; wit_player "2" 9] "3" "joined" 3).
Proof.
  apply (join_refines (wit_join_env "3") 8%N wit_rooms (mkRoomJoinReq "m1")).
  vm_compute. reflexivity.
Defined.

Lemma leave_refines_witness :
  let '(rooms', es) := handleLeave wit_room_reg (wit_leave_env "2") 9%N wit_rooms in
  (∀ m' p', member rooms' m' p' ↔ member wit_rooms m' p' ∧ (m', p') ≠ ("m1", "2")%string) ∧ True.
Proof.
  pose proof (leave_refines (H := count_proto) wit_room_reg (wit_leave_env "2") 9%N wit_rooms (mkRoomLeaveReq "m1")
    wit_rooms_ok ltac:(vm_compute; reflexivity) ltac:(evaluate)) as Hl.
  destruct (handleLeave _ _ _ _) as [rooms' es]. split; [apply Hl|exact I].
Defined.

Lemma force_leave_same_as_leave_witness :
  ∃ rooms' es answer,
    handleLeave wit_room_reg (wit_leave_env "2") 9%N wit_rooms =
      (rooms', es ++ [SendMsg 9%N MsgIdRoomLeaveResp answer]) ∧
    handleForceLeave wit_room_reg wit_force_req wit_rooms =
      (rooms', es ++ [SendMsg 6%N MsgIdRoomLeaveResp answer]).
Proof.
  destruct (force_leave_same_as_leave wit_room_reg wit_force_req (wit_leave_env "2") 9%N wit_rooms
    (mkSessionData 2 "" (mlit [(TagMatchID, "m1"%string)]) 0) (mkRoomLeaveReq "m1"))
    as (rooms' & es & Hl & Hf & _); [vm_compute; reflexivity..|].
  do 3 eexists. split; [exact Hl|exact Hf].
Defined.

Lemma reconnected_redirects_witness :
  ∃ rooms', handleReconnected wit_reconnected_req wit_rooms = (rooms', []) ∧
    SendMsg (rq_conn wit_reconnected_req) MsgIdRoomEventPush (marshal (mkEnvelope 77
      (marshal (mkRoomEventPush "m1" "1" "left" (Z.of_nat 1))) None))
    ∈ (handleLeave wit_room_reg (wit_leave_env "1") 8%N rooms').2.
Proof.
  destruct (reconnected_redirects (H := count_proto) wit_room_reg wit_reconnected_req wit_rooms
    (mkSessionData 2 "" (mlit [(TagMatchID, "m1"%string); (TagPlayerID, "2"%string);
       (TagSenderID, "77"%string)]) 0) "m1" "2" 77) as (rooms' & Hr & _ & _ & _ & Hleave & _).
  - vm_compute. reflexivity.
  - vm_compute. reflexivity.
  - vm_compute. reflexivity.
  - vm_compute. reflexivity.
  - evaluate.
  - evaluate.
  - exists rooms'. split; [exact Hr|].
    apply (Hleave (wit_leave_env "1") 8%N (mkRoomLeaveReq "m1") "1"%string).
    + vm_compute. reflexivity.
    + reflexivity.
    + reflexivity.
    + discriminate.
    + evaluate.
Defined.

Lemma concurrent_joins_lose_player_witness :
  let '(l1, rooms1) := join_load "m1" (∅ : Rooms) in
  let '(l2, rooms2) := join_load "m1" rooms1 in
  let '(rooms3, es1) := join_store (wit_join_env "1") 8%N "m1" l1 rooms2 in
  let '(rooms4, es2) := join_store (wit_join_env "2") 9%N "m1" l2 rooms3 in
  head es1 = head (sendJoinResp 8%N 4 "m1" true "") ∧
  head es2 = head (sendJoinResp 9%N 4 "m1" true "") ∧
  ¬ member rooms4 "m1" "1" ∧ member rooms4 "m1" "2".
Proof.
  apply (concurrent_joins_lose_player (wit_join_env "1") (wit_join_env "2") 8%N 9%N "m1" ∅).
  - vm_compute. discriminate.
  - evaluate.
  - evaluate.
Defined.
