(* ===== verification/Match.v ===== *)
(** * The match server

    [apps/matchsvr/internal/router/match_router.go]: the queue of each match
    type, the directory of active matches and the load of each room server. *)

From S2P Require Import Prelude GoLib Proto Zinx Conf Models.
#[local] Open Scope Z_scope.

(** ** State *)

Record matchDir := mkMatchDir { md_ServerID : string; md_MatchType : string; md_CreatedAt : Z }.

Record queuedPlayer := mkQueuedPlayer {
  qp_playerID : Z; qp_elo : Z; qp_conn : Conn; qp_senderID : Z }.

#[export] Instance queuedPlayer_eq_dec : EqDecision queuedPlayer.
Proof. solve_decision. Defined.

Record MatchSt := mkMatchSt {
  ms_activeMatches : gmap string matchDir;
  ms_queues : gmap string (list queuedPlayer);
  ms_loadCounts : gmap string Z }.

Definition match_init : MatchSt := mkMatchSt ∅ ∅ ∅.

(** The two readings of the clock in one request, in nanoseconds. *)
Record Clock := mkClock { ck_id : Z; ck_created : Z }.

Section matches.
Context `{Proto}.
Implicit Types (cfg : Config) (st : MatchSt) (env : Envelope) (conn : Conn).

Definition requiredPlayers (matchType : string) : nat :=
  if decide (matchType = "1v1"%string) then 2%nat
  else if decide (matchType = "2v2"%string) then 4%nat
  else if decide (matchType = "3v3"%string) then 6%nat
  else if decide (matchType = "5v5"%string) then 10%nat
  else 2%nat.

Definition playerIDs (pool : list queuedPlayer) : list Z := qp_playerID <$> pool.

(** ** Loads *)

(** The loop of [pickLeastLoaded], with [minCount] and [best]. *)
Fixpoint least_loop (loads : gmap string Z) (servers : list ServerNode) (minCount : Z)
    (best : string) : string :=
  match servers with
  | [] => best
  | srv :: servers =>
      let count := default 0 (loads !! sn_ID srv) in
      if count <? minCount then least_loop loads servers count (sn_ID srv)
      else least_loop loads servers minCount best
  end.

Definition pickLeastLoaded cfg st (service : string) : string :=
  let servers := services_of cfg service in
  if (length servers =? 0)%nat then "" else least_loop (ms_loadCounts st) servers max_int64 "".

Definition incLoad (serverID : string) st : MatchSt :=
  mkMatchSt (ms_activeMatches st) (ms_queues st)
    (<[serverID := int64 (default 0 (ms_loadCounts st !! serverID) + 1)]> (ms_loadCounts st)).

Definition decLoad (serverID : string) st : MatchSt :=
  match ms_loadCounts st !! serverID with
  | None => st
  | Some v =>
      let count := int64 (v - 1) in
      mkMatchSt (ms_activeMatches st) (ms_queues st)
        (if count <=? 0 then delete serverID (ms_loadCounts st)
         else <[serverID := count]> (ms_loadCounts st))
  end.

Definition set_active st (m : gmap string matchDir) : MatchSt :=
  mkMatchSt m (ms_queues st) (ms_loadCounts st).
Definition set_queue st (t : string) (q : list queuedPlayer) : MatchSt :=
  mkMatchSt (ms_activeMatches st) (<[t := q]> (ms_queues st)) (ms_loadCounts st).

(** ** Entering the queue *)

(** [fmt.Sprintf("match-%s-%d", matchType, nano)] *)
Definition match_id (matchType : string) (nano : Z) : string :=
  "match-" +:+ matchType +:+ "-" +:+ FormatInt nano.

Definition match_push (matchType matchID serverID : string) (players : list Z)
    (p : queuedPlayer) : Effect :=
  let data := marshal (mkMatchResultPush matchID serverID players matchType) in
  SendMsg (qp_conn p) MsgIdMatchResultPush
    (marshal (mkEnvelope (qp_senderID p) data
                (mlit [(TagRoomSvrID, serverID); (TagMatchID, matchID)]))).

Definition matchPool cfg (ck : Clock) (matchType : string) (pool : list queuedPlayer) st :
    MatchSt * list Effect :=
  let serverID := pickLeastLoaded cfg st SvcRoomSvr in
  let matchID := match_id matchType (ck_id ck) in
  let players := playerIDs pool in
  let st := set_active st
    (<[matchID := mkMatchDir serverID matchType (ck_created ck)]> (ms_activeMatches st)) in
  let st := incLoad serverID st in
  (st, match_push matchType matchID serverID players <$> pool).

Definition handleEnter cfg (ck : Clock) env conn st : MatchSt * list Effect :=
  match unmarshal (A := MatchEnterReq) (ev_Data env) with
  | None => (st, [])
  | Some req =>
      let senderPID := (ParseInt (mget (ev_ConnTags env) TagPlayerID)).1 in
      let player := mkQueuedPlayer senderPID (mq_Elo req) conn (ev_ConnId env) in
      let pool := default [] (ms_queues st !! mq_MatchType req) in
      let pool := pool ++ [player] in
      let st := set_queue st (mq_MatchType req) pool in
      let needed := requiredPlayers (mq_MatchType req) in
      if (needed <=? length pool)%nat then
        let '(st, es) := matchPool cfg ck (mq_MatchType req) (take needed pool) st in
        (set_queue st (mq_MatchType req) (drop needed pool), es)
      else
        let resp := marshal (mkMatchEnterResp "waiting" (Z.of_nat (length pool))) in
        (st, [SendMsg conn MsgIdMatchEnterResp (marshal (mkEnvelope (ev_ConnId env) resp None))])
  end.

(** ** Allocation and lookup *)

Definition sendAllocateResp conn (senderID : Z) (matchID serverID errMsg : string) :
    list Effect :=
  let resp := marshal (mkMatchAllocateResp matchID serverID errMsg) in
  let tags : gmap string string := ∅ in
  let tags := if decide (serverID ≠ ""%string) then <[TagRoomSvrID := serverID]> tags else tags in
  let tags := if decide (matchID ≠ ""%string) then <[TagMatchID := matchID]> tags else tags in
  [SendMsg conn MsgIdMatchAllocateResp (marshal (mkEnvelope senderID resp (Some tags)))].

Definition handleAllocate cfg (ck : Clock) env conn st : MatchSt * list Effect :=
  match unmarshal (A := MatchAllocateReq) (ev_Data env) with
  | None => (st, [])
  | Some req =>
      match ms_activeMatches st !! aq_MatchId req with
      | Some _ =>
          (st, sendAllocateResp conn (ev_ConnId env) (aq_MatchId req) "" "already exists")
      | None =>
          let serverID := pickLeastLoaded cfg st SvcRoomSvr in
          if decide (serverID = ""%string) then
            (st, sendAllocateResp conn (ev_ConnId env) (aq_MatchId req) "" "no roomsvr available")
          else
            let st := set_active st
              (<[aq_MatchId req := mkMatchDir serverID "allocated" (ck_created ck)]>
                 (ms_activeMatches st)) in
            let st := incLoad serverID st in
            (st, sendAllocateResp conn (ev_ConnId env) (aq_MatchId req) serverID "")
      end
  end.

Definition handleQuery env conn st : MatchSt * list Effect :=
  match unmarshal (A := MatchQueryReq) (ev_Data env) with
  | None => (st, [])
  | Some req =>
      let '(resp, tags) :=
        match ms_activeMatches st !! qq_MatchId req with
        | Some v => (mkMatchQueryResp (qq_MatchId req) (md_ServerID v) true,
                     mlit [(TagRoomSvrID, md_ServerID v); (TagMatchID, qq_MatchId req)])
        | None => (mkMatchQueryResp (qq_MatchId req) "" false, Some ∅)
        end in
      (st, [SendMsg conn MsgIdMatchQueryResp
              (marshal (mkEnvelope (ev_ConnId env) (marshal resp) tags))])
  end.

(** ** Cleaning up *)

Definition handleDestroyed env st : MatchSt * list Effect :=
  match unmarshal (A := RoomDestroyedPush) (ev_Data env) with
  | None => (st, [])
  | Some push =>
      match ms_activeMatches st !! rd_MatchId push with
      | None => (st, [])
      | Some dir =>
          (decLoad (md_ServerID dir)
             (set_active st (delete (rd_MatchId push) (ms_activeMatches st))), [])
      end
  end.

Definition handleForceLeaveQueue (request : Request) st : MatchSt * list Effect :=
  match unmarshal (A := SessionData) (rq_data request) with
  | None => (st, [])
  | Some data =>
      let matchType := mget (sd_ConnTags data) TagMatchType in
      match ms_queues st !! matchType with
      | None => (st, [])
      | Some pool =>
          match list_find (λ p, qp_playerID p = sd_PlayerId data) pool with
          | None => (st, [])
          | Some (i, _) => (set_queue st matchType (remove_at i pool), [])
          end
      end
  end.

(** [MatchRouter.Handle] *)
Definition match_Handle cfg (ck : Clock) (request : Request) st : MatchSt * list Effect :=
  if rq_msgID request =? MsgIdSessionForceLeaveQueue then handleForceLeaveQueue request st
  else
    match unmarshal (A := Envelope) (rq_data request) with
    | None => (st, [])
    | Some env =>
        if rq_msgID request =? MsgIdMatchEnterReq then
          handleEnter cfg ck env (rq_conn request) st
        else if rq_msgID request =? MsgIdMatchAllocateReq then
          handleAllocate cfg ck env (rq_conn request) st
        else if rq_msgID request =? MsgIdMatchQueryReq then
          handleQuery env (rq_conn request) st
        else if rq_msgID request =? MsgIdRoomDestroyedPush then handleDestroyed env st
        else (st, [])
    end.
End matches.

(** * Theorems *)

(** No queue holds enough players for a match. *)
Definition queues_ok (st : MatchSt) : Prop :=
  map_Forall (λ t q, (length q < requiredPlayers t)%nat) (ms_queues st).

(** The matches a room server hosts, and loads that count them. *)
Definition matches_on (s : string) (m : gmap string matchDir) : nat :=
  size (filter (λ '(_, d), md_ServerID d = s) m).
Definition loads_ok (st : MatchSt) : Prop :=
  ∀ s, ms_loadCounts st !! s =
    if decide (matches_on s (ms_activeMatches st) = 0%nat) then None
    else Some (Z.of_nat (matches_on s (ms_activeMatches st))).

Section lemmas.
Implicit Types (m : gmap string matchDir) (s : string).

Lemma requiredPlayers_pos t : (2 ≤ requiredPlayers t)%nat.
Proof. unfold requiredPlayers. repeat case_decide; lia. Qed.

Lemma matches_on_insert s m k d :
  m !! k = None →
  matches_on s (<[k := d]> m) =
    (matches_on s m + if decide (md_ServerID d = s) then 1 else 0)%nat.
Proof.
  intros Hk. unfold matches_on. destruct (decide (md_ServerID d = s)) as [Hs|Hs].
  - rewrite map_filter_insert_True by done. rewrite map_size_insert_None; [lia|].
    apply map_lookup_filter_None_2. by left.
  - rewrite map_filter_insert_False by done. rewrite delete_id by done. lia.
Qed.

Lemma matches_on_delete s m k d :
  m !! k = Some d →
  matches_on s m =
    (matches_on s (delete k m) + if decide (md_ServerID d = s) then 1 else 0)%nat.
Proof.
  intros Hk. rewrite <-(insert_delete_id m k d) at 1 by done.
  rewrite matches_on_insert by apply lookup_delete_eq. done.
Qed.

Lemma matches_on_size s m : (matches_on s m ≤ size m)%nat.
Proof. unfold matches_on. apply map_subseteq_size, map_filter_subseteq. Qed.
End lemmas.

Section loads.
Context `{Proto}.
Implicit Types (cfg : Config) (st : MatchSt) (loads : gmap string Z).

Definition load_of loads (srv : ServerNode) : Z := default 0 (loads !! sn_ID srv).

Lemma least_loop_spec loads servers minCount best :
  (least_loop loads servers minCount best = best ∧
     Forall (λ srv, minCount ≤ load_of loads srv) servers) ∨
  (∃ l1 srv l2, servers = l1 ++ srv :: l2 ∧
     least_loop loads servers minCount best = sn_ID srv ∧ load_of loads srv < minCount ∧
     Forall (λ srv', load_of loads srv < load_of loads srv') l1 ∧
     Forall (λ srv', load_of loads srv ≤ load_of loads srv') l2).
Proof.
  revert minCount best. induction servers as [|srv servers IH]; intros minCount best.
  { left. by split. }
  cbn [least_loop]. fold (load_of loads srv).
  destruct (Z.ltb_spec (load_of loads srv) minCount) as [Hlt|Hge].
  - right. destruct (IH (load_of loads srv) (sn_ID srv))
      as [[-> Hall]|(l1 & srv' & l2 & -> & -> & Hlt' & H1 & H2)].
    + exists [], srv, servers. split_and!; done.
    + exists (srv :: l1), srv', l2. split_and!; try done; [lia|]. by constructor.
  - destruct (IH minCount best) as [[-> Hall]|(l1 & srv' & l2 & -> & -> & Hlt' & H1 & H2)].
    + left. split; [done|]. by constructor.
    + right. exists (srv :: l1), srv', l2. split_and!; try done. constructor; [lia|done].
Qed.

(** When some room server is configured, a match is placed on the first
    configured one among those with the smallest load. *)
Theorem least_loaded_is_minimal cfg st service :
  (∃ srv, srv ∈ services_of cfg service ∧ load_of (ms_loadCounts st) srv < max_int64) →
  ∃ l1 srv l2, services_of cfg service = l1 ++ srv :: l2 ∧
    pickLeastLoaded cfg st service = sn_ID srv ∧
    Forall (λ srv', load_of (ms_loadCounts st) srv < load_of (ms_loadCounts st) srv') l1 ∧
    Forall (λ srv', load_of (ms_loadCounts st) srv ≤ load_of (ms_loadCounts st) srv') l2.
Proof.
  intros (srv0 & Hin & Hlt). unfold pickLeastLoaded.
  destruct (services_of cfg service) as [|x l] eqn:Hs; [by apply elem_of_nil in Hin|].
  cbn [length Nat.eqb].
  destruct (least_loop_spec (ms_loadCounts st) (x :: l) max_int64 "")
    as [[_ Hall]|(l1 & srv & l2 & Heq & -> & _ & H1 & H2)].
  - rewrite Forall_forall in Hall. specialize (Hall _ Hin). lia.
  - exists l1, srv, l2. done.
Qed.

Lemma loads_ok_default st s :
  loads_ok st → default 0 (ms_loadCounts st !! s) = Z.of_nat (matches_on s (ms_activeMatches st)).
Proof. intros Hok. rewrite Hok. by case_decide as Hz; [rewrite Hz|]. Qed.

(** Recording a match under a new id keeps the loads right. *)
Lemma add_match_ok st k d :
  loads_ok st → ms_activeMatches st !! k = None →
  Z.of_nat (size (ms_activeMatches st)) < max_int64 →
  loads_ok (incLoad (md_ServerID d) (set_active st (<[k := d]> (ms_activeMatches st)))).
Proof.
  intros Hok Hk Hsz s. simpl. rewrite lookup_insert, matches_on_insert by done.
  pose proof (matches_on_size s (ms_activeMatches st)).
  destruct (decide (md_ServerID d = s)) as [->|Hne].
  - rewrite loads_ok_default, int64_id by (done || unfold_ints; lia).
    rewrite decide_False by lia. f_equal. lia.
  - rewrite Nat.add_0_r. apply Hok.
Qed.

Lemma remove_match_ok st k d :
  loads_ok st → ms_activeMatches st !! k = Some d →
  Z.of_nat (size (ms_activeMatches st)) < max_int64 →
  loads_ok (decLoad (md_ServerID d) (set_active st (delete k (ms_activeMatches st)))).
Proof.
  intros Hok Hk Hsz s. unfold decLoad. simpl.
  pose proof (matches_on_delete s _ _ _ Hk) as Hdel.
  pose proof (matches_on_delete (md_ServerID d) _ _ _ Hk) as Hdel'.
  pose proof (matches_on_size (md_ServerID d) (ms_activeMatches st)).
  rewrite decide_True in Hdel' by done.
  rewrite (Hok (md_ServerID d)), decide_False by lia. simpl.
  rewrite int64_id by (unfold_ints; lia).
  destruct (decide (md_ServerID d = s)) as [<-|Hne].
  - destruct (Z.leb_spec (Z.of_nat (matches_on (md_ServerID d) (ms_activeMatches st)) - 1) 0).
    + rewrite lookup_delete_eq, decide_True; [done|lia].
    + rewrite lookup_insert_eq, decide_False by lia. f_equal. lia.
  - rewrite Nat.add_0_r in Hdel. rewrite <-Hdel.
    destruct (_ <=? 0); [rewrite lookup_delete_ne by done|rewrite lookup_insert_ne by done];
      apply Hok.
Qed.
End loads.

Section matchmaking.
Context `{Proto}.
Implicit Types (cfg : Config) (st : MatchSt) (env : Envelope) (conn : Conn).

Definition entering env conn (req : MatchEnterReq) : queuedPlayer :=
  mkQueuedPlayer (ParseInt (mget (ev_ConnTags env) TagPlayerID)).1 (mq_Elo req) conn (ev_ConnId env).

Lemma handleEnter_waits cfg ck env conn st req :
  let t := mq_MatchType req in let q := default [] (ms_queues st !! t) in
  unmarshal (ev_Data env) = Some req → (S (length q) < requiredPlayers t)%nat →
  handleEnter cfg ck env conn st =
    (set_queue st t (q ++ [entering env conn req]),
     [SendMsg conn MsgIdMatchEnterResp (marshal (mkEnvelope (ev_ConnId env)
        (marshal (mkMatchEnterResp "waiting" (Z.of_nat (S (length q))))) None))]).
Proof.
  intros t q Hr Hlen. unfold handleEnter. rewrite Hr. fold t q. cbn zeta.
  rewrite length_app. cbn [length]. rewrite Nat.add_1_r.
  destruct (Nat.leb_spec (requiredPlayers t) (S (length q))); [lia|]. done.
Qed.

Lemma handleEnter_matches cfg ck env conn st req :
  let t := mq_MatchType req in let q := default [] (ms_queues st !! t) in
  let pool := q ++ [entering env conn req] in
  let server := pickLeastLoaded cfg st SvcRoomSvr in
  let id := match_id t (ck_id ck) in
  unmarshal (ev_Data env) = Some req → S (length q) = requiredPlayers t →
  handleEnter cfg ck env conn st =
    (set_queue (incLoad server
       (set_active (set_queue st t pool)
          (<[id := mkMatchDir server t (ck_created ck)]> (ms_activeMatches st)))) t [],
     match_push t id server (playerIDs pool) <$> pool).
Proof.
  intros t q pool server id Hr Hlen. unfold handleEnter. rewrite Hr. fold t q. cbn zeta.
  fold (entering env conn req). fold pool.
  assert (length pool = requiredPlayers t) as Hp.
  { unfold pool. rewrite length_app, <-Hlen. simpl. lia. }
  rewrite Hp. destruct (Nat.leb_spec (requiredPlayers t) (requiredPlayers t)); [|lia].
  unfold matchPool. rewrite <-Hp, take_ge, drop_ge by lia. done.
Qed.

Lemma queue_short st t :
  queues_ok st → (length (default [] (ms_queues st !! t)) < requiredPlayers t)%nat.
Proof.
  intros Hq. destruct (ms_queues st !! t) as [q|] eqn:Ht; [by apply (Hq t q)|].
  simpl. pose proof (requiredPlayers_pos t). lia.
Qed.

Lemma set_queue_ok st t q :
  queues_ok st → (length q < requiredPlayers t)%nat → queues_ok (set_queue st t q).
Proof. intros Hq Hl. by apply map_Forall_insert_2. Qed.

(** One request, handled under any configuration at a time whose match ids are
    new. *)
Definition match_step st st' : Prop :=
  ∃ cfg ck request es,
    (∀ t, ms_activeMatches st !! match_id t (ck_id ck) = None) ∧
    Z.of_nat (size (ms_activeMatches st)) < max_int64 ∧
    match_Handle cfg ck request st = (st', es).

Lemma handleEnter_inv cfg ck env conn st :
  queues_ok st → loads_ok st → (∀ t, ms_activeMatches st !! match_id t (ck_id ck) = None) →
  Z.of_nat (size (ms_activeMatches st)) < max_int64 →
  queues_ok (handleEnter cfg ck env conn st).1 ∧ loads_ok (handleEnter cfg ck env conn st).1.
Proof.
  intros Hq Hl Hf Hsz.
  destruct (unmarshal (A := MatchEnterReq) (ev_Data env)) as [req|] eqn:Hr.
  2: { unfold handleEnter. by rewrite Hr. }
  pose proof (queue_short st (mq_MatchType req) Hq) as Hshort.
  destruct (decide (S (length (default [] (ms_queues st !! mq_MatchType req))) =
    requiredPlayers (mq_MatchType req))) as [He|Hne].
  - rewrite (handleEnter_matches cfg ck env conn st req Hr He). cbn [fst]. split.
    + intros t q. simpl. rewrite insert_insert_eq. intros [[<- <-]|[Hne Ht]]%lookup_insert_Some.
      * pose proof (requiredPlayers_pos (mq_MatchType req)). simpl. lia.
      * by apply (Hq t q).
    + by apply (add_match_ok st _ (mkMatchDir _ _ _)).
  - rewrite (handleEnter_waits cfg ck env conn st req Hr) by lia. cbn [fst].
    split; [|done]. apply set_queue_ok; [done|]. rewrite length_app. simpl. lia.
Qed.

Lemma match_step_inv st st' :
  match_step st st' → queues_ok st ∧ loads_ok st → queues_ok st' ∧ loads_ok st'.
Proof.
  intros (cfg & ck & request & es & Hf & Hsz & HH) [Hq Hl].
  replace st' with (match_Handle cfg ck request st).1 by by rewrite HH. clear HH.
  unfold match_Handle. destruct (rq_msgID request =? MsgIdSessionForceLeaveQueue).
  { unfold handleForceLeaveQueue. destruct (unmarshal _) as [d|]; [|done].
    destruct (ms_queues st !! _) as [pool|] eqn:Hp; [|done].
    destruct (list_find _ _) as [[i p]|] eqn:Hfind; [|done].
    apply list_find_Some in Hfind as (Hi & _ & _). split; [|done].
    apply set_queue_ok; [done|]. apply lookup_lt_Some in Hi.
    pose proof (remove_at_length _ _ Hi). pose proof (Hq _ _ Hp). simpl in *. lia. }
  destruct (unmarshal _) as [env|]; [|done].
  destruct (rq_msgID request =? MsgIdMatchEnterReq); [by apply handleEnter_inv|].
  destruct (rq_msgID request =? MsgIdMatchAllocateReq).
  { unfold handleAllocate. destruct (unmarshal _) as [req|]; [|done].
    destruct (ms_activeMatches st !! aq_MatchId req) eqn:Ha; [done|].
    case_decide; [done|]. split; [done|].
    by apply (add_match_ok st _ (mkMatchDir _ _ _)). }
  destruct (rq_msgID request =? MsgIdMatchQueryReq).
  { unfold handleQuery. destruct (unmarshal _) as [req|]; [|done].
    by destruct (ms_activeMatches st !! qq_MatchId req). }
  destruct (rq_msgID request =? MsgIdRoomDestroyedPush); [|done].
  unfold handleDestroyed. destruct (unmarshal _) as [push|]; [|done].
  destruct (ms_activeMatches st !! rd_MatchId push) as [dir|] eqn:Ha; [|done].
  cbn [fst]. split; [|by apply remove_match_ok].
  unfold decLoad. by destruct (ms_loadCounts _ !! _).
Qed.

(** C3: Whatever requests arrive, under any configuration, no queue ever holds
    enough players for a match after a request has been handled, and the load of
    every room server is exactly the number of active matches placed on it, as
    long as the clock never repeats the id of an active match and the counters
    do not reach the largest [int]. *)
Theorem match_invariant st :
  rtc match_step match_init st → queues_ok st ∧ loads_ok st.
Proof.
  intros Hrun. assert (queues_ok match_init ∧ loads_ok match_init) as Hinit.
  { split; [apply map_Forall_empty|]. intros s. done. }
  induction Hrun as [|st1 st2 st3 Hstep _ IH]; [done|]. apply IH.
  by eapply match_step_inv.
Qed.
End matchmaking.

Section results.
Context `{ProtoLaws}.
Implicit Types (cfg : Config) (st : MatchSt) (env : Envelope) (conn : Conn).

Lemma pick_utf8 cfg st service :
  Forall (λ srv, utf8 (sn_ID srv)) (services_of cfg service) →
  utf8 (pickLeastLoaded cfg st service).
Proof.
  intros Hall. unfold pickLeastLoaded. destruct (_ =? 0)%nat; [done|].
  destruct (least_loop_spec (ms_loadCounts st) (services_of cfg service) max_int64 "")
    as [[-> _]|(l1 & srv & l2 & Heq & -> & _)]; [done|].
  rewrite Heq, Forall_app, Forall_cons in Hall. by destruct Hall as (_ & ? & _).
Qed.

Lemma match_id_utf8 t n : utf8 t → utf8 (match_id t n).
Proof.
  intros Ht. unfold match_id. repeat apply utf8_app; try done. apply utf8_FormatInt.
Qed.

(** C13: The request that completes a queue empties it, records the match on the
    least loaded room server, and sends every player of the queue exactly one
    result, on that player's own connection and in queue order, which decodes
    to the same match, room server and list of players for all of them. *)
Theorem enter_completes_match cfg ck env conn st req :
  let t := mq_MatchType req in let q := default [] (ms_queues st !! t) in
  let pool := q ++ [entering env conn req] in
  let server := pickLeastLoaded cfg st SvcRoomSvr in
  let id := match_id t (ck_id ck) in
  unmarshal (ev_Data env) = Some req → S (length q) = requiredPlayers t →
  utf8 t → Forall (λ srv, utf8 (sn_ID srv)) (services_of cfg SvcRoomSvr) →
  Forall (λ p, in_int64 (qp_playerID p) ∧ in_uint64 (qp_senderID p)) pool →
  let '(st', es) := handleEnter cfg ck env conn st in
  ms_queues st' !! t = Some [] ∧
  ms_activeMatches st' !! id = Some (mkMatchDir server t (ck_created ck)) ∧
  length es = length pool ∧
  ∀ i p, pool !! i = Some p → ∃ data env',
    es !! i = Some (SendMsg (qp_conn p) MsgIdMatchResultPush data) ∧
    unmarshal data = Some env' ∧ ev_ConnId env' = qp_senderID p ∧
    mget (ev_ConnTags env') TagMatchID = id ∧ mget (ev_ConnTags env') TagRoomSvrID = server ∧
    unmarshal (ev_Data env') = Some (mkMatchResultPush id server (playerIDs pool) t).
Proof.
  intros t q pool server id Hr Hlen Ht Hsrv Hpool.
  rewrite (handleEnter_matches cfg ck env conn st req Hr Hlen). fold t q. fold pool server id.
  split_and!; [apply lookup_insert_eq|apply lookup_insert_eq|by rewrite length_fmap|].
  assert (utf8 id) as Hid by by apply match_id_utf8.
  assert (utf8 server) as Hs by by apply pick_utf8.
  intros i p Hp. pose proof (Forall_lookup_1 _ _ _ _ Hpool Hp) as [_ Hsid].
  rewrite list_lookup_fmap, Hp. do 2 eexists. split; [reflexivity|].
  split; [apply unmarshal_marshal; split; [done|apply tags_ok_mlit; by repeat constructor]|].
  split; [done|]. cbn [canon Envelope_canon ev_ConnTags ev_Data].
  rewrite !canon_tags_get. split; [done|]. split; [done|]. rewrite unmarshal_marshal; [done|].
  split_and!; try done. unfold playerIDs. apply Forall_fmap.
  eapply Forall_impl; [done|]. by intros ? [].
Qed.

(** C14: Allocating a new match makes it known: a lookup then finds the room
    server it was placed on, a second allocation of the same id is refused,
    and once the room server reports the match destroyed the state is exactly
    what it was before the allocation. *)
Theorem allocation_lifecycle cfg ck ck' env envq envd conn connq st id :
  loads_ok st → Z.of_nat (size (ms_activeMatches st)) < max_int64 →
  unmarshal (ev_Data env) = Some (mkMatchAllocateReq id) →
  unmarshal (ev_Data envq) = Some (mkMatchQueryReq id) →
  unmarshal (ev_Data envd) = Some (mkRoomDestroyedPush id) →
  ms_activeMatches st !! id = None →
  let server := pickLeastLoaded cfg st SvcRoomSvr in server ≠ ""%string →
  let st1 := (handleAllocate cfg ck env conn st).1 in
  handleQuery envq connq st1 =
    (st1, [SendMsg connq MsgIdMatchQueryResp (marshal (mkEnvelope (ev_ConnId envq)
             (marshal (mkMatchQueryResp id server true))
             (mlit [(TagRoomSvrID, server); (TagMatchID, id)])))]) ∧
  handleAllocate cfg ck' env conn st1 =
    (st1, sendAllocateResp conn (ev_ConnId env) id "" "already exists") ∧
  (handleDestroyed envd st1).1 = st.
Proof.
  intros Hok Hsz Ha Hq Hd Hn server Hs st1.
  assert (st1 = incLoad server (set_active st
    (<[id := mkMatchDir server "allocated" (ck_created ck)]> (ms_activeMatches st)))) as Hst1.
  { unfold st1, handleAllocate. rewrite Ha. simpl. rewrite Hn. fold server.
    by destruct (decide (server = ""%string)). }
  assert (ms_activeMatches st1 !! id = Some (mkMatchDir server "allocated" (ck_created ck))) as Hl.
  { rewrite Hst1. apply lookup_insert_eq. }
  clearbody st1. split_and!.
  - unfold handleQuery. rewrite Hq. simpl. by rewrite Hl.
  - unfold handleAllocate. rewrite Ha. simpl. by rewrite Hl.
  - unfold handleDestroyed. rewrite Hd. simpl. rewrite Hl. simpl. rewrite Hst1.
    unfold decLoad. simpl. rewrite lookup_insert_eq, delete_insert_id by done.
    pose proof (matches_on_size server (ms_activeMatches st)).
    rewrite loads_ok_default by done.
    rewrite (int64_id (_ + 1)) by (unfold_ints; lia).
    rewrite int64_id by (unfold_ints; lia).
    replace (Z.of_nat (matches_on server (ms_activeMatches st)) + 1 - 1)
      with (Z.of_nat (matches_on server (ms_activeMatches st))) by lia.
    rewrite insert_insert_eq. destruct st as [a qs l]. simpl in *. unfold set_active. simpl.
    specialize (Hok server). simpl in Hok. f_equal.
    destruct (decide (matches_on server a = 0%nat)) as [Hz|Hz].
    + rewrite Hz. simpl. by apply delete_insert_id.
    + destruct (Z.leb_spec (Z.of_nat (matches_on server a)) 0); [lia|]. by apply insert_id.
Qed.

(** The queue does not look for a player who is already in it: a player who
    asks twice for a two-player match is matched against himself. *)
Theorem player_matched_with_self cfg ck1 ck2 env conn st req p :
  unmarshal (ev_Data env) = Some req → mget (ev_ConnTags env) TagPlayerID = FormatInt p →
  in_int64 p → requiredPlayers (mq_MatchType req) = 2%nat →
  default [] (ms_queues st !! mq_MatchType req) = [] →
  let st1 := (handleEnter cfg ck1 env conn st).1 in
  let server := pickLeastLoaded cfg st1 SvcRoomSvr in
  (handleEnter cfg ck2 env conn st1).2 =
    replicate 2 (match_push (mq_MatchType req) (match_id (mq_MatchType req) (ck_id ck2)) server
      [p; p] (mkQueuedPlayer p (mq_Elo req) conn (ev_ConnId env))).
Proof.
  intros Hr Hp Hin H2 Hq. cbn zeta.
  rewrite (handleEnter_waits cfg ck1 env conn st req Hr) by (rewrite Hq, H2; simpl; lia).
  cbn [fst]. rewrite Hq. cbn [app].
  assert (entering env conn req = mkQueuedPlayer p (mq_Elo req) conn (ev_ConnId env)) as He.
  { unfold entering. by rewrite Hp, ParseInt_FormatInt. }
  rewrite (handleEnter_matches _ _ _ _ _ _ Hr).
  - simpl. rewrite lookup_insert_eq. simpl. by rewrite He, Hp, ParseInt_FormatInt.
  - simpl. rewrite lookup_insert_eq. simpl. by rewrite H2.
Qed.

(** The forced leave of a player whose session expired takes that player,
    and nobody else, out of the queue of that match type, keeping the order of
    the others; the other queues, the matches and the loads are untouched. *)
Theorem force_leave_queue_removes request st d pool :
  unmarshal (rq_data request) = Some d →
  let t := mget (sd_ConnTags d) TagMatchType in
  ms_queues st !! t = Some pool → NoDup (playerIDs pool) →
  let st' := (handleForceLeaveQueue request st).1 in
  ms_queues st' = <[t := filter (λ p, qp_playerID p ≠ sd_PlayerId d) pool]> (ms_queues st) ∧
  ms_activeMatches st' = ms_activeMatches st ∧ ms_loadCounts st' = ms_loadCounts st.
Proof.
  intros Hd t Hq Hnd. cbn zeta. unfold handleForceLeaveQueue. rewrite Hd. cbn zeta. fold t.
  rewrite Hq. destruct (list_find _ pool) as [[i p]|] eqn:Hf.
  - apply list_find_Some in Hf as (Hi & Hp & _). split; [|done]. simpl. f_equal.
    destruct (list_elem_of_split_length pool i p Hi) as (l1 & l2 & -> & ->).
    rewrite remove_at_middle, filter_app, filter_cons_False by tauto.
    unfold playerIDs in Hnd. rewrite fmap_app, NoDup_app, fmap_cons, NoDup_cons in Hnd.
    destruct Hnd as (_ & Hdisj & Hni & _). rewrite Hp in Hni.
    f_equal; symmetry; apply filter_Forall_id, Forall_forall; intros x Hx Heq.
    + apply (Hdisj (qp_playerID x)); [by apply list_elem_of_fmap_2|]. rewrite Heq, <-Hp. left.
    + apply Hni. rewrite <-Heq. by apply list_elem_of_fmap_2.
  - apply list_find_None in Hf. split; [|done]. cbn [fst].
    rewrite filter_Forall_id by done. by rewrite insert_id.
Qed.
End results.

(** ** Concrete inputs *)

Definition wit_cfg : Config :=
  mkConfig {[ SvcRoomSvr := [mkServerNode "room1" "" "" "" ""; mkServerNode "room2" "" "" "" ""] ]}
    (mkGatewayConfig "" ∅) ∅.
Definition wit_clock : Clock := mkClock 17 18.
Definition wit_queued : queuedPlayer := mkQueuedPlayer 5 1000 3 9.
Definition wit_match_st (q : list queuedPlayer) : MatchSt :=
  mkMatchSt ∅ {[ "1v1"%string := q ]} ∅.
Definition wit_enter_env : Envelope :=
  mkEnvelope 4 (marshal (mkMatchEnterReq "1v1" 1200)) (mlit [(TagPlayerID, "6"%string)]).
Definition wit_enter_req : Request := mkRequest 8 MsgIdMatchEnterReq (marshal wit_enter_env).

Lemma least_loaded_is_minimal_witness :
  ∃ l1 srv l2, services_of wit_cfg SvcRoomSvr = l1 ++ srv :: l2 ∧
    pickLeastLoaded wit_cfg match_init SvcRoomSvr = sn_ID srv ∧
    Forall (λ srv', load_of ∅ srv < load_of ∅ srv') l1 ∧
    Forall (λ srv', load_of ∅ srv ≤ load_of ∅ srv') l2.
Proof.
  apply (least_loaded_is_minimal wit_cfg match_init SvcRoomSvr).
  exists (mkServerNode "room1" "" "" "" ""). split; evaluate.
Defined.

Lemma match_invariant_witness :
  queues_ok (match_Handle wit_cfg wit_clock wit_enter_req match_init).1 ∧
  loads_ok (match_Handle wit_cfg wit_clock wit_enter_req match_init).1.
Proof.
  apply match_invariant. apply rtc_once. do 4 eexists.
  split; [reflexivity|]. split; [evaluate|]. apply surjective_pairing.
Defined.

Lemma enter_completes_match_witness :
  let '(st', es) := handleEnter wit_cfg wit_clock wit_enter_env 8%N (wit_match_st [wit_queued]) in
  ms_queues st' !! "1v1"%string = Some [] ∧ length es = 2%nat.
Proof.
  pose proof (enter_completes_match (H := count_proto) wit_cfg wit_clock wit_enter_env 8%N (wit_match_st [wit_queued])
    (mkMatchEnterReq "1v1" 1200) ltac:(vm_compute; reflexivity) ltac:(vm_compute; reflexivity)
    ltac:(reflexivity) ltac:(evaluate) ltac:(evaluate)) as Hm.
  destruct (handleEnter _ _ _ _ _) as [st' es]. split; [apply Hm|].
  destruct Hm as (_ & _ & Hlen & _). rewrite Hlen. reflexivity.
Defined.

Lemma allocation_lifecycle_witness :
  let env := mkEnvelope 4 (marshal (mkMatchAllocateReq "m1")) None in
  let envd := mkEnvelope 0 (marshal (mkRoomDestroyedPush "m1")) None in
  (handleDestroyed envd (handleAllocate wit_cfg wit_clock env 8%N match_init).1).1 = match_init.
Proof.
  apply (allocation_lifecycle wit_cfg wit_clock wit_clock
    (mkEnvelope 4 (marshal (mkMatchAllocateReq "m1")) None)
    (mkEnvelope 4 (marshal (mkMatchQueryReq "m1")) None)
    (mkEnvelope 0 (marshal (mkRoomDestroyedPush "m1")) None) 8%N 8%N match_init "m1").
  - intros s. reflexivity.
  - evaluate.
  - vm_compute. reflexivity.
  - vm_compute. reflexivity.
  - vm_compute. reflexivity.
  - reflexivity.
  - vm_compute. discriminate.
Defined.

Lemma player_matched_with_self_witness :
  let st1 := (handleEnter wit_cfg wit_clock wit_enter_env 8%N match_init).1 in
  length (handleEnter wit_cfg wit_clock wit_enter_env 8%N st1).2 = 2%nat.
Proof.
  cbn zeta. rewrite (player_matched_with_self (H := count_proto) wit_cfg wit_clock wit_clock wit_enter_env 8%N
    match_init (mkMatchEnterReq "1v1" 1200) 6 ltac:(vm_compute; reflexivity)
    ltac:(vm_compute; reflexivity) ltac:(evaluate) ltac:(vm_compute; reflexivity)
    ltac:(vm_compute; reflexivity)). reflexivity.
Defined.

Lemma force_leave_queue_removes_witness :
  let d := mkSessionData 5 "" (mlit [(TagMatchType, "1v1"%string)]) 0 in
  let st' := (handleForceLeaveQueue (mkRequest 8 MsgIdSessionForceLeaveQueue (marshal d))
                (wit_match_st [wit_queued])).1 in
  ms_queues st' = <["1v1"%string := filter (λ p, qp_playerID p ≠ 5) [wit_queued]]>
    {[ "1v1"%string := [wit_queued] ]}.
Proof.
  apply (force_leave_queue_removes (mkRequest 8 MsgIdSessionForceLeaveQueue
      (marshal (mkSessionData 5 "" (mlit [(TagMatchType, "1v1"%string)]) 0)))
    (wit_match_st [wit_queued]) (mkSessionData 5 "" (mlit [(TagMatchType, "1v1"%string)]) 0)
    [wit_queued]).
  - vm_compute. reflexivity.
  - reflexivity.
  - evaluate.
Defined.
