(* ===== verification/Gateway.v ===== *)
(** * The gateway

    [pkg/gateway]: the route table, forwarding of client messages, responses of
    the backends, dynamic registration through [ServiceHello], reconnection
    through the session server, and hot reload.  The handlers are written in a
    state monad with effects and panics.  A [sync.Map] iteration visits the
    keys in the order of an argument or of [map_to_list]; the waiting half of
    [CheckReconnect] is a separate step. *)

From S2P Require Import Prelude GoLib GoStrings Proto Zinx Conf Pool Registry Models.
#[local] Open Scope Z_scope.

(** ** Errors ([pkg/errors.go]) *)

Record HTTPError := mkHTTPError { he_Code : Z; he_Msg : string }.
Definition HTTPError_Error (e : HTTPError) : string := he_Msg e.
Definition NewHTTPError (code : Z) (msg : string) : HTTPError := mkHTTPError code msg.
Definition ErrUnauthorized (msg : string) : HTTPError := NewHTTPError 401 msg.

(** ** State *)

Record BackendRouteInfo := mkRouteInfo {
  ri_Backend : string; ri_RouteKey : string; ri_RouteType : string }.
Record BackendRouteCfg := mkRouteCfg { rc_RouteKey : string; rc_RouteType : string }.

#[export] Instance BackendRouteInfo_eq_dec : EqDecision BackendRouteInfo.
Proof. solve_decision. Defined.

(** [gw_w] is the state of [gw.Server]; [gw_closed] the channels that have been
    closed; [gw_pendingAuths] the map of [initWebSocket]. *)
Record GatewayServer (W : Type) := mkGateway {
  gw_ID : string;
  gw_w : W;
  gw_Registry : Registry W;
  gw_PlayerConns : gmap Z Z;
  gw_routes : gmap Z BackendRouteInfo;
  gw_backendCfgs : gmap string BackendRouteCfg;
  gw_fwdRegistered : gset Z;
  gw_pendingSessionGets : gmap Z N;
  gw_closed : gset N;
  gw_pendingDisconnects : gmap Z Z;
  gw_pendingAuths : gmap string Z }.
Arguments mkGateway {W}.
Arguments gw_ID {W}.
Arguments gw_w {W}.
Arguments gw_Registry {W}.
Arguments gw_PlayerConns {W}.
Arguments gw_routes {W}.
Arguments gw_backendCfgs {W}.
Arguments gw_fwdRegistered {W}.
Arguments gw_pendingSessionGets {W}.
Arguments gw_closed {W}.
Arguments gw_pendingDisconnects {W}.
Arguments gw_pendingAuths {W}.

(** ** The monad *)

Definition G (W A : Type) : Type :=
  GatewayServer W → result (A * GatewayServer W * list Effect).

#[export] Instance G_ret {W} : MRet (G W) := λ A a gw, Ok (a, gw, []).
#[export] Instance G_bind {W} : MBind (G W) := λ A B f m gw,
  match m gw with
  | Panic why => Panic why
  | Ok (a, gw, es) =>
      match f a gw with
      | Panic why => Panic why
      | Ok (b, gw, es') => Ok (b, gw, es ++ es')
      end
  end.

Definition get {W} : G W (GatewayServer W) := λ gw, Ok (gw, gw, []).
Definition modify {W} (f : GatewayServer W → GatewayServer W) : G W unit :=
  λ gw, Ok (tt, f gw, []).
Definition emit {W} (es : list Effect) : G W unit := λ gw, Ok (tt, gw, es).
Definition panic {W A} (why : string) : G W A := λ _, Panic why.

Section updates.
Context {W : Type}.
Implicit Types gw : GatewayServer W.

Definition set_w (w : W) gw := mkGateway (gw_ID gw) w (gw_Registry gw) (gw_PlayerConns gw)
  (gw_routes gw) (gw_backendCfgs gw) (gw_fwdRegistered gw) (gw_pendingSessionGets gw)
  (gw_closed gw) (gw_pendingDisconnects gw) (gw_pendingAuths gw).
Definition set_Registry (r : Registry W) gw := mkGateway (gw_ID gw) (gw_w gw) r
  (gw_PlayerConns gw) (gw_routes gw) (gw_backendCfgs gw) (gw_fwdRegistered gw)
  (gw_pendingSessionGets gw) (gw_closed gw) (gw_pendingDisconnects gw) (gw_pendingAuths gw).
Definition set_PlayerConns (m : gmap Z Z) gw := mkGateway (gw_ID gw) (gw_w gw)
  (gw_Registry gw) m (gw_routes gw) (gw_backendCfgs gw) (gw_fwdRegistered gw)
  (gw_pendingSessionGets gw) (gw_closed gw) (gw_pendingDisconnects gw) (gw_pendingAuths gw).
(** [SetRoutes] *)
Definition SetRoutes (r : gmap Z BackendRouteInfo) gw := mkGateway (gw_ID gw) (gw_w gw)
  (gw_Registry gw) (gw_PlayerConns gw) r (gw_backendCfgs gw) (gw_fwdRegistered gw)
  (gw_pendingSessionGets gw) (gw_closed gw) (gw_pendingDisconnects gw) (gw_pendingAuths gw).
(** [SetBackendCfgs] *)
Definition SetBackendCfgs (c : gmap string BackendRouteCfg) gw := mkGateway (gw_ID gw)
  (gw_w gw) (gw_Registry gw) (gw_PlayerConns gw) (gw_routes gw) c (gw_fwdRegistered gw)
  (gw_pendingSessionGets gw) (gw_closed gw) (gw_pendingDisconnects gw) (gw_pendingAuths gw).
Definition set_fwdRegistered (s : gset Z) gw := mkGateway (gw_ID gw) (gw_w gw)
  (gw_Registry gw) (gw_PlayerConns gw) (gw_routes gw) (gw_backendCfgs gw) s
  (gw_pendingSessionGets gw) (gw_closed gw) (gw_pendingDisconnects gw) (gw_pendingAuths gw).
Definition set_pendingGets (m : gmap Z N) (closed : gset N) gw := mkGateway (gw_ID gw)
  (gw_w gw) (gw_Registry gw) (gw_PlayerConns gw) (gw_routes gw) (gw_backendCfgs gw)
  (gw_fwdRegistered gw) m closed (gw_pendingDisconnects gw) (gw_pendingAuths gw).
Definition set_pendingDisconnects (m : gmap Z Z) gw := mkGateway (gw_ID gw) (gw_w gw)
  (gw_Registry gw) (gw_PlayerConns gw) (gw_routes gw) (gw_backendCfgs gw)
  (gw_fwdRegistered gw) (gw_pendingSessionGets gw) (gw_closed gw) m (gw_pendingAuths gw).
Definition set_pendingAuths (m : gmap string Z) gw := mkGateway (gw_ID gw) (gw_w gw)
  (gw_Registry gw) (gw_PlayerConns gw) (gw_routes gw) (gw_backendCfgs gw)
  (gw_fwdRegistered gw) (gw_pendingSessionGets gw) (gw_closed gw) (gw_pendingDisconnects gw) m.
End updates.

Section gateway.
Context `{Proto, Zinx W, BackendRouter R}.
Implicit Types (gw : GatewayServer W) (reg : option R) (conn : Conn) (request : Request).

(** ** Sending through the registry *)

(** [gw.Registry.RouteTo] where the caller has not checked the registry. *)
Definition gw_RouteTo reg (service key : string) : G W (option Conn) :=
  match reg with
  | None => panic "nil registry"
  | Some reg => mret (RouteTo reg service key)
  end.

Definition session_conn reg (playerID : Z) : G W (option Conn) :=
  gw_RouteTo reg SvcSessionSvr (FormatInt playerID).

(** ** The route table *)

(** [BuildRouteIndex], visiting the routes in the order [order]. *)
Definition BuildRouteIndex (order : list (string * BackendRoute)) :
    gmap Z BackendRouteInfo * gmap string BackendRouteCfg :=
  foldl (λ '(routes, cfgs) '(backend, rc),
    (foldl (λ routes msgID,
       <[msgID := mkRouteInfo backend (br_RouteKey rc) (br_RouteType rc)]> routes)
       routes (br_Forward rc),
     <[backend := mkRouteCfg (br_RouteKey rc) (br_RouteType rc)]> cfgs)) (∅, ∅) order.

Definition RouteFor (msgID : Z) gw : option BackendRouteInfo := gw_routes gw !! msgID.

(** ** Forwarding ([forward_router.go]) *)

Definition resolveRouteKey (w : W) conn (route : BackendRouteInfo) : string :=
  let key := ri_RouteKey route in
  if decide (key = ""%string ∨ key = "connId"%string) then FormatUint (GetConnID conn)
  else match GetProperty w conn key with
       | Some v => Sprint v
       | None => FormatUint (GetConnID conn)
       end.

Definition sendError (now : Z) conn (reqMsgID : Z) : list Effect :=
  let errMsg : string := "service unavailable: backend offline" in
  if reqMsgID =? MsgIdChatReq then
    [SendMsg conn MsgIdChatResp (marshal (mkChatResp (-1) errMsg now 0))]
  else if reqMsgID =? MsgIdMatchEnterReq then
    [SendMsg conn MsgIdMatchEnterResp (marshal (mkMatchEnterResp "error" 0))]
  else if reqMsgID =? MsgIdMatchAllocateReq then
    [SendMsg conn MsgIdMatchAllocateResp (marshal (mkMatchAllocateResp "" "" errMsg))]
  else if reqMsgID =? MsgIdMatchQueryReq then
    [SendMsg conn MsgIdMatchQueryResp (marshal (mkMatchQueryResp "" "" false))]
  else if reqMsgID =? MsgIdRoomJoinReq then
    [SendMsg conn MsgIdRoomJoinResp (marshal (mkRoomJoinResp false "" "" errMsg))]
  else if reqMsgID =? MsgIdRoomLeaveReq then
    [SendMsg conn MsgIdRoomLeaveResp (marshal (mkRoomLeaveResp false errMsg))]
  else [SendMsg conn (uint32 (reqMsgID + 1)) []].

(** [ForwardRouter.Handle]; the type assertion on the player id panics when
    the property is not an [int64]. *)
Definition forward_Handle reg (now : Z) request : G W unit :=
  gw ← get;
  let conn := rq_conn request in let msgID := rq_msgID request in
  match RouteFor msgID gw with
  | None => mret tt
  | Some route =>
      let routeKey := resolveRouteKey (gw_w gw) conn route in
      if decide (routeKey = ""%string) then mret tt
      else
        tags ← match GetProperty (gw_w gw) conn PropPlayerID with
               | Some (AInt64 pid) => mret (mlit [(TagPlayerID, FormatInt pid)])
               | Some (AString _) => panic "interface conversion"
               | None => mret None
               end;
        let envData := marshal (mkEnvelope (GetConnID conn) (rq_data request) tags) in
        dst ← gw_RouteTo reg (ri_Backend route) routeKey;
        match dst with
        | None => emit (sendError now conn msgID)
        | Some c => emit [SendMsg c msgID envData]
        end
  end.

(** ** Session data ([reconnect.go]) *)

Definition toPlayerID (v : Any) : Z :=
  match v with AInt64 id => id | AString s => (ParseInt s).1 end.

Definition collectTags (w : W) conn : gmap string string :=
  foldl (λ tags key,
    match GetProperty w conn key with
    | Some (AString s) => if decide (s ≠ ""%string) then <[key := s]> tags else tags
    | _ => tags
    end) ∅ SyncTagKeys.

Definition SyncSessionTags reg conn : G W unit :=
  match reg with
  | None => mret tt
  | Some _ =>
      gw ← get;
      match GetProperty (gw_w gw) conn PropPlayerID with
      | None => mret tt
      | Some v =>
          let playerID := toPlayerID v in
          if playerID =? 0 then mret tt
          else
            let tags := collectTags (gw_w gw) conn in
            if (size tags =? 0)%nat then mret tt
            else
              let data := marshal (mkSessionData playerID (gw_ID gw) (Some tags) 0) in
              sconn ← session_conn reg playerID;
              match sconn with
              | None => mret tt
              | Some c => emit [SendMsg c MsgIdSessionSave data]
              end
      end
  end.

(** [MarkDisconnected] *)
Definition MarkDisconnected reg (now : Z) (playerID : Z) : G W unit :=
  match reg with
  | None => mret tt
  | Some _ =>
      gw ← get;
      let data := marshal (mkSessionData playerID (gw_ID gw) None 0) in
      sconn ← session_conn reg playerID;
      match sconn with
      | None => modify (λ gw, set_pendingDisconnects
                          (<[playerID := now]> (gw_pendingDisconnects gw)) gw)
      | Some c => emit [SendMsg c MsgIdSessionDisconnect data]
      end
  end.

(** [CheckReconnect] up to its [select]; the result says whether it waits, on
    the new channel [ch]. *)
Definition CheckReconnect_send reg (ch : N) (playerID : Z) : G W bool :=
  match reg with
  | None => mret false
  | Some _ =>
      let req := marshal (mkSessionData playerID "" None 0) in
      sconn ← session_conn reg playerID;
      match sconn with
      | None => mret false
      | Some c =>
          modify (λ gw, set_pendingGets (<[playerID := ch]> (gw_pendingSessionGets gw))
                          (gw_closed gw) gw);;
          emit [SendMsg c MsgIdSessionGet req];;
          mret true
      end
  end.

(** The end of the [select]: the channel was closed, or the timeout fired;
    then the deferred deletion. *)
Definition CheckReconnect_end (signalled : bool) (playerID : Z) : G W unit :=
  (if signalled then
     modify (λ gw, set_pendingDisconnects (delete playerID (gw_pendingDisconnects gw)) gw)
   else mret tt);;
  modify (λ gw, set_pendingGets (delete playerID (gw_pendingSessionGets gw)) (gw_closed gw) gw).

Definition notifyRoomReconnected reg (playerID : Z) (matchID serverID : string) (connID : Z) :
    G W unit :=
  let key := if decide (serverID = ""%string) then matchID else serverID in
  rconn ← gw_RouteTo reg SvcRoomSvr key;
  match rconn with
  | None => mret tt
  | Some c =>
      emit [SendMsg c MsgIdSessionReconnected (marshal (mkSessionData playerID ""
        (mlit [(TagPlayerID, FormatInt playerID); (TagMatchID, matchID);
               (TagSenderID, FormatUint connID)]) 0))]
  end.

(** The body of [HandleSessionGet] once the client connection is known. *)
Definition session_restore reg (data : SessionData) (connID : Z) (wsConn : Conn) : G W unit :=
  let playerID := sd_PlayerId data in
  if negb (sd_DisconnectedAt data =? 0) then
    modify (λ gw, set_w (SetProperties (gw_w gw) wsConn
                           (from_option map_to_list [] (sd_ConnTags data))) gw);;
    (let matchID := mget (sd_ConnTags data) TagMatchID in
     if decide (matchID ≠ ""%string) then
       notifyRoomReconnected reg playerID matchID (mget (sd_ConnTags data) TagRoomSvrID) connID
     else mret tt);;
    gw ← get;
    let reconnectData := marshal (mkSessionData playerID (gw_ID gw) None 0) in
    sconn ← session_conn reg playerID;
    match sconn with
    | None => mret tt
    | Some c => emit [SendMsg c MsgIdSessionReconnect reconnectData]
    end
  else
    gw ← get;
    let tags := collectTags (gw_w gw) wsConn in
    let saveData := marshal (mkSessionData playerID (gw_ID gw) (Some tags) 0) in
    sconn ← session_conn reg playerID;
    match sconn with
    | None => mret tt
    | Some c => emit [SendMsg c MsgIdSessionSave saveData]
    end.

(** [HandleSessionGet]; the deferred [close] runs on every path after the
    channel has been taken out of the map. *)
Definition HandleSessionGet reg request : G W unit :=
  match unmarshal (A := SessionData) (rq_data request) with
  | None => mret tt
  | Some data =>
      let playerID := sd_PlayerId data in
      gw ← get;
      let ch := gw_pendingSessionGets gw !! playerID in
      modify (λ gw, set_pendingGets (delete playerID (gw_pendingSessionGets gw))
                      (gw_closed gw) gw);;
      (match gw_PlayerConns gw !! playerID with
       | None => mret tt
       | Some connID =>
           match ConnMgrGet (gw_w gw) connID with
           | None => mret tt
           | Some wsConn => session_restore reg data connID wsConn
           end
       end);;
      modify (λ gw, set_pendingGets (gw_pendingSessionGets gw)
                      (from_option (λ c, {[c]} ∪ gw_closed gw) (gw_closed gw) ch) gw)
  end.

Definition HandleSessionInvalidate request : G W unit :=
  match unmarshal (A := SessionData) (rq_data request) with
  | None => mret tt
  | Some data =>
      gw ← get;
      if decide (sd_GatewayId data ≠ gw_ID gw) then mret tt
      else
        let playerID := sd_PlayerId data in
        if playerID =? 0 then mret tt
        else
          match gw_PlayerConns gw !! playerID with
          | None => mret tt
          | Some connID =>
              modify (λ gw, set_PlayerConns (delete playerID (gw_PlayerConns gw)) gw);;
              match ConnMgrGet (gw_w gw) connID with
              | None => mret tt
              | Some wsConn => emit [StopConn wsConn]
              end
          end
  end.

(** [retryPendingDisconnects], over the queued players in the order [order]. *)
Fixpoint retryPendingDisconnects reg (order : list Z) : G W unit :=
  match order with
  | [] => mret tt
  | playerID :: order =>
      gw ← get;
      sconn ← session_conn reg playerID;
      match sconn with
      | None => mret tt
      | Some c =>
          emit [SendMsg c MsgIdSessionDisconnect
                  (marshal (mkSessionData playerID (gw_ID gw) None 0))];;
          modify (λ gw, set_pendingDisconnects (delete playerID (gw_pendingDisconnects gw)) gw)
      end;;
      retryPendingDisconnects reg order
  end.

(** [SessionResponseRouter.Handle] *)
Definition session_response_Handle reg request : G W unit :=
  if rq_msgID request =? MsgIdSessionGet then HandleSessionGet reg request
  else if rq_msgID request =? MsgIdSessionReconnect then HandleSessionGet reg request
  else if rq_msgID request =? MsgIdSessionInvalidate then HandleSessionInvalidate request
  else mret tt.

(** ** Responses ([response_router.go]) *)

Definition applyConnTags reg conn (tags : gomap) : G W unit :=
  match tags with
  | None => mret tt
  | Some g =>
      if (size g =? 0)%nat then mret tt
      else
        modify (λ gw, set_w (SetProperties (gw_w gw) conn (map_to_list g)) gw);;
        (match g !! PropPlayerID with
         | None => mret tt
         | Some pidStr =>
             modify (λ gw, set_PlayerConns
               (<[(ParseInt pidStr).1 := GetConnID conn]> (gw_PlayerConns gw)) gw)
         end);;
        SyncSessionTags reg conn
  end.

Definition response_Handle reg request : G W unit :=
  match unmarshal (A := Envelope) (rq_data request) with
  | None => mret tt
  | Some env =>
      gw ← get;
      let targetPIDStr := mget (ev_ConnTags env) TagTargetPlayerID in
      if decide (targetPIDStr ≠ ""%string) then
        match gw_PlayerConns gw !! (ParseInt targetPIDStr).1 with
        | None => mret tt
        | Some connID =>
            match ConnMgrGet (gw_w gw) connID with
            | None => mret tt
            | Some wsConn => emit [SendMsg wsConn (rq_msgID request) (ev_Data env)]
            end
        end
      else if negb (ev_ConnId env =? 0) then
        match ConnMgrGet (gw_w gw) (ev_ConnId env) with
        | None => mret tt
        | Some wsConn =>
            applyConnTags reg wsConn (ev_ConnTags env);;
            emit [SendMsg wsConn (rq_msgID request) (ev_Data env)]
        end
      else
        emit ((λ c, SendMsg c (rq_msgID request) (ev_Data env)) <$> ConnMgrRange (gw_w gw))
  end.

(** ** Client connections ([server.go]) *)

(** [SetWebsocketAuth]'s callback on a request with the given query; [validate] is
    [auth.ValidateJWT] with the configured secret.  The result is the error that
    refuses the client, if there is one. *)
Definition websocket_auth (validate : string → option Z) (rawQuery remoteAddr : string) :
    G W (option HTTPError) :=
  let token := Query_Get rawQuery "token" in
  if decide (token = ""%string) then mret (Some (ErrUnauthorized "missing token"))
  else match validate token with
       | None => mret (Some (ErrUnauthorized "invalid token"))
       | Some playerID =>
           modify (λ gw, set_pendingAuths (<[remoteAddr := playerID]> (gw_pendingAuths gw)) gw);;
           mret None
       end.

(** [OnConnStart] up to the wait in [CheckReconnect]. *)
Definition OnConnStart reg (ch : N) conn : G W bool :=
  gw ← get;
  let addr := RemoteAddr conn in
  match gw_pendingAuths gw !! addr with
  | None => emit [StopConn conn];; mret false
  | Some playerID =>
      modify (λ gw, set_pendingAuths (delete addr (gw_pendingAuths gw)) gw);;
      modify (λ gw, set_w (SetProperty (gw_w gw) conn PropPlayerID (AInt64 playerID)) gw);;
      modify (λ gw, set_PlayerConns (<[playerID := GetConnID conn]> (gw_PlayerConns gw)) gw);;
      CheckReconnect_send reg ch playerID
  end.

Definition OnConnStop reg (now : Z) conn : G W unit :=
  gw ← get;
  match GetProperty (gw_w gw) conn PropPlayerID with
  | Some (AInt64 pid) =>
      modify (λ gw, set_PlayerConns (delete pid (gw_PlayerConns gw)) gw);;
      MarkDisconnected reg now pid
  | _ => mret tt
  end.

(** [initWebSocket]: the host and port, and the websocket port, it listens on,
    and the routers it registers; the callbacks are the definitions above. *)
Definition initWebSocket (cfg : Config) (gwID : string) : result (string * Z * Z * list Effect) :=
  LookupServer (services_of cfg SvcGateway) gwID SvcGateway ≫= λ gwCfg,
  ParseHostPort (sn_WSListen gwCfg) ≫= λ '(_, wsPort),
  ParseHostPort (sn_TCPListen gwCfg) ≫= λ '(tcpHost, tcpPort),
  Ok (tcpHost, tcpPort, wsPort, [ServerAddRouter MsgIdPing PingRouter]).

(** ** Dynamic registration ([hello_router.go]) *)

(** A handler runs in a worker that recovers its panics: the gateway goes on with
    the changes made so far.  So the handler gives the state in any case, with
    the panic that ended it, if one did. *)
Definition Handled : Type := GatewayServer W * list Effect * option string.

(** [gw.Server.AddRouter] panics on an id the server has: [initWebSocket] has given
    it [MsgIdPing], and every other one it has was added here and is in
    [fwdRegistered]. *)
Fixpoint register_forward (service : string) (cfg : BackendRouteCfg) (msgIds : list Z) gw :
    Handled :=
  match msgIds with
  | [] => (gw, [], None)
  | msgID :: msgIds =>
      if decide (msgID ∈ gw_fwdRegistered gw) then register_forward service cfg msgIds gw
      else
        let gw := set_fwdRegistered ({[msgID]} ∪ gw_fwdRegistered gw) gw in
        let gw := SetRoutes (<[msgID :=
          mkRouteInfo service (rc_RouteKey cfg) (rc_RouteType cfg)]> (gw_routes gw)) gw in
        if decide (msgID = MsgIdPing) then (gw, [], Some (repeated_api msgID))
        else
          let '(gw, es, why) := register_forward service cfg msgIds gw in
          (gw, ServerAddRouter msgID ForwardRouter :: es, why)
  end.

(** The loop over [hello.SendMsgIds], up to a panic of [AddConnectionRouter]. *)
Fixpoint register_responses (pool : Pool W) conn (msgIds : list Z) :
    Pool W * list Effect * option string :=
  match msgIds with
  | [] => (pool, [], None)
  | msgID :: msgIds =>
      match AddConnectionRouter pool conn msgID ResponseRouter with
      | Panic why => (pool, [], Some why)
      | Ok (pool, es) =>
          let '(pool, es', why) := register_responses pool conn msgIds in
          (pool, es ++ es', why)
      end
  end.

(** [ServiceHelloRouter.Handle] in its worker. *)
Definition hello_run request gw : Handled :=
  match unmarshal (A := ServiceHello) (rq_data request) with
  | None => (gw, [], None)
  | Some hello =>
      match gw_backendCfgs gw !! sh_Service hello with
      | None => (gw, [], None)
      | Some cfg =>
          match register_forward (sh_Service hello) cfg (sh_MsgIds hello) gw with
          | (gw, es, Some why) => (gw, es, Some why)
          | (gw, es, None) =>
              match reg_Pool (gw_Registry gw) (sh_Service hello) with
              | None => (gw, es, None)
              | Some pool =>
                  let '(pool, es', why) :=
                    register_responses pool (rq_conn request) (sh_SendMsgIds hello) in
                  (set_Registry (reg_SetPool (gw_Registry gw) (sh_Service hello) pool) gw,
                   es ++ es', why)
              end
          end
      end
  end.

(** [ServiceHelloRouter.Handle] *)
Definition hello_Handle request : G W unit := λ gw,
  match hello_run request gw with
  | (gw, es, None) => Ok (tt, gw, es)
  | (_, _, Some why) => Panic why
  end.

(** Several hellos, one after the other. *)
Fixpoint handle_hellos (hellos : list Request) gw : GatewayServer W * list Effect :=
  match hellos with
  | [] => (gw, [])
  | request :: hellos =>
      let '(gw, es, _) := hello_run request gw in
      let '(gw, es') := handle_hellos hellos gw in
      (gw, es ++ es')
  end.

(** ** Start-up and hot reload ([gateway.go]) *)

Definition backendRouters : list (Z * Router) :=
  [(MsgIdPing, PingRouter); (MsgIdServiceHello, ServiceHelloRouter)].

Definition sessionRouters : list (Z * Router) :=
  [(MsgIdPing, PingRouter); (MsgIdSessionGet, SessionResponseRouter);
   (MsgIdSessionReconnect, SessionResponseRouter);
   (MsgIdSessionInvalidate, SessionResponseRouter)].

(** [gw.Dial], with the hellos that the gateway handles while it waits: those of the
    servers it has just connected to, and those of the backends dialled before.
    The registry gets the new pool only when [Dial] returns, so they do not find
    it; and they change neither the new pool nor the server's connections, so
    their order with respect to the callbacks in [dw] does not matter. *)
Definition gw_Dial (cfg : Config) (service : string) (routers : list (Z * Router))
    (routeFn : RouteFunc W) (dw : DialWorld) (hellos : list Request) gw :
    result (GatewayServer W * list Effect) :=
  let '(gw, es') := handle_hellos hellos gw in
  reg_Dial cfg (gw_Registry gw) (gw_w gw) service routers routeFn dw ≫= λ '(r, w, es),
  Ok (set_w w (set_Registry r gw), es ++ es').

(** The loop of [New] that dials the backends, in the order of the iteration. *)
Fixpoint dial_backends (cfg : Config) (dw : string → DialWorld) (hellos : string → list Request)
    (order : list (string * BackendRoute)) gw : result (GatewayServer W * list Effect) :=
  match order with
  | [] => Ok (gw, [])
  | (backend, rc) :: order =>
      gw_Dial cfg backend backendRouters (RouteFuncFor (br_RouteType rc)) (dw backend)
        (hellos backend) gw ≫= λ '(gw, es),
      dial_backends cfg dw hellos order gw ≫= λ '(gw, es'), Ok (gw, es ++ es')
  end.

(** [New] after [Load] has given the configuration [cfg], whose routes it visits
    in the order [order] to build the table and [order_dial] to dial; [w] is the
    new server, [hellos] what arrives during each dial. *)
Definition gateway_New (cfg : Config) (order order_dial : list (string * BackendRoute))
    (dw : string → DialWorld) (hellos : string → list Request) (gwID : string) (w : W) :
    result (GatewayServer W * list Effect) :=
  let '(routeIndex, backendCfgs) := BuildRouteIndex order in
  let gw := mkGateway gwID w (NewRegistry SvcGateway) ∅ routeIndex backendCfgs ∅ ∅ ∅ ∅ ∅ in
  initWebSocket cfg gwID ≫= λ '(_, es),
  dial_backends cfg dw hellos order_dial gw ≫= λ '(gw, es'),
  gw_Dial cfg SvcSessionSvr sessionRouters HashRoute (dw SvcSessionSvr)
    (hellos SvcSessionSvr) gw ≫= λ '(gw, es''),
  Ok (gw, es ++ es' ++ es'').

(** What the callback of [conf.Watch] learns from the world while it runs, for
    each backend: the outcome of dialling an address, and the orders of the
    iterations. *)
Record SyncWorld := mkSyncWorld {
  sw_dialed : string → Dialed * N;
  sw_wanted : list (string * ServerNode);
  sw_current : list string }.

Definition gw_SyncBackend (cfg : Config) (service : string) (routers : list (Z * Router))
    (routeFn : RouteFunc W) (sw : SyncWorld) : G W unit := λ gw,
  match SyncBackend cfg (gw_Registry gw) (gw_w gw) service routers routeFn (sw_dialed sw)
          (sw_wanted sw) (sw_current sw) with
  | Panic why => Panic why
  | Ok (r, w, es) => Ok (tt, set_w w (set_Registry r gw), es)
  end.

Fixpoint sync_backends (cfg : Config) (sw : string → SyncWorld)
    (order : list (string * BackendRoute)) : G W unit :=
  match order with
  | [] => mret tt
  | (backend, rc) :: order =>
      gw_SyncBackend cfg backend backendRouters (RouteFuncFor (br_RouteType rc)) (sw backend);;
      sync_backends cfg sw order
  end.

(** The callback of [conf.Watch], with the orders in which it iterates over the
    routes, to build the table and to synchronise, and over the backends. *)
Definition hot_reload (cfg : Config) (order order_sync : list (string * BackendRoute))
    (sw : string → SyncWorld) (cleanup_order : list string) : G W unit :=
  let '(newIndex, backendCfgs) := BuildRouteIndex order in
  sync_backends cfg sw order_sync;;
  gw_SyncBackend cfg SvcSessionSvr sessionRouters HashRoute (sw SvcSessionSvr);;
  (let keep : gset string := {[SvcSessionSvr]} ∪ list_to_set order.*1 in
   gw ← get;
   let '(r, es) := CleanupBackends (gw_Registry gw) keep cleanup_order in
   modify (set_Registry r);;
   emit es);;
  modify (SetBackendCfgs backendCfgs);;
  modify (SetRoutes newIndex).
End gateway.

(** * Theorems *)

(** Run the monad's operations. *)
Ltac run_gw :=
  unfold session_conn, gw_RouteTo, mbind, G_bind, mret, G_ret, get, modify, emit, panic in *;
  cbn [fst snd app] in *.

(** ** The route table *)

Section route_index.
Implicit Types (order : list (string * BackendRoute)).

Lemma fold_forward (info : BackendRouteInfo) (ids : list Z) (routes : gmap Z BackendRouteInfo) m :
  foldl (λ routes msgID, <[msgID := info]> routes) routes ids !! m =
    if decide (m ∈ ids) then Some info else routes !! m.
Proof.
  revert routes. induction ids as [|i ids IH]; intros routes; cbn [foldl].
  { rewrite decide_False; [done|]. by intros ?%elem_of_nil. }
  rewrite IH, lookup_insert.
  repeat case_decide; rewrite ?elem_of_cons in *; naive_solver.
Qed.

Definition add_route (acc : gmap Z BackendRouteInfo * gmap string BackendRouteCfg)
    (r : string * BackendRoute) : gmap Z BackendRouteInfo * gmap string BackendRouteCfg :=
  (foldl (λ routes msgID,
     <[msgID := mkRouteInfo r.1 (br_RouteKey r.2) (br_RouteType r.2)]> routes)
     acc.1 (br_Forward r.2),
   <[r.1 := mkRouteCfg (br_RouteKey r.2) (br_RouteType r.2)]> acc.2).

Lemma BuildRouteIndex_fold order : BuildRouteIndex order = foldl add_route (∅, ∅) order.
Proof.
  unfold BuildRouteIndex. generalize (∅ : gmap Z BackendRouteInfo, ∅ : gmap string BackendRouteCfg).
  induction order as [|[b rc] order IH]; intros [routes cfgs]; [done|]. apply IH.
Qed.

Lemma route_index_lookup order acc m info :
  (∀ b rc b' rc', (b, rc) ∈ order → (b', rc') ∈ order → m ∈ br_Forward rc →
     m ∈ br_Forward rc' → (b, rc) = (b', rc')) →
  (foldl add_route acc order).1 !! m = Some info ↔
    (∃ b rc, (b, rc) ∈ order ∧ m ∈ br_Forward rc ∧
       info = mkRouteInfo b (br_RouteKey rc) (br_RouteType rc)) ∨
    (∀ b rc, (b, rc) ∈ order → m ∉ br_Forward rc) ∧ acc.1 !! m = Some info.
Proof.
  revert acc. induction order as [|[b rc] order IH]; intros acc Hdis; cbn [foldl].
  { split; [intros Hm; right; split; [by intros ?? ?%elem_of_nil|done]|].
    intros [(? & ? & ?%elem_of_nil & _)|[_ ?]]; done. }
  rewrite IH by (intros; eapply Hdis; [by right|by right|done|done]).
  cbn [fst add_route snd]. rewrite fold_forward.
  setoid_rewrite elem_of_cons.
  destruct (decide (m ∈ br_Forward rc)) as [Hm|Hm].
  - split.
    + intros [(b' & rc' & Hin & Hm' & ->)|[Hno [= <-]]]; left; [|by exists b, rc; auto].
      exists b', rc'. auto.
    + intros [(b' & rc' & [[= -> ->]|Hin] & Hm' & ->)|[Hno _]].
      * destruct (decide (Exists (λ r, m ∈ br_Forward r.2) order)) as [Hex|Hnex].
        -- apply Exists_exists in Hex as ([b1 rc1] & Hin1 & Hm1). left. exists b1, rc1.
           split; [done|]. split; [done|].
           by pose proof (Hdis b rc b1 rc1 ltac:(left) ltac:(by right) Hm Hm1) as [= -> ->].
        -- right. split; [|done]. intros b1 rc1 Hin1 Hm1. apply Hnex, Exists_exists.
           by exists (b1, rc1).
      * left. exists b', rc'. auto.
      * exfalso. by apply (Hno b rc); [left|].
  - split.
    + intros [(b' & rc' & Hin & Hm' & ->)|[Hno ?]]; [left; exists b', rc'; auto|right].
      split; [|done]. intros b' rc' [[= -> ->]|?]; [done|by eapply Hno].
    + intros [(b' & rc' & [[= -> ->]|Hin] & Hm' & ->)|[Hno ?]]; [done|left; exists b', rc'; auto|].
      right. split; [|done]. intros b' rc' ?. apply (Hno b' rc'). by right.
Qed.

(** When no message id is forwarded to two backends, the route table does
    not depend on the order in which the configuration is visited: a message
    id has a route exactly when a backend forwards it, and the route is that
    backend's. *)
Theorem route_index_exact order m info :
  (∀ b rc b' rc', (b, rc) ∈ order → (b', rc') ∈ order → m ∈ br_Forward rc →
     m ∈ br_Forward rc' → (b, rc) = (b', rc')) →
  (BuildRouteIndex order).1 !! m = Some info ↔
    ∃ b rc, (b, rc) ∈ order ∧ m ∈ br_Forward rc ∧
      info = mkRouteInfo b (br_RouteKey rc) (br_RouteType rc).
Proof.
  intros Hdis. rewrite BuildRouteIndex_fold, route_index_lookup by done.
  simpl. rewrite lookup_empty. naive_solver.
Qed.

Lemma route_index_None order m :
  (∀ b rc, (b, rc) ∈ order → m ∉ br_Forward rc) → (BuildRouteIndex order).1 !! m = None.
Proof.
  intros Hno. apply eq_None_not_Some. intros [info Hi].
  rewrite BuildRouteIndex_fold, route_index_lookup in Hi by naive_solver.
  simpl in Hi. rewrite lookup_empty in Hi. naive_solver.
Qed.
End route_index.

(** ** Forwarding and responding *)

Section handlers.
Context `{ProtoLaws, ZinxLaws W, BackendRouter R}.
Implicit Types (gw : GatewayServer W) (reg : R) (conn : Conn) (request : Request).

(** The response a client waits for, by request. *)
Definition response_id (reqMsgID : Z) : Z :=
  if reqMsgID =? MsgIdChatReq then MsgIdChatResp
  else if reqMsgID =? MsgIdMatchEnterReq then MsgIdMatchEnterResp
  else if reqMsgID =? MsgIdMatchAllocateReq then MsgIdMatchAllocateResp
  else if reqMsgID =? MsgIdMatchQueryReq then MsgIdMatchQueryResp
  else if reqMsgID =? MsgIdRoomJoinReq then MsgIdRoomJoinResp
  else if reqMsgID =? MsgIdRoomLeaveReq then MsgIdRoomLeaveResp
  else uint32 (reqMsgID + 1).

Lemma sendError_one now conn id :
  ∃ data, sendError now conn id = [SendMsg conn (response_id id) data].
Proof. unfold sendError, response_id. repeat case_match; eauto. Qed.

(** C17: A client message makes the gateway send exactly one message, or none.
    None, and no error either, when the message id has no route or when the
    route key is the empty string; which is the case exactly when the route
    names a property that the connection has with an empty value (see
    [route_key_empty]).  Otherwise one: the client's bytes, wrapped with the
    connection id and the authenticated player id, to the backend connection
    that the registry chose for the route key; or, when that backend is offline,
    an error on the response id of the request.  The gateway's state does not
    change.  (The player id of a connection is an [int64], by the invariant
    [typed] of GatewayTypes.) *)
Theorem forward_exactly_once reg now request gw :
  let conn := rq_conn request in
  (∀ v, GetProperty (gw_w gw) conn PropPlayerID = Some v → ∃ pid, v = AInt64 pid) →
  in_uint64 (GetConnID conn) →
  match gw_routes gw !! rq_msgID request with
  | None => forward_Handle (Some reg) now request gw = Ok (tt, gw, [])
  | Some route =>
      let key := resolveRouteKey (gw_w gw) conn route in
      if decide (key = ""%string) then forward_Handle (Some reg) now request gw = Ok (tt, gw, [])
      else ∃ e, forward_Handle (Some reg) now request gw = Ok (tt, gw, [e]) ∧
        match RouteTo reg (ri_Backend route) key with
        | Some c => ∃ data, e = SendMsg c (rq_msgID request) data ∧
            unmarshal data = Some (mkEnvelope (GetConnID conn) (rq_data request)
              match GetProperty (gw_w gw) conn PropPlayerID with
              | Some v => mlit [(TagPlayerID, Sprint v)]
              | None => None
              end)
        | None => ∃ data, e = SendMsg conn (response_id (rq_msgID request)) data ∧
            [e] = sendError now conn (rq_msgID request)
        end
  end.
Proof.
  intros conn Hty Hid. unfold forward_Handle, RouteFor. fold conn. run_gw.
  destruct (gw_routes gw !! rq_msgID request) as [route|]; [|done]. cbn zeta.
  case_decide as Hk; [done|].
  destruct (GetProperty (gw_w gw) conn PropPlayerID) as [v|];
    [destruct (Hty v eq_refl) as [pid ->]|]; run_gw;
    (destruct (RouteTo reg _ _) as [c|];
     [|destruct (sendError_one now conn (rq_msgID request)) as [data ->]; eauto]).
  - eexists. split; [reflexivity|]. eexists. split; [reflexivity|].
    rewrite unmarshal_marshal.
    + reflexivity.
    + split; [done|]. apply tags_ok_mlit, Forall_singleton. split; [done|apply utf8_FormatInt].
  - eexists. split; [reflexivity|]. eexists. split; [reflexivity|].
    by rewrite unmarshal_marshal by done.
Qed.

Lemma route_key_empty w conn route :
  resolveRouteKey w conn route = ""%string ↔
  ri_RouteKey route ≠ ""%string ∧ ri_RouteKey route ≠ "connId"%string ∧
  GetProperty w conn (ri_RouteKey route) = Some (AString "").
Proof.
  unfold resolveRouteKey. pose proof (FormatUint_nonempty (GetConnID conn)).
  case_decide; [naive_solver|]. destruct (GetProperty _ _ _) as [[z|k]|]; simpl; [|naive_solver..].
  pose proof (FormatInt_nonempty z). naive_solver.
Qed.

(** A message is dropped without an answer when the property its route names is
    empty, as the room server's id of a match is when no room server was
    configured. *)
Theorem empty_property_drops_message reg now request gw route :
  gw_routes gw !! rq_msgID request = Some route →
  ri_RouteKey route = TagRoomSvrID →
  GetProperty (gw_w gw) (rq_conn request) TagRoomSvrID = Some (AString "") →
  forward_Handle (Some reg) now request gw = Ok (tt, gw, []).
Proof.
  intros Hr Hk Hp. unfold forward_Handle, RouteFor. run_gw. rewrite Hr, decide_True; [done|].
  apply route_key_empty. rewrite Hk. done.
Qed.

Lemma SyncSessionTags_run reg conn gw :
  ∃ es, SyncSessionTags (Some reg) conn gw = Ok (tt, gw, es) ∧
    ∀ e, e ∈ es → ∃ v c, GetProperty (gw_w gw) conn PropPlayerID = Some v ∧
      RouteTo reg SvcSessionSvr (FormatInt (toPlayerID v)) = Some c ∧
      e = SendMsg c MsgIdSessionSave (marshal (mkSessionData (toPlayerID v) (gw_ID gw)
            (Some (collectTags (gw_w gw) conn)) 0)).
Proof.
  unfold SyncSessionTags. run_gw.
  destruct (GetProperty _ _ _) as [v|]; run_gw.
  2: { exists []. split; [done|]. by intros ? ?%elem_of_nil. }
  destruct (toPlayerID v =? 0); run_gw.
  { exists []. split; [done|]. by intros ? ?%elem_of_nil. }
  destruct (size _ =? 0)%nat; run_gw.
  { exists []. split; [done|]. by intros ? ?%elem_of_nil. }
  destruct (RouteTo reg _ _) as [c|] eqn:Hc; run_gw.
  - eexists. split; [reflexivity|]. intros e He%list_elem_of_singleton. subst e. eauto.
  - exists []. split; [done|]. by intros ? ?%elem_of_nil.
Qed.

Lemma applyConnTags_run reg conn tags gw :
  ∃ gw' es, applyConnTags (Some reg) conn tags gw = Ok (tt, gw', es) ∧
    gw_w gw' = SetProperties (gw_w gw) conn (from_option map_to_list [] tags) ∧
    gw_ID gw' = gw_ID gw ∧ gw_routes gw' = gw_routes gw ∧
    (∀ e, e ∈ es → ∃ c data, e = SendMsg c MsgIdSessionSave data).
Proof.
  unfold applyConnTags. destruct tags as [g|].
  2: { exists gw, []. split_and!; try done. by intros ? ?%elem_of_nil. }
  destruct (Nat.eqb_spec (size g) 0) as [Hg%map_size_empty_inv|_].
  { exists gw, []. subst g. simpl. rewrite map_to_list_empty.
    split_and!; try done. by intros ? ?%elem_of_nil. }
  run_gw. destruct (g !! PropPlayerID) as [s|];
    (match goal with |- context [SyncSessionTags (Some reg) conn ?g'] =>
       destruct (SyncSessionTags_run reg conn g') as (es & -> & Hes) end);
    (do 2 eexists; split; [reflexivity|]; split_and!; try done; cbn [app];
     intros e He; destruct (Hes e He) as (? & ? & _ & _ & ->); eauto).
Qed.

(** C18: A backend's response to one client reaches exactly that client, with
    the backend's bytes and message id; the tags it carries become properties
    of that connection, no other connection's properties change, and nothing
    else is sent but at most session saves. *)
Theorem response_reaches_client reg request gw env ws :
  unmarshal (rq_data request) = Some env →
  mget (ev_ConnTags env) TagTargetPlayerID = ""%string → ev_ConnId env ≠ 0 →
  ConnMgrGet (gw_w gw) (ev_ConnId env) = Some ws →
  ∃ gw' es, response_Handle (Some reg) request gw =
    Ok (tt, gw', es ++ [SendMsg ws (rq_msgID request) (ev_Data env)]) ∧
  (∀ e, e ∈ es → ∃ c data, e = SendMsg c MsgIdSessionSave data) ∧
  (∀ g k v, ev_ConnTags env = Some g → g !! k = Some v →
     GetProperty (gw_w gw') ws k = Some (AString v)) ∧
  (∀ c k, c ≠ ws → GetProperty (gw_w gw') c k = GetProperty (gw_w gw) c k).
Proof.
  intros Henv Ht Hid Hws. unfold response_Handle. rewrite Henv. run_gw.
  rewrite decide_False by (intros Hx; by apply Hx). apply Z.eqb_neq in Hid. rewrite Hid. cbn [negb].
  rewrite Hws. run_gw.
  destruct (applyConnTags_run reg ws (ev_ConnTags env) gw) as (gw' & es & -> & Hw & _ & _ & Hes).
  exists gw', es. split; [done|]. split; [done|]. rewrite Hw. split.
  - intros g k v -> Hk. simpl. apply get_sets; [apply NoDup_fst_map_to_list|].
    by apply elem_of_map_to_list.
  - intros c k Hne. apply get_sets_other. auto.
Qed.

(** An invalidation only concerns the gateway it names: there the player's
    connection is forgotten and stopped, and every other gateway ignores it. *)
Theorem invalidate_only_named_gateway request gw d :
  unmarshal (rq_data request) = Some d →
  (sd_GatewayId d ≠ gw_ID gw → HandleSessionInvalidate request gw = Ok (tt, gw, [])) ∧
  (∀ connID ws, sd_GatewayId d = gw_ID gw → sd_PlayerId d ≠ 0 →
     gw_PlayerConns gw !! sd_PlayerId d = Some connID → ConnMgrGet (gw_w gw) connID = Some ws →
     HandleSessionInvalidate request gw =
       Ok (tt, set_PlayerConns (delete (sd_PlayerId d) (gw_PlayerConns gw)) gw, [StopConn ws])).
Proof.
  intros Hd. split.
  - intros Hne. unfold HandleSessionInvalidate. rewrite Hd. run_gw. by rewrite decide_True.
  - intros connID ws Hg Hp Hc Hws. unfold HandleSessionInvalidate. rewrite Hd. run_gw.
    rewrite decide_False by (intros Hx; by apply Hx). apply Z.eqb_neq in Hp. rewrite Hp, Hc.
    run_gw. by rewrite Hws.
Qed.

Lemma session_restore_run reg d connID ws gw :
  ∃ gw' es, session_restore (Some reg) d connID ws gw = Ok (tt, gw', es) ∧
    gw_pendingSessionGets gw' = gw_pendingSessionGets gw ∧ gw_closed gw' = gw_closed gw ∧
    gw_w gw' = (if sd_DisconnectedAt d =? 0 then gw_w gw
                else SetProperties (gw_w gw) ws (from_option map_to_list [] (sd_ConnTags d))).
Proof.
  unfold session_restore, notifyRoomReconnected. destruct (sd_DisconnectedAt d =? 0); cbn [negb].
  - run_gw. destruct (RouteTo reg _ _); run_gw; eauto 10.
  - run_gw. case_decide; run_gw; repeat (destruct (RouteTo reg _ _); run_gw); eauto 10.
Qed.

(** C21: Every decodable answer of the session server wakes the connection
    attempt that waits for it, whatever the answer says and whether or not the
    client is still there, and the attempt is not woken twice. *)
Theorem session_answer_wakes_waiter reg request gw d ch :
  unmarshal (rq_data request) = Some d →
  gw_pendingSessionGets gw !! sd_PlayerId d = Some ch →
  ∃ gw' es, HandleSessionGet (Some reg) request gw = Ok (tt, gw', es) ∧
    ch ∈ gw_closed gw' ∧ gw_pendingSessionGets gw' !! sd_PlayerId d = None.
Proof.
  intros Hd Hch. unfold HandleSessionGet. rewrite Hd. run_gw. rewrite Hch.
  cbn [from_option].
  destruct (gw_PlayerConns gw !! sd_PlayerId d) as [connID|]; run_gw.
  2: { do 2 eexists. split; [reflexivity|]. simpl. split; [set_solver|apply lookup_delete_eq]. }
  destruct (ConnMgrGet (gw_w gw) connID) as [ws|]; run_gw.
  2: { do 2 eexists. split; [reflexivity|]. simpl. split; [set_solver|apply lookup_delete_eq]. }
  match goal with |- context [session_restore (Some reg) d connID ws ?g'] =>
    destruct (session_restore_run reg d connID ws g') as (gw' & es & -> & Hp & Hcl & _) end.
  do 2 eexists. split; [reflexivity|]. simpl. rewrite Hp. simpl.
  split; [set_solver|apply lookup_delete_eq].
Qed.
End handlers.

(** ** Hellos *)

Section hellos.
Context `{Proto, Zinx W}.
Implicit Types (gw : GatewayServer W) (conn : Conn) (request : Request).

(** What a hello leaves alone. *)
Definition hello_frame gw gw' : Prop :=
  gw_ID gw' = gw_ID gw ∧ gw_w gw' = gw_w gw ∧ gw_PlayerConns gw' = gw_PlayerConns gw ∧
  gw_backendCfgs gw' = gw_backendCfgs gw ∧
  rg_identity (gw_Registry gw') = rg_identity (gw_Registry gw).

(** The routes afterwards: those of the registered ids and of the ids that stay
    unregistered are as before, the others are what [announced] allows. *)
Definition routes_grow (announced : Z → BackendRouteInfo → Prop) gw gw' : Prop :=
  gw_fwdRegistered gw ⊆ gw_fwdRegistered gw' ∧
  ∀ m, if decide (m ∈ gw_fwdRegistered gw' ∧ m ∉ gw_fwdRegistered gw)
       then ∃ info, gw_routes gw' !! m = Some info ∧ announced m info
       else gw_routes gw' !! m = gw_routes gw !! m.

Lemma routes_grow_refl announced gw : routes_grow announced gw gw.
Proof. split; [done|]. intros m. by rewrite decide_False by tauto. Qed.

Lemma routes_grow_trans announced gw1 gw2 gw3 :
  routes_grow announced gw1 gw2 → routes_grow announced gw2 gw3 → routes_grow announced gw1 gw3.
Proof.
  intros [S1 R1] [S2 R2]. split; [by etrans|]. intros m. specialize (R1 m). specialize (R2 m).
  specialize (S1 m). specialize (S2 m).
  destruct (decide (m ∈ gw_fwdRegistered gw1)), (decide (m ∈ gw_fwdRegistered gw2)),
    (decide (m ∈ gw_fwdRegistered gw3)); repeat case_decide; try tauto; by rewrite R2.
Qed.

Lemma routes_grow_mono (P Q : Z → BackendRouteInfo → Prop) gw gw' :
  (∀ m info, P m info → Q m info) → routes_grow P gw gw' → routes_grow Q gw gw'.
Proof.
  intros HPQ [Hs Hr]. split; [done|]. intros m. specialize (Hr m).
  case_decide; [|done]. destruct Hr as (info & ? & ?). eauto.
Qed.

Lemma register_forward_frame service cfg ids gw gw' es why :
  register_forward service cfg ids gw = (gw', es, why) →
  hello_frame gw gw' ∧ gw_Registry gw' = gw_Registry gw ∧
  routes_grow (λ m info, m ∈ ids ∧ info = mkRouteInfo service (rc_RouteKey cfg) (rc_RouteType cfg))
    gw gw' ∧
  (∀ why', why = Some why' → MsgIdPing ∈ ids ∧ why' = repeated_api MsgIdPing).
Proof.
  revert gw es. induction ids as [|i ids IH]; intros gw es; cbn [register_forward].
  { intros [= <- <- <-]. split_and!; [done..|apply routes_grow_refl|done]. }
  case_decide as Hi.
  { intros (Hf & Hr & Hg & Hw)%IH. split_and!; [done..| |].
    - eapply routes_grow_mono, Hg. intros m info [? ?]. split; [by right|done].
    - intros why' Hy. destruct (Hw why' Hy). split; [by right|done]. }
  set (gw1 := SetRoutes _ _).
  assert (routes_grow (λ m info, m ∈ i :: ids ∧
    info = mkRouteInfo service (rc_RouteKey cfg) (rc_RouteType cfg)) gw gw1) as Hg1.
  { split; [simpl; set_solver|]. intros m. simpl. destruct (decide (m = i)) as [->|Hne].
    - rewrite decide_True by set_solver. eexists. split; [apply lookup_insert_eq|].
      split; [by left|done].
    - rewrite decide_False by set_solver. by apply lookup_insert_ne. }
  case_decide as Hp.
  { intros [= <- <- <-]. split_and!; [done..|]. intros why' [= <-]. subst i. split; [by left|done]. }
  destruct (register_forward service cfg ids gw1) as [[gw2 es2] why2] eqn:H2'.
  intros [= <- <- <-]. apply IH in H2' as (Hf & Hr & Hg & Hw).
  split_and!; [exact Hf|exact Hr| |].
  - eapply routes_grow_trans; [exact Hg1|]. eapply routes_grow_mono, Hg.
    intros m info [? ?]. split; [by right|done].
  - intros why' Hy. destruct (Hw why' Hy). split; [by right|done].
Qed.

(** A pool after routers were added to one of its connections. *)
Definition pool_frame (pool pool' : Pool W) : Prop :=
  ServerAddrs pool' = ServerAddrs pool ∧ length (p_conns pool') = length (p_conns pool).

Lemma AddConnectionRouter_frame pool conn msgID r pool' es :
  AddConnectionRouter pool conn msgID r = Ok (pool', es) → pool_frame pool pool'.
Proof.
  unfold AddConnectionRouter. destruct (list_find _ _) as [[i e]|] eqn:Hf; [|by intros [= <- <-]].
  case_decide; [done|]. intros [= <- <-]. apply list_find_Some in Hf as (Hl & _ & _).
  split; simpl; [|apply length_insert]. unfold ServerAddrs. simpl.
  fold (addrs_of (<[i:=entry_add_router msgID r e]> (p_conns pool))) (addrs_of (p_conns pool)).
  destruct (list_elem_of_split_length _ _ _ Hl) as (l1 & l2 & -> & ->).
  rewrite insert_app_r_alt, Nat.sub_diag by lia. simpl.
  by rewrite !addrs_of_app, !addrs_of_cons.
Qed.

Lemma register_responses_frame pool conn ids pool' es why :
  register_responses pool conn ids = (pool', es, why) →
  pool_frame pool pool' ∧
  (∀ why', why = Some why' → ∃ m, m ∈ ids ∧ why' = repeated_api m).
Proof.
  revert pool es. induction ids as [|i ids IH]; intros pool es; cbn [register_responses].
  { by intros [= <- <- <-]. }
  destruct (AddConnectionRouter pool conn i ResponseRouter) as [[pool1 es1]|why1] eqn:HA.
  - apply AddConnectionRouter_frame in HA as [Ha Hl].
    destruct (register_responses pool1 conn ids) as [[pool2 es2] why2] eqn:Hr.
    intros [= <- <- <-]. apply IH in Hr as [[Ha' Hl'] Hw]. split; [split; congruence|].
    intros why' (m & ? & ->)%Hw. exists m. split; [by right|done].
  - intros [= <- <- <-]. split; [done|]. intros why' [= <-]. exists i. split; [by left|].
    unfold AddConnectionRouter in HA. repeat case_match; congruence.
Qed.

(** The requests that announce [m] with a route to [info]. *)
Definition announces (cfgs : gmap string BackendRouteCfg) request (m : Z)
    (info : BackendRouteInfo) : Prop :=
  ∃ hello cfg, unmarshal (A := ServiceHello) (rq_data request) = Some hello ∧
    cfgs !! sh_Service hello = Some cfg ∧ m ∈ sh_MsgIds hello ∧
    info = mkRouteInfo (sh_Service hello) (rc_RouteKey cfg) (rc_RouteType cfg).

(** Every backend keeps its pool, with its servers. *)
Definition pools_kept (r r' : Registry W) : Prop :=
  ∀ svc, match reg_Pool r svc, reg_Pool r' svc with
         | Some p, Some p' => pool_frame p p'
         | None, None => True
         | _, _ => False
         end.

Lemma pools_kept_refl r : pools_kept r r.
Proof. intros svc. by destruct (reg_Pool r svc). Qed.

Lemma pools_kept_trans r1 r2 r3 : pools_kept r1 r2 → pools_kept r2 r3 → pools_kept r1 r3.
Proof.
  intros H12 H23 svc. specialize (H12 svc). specialize (H23 svc).
  destruct (reg_Pool r1 svc), (reg_Pool r2 svc), (reg_Pool r3 svc); try done.
  destruct H12, H23. split; congruence.
Qed.

Lemma hello_run_frame request gw gw' es why :
  hello_run request gw = (gw', es, why) →
  hello_frame gw gw' ∧ pools_kept (gw_Registry gw) (gw_Registry gw') ∧
  routes_grow (announces (gw_backendCfgs gw) request) gw gw' ∧
  (∀ why', why = Some why' → ∃ hello m, unmarshal (rq_data request) = Some hello ∧
     m ∈ sh_MsgIds hello ++ sh_SendMsgIds hello ∧ why' = repeated_api m).
Proof.
  unfold hello_run.
  destruct (unmarshal (rq_data request)) as [hello|] eqn:Hu.
  2: { intros [= <- <- <-]. split_and!; [done..|apply pools_kept_refl|apply routes_grow_refl|done]. }
  destruct (gw_backendCfgs gw !! sh_Service hello) as [cfg|] eqn:Hc.
  2: { intros [= <- <- <-]. split_and!; [done..|apply pools_kept_refl|apply routes_grow_refl|done]. }
  destruct (register_forward _ _ _ _) as [[gw1 es1] why1] eqn:Hf.
  apply register_forward_frame in Hf as (Hfr & Hreg & Hg & Hw).
  assert (routes_grow (announces (gw_backendCfgs gw) request) gw gw1) as Hg1.
  { eapply routes_grow_mono, Hg. intros m info [? ->]. by exists hello, cfg. }
  destruct why1 as [why1|].
  { intros [= <- <- <-]. split_and!; [done|rewrite Hreg; apply pools_kept_refl|done|].
    intros why' [= <-]. destruct (Hw why1 eq_refl) as [? ->].
    exists hello, MsgIdPing. split_and!; [done|apply elem_of_app; by left|done]. }
  destruct (reg_Pool (gw_Registry gw1) _) as [pool|] eqn:Hp.
  2: { intros [= <- <- <-]. split_and!; [done|rewrite Hreg; apply pools_kept_refl|done..]. }
  destruct (register_responses _ _ _) as [[pool' es2] why2] eqn:Hr.
  intros [= <- <- <-]. apply register_responses_frame in Hr as [Hpf Hw2].
  split_and!; [exact Hfr| |exact Hg1|].
  - rewrite Hreg in *. intros svc. unfold reg_Pool, reg_SetPool. simpl.
    destruct (decide (svc = sh_Service hello)) as [->|Hne].
    + rewrite lookup_insert_eq. unfold reg_Pool in Hp. by rewrite Hp.
    + rewrite lookup_insert_ne by done. apply pools_kept_refl.
  - intros why' (m & ? & ->)%Hw2. exists hello, m. split_and!; [done|apply elem_of_app; by right|done].
Qed.

Lemma handle_hellos_frame hellos gw :
  hello_frame gw (handle_hellos hellos gw).1 ∧
  pools_kept (gw_Registry gw) (gw_Registry (handle_hellos hellos gw).1) ∧
  routes_grow (λ m info, ∃ request, request ∈ hellos ∧
    announces (gw_backendCfgs gw) request m info) gw (handle_hellos hellos gw).1.
Proof.
  revert gw. induction hellos as [|request hellos IH]; intros gw; cbn [handle_hellos].
  { split_and!; [done..|apply pools_kept_refl|apply routes_grow_refl]. }
  destruct (hello_run request gw) as [[gw1 es1] why1] eqn:Hr.
  apply hello_run_frame in Hr as ((HI & Hw & HP & HB & HN) & Hk & Hg & _).
  destruct (IH gw1) as ((HI' & Hw' & HP' & HB' & HN') & Hk' & Hg').
  destruct (handle_hellos hellos gw1) as [gw2 es2]. simpl in *.
  split_and!; [split_and!; congruence|by eapply pools_kept_trans|].
  eapply routes_grow_trans; eapply routes_grow_mono; [|exact Hg| |exact Hg'].
  - intros m info ?. exists request. split; [by left|done].
  - intros m info (rq & ? & Ha). exists rq. split; [by right|]. by rewrite HB in Ha.
Qed.

Lemma hello_keeps_registered request gw gw' es m :
  hello_Handle request gw = Ok (tt, gw', es) → m ∈ gw_fwdRegistered gw →
  gw_routes gw' !! m = gw_routes gw !! m.
Proof.
  unfold hello_Handle. destruct (hello_run request gw) as [[gw1 es1] [|]] eqn:Hr; [done|].
  intros [= <- <-] Hm. apply hello_run_frame in Hr as (_ & _ & [_ Hg] & _). specialize (Hg m).
  by rewrite decide_False in Hg by tauto.
Qed.

End hellos.

(** ** Sequences of events *)

Section sequences.
Context `{ProtoLaws, ZinxLaws W, BackendRouter R}.
Implicit Types (gw : GatewayServer W) (reg : R) (conn : Conn) (request : Request).

Lemma G_bind_Ok {A B} (m : G W A) (f : A → G W B) gw b gw' es :
  (m ≫= f) gw = Ok (b, gw', es) →
  ∃ a gw1 es1 es2, m gw = Ok (a, gw1, es1) ∧ f a gw1 = Ok (b, gw', es2) ∧ es = es1 ++ es2.
Proof.
  unfold mbind, G_bind. destruct (m gw) as [[[a gw1] es1]|]; [|done].
  destruct (f a gw1) as [[[b' gw2] es2]|] eqn:Hf; [|done].
  intros [= -> -> <-]. eauto 10.
Qed.

Lemma sync_backends_registered cfg sw order gw gw' es :
  sync_backends cfg sw order gw = Ok (tt, gw', es) → gw_fwdRegistered gw' = gw_fwdRegistered gw.
Proof.
  revert gw es. induction order as [|[b rc] order IH]; intros gw es; cbn [sync_backends].
  { by intros [= <- <-]. }
  intros ([] & gw1 & es1 & es2 & Hs & Hrun & _)%G_bind_Ok. rewrite (IH _ _ Hrun).
  unfold gw_SyncBackend in Hs. destruct (SyncBackend _ _ _ _ _ _ _ _ _) as [[[r w] es3]|]; [|done].
  by injection Hs as <- <-.
Qed.

Lemma hot_reload_run cfg order order_sync sw cleanup gw gw' es :
  hot_reload cfg order order_sync sw cleanup gw = Ok (tt, gw', es) →
  gw_routes gw' = (BuildRouteIndex order).1 ∧ gw_fwdRegistered gw' = gw_fwdRegistered gw.
Proof.
  unfold hot_reload. destruct (BuildRouteIndex order) as [idx cfgs].
  intros ([] & gw1 & es1 & ? & H1' & Hrun & _)%G_bind_Ok.
  apply G_bind_Ok in Hrun as ([] & gw2 & es2 & ? & H2' & Hrun & _).
  apply G_bind_Ok in Hrun as ([] & gw3 & es3 & ? & H3' & Hrun & _).
  run_gw. injection Hrun as <- <-. simpl. split; [done|].
  rewrite <-(sync_backends_registered _ _ _ _ _ _ H1').
  destruct (CleanupBackends _ _ _) as [r es4]. injection H3' as <- <-. simpl.
  unfold gw_SyncBackend in H2'. destruct (SyncBackend _ _ _ _ _ _ _ _ _) as [[[r' w'] es5]|]; [|done].
  by injection H2' as <- <-.
Qed.

(** A hot reload replaces the route table by the configuration's, so a
    message id that a backend announced with its hello and the configuration
    does not list loses its route; since the id stays marked as registered, no
    later hello brings the route back. *)
Theorem reload_forgets_announced_routes cfg order order_sync sw cleanup gw gw' es m :
  m ∈ gw_fwdRegistered gw → (∀ b rc, (b, rc) ∈ order → m ∉ br_Forward rc) →
  hot_reload cfg order order_sync sw cleanup gw = Ok (tt, gw', es) →
  RouteFor m gw' = None ∧
  ∀ request gw'' es'', hello_Handle request gw' = Ok (tt, gw'', es'') → RouteFor m gw'' = None.
Proof.
  intros Hm Hno [Hroutes Hreg]%hot_reload_run. unfold RouteFor.
  assert (gw_routes gw' !! m = None) as Hn by (rewrite Hroutes; by apply route_index_None).
  split; [done|]. intros request gw'' es'' Hh.
  rewrite (hello_keeps_registered _ _ _ _ _ Hh); [done|]. by rewrite Hreg.
Qed.

(** When a player who has opened a second connection closes the first one,
    the gateway forgets the player's second connection, and reports the player
    disconnected to the session server. *)
Theorem closing_old_connection_drops_new reg now gw old pid connID c :
  GetProperty (gw_w gw) old PropPlayerID = Some (AInt64 pid) →
  gw_PlayerConns gw !! pid = Some connID → connID ≠ GetConnID old →
  RouteTo reg SvcSessionSvr (FormatInt pid) = Some c →
  ∃ gw', OnConnStop (Some reg) now old gw =
    Ok (tt, gw', [SendMsg c MsgIdSessionDisconnect
                    (marshal (mkSessionData pid (gw_ID gw) None 0))]) ∧
    gw_PlayerConns gw' !! pid = None.
Proof.
  intros Hp _ _ Hc. unfold OnConnStop. run_gw. rewrite Hp. unfold MarkDisconnected. run_gw.
  rewrite Hc. eexists. split; [reflexivity|]. apply lookup_delete_eq.
Qed.

(** A disconnect that could not be delivered stays queued when the player
    connects again and the session server's answer times out: once the session
    server is reachable, the retry reports the connected player as
    disconnected. *)
Theorem retry_disconnects_connected_player reg conn ch pid t gw c :
  gw_pendingDisconnects gw !! pid = Some t →
  gw_pendingAuths gw !! RemoteAddr conn = Some pid →
  RouteTo reg SvcSessionSvr (FormatInt pid) = Some c →
  ∃ gw1 es1 gw2 gw3,
    OnConnStart (Some reg) ch conn gw = Ok (true, gw1, es1) ∧
    CheckReconnect_end false pid gw1 = Ok (tt, gw2, []) ∧
    gw_pendingDisconnects gw2 !! pid = Some t ∧
    retryPendingDisconnects (Some reg) [pid] gw2 =
      Ok (tt, gw3, [SendMsg c MsgIdSessionDisconnect
                      (marshal (mkSessionData pid (gw_ID gw) None 0))]) ∧
    gw_PlayerConns gw3 !! pid = Some (GetConnID conn).
Proof.
  intros Ht Ha Hc. unfold OnConnStart. run_gw. rewrite Ha. unfold CheckReconnect_send. run_gw.
  rewrite Hc. do 4 eexists. split; [reflexivity|]. split; [reflexivity|].
  split; [exact Ht|]. cbn [retryPendingDisconnects]. run_gw. rewrite Hc. split; [reflexivity|].
  simpl. apply lookup_insert_eq.
Qed.
End sequences.

(** ** Concrete inputs *)

(** One client, connection 3, of player 7, on gateway gw1. *)
Definition wit_gateway : GatewayServer World :=
  mkGateway "gw1" (mkWorld {[ (3%N, PropPlayerID) := AInt64 7 ]} {[ 3%N ]})
    (mkRegistry ∅ SvcGateway) {[ 7 := 3 ]} {[ MsgIdChatReq := mkRouteInfo "chatsvr" "playerId" "" ]}
    ∅ {[ MsgIdChatReq ]} {[ 7 := 1%N ]} ∅ {[ 7 := 99 ]} {[ "10.0.0.1:4"%string := 7 ]}.
Definition wit_route : string → string → option Conn := λ _ _, Some 5%N.
Definition wit_answer : SessionData := mkSessionData 7 "gw1" None 0.
Definition wit_invalidate : Request := mkRequest 5 MsgIdSessionInvalidate (marshal wit_answer).

Lemma route_index_exact_witness :
  (BuildRouteIndex [("chatsvr"%string, mkBackendRoute [5] "" "")]).1 !! 5 =
    Some (mkRouteInfo "chatsvr" "" "").
Proof.
  apply (route_index_exact [("chatsvr"%string, mkBackendRoute [5] "" "")]).
  - intros b rc b' rc' Hb%list_elem_of_singleton Hb'%list_elem_of_singleton _ _. congruence.
  - exists "chatsvr"%string, (mkBackendRoute [5] "" ""). split; [left|]. split; [left|reflexivity].
Defined.

Lemma wit_gateway_typed v :
  GetProperty (gw_w wit_gateway) 3%N PropPlayerID = Some v → ∃ pid, v = AInt64 pid.
Proof. intros [= <-]. eauto. Qed.

Lemma forward_exactly_once_witness :
  ∃ e, forward_Handle (Some wit_route) 0 (mkRequest 3 MsgIdChatReq []) wit_gateway =
    Ok (tt, wit_gateway, [e]).
Proof.
  destruct (forward_exactly_once (H := count_proto) wit_route 0 (mkRequest 3 MsgIdChatReq [])
    wit_gateway wit_gateway_typed ltac:(evaluate)) as (e & He & _).
  exists e. exact He.
Defined.

Lemma response_reaches_client_witness :
  ∃ gw' es, response_Handle (Some wit_route)
    (mkRequest 5 MsgIdRoomJoinResp (marshal (mkEnvelope 3 [Byte.x01] None))) wit_gateway =
    Ok (tt, gw', es ++ [SendMsg 3 MsgIdRoomJoinResp [Byte.x01]]).
Proof.
  destruct (response_reaches_client wit_route
    (mkRequest 5 MsgIdRoomJoinResp (marshal (mkEnvelope 3 [Byte.x01] None))) wit_gateway
    (mkEnvelope 3 [Byte.x01] None) 3%N) as (gw' & es & Hr & _).
  - vm_compute. reflexivity.
  - reflexivity.
  - discriminate.
  - reflexivity.
  - exists gw', es. exact Hr.
Defined.

Lemma invalidate_only_named_gateway_witness :
  HandleSessionInvalidate wit_invalidate wit_gateway =
    Ok (tt, set_PlayerConns (delete 7 (gw_PlayerConns wit_gateway)) wit_gateway, [StopConn 3]).
Proof.
  apply (proj2 (invalidate_only_named_gateway (H := count_proto) wit_invalidate wit_gateway wit_answer
    ltac:(vm_compute; reflexivity)) 3 3%N); try reflexivity. discriminate.
Defined.

Lemma session_answer_wakes_waiter_witness :
  ∃ gw' es, HandleSessionGet (Some wit_route)
    (mkRequest 5 MsgIdSessionGet (marshal wit_answer)) wit_gateway = Ok (tt, gw', es) ∧
    1%N ∈ gw_closed gw' ∧ gw_pendingSessionGets gw' !! 7 = None.
Proof.
  apply (session_answer_wakes_waiter wit_route (mkRequest 5 MsgIdSessionGet (marshal wit_answer))
    wit_gateway wit_answer 1%N).
  - vm_compute. reflexivity.
  - reflexivity.
Defined.

Lemma reload_forgets_announced_routes_witness :
  ∃ gw' es, hot_reload zero_config [] [] (λ _, mkSyncWorld (λ _, (None, 0%N)) [] []) []
    wit_gateway = Ok (tt, gw', es) ∧ RouteFor MsgIdChatReq gw' = None.
Proof.
  do 2 eexists. split; [reflexivity|].
  refine (proj1 (reload_forgets_announced_routes zero_config [] []
    (λ _, mkSyncWorld (λ _, (None, 0%N)) [] []) [] wit_gateway _ _ MsgIdChatReq _ _ eq_refl)).
  - evaluate.
  - intros b rc Hb. apply elem_of_nil in Hb. destruct Hb.
Defined.

Lemma closing_old_connection_drops_new_witness :
  let gw := set_PlayerConns {[ 7 := 8 ]} wit_gateway in
  ∃ gw', OnConnStop (Some wit_route) 0 3%N gw =
    Ok (tt, gw', [SendMsg 5 MsgIdSessionDisconnect (marshal (mkSessionData 7 "gw1" None 0))]) ∧
    gw_PlayerConns gw' !! 7 = None.
Proof.
  apply (closing_old_connection_drops_new wit_route 0 (set_PlayerConns {[ 7 := 8 ]} wit_gateway)
    3%N 7 8 5%N); try reflexivity. discriminate.
Defined.

Lemma retry_disconnects_connected_player_witness :
  ∃ gw1 es1 gw2 gw3,
    OnConnStart (Some wit_route) 2%N 4%N wit_gateway = Ok (true, gw1, es1) ∧
    CheckReconnect_end false 7 gw1 = Ok (tt, gw2, []) ∧
    gw_pendingDisconnects gw2 !! 7 = Some 99 ∧
    retryPendingDisconnects (Some wit_route) [7] gw2 =
      Ok (tt, gw3, [SendMsg 5 MsgIdSessionDisconnect (marshal (mkSessionData 7 "gw1" None 0))]) ∧
    gw_PlayerConns gw3 !! 7 = Some (GetConnID (W := World) 4%N).
Proof.
  apply (retry_disconnects_connected_player (H := count_proto) (W := World) wit_route 4%N 2%N 7 99 wit_gateway 5%N);
    vm_compute; reflexivity.
Defined.
