(* ===== verification/GatewayTypes.v ===== *)
(** * The gateway's connection properties are well typed

    The gateway stores dynamic values as properties of connections and, when it
    forwards a message, asserts that the player id is an [int64]; the assertion
    panics otherwise.  This file has every event that the gateway reacts to as
    one type, and shows that the assertion never fails: the invariant [typed] is
    kept by every event, and the only panics are those of [event_panics]. *)

From S2P Require Import Prelude GoLib Proto Zinx Models Conf Pool Registry Gateway.
#[local] Open Scope Z_scope.

Section events.
Context `{Proto, Zinx W, BackendRouter R}.

(** What can happen to a gateway that has started. *)
Inductive GwEvent :=
  | GwAuth (validate : string → option Z) (rawQuery remoteAddr : string)
  | GwConnStart (ch : N) (conn : Conn)
  | GwCheckEnd (signalled : bool) (playerID : Z)
  | GwConnStop (now : Z) (conn : Conn)
  | GwForward (now : Z) (request : Request)
  | GwResponse (request : Request)
  | GwSession (request : Request)
  | GwRetry (order : list Z)
  | GwHello (request : Request)
  | GwReload (cfg : Config) (order order_sync : list (string * BackendRoute))
      (sw : string → SyncWorld) (cleanup_order : list string).

Definition gw_exec (reg : R) (ev : GwEvent) : G W unit :=
  match ev with
  | GwAuth validate query addr => websocket_auth validate query addr;; mret tt
  | GwConnStart ch conn => OnConnStart (Some reg) ch conn;; mret tt
  | GwCheckEnd signalled playerID => CheckReconnect_end signalled playerID
  | GwConnStop now conn => OnConnStop (Some reg) now conn
  | GwForward now request => forward_Handle (Some reg) now request
  | GwResponse request => response_Handle (Some reg) request
  | GwSession request => session_response_Handle (Some reg) request
  | GwRetry order => retryPendingDisconnects (Some reg) order
  | GwHello request => hello_Handle request
  | GwReload cfg order order_sync sw cleanup_order => hot_reload cfg order order_sync sw cleanup_order
  end.

Fixpoint gw_run (reg : R) (evs : list GwEvent) : G W unit :=
  match evs with
  | [] => mret tt
  | ev :: evs => gw_exec reg ev;; gw_run reg evs
  end.
End events.

(** The tags of a message do not claim to be the player id. *)
Definition no_player_tag (tags : gomap) : Prop := from_option (λ g, g !! PropPlayerID = None) True tags.

(** The messages the backends send: responses without such a tag, and sessions
    without one. *)
Definition backend_sent `{Proto} (ev : GwEvent) : Prop :=
  match ev with
  | GwResponse request =>
      ∀ env, unmarshal (A := Envelope) (rq_data request) = Some env → no_player_tag (ev_ConnTags env)
  | GwSession request =>
      ∀ d, unmarshal (A := SessionData) (rq_data request) = Some d → no_player_tag (sd_ConnTags d)
  | _ => True
  end.

Section types.
Context `{Proto, ZinxLaws W, BackendRouter R}.
Implicit Types (w : W) (gw : GatewayServer W).

(** A player id is an [int64]. *)
Definition typed_w w : Prop :=
  ∀ c v, GetProperty w c PropPlayerID = Some v → ∃ z, v = AInt64 z.
Definition typed gw : Prop := typed_w (gw_w gw).

(** [m] keeps the invariant; it panics only with a message of [P]. *)
Definition keeps {A} (P : string → Prop) (m : G W A) : Prop :=
  ∀ gw, typed gw → match m gw with Ok (_, gw', _) => typed gw' | Panic why => P why end.
Definition never : string → Prop := λ _, False.

Lemma keeps_ret {A} P (a : A) : keeps P (mret a).
Proof. intros gw Hgw. exact Hgw. Qed.

Lemma keeps_bind {A B} P (m : G W A) (f : A → G W B) :
  keeps P m → (∀ a, keeps P (f a)) → keeps P (m ≫= f).
Proof.
  intros Hm Hf gw Hgw. specialize (Hm gw Hgw). unfold mbind, G_bind.
  destruct (m gw) as [[[a gw'] es]|]; [|done]. specialize (Hf a gw' Hm).
  by destruct (f a gw') as [[[b gw''] es']|].
Qed.

Lemma keeps_get P : keeps P get.
Proof. intros gw Hgw. exact Hgw. Qed.

Lemma keeps_emit P es : keeps P (emit es).
Proof. intros gw Hgw. exact Hgw. Qed.

Lemma keeps_modify P f : (∀ gw, gw_w (f gw) = gw_w gw) → keeps P (modify f).
Proof. intros Hf gw Hgw. unfold modify, typed. by rewrite Hf. Qed.

Lemma keeps_set_w P (f : W → W) :
  (∀ w, typed_w w → typed_w (f w)) → keeps P (modify (λ gw, set_w (f (gw_w gw)) gw)).
Proof. intros Hf gw Hgw. by apply Hf. Qed.

Lemma keeps_RouteTo P (reg : R) service key : keeps P (gw_RouteTo (Some reg) service key).
Proof. apply keeps_ret. Qed.

Lemma keeps_mono {A} (P Q : string → Prop) (m : G W A) :
  (∀ why, P why → Q why) → keeps P m → keeps Q m.
Proof. intros HPQ Hm gw Hgw. specialize (Hm gw Hgw). destruct (m gw) as [[[? ?] ?]|]; auto. Qed.

Lemma typed_set_other w c k v : k ≠ PropPlayerID → typed_w w → typed_w (SetProperty w c k v).
Proof.
  intros Hk Hw c' v'. rewrite get_set. case_decide as Hd; [congruence|]. apply Hw.
Qed.

Lemma typed_set_player w c z : typed_w w → typed_w (SetProperty w c PropPlayerID (AInt64 z)).
Proof. intros Hw c' v'. rewrite get_set. case_decide; [intros [= <-]; eauto|apply Hw]. Qed.

Lemma typed_sets w c (tags : gmap string string) :
  tags !! PropPlayerID = None → typed_w w → typed_w (SetProperties w c (map_to_list tags)).
Proof.
  intros Ht Hw c' v. rewrite get_sets_other; [apply Hw|]. right.
  intros ([k x] & Hk & Hin)%list_elem_of_fmap. simpl in Hk. subst k.
  apply elem_of_map_to_list in Hin. congruence.
Qed.
End types.

Create HintDb keeps.
#[export] Hint Resolve keeps_ret keeps_get keeps_emit keeps_RouteTo : keeps.

(** Take a handler apart. *)
Ltac keep :=
  repeat (intros; cbn beta zeta;
    first [ solve [auto with keeps]
          | apply keeps_bind; [|intros]
          | apply keeps_modify; by intros
          | progress case_decide
          | progress case_match ]).

Section safety.
Context `{Proto, ZinxLaws W, BackendRouter R}.
Implicit Types (w : W) (gw : GatewayServer W) (reg : R).

Lemma keeps_SyncSessionTags reg conn : keeps (W := W) never (SyncSessionTags (Some reg) conn).
Proof. unfold SyncSessionTags, session_conn. keep. Qed.

Lemma keeps_MarkDisconnected reg now pid : keeps (W := W) never (MarkDisconnected (Some reg) now pid).
Proof. unfold MarkDisconnected, session_conn. keep. Qed.

Lemma keeps_notify reg pid m s c : keeps (W := W) never (notifyRoomReconnected (Some reg) pid m s c).
Proof. unfold notifyRoomReconnected. keep. Qed.

Lemma keeps_restore reg d connID c :
  no_player_tag (sd_ConnTags d) → keeps (W := W) never (session_restore (Some reg) d connID c).
Proof.
  intros Ht. unfold session_restore, session_conn. case_match; [|keep].
  apply keeps_bind.
  { apply (keeps_set_w _ (λ w, SetProperties w c (from_option map_to_list [] (sd_ConnTags d)))).
    intros w Hw. destruct (sd_ConnTags d) as [g|]; simpl; [|done].
    by apply typed_sets. }
  intros _. apply keeps_bind; [|keep]. case_decide; [apply keeps_notify|keep].
Qed.

Lemma keeps_HandleSessionGet reg request :
  (∀ d, unmarshal (A := SessionData) (rq_data request) = Some d → no_player_tag (sd_ConnTags d)) →
  keeps (W := W) never (HandleSessionGet (Some reg) request).
Proof.
  intros Ht. unfold HandleSessionGet. destruct (unmarshal (rq_data request)) as [d|]; [|keep].
  specialize (Ht d eq_refl). apply keeps_bind; [keep|]. intros gw. cbn zeta.
  apply keeps_bind; [keep|]. intros _. apply keeps_bind; [|keep].
  repeat case_match; [by apply keeps_restore|keep..].
Qed.

Lemma keeps_applyConnTags reg conn tags :
  no_player_tag tags → keeps (W := W) never (applyConnTags (Some reg) conn tags).
Proof.
  intros Ht. unfold applyConnTags. destruct tags as [g|]; [|keep]. case_match; [keep|].
  apply keeps_bind; [apply (keeps_set_w _ (λ w, SetProperties w conn (map_to_list g))); intros w; by apply typed_sets|]. intros _.
  apply keeps_bind; [keep|intros _; apply keeps_SyncSessionTags].
Qed.

Lemma keeps_response reg request :
  (∀ env, unmarshal (A := Envelope) (rq_data request) = Some env → no_player_tag (ev_ConnTags env)) →
  keeps (W := W) never (response_Handle (Some reg) request).
Proof.
  intros Ht. unfold response_Handle. destruct (unmarshal (rq_data request)) as [env|]; [|keep].
  specialize (Ht env eq_refl). apply keeps_bind; [keep|]. intros gw. cbn zeta.
  case_decide; [keep|]. case_match; [|keep]. case_match; [|keep].
  apply keeps_bind; [by apply keeps_applyConnTags|keep].
Qed.

(** The assertion: with the invariant it holds. *)
Lemma keeps_forward reg now request : keeps (W := W) never (forward_Handle (Some reg) now request).
Proof.
  intros gw Hgw. unfold forward_Handle. run_gw. destruct (RouteFor _ _) as [route|]; [|done].
  case_decide; [done|].
  destruct (GetProperty (gw_w gw) (rq_conn request) PropPlayerID) as [v|] eqn:Hv;
    [destruct (Hgw _ _ Hv) as [z ->]|]; destruct (RouteTo reg _ _); done.
Qed.

Lemma keeps_OnConnStart reg ch conn : keeps (W := W) never (OnConnStart (Some reg) ch conn).
Proof.
  unfold OnConnStart. apply keeps_bind; [keep|]. intros gw. cbn zeta. case_match; [|keep].
  apply keeps_bind; [keep|]. intros _. apply keeps_bind.
  { apply (keeps_set_w _ (λ w, SetProperty w conn PropPlayerID (AInt64 _))).
    intros w. apply typed_set_player. }
  intros _. apply keeps_bind; [keep|]. intros _. unfold CheckReconnect_send, session_conn. keep.
Qed.

Lemma keeps_retry reg order : keeps (W := W) never (retryPendingDisconnects (Some reg) order).
Proof.
  induction order as [|p order IH]; [keep|]. cbn [retryPendingDisconnects]. unfold session_conn.
  keep. all: exact IH.
Qed.

(** The panics of a hello: it announces an id that has a router. *)
Definition hello_panics request (why : string) : Prop :=
  ∃ hello m, unmarshal (A := ServiceHello) (rq_data request) = Some hello ∧
    m ∈ sh_MsgIds hello ++ sh_SendMsgIds hello ∧ why = repeated_api m.

Lemma keeps_hello request : keeps (W := W) (hello_panics request) (hello_Handle request).
Proof.
  intros gw Hgw. unfold hello_Handle.
  destruct (hello_run request gw) as [[gw1 es] why] eqn:Hr.
  apply hello_run_frame in Hr as ((_ & Hw & _) & _ & _ & Hp).
  destruct why as [why|]; [by apply Hp|]. unfold typed. by rewrite Hw.
Qed.

(** ** Dialling and synchronising set only the server id *)

Lemma sync_add_typed p w current todo routers routeFn identity dialed :
  typed_w w →
  match sync_add p w current todo routers routeFn identity dialed with
  | Ok (_, w', _) => typed_w w'
  | Panic why => ∃ addr srv, (addr, srv) ∈ todo ∧ ParseHostPort (sn_Listen srv) = Panic why
  end.
Proof.
  revert p w. induction todo as [|[addr srv] todo IH]; intros p w Hw; cbn [sync_add]; [done|].
  assert (∀ why, (∃ addr srv, (addr, srv) ∈ todo ∧ ParseHostPort (sn_Listen srv) = Panic why) →
    ∃ a s, (a, s) ∈ (addr, srv) :: todo ∧ ParseHostPort (sn_Listen s) = Panic why) as Htl.
  { intros why (a & sv & ? & ?). exists a, sv. split; [by right|done]. }
  case_decide.
  { specialize (IH p w Hw). destruct (sync_add _ _ _ _ _ _ _ _) as [[[? ?] ?]|]; auto. }
  destruct (dialed addr) as [outcome client]. unfold AddServer.
  destruct (ParseHostPort (sn_Listen srv)) as [a|why] eqn:HP; cbn [mbind result_bind].
  2: { exists addr, srv. split; [by left|done]. }
  destruct outcome as [conn|]; cbn [mbind result_bind];
    (match goal with |- context [sync_add ?p1 ?w1 _ _ _ _ _ _] =>
       specialize (IH p1 w1) end);
    (destruct (sync_add _ _ _ _ _ _ _ _) as [[[? ?] ?]|]; cbn [mbind result_bind]; auto).
  - apply IH. by apply typed_set_other.
  - apply Htl, IH. by apply typed_set_other.
Qed.

(** The panics of a reload: the configuration has a server of a synchronised
    service whose address cannot be parsed. *)
Definition sync_panics (sw : SyncWorld) (why : string) : Prop :=
  ∃ addr srv, (addr, srv) ∈ sw_wanted sw ∧ ParseHostPort (sn_Listen srv) = Panic why.

Lemma keeps_SyncBackend cfg service routers routeFn sw :
  keeps (W := W) (sync_panics sw) (gw_SyncBackend cfg service routers routeFn sw).
Proof.
  intros gw Hgw. unfold gw_SyncBackend, SyncBackend.
  destruct (rg_backends (gw_Registry gw) !! service) as [pool|]; [|done]. unfold Sync.
  pose proof (sync_add_typed pool (gw_w gw) (list_to_set (ServerAddrs pool)) (sw_wanted sw) routers
    routeFn (rg_identity (gw_Registry gw)) (sw_dialed sw) Hgw) as Hs.
  destruct (sync_add _ _ _ _ _ _ _ _) as [[[? w'] ?]|]; cbn [mbind result_bind]; [|exact Hs].
  destruct (sync_remove _ _ _). cbn [mbind result_bind]. exact Hs.
Qed.

Definition reload_panics (order_sync : list (string * BackendRoute)) (sw : string → SyncWorld)
    (why : string) : Prop :=
  ∃ service, service ∈ SvcSessionSvr :: order_sync.*1 ∧ sync_panics (sw service) why.

Lemma keeps_reload cfg order order_sync sw cleanup :
  keeps (W := W) (reload_panics order_sync sw) (hot_reload cfg order order_sync sw cleanup).
Proof.
  unfold hot_reload. destruct (BuildRouteIndex order) as [ri bc]. apply keeps_bind.
  { induction order_sync as [|[b rc] l IH]; [keep|]. cbn [sync_backends].
    apply keeps_bind; [|intros _; eapply keeps_mono; [|exact IH]].
    - eapply keeps_mono; [|apply keeps_SyncBackend]. intros why ?. exists b. split; [|done].
      right. by left.
    - intros why (svc & Hin & ?). exists svc. split; [|done]. set_solver. }
  intros _. apply keeps_bind.
  { eapply keeps_mono; [|apply keeps_SyncBackend]. intros why ?. exists SvcSessionSvr.
    split; [by left|done]. }
  intros _. apply keeps_bind; [|keep].
  apply keeps_bind; [keep|]. intros gw. destruct (CleanupBackends _ _ _). keep.
Qed.

Lemma Dial_typed cfg w service routers routeFn identity dw p w' es sp :
  typed_w w → Dial cfg w service routers routeFn identity dw = Ok (p, w', es, sp) → typed_w w'.
Proof.
  intros Hw. unfold Dial. destruct (services_of cfg service) as [|x l]; [done|].
  destruct (Dial_start _ _ _ _ _) as [[p0 es0]|]; [|done]. cbn [mbind result_bind].
  set (acc := (p0, w, es0, [])).
  assert (∀ evs acc, typed_w acc.1.1.2 →
    typed_w (foldl (Dial_event (x :: l) identity (dw_clients dw)) acc evs).1.1.2) as Hfold.
  { induction evs as [|ev evs IH]; intros [[[p1 w1] es1] sp1] Hacc; [done|]. apply IH.
    destruct ev as [idx conn|idx]; simpl.
    - destruct ((x :: l) !! idx); [|done]. by apply typed_set_other.
    - by destruct (OnDisconnect p1 idx) as [[? ?]|]. }
  specialize (Hfold (dw_events dw) acc Hw). destruct (foldl _ _ _) as [[[p1 w1] es1] sp1].
  destruct (dw_timeout dw); by intros [= <- <- <- <-].
Qed.

Lemma gw_Dial_typed cfg service routers routeFn dw hellos gw gw' es :
  typed gw → gw_Dial cfg service routers routeFn dw hellos gw = Ok (gw', es) → typed gw'.
Proof.
  intros Hgw. unfold gw_Dial. pose proof (handle_hellos_frame hellos gw) as ((_ & Hw & _) & _).
  destruct (handle_hellos hellos gw) as [gw1 es1]. simpl in Hw. unfold reg_Dial.
  destruct (Dial _ _ _ _ _ _ _) as [[[[p1 w1] es2] sp1]|] eqn:HD; [|done].
  cbn [mbind result_bind]. intros [= <- _]. unfold typed. simpl.
  eapply Dial_typed; [|exact HD]. by rewrite Hw.
Qed.

Lemma dial_backends_typed cfg dw hellos order gw gw' es :
  typed gw → dial_backends cfg dw hellos order gw = Ok (gw', es) → typed gw'.
Proof.
  revert gw es. induction order as [|[b rc] order IH]; intros gw es Hgw; cbn [dial_backends].
  { by intros [= <- <-]. }
  destruct (gw_Dial _ _ _ _ _ _ _) as [[gw1 es1]|] eqn:HD; [|done]. cbn [mbind result_bind].
  destruct (dial_backends _ _ _ _ gw1) as [[gw2 es2]|] eqn:Hr; [|done].
  cbn [mbind result_bind]. intros [= <- <-]. eapply IH; [|exact Hr]. by eapply gw_Dial_typed.
Qed.

(** A gateway starts with the invariant. *)
Lemma gateway_New_typed cfg order order_dial dw hellos id w gw es :
  typed_w w → gateway_New cfg order order_dial dw hellos id w = Ok (gw, es) → typed gw.
Proof.
  intros Hw. unfold gateway_New. destruct (BuildRouteIndex order) as [ri bc].
  destruct (initWebSocket cfg id) as [[? ?]|]; [|done]. cbn [mbind result_bind].
  destruct (dial_backends _ _ _ _ _) as [[gw1 es1]|] eqn:Hd; [|done]. cbn [mbind result_bind].
  destruct (gw_Dial _ _ _ _ _ _ _) as [[gw2 es2]|] eqn:HD; [|done].
  cbn [mbind result_bind]. intros [= <- _].
  eapply gw_Dial_typed; [|exact HD]. eapply dial_backends_typed; [|exact Hd]. exact Hw.
Qed.

(** ** Every event *)

(** A reload visits the servers of its configuration. *)
Definition visits_config (ev : GwEvent) : Prop :=
  match ev with
  | GwReload cfg _ _ sw _ =>
      ∀ service, sw_wanted (sw service) ≡ₚ map_to_list (wanted_map (services_of cfg service))
  | _ => True
  end.

(** The panics of an event. *)
Definition event_panics (ev : GwEvent) (why : string) : Prop :=
  match ev with
  | GwReload cfg _ order_sync _ _ =>
      ∃ service srv, service ∈ SvcSessionSvr :: order_sync.*1 ∧ srv ∈ services_of cfg service ∧
        ParseHostPort (sn_Listen srv) = Panic why
  | GwHello request => hello_panics request why
  | _ => False
  end.

Lemma keeps_exec reg ev :
  backend_sent ev → visits_config ev → keeps (W := W) (event_panics ev) (gw_exec reg ev).
Proof.
  destruct ev; simpl; intros Hb Hv;
    [(apply (keeps_mono never); [done|])..|apply keeps_hello|].
  - apply keeps_bind; [|keep]. unfold websocket_auth. keep.
  - apply keeps_bind; [apply keeps_OnConnStart|keep].
  - unfold CheckReconnect_end. keep.
  - unfold OnConnStop. apply keeps_bind; [keep|]. intros gw.
    destruct (GetProperty _ _ _) as [[pid|]|]; [|keep..].
    apply keeps_bind; [keep|intros _; apply keeps_MarkDisconnected].
  - apply keeps_forward.
  - by apply keeps_response.
  - unfold session_response_Handle. repeat case_match; try (by apply keeps_HandleSessionGet); try keep.
    unfold HandleSessionInvalidate. keep.
  - apply keeps_retry.
  - eapply keeps_mono; [|apply keeps_reload].
    intros why (service & Hin & addr & srv & Hs & Hp). exists service, srv.
    rewrite Hv, elem_of_map_to_list in Hs. by apply wanted_map_spec in Hs as [? _].
Qed.

Lemma event_panics_not_conversion ev why : event_panics ev why → why ≠ "interface conversion"%string.
Proof.
  destruct ev; try done; simpl.
  - intros (hello & m & _ & _ & ->). done.
  - intros (service & srv & _ & _ & [->| ->]%ParseHostPort_panics); discriminate.
Qed.

(** C20: The gateway's type assertion never fails.  The player id of a connection
    is an [int64] as long as no backend sends the tag [playerId] (none does: the
    gateways save only the synchronised tags), whatever the sequence of
    authentications, connections, client messages, responses, session answers,
    registrations and reloads.  Only two events can panic: a reload of a
    configuration with a server, of the session service or of a backend it
    routes to, whose address cannot be parsed; and a hello with a message id that
    has a router.  (The model of a run ends with the first panic.) *)
Theorem player_ids_typed reg evs gw :
  typed gw → Forall backend_sent evs → Forall visits_config evs →
  match gw_run reg evs gw with
  | Ok (_, gw', _) => typed gw'
  | Panic why => why ≠ "interface conversion"%string ∧ Exists (λ ev, event_panics ev why) evs
  end.
Proof.
  revert gw. induction evs as [|ev evs IH]; intros gw Hgw Hall Hvis; [done|].
  apply Forall_cons in Hall as [Hev Hall], Hvis as [Hv Hvis]. cbn [gw_run]. unfold mbind, G_bind.
  pose proof (keeps_exec reg ev Hev Hv gw Hgw) as Hk.
  destruct (gw_exec reg ev gw) as [[[u gw1] es1]|why].
  2: { split; [by eapply event_panics_not_conversion|by apply Exists_cons_hd]. }
  specialize (IH gw1 Hk Hall Hvis). destruct (gw_run reg evs gw1) as [[[u2 gw2] es2]|why]; [done|].
  destruct IH as [? ?]. split; [done|by apply Exists_cons_tl].
Qed.

(** The tags a gateway saves have no such key. *)
Lemma collectTags_no_player w conn : no_player_tag (Some (collectTags w conn)).
Proof.
  unfold collectTags, no_player_tag. simpl.
  repeat case_match; simplify_map_eq; try done; repeat case_decide; by simplify_map_eq.
Qed.

(** The hypothesis is needed: a response that carries the tag [playerId], which
    [applyConnTags] reads, stores it as a string, and the next message of that
    client panics. *)
Lemma player_tag_breaks_forward reg now gw request g s route :
  g !! PropPlayerID = Some s → RouteFor (rq_msgID request) gw = Some route →
  ri_RouteKey route = PropPlayerID → s ≠ ""%string →
  ∃ gw' es, applyConnTags (Some reg) (rq_conn request) (Some g) gw = Ok (tt, gw', es) ∧
    forward_Handle (Some reg) now request gw' = Panic "interface conversion".
Proof.
  intros Hg Hr Hk Hs. set (conn := rq_conn request).
  set (w' := SetProperties (gw_w gw) conn (map_to_list g)).
  assert (GetProperty w' conn PropPlayerID = Some (AString s)) as Hp.
  { apply get_sets; [apply NoDup_fst_map_to_list|by apply elem_of_map_to_list]. }
  unfold applyConnTags. destruct (Nat.eqb_spec (size g) 0) as [H0'|_].
  { apply map_size_empty_inv in H0'. by rewrite H0' in Hg. }
  rewrite Hg.
  assert (∀ gw1, ∃ es, SyncSessionTags (Some reg) conn gw1 = Ok (tt, gw1, es)) as Hsync.
  { intros gw1. unfold SyncSessionTags. run_gw. repeat case_match; simplify_eq; eauto. }
  set (gw1 := set_PlayerConns (<[(ParseInt s).1 := GetConnID conn]> (gw_PlayerConns (set_w w' gw))) (set_w w' gw)).
  destruct (Hsync gw1) as [es Hes]. exists gw1, es. split.
  - run_gw. fold w' gw1. by rewrite Hes.
  - unfold forward_Handle. run_gw. change (RouteFor (rq_msgID request) gw1) with (RouteFor (rq_msgID request) gw).
    rewrite Hr. change (gw_w gw1) with w'. fold conn. rewrite Hp.
    assert (resolveRouteKey w' conn route = s) as ->.
    { unfold resolveRouteKey. rewrite Hk, Hp. by rewrite decide_False by (intros [|]; done). }
    by rewrite decide_False.
Qed.
End safety.

(** ** Concrete inputs *)

(** A client connects, chats, gets an answer with a tag, and chats again. *)
Definition wit_gw_events : list GwEvent :=
  [GwAuth (λ _, Some 7) "token=x" "10.0.0.1:4"; GwConnStart 2%N 4%N;
   GwForward 0 (mkRequest 4%N MsgIdChatReq []);
   GwResponse (mkRequest 5%N MsgIdChatResp (marshal (mkEnvelope 4 [] (mlit [(TagMatchID, "m1"%string)]))));
   GwForward 0 (mkRequest 4%N MsgIdChatReq [])].

Lemma player_ids_typed_witness :
  ∃ gw' es, gw_run (W := World) wit_route wit_gw_events wit_gateway = Ok (tt, gw', es) ∧ typed gw'.
Proof.
  pose proof (player_ids_typed wit_route wit_gw_events wit_gateway) as Ht.
  destruct (gw_run wit_route wit_gw_events wit_gateway) as [[[[] gw'] es]|] eqn:Hr.
  - exists gw', es. split; [reflexivity|]. apply Ht.
    + intros c v. unfold GetProperty. simpl. intros [_ <-]%lookup_singleton_Some. by eexists.
    + repeat constructor. intros env Henv. vm_compute in Henv. injection Henv as <-. vm_compute. reflexivity.
    + repeat constructor.
  - vm_compute in Hr. discriminate Hr.
Defined.
