(* ===== verification/Chat.v ===== *)
(** * The chat server

    [apps/chatsvr/internal/router/chat_router.go]: one stateless handler. *)

From S2P Require Import Prelude GoLib Proto Zinx Broadcast.
#[local] Open Scope Z_scope.

Section chat.
Context `{Proto, Zinx W}.

(** [ChatRouter.Handle] *)
Definition chat_Handle (w : W) (now : Z) (request : Request) : list Effect :=
  match unmarshal (A := Envelope) (rq_data request) with
  | None => []
  | Some env =>
      match unmarshal (A := ChatReq) (ev_Data env) with
      | None => []
      | Some chatReq =>
          let senderPID := (ParseInt (mget (ev_ConnTags env) TagPlayerID)).1 in
          let pushData := marshal (mkChatResp senderPID (cq_Content chatReq) now
                                     (cq_TargetPlayerId chatReq)) in
          if negb (cq_TargetPlayerId chatReq =? 0) then
            ToPlayer w MsgIdChatResp (cq_TargetPlayerId chatReq) pushData ++
            ToConn MsgIdChatResp (ev_ConnId env) pushData (rq_conn request)
          else ToAll w MsgIdChatResp pushData
      end
  end.
End chat.

(** * Theorems *)

Section theorems.
Context `{ProtoLaws, ZinxLaws W}.
Implicit Types (w : W).

Lemma chat_private w now request env req :
  unmarshal (rq_data request) = Some env → unmarshal (ev_Data env) = Some req →
  cq_TargetPlayerId req ≠ 0 →
  let push := marshal (mkChatResp (ParseInt (mget (ev_ConnTags env) TagPlayerID)).1
                         (cq_Content req) now (cq_TargetPlayerId req)) in
  chat_Handle w now request =
    ToPlayer w MsgIdChatResp (cq_TargetPlayerId req) push ++
    ToConn MsgIdChatResp (ev_ConnId env) push (rq_conn request).
Proof.
  intros He Hr Ht. unfold chat_Handle. rewrite He, Hr.
  apply Z.eqb_neq in Ht. by rewrite Ht.
Qed.
End theorems.
