(* ===== verification/User.v ===== *)
(** * The user service

    [apps/user/user-service/internal/handler/user_handler.go]: users in memory.
    The handlers return pointers to the stored users, so the users are in a
    heap and a response is read through it when it is sent. *)

From S2P Require Import Prelude GoLib.
#[local] Open Scope Z_scope.

Record User := mkUser {
  u_Id : string; u_Username : string; u_Email : string; u_CreatedAt : Z; u_UpdatedAt : Z }.

#[export] Instance User_eq_dec : EqDecision User.
Proof. solve_decision. Defined.

Inductive GrpcError := InvalidArgument (msg : string) | NotFound (msg : string).

(** The store: [users] maps ids to pointers; [us_fresh] is the next address the
    allocator returns. *)
Record UserServiceServer := mkUserServer {
  us_id : string;
  us_heap : gmap N User;
  us_users : gmap string N;
  us_nextID : Z;
  us_fresh : N }.

(** [New] *)
Definition user_New (instanceID : string) : UserServiceServer :=
  mkUserServer instanceID ∅ ∅ 0 0.

(** [Ping] *)
Definition user_Ping (s : UserServiceServer) : string * string :=
  ("pong"%string, "user-service/" +:+ us_id s).

Definition set_user (s : UserServiceServer) (p : N) (u : User) : UserServiceServer :=
  mkUserServer (us_id s) (<[p := u]> (us_heap s)) (us_users s) (us_nextID s) (us_fresh s).

Section user.
Implicit Types (s : UserServiceServer).

Definition CreateUser (now : Z) (username email : string) s :
    UserServiceServer * (N + GrpcError) :=
  if decide (username = ""%string) then (s, inr (InvalidArgument "username is required"))
  else if decide (email = ""%string) then (s, inr (InvalidArgument "email is required"))
  else
    let next := int64 (us_nextID s + 1) in
    let id := FormatInt next in
    let u := mkUser id username email now now in
    let p := us_fresh s in
    (mkUserServer (us_id s) (<[p := u]> (us_heap s)) (<[id := p]> (us_users s)) next (p + 1),
     inl p).

Definition GetUser (id : string) s : N + GrpcError :=
  match us_users s !! id with
  | None => inr (NotFound ("user " +:+ id +:+ " not found"))
  | Some p => inl p
  end.

Definition UpdateUser (now : Z) (id username email : string) s :
    UserServiceServer * (N + GrpcError) :=
  match us_users s !! id with
  | None => (s, inr (NotFound ("user " +:+ id +:+ " not found")))
  | Some p =>
      match us_heap s !! p with
      | None => (s, inl p)
      | Some u =>
          (set_user s p (mkUser (u_Id u)
             (if decide (username ≠ ""%string) then username else u_Username u)
             (if decide (email ≠ ""%string) then email else u_Email u)
             (u_CreatedAt u) now), inl p)
      end
  end.

Definition DeleteUser (id : string) s : UserServiceServer * bool :=
  (mkUserServer (us_id s) (us_heap s) (delete id (us_users s)) (us_nextID s) (us_fresh s), true).

(** The loop of [ListUsers] over the remaining keys. *)
Fixpoint list_loop (users : gmap string N) (keys : list string) (room : nat) : list N :=
  match keys, room with
  | key :: keys, S room => default 0%N (users !! key) :: list_loop users keys room
  | _, _ => []
  end.

(** [ListUsers], with the keys in the order [keys] of the map iteration: the
    users of the page and the next token.  [PageSize] is an [int32]. *)
Definition ListUsers (keys : list string) (pageSize : Z) (pageToken : string) s :
    list N * string :=
  let pageSize := if (pageSize <=? 0) || (100 <? pageSize) then 10 else pageSize in
  let start := if decide (pageToken ≠ ""%string) then String.length pageToken else 0%nat in
  let users := list_loop (us_users s) (drop start keys) (Z.to_nat pageSize) in
  (users, if (start + length users <? length keys)%nat
          then FormatInt (Z.of_nat (start + length users)) else ""%string).
End user.

(** * Theorems *)

(** Every user has its own address below [us_fresh] and its id as a key; ids are
    numbers already given out. *)
Record user_ok (s : UserServiceServer) : Prop := {
  uo_ptr id p : us_users s !! id = Some p →
    (p < us_fresh s)%N ∧ ∃ u, us_heap s !! p = Some u ∧ u_Id u = id;
  uo_inj id id' p : us_users s !! id = Some p → us_users s !! id' = Some p → id = id';
  uo_id id p : us_users s !! id = Some p → ∃ n, 0 < n ≤ us_nextID s ∧ id = FormatInt n;
  uo_next : 0 ≤ us_nextID s }.

(** What a client that reads the response sees. *)
Definition read_user (s : UserServiceServer) (id : string) : option User :=
  us_users s !! id ≫= λ p, us_heap s !! p.

Lemma user_New_ok instanceID : user_ok (user_New instanceID).
Proof. split; simpl; done. Qed.

Lemma CreateUser_ok now username email s :
  user_ok s → us_nextID s < max_int64 → user_ok (CreateUser now username email s).1.
Proof.
  intros [Hptr Hinj Hid Hnext] Hmax. unfold CreateUser. repeat case_decide; [by split..|].
  rewrite int64_id by (unfold_ints; lia). cbn [fst].
  assert (∀ id p, us_users s !! id = Some p → id ≠ FormatInt (us_nextID s + 1)) as Hfresh.
  { intros id p Hp ->. destruct (Hid _ _ Hp) as (n & Hn & Heq).
    apply FormatInt_inj in Heq; unfold_ints; lia. }
  split; cbn [us_users us_heap us_nextID us_fresh].
  - intros id p. rewrite lookup_insert. case_decide as Heq.
    + intros [= <-]. split; [lia|]. rewrite lookup_insert_eq. by eexists.
    + intros Hp. destruct (Hptr _ _ Hp) as [Hlt Hu]. split; [lia|].
      rewrite lookup_insert_ne by lia. done.
  - intros id id' p. rewrite !lookup_insert. repeat case_decide; [congruence| | |apply Hinj].
    + intros [= <-] Hp. destruct (Hptr _ _ Hp). lia.
    + intros Hp [= <-]. destruct (Hptr _ _ Hp). lia.
  - intros id p. rewrite lookup_insert. case_decide as Heq.
    + intros _. exists (us_nextID s + 1). split; [lia|done].
    + intros Hp. destruct (Hid _ _ Hp) as (n & ? & ->). exists n. split; [lia|done].
  - lia.
Qed.

Lemma UpdateUser_ok now id username email s :
  user_ok s → user_ok (UpdateUser now id username email s).1.
Proof.
  intros Hok. pose proof Hok as [Hptr Hinj Hid Hnext]. unfold UpdateUser.
  destruct (us_users s !! id) as [p|] eqn:Hp; [|done].
  destruct (us_heap s !! p) as [u|] eqn:Hu; [|done].
  split; cbn [fst us_users us_heap us_nextID us_fresh set_user]; [|done..].
  intros id' p' Hp'. destruct (Hptr _ _ Hp') as [Hlt (u' & Hu' & Hid')]. split; [done|].
  rewrite lookup_insert. case_decide as Heq; [|eauto]. subst p'.
  rewrite Hu' in Hu. injection Hu as ->. by eexists.
Qed.

Lemma DeleteUser_ok id s : user_ok s → user_ok (DeleteUser id s).1.
Proof.
  intros [Hptr Hinj Hid Hnext]. split; cbn [fst us_users us_heap us_nextID us_fresh DeleteUser]; [..|done].
  - intros id' p [_ Hp]%lookup_delete_Some. by apply Hptr.
  - intros id1 id2 p [_ H1]%lookup_delete_Some [_ H2]%lookup_delete_Some. by eapply Hinj.
  - intros id' p [_ Hp]%lookup_delete_Some. by eapply Hid.
Qed.

(** One request of a client. *)
Inductive user_step : UserServiceServer → UserServiceServer → Prop :=
  | step_create now username email s :
      us_nextID s < max_int64 → user_step s (CreateUser now username email s).1
  | step_update now id username email s : user_step s (UpdateUser now id username email s).1
  | step_delete id s : user_step s (DeleteUser id s).1.

Lemma user_step_ok s s' : user_step s s' → user_ok s → user_ok s'.
Proof. intros []; eauto using CreateUser_ok, UpdateUser_ok, DeleteUser_ok. Qed.

Lemma user_reachable_ok instanceID s : rtc user_step (user_New instanceID) s → user_ok s.
Proof.
  intros Hrun. pose proof (user_New_ok instanceID) as Hinit.
  induction Hrun; eauto using user_step_ok.
Qed.

(** What creating a user adds, and that it changes nothing else. *)
Lemma CreateUser_read now username email s :
  user_ok s → us_nextID s < max_int64 → username ≠ ""%string → email ≠ ""%string →
  let new := FormatInt (us_nextID s + 1) in
  CreateUser now username email s =
    (mkUserServer (us_id s) (<[us_fresh s := mkUser new username email now now]> (us_heap s))
       (<[new := us_fresh s]> (us_users s)) (us_nextID s + 1) (us_fresh s + 1), inl (us_fresh s)) ∧
  us_users s !! new = None ∧
  read_user (CreateUser now username email s).1 new = Some (mkUser new username email now now) ∧
  ∀ id, id ≠ new → read_user (CreateUser now username email s).1 id = read_user s id.
Proof.
  intros [Hptr Hinj Hid Hnext] Hmax Hu He. unfold CreateUser. rewrite !decide_False by done.
  rewrite int64_id by (unfold_ints; lia). unfold read_user. cbn [us_users us_heap fst].
  split_and!; [done|..].
  - destruct (us_users s !! _) as [p|] eqn:Hp; [|done].
    exfalso. destruct (Hid _ _ Hp) as (n & Hn & Heq). apply FormatInt_inj in Heq; unfold_ints; lia.
  - rewrite lookup_insert_eq. simpl. by rewrite lookup_insert_eq.
  - intros id Hne. rewrite lookup_insert_ne by done.
    destruct (us_users s !! id) as [p|] eqn:Hp; [|done]. simpl.
    destruct (Hptr _ _ Hp). by rewrite lookup_insert_ne by lia.
Qed.

(** C32: In every reachable state of the user service, a created user gets an id
    nobody has, is found under it with the data of the request, and creating,
    updating or deleting a user does not change what is read of any other. *)
Theorem user_store_crud instanceID s now username email id :
  rtc user_step (user_New instanceID) s →
  us_nextID s < max_int64 → username ≠ ""%string → email ≠ ""%string →
  let '(s', r) := CreateUser now username email s in
  let new := FormatInt (us_nextID s + 1) in
  us_users s !! new = None ∧
  read_user s' new = Some (mkUser new username email now now) ∧
  (id ≠ new → read_user s' id = read_user s id) ∧
  (∀ other now' n e, other ≠ id → read_user (UpdateUser now' id n e s).1 other = read_user s other) ∧
  (∀ other, other ≠ id → read_user (DeleteUser id s).1 other = read_user s other) ∧
  read_user (DeleteUser id s).1 id = None.
Proof.
  intros Hrun Hmax Hu He. pose proof (user_reachable_ok _ _ Hrun) as Hok.
  destruct (CreateUser_read now username email s Hok Hmax Hu He) as (_ & Hfree & Hnew & Hold).
  destruct (CreateUser now username email s) as [s' r]. destruct Hok as [Hptr Hinj Hid Hnext].
  unfold read_user. cbn [us_users us_heap DeleteUser fst]. split_and!; [done|done|by apply Hold| | |].
  - intros other now' n e Hne. unfold UpdateUser.
    destruct (us_users s !! id) as [p|] eqn:Hp; [|done].
    destruct (us_heap s !! p) as [u|]; [|done]. cbn [fst set_user us_users us_heap].
    destruct (us_users s !! other) as [q|] eqn:Hq; [|done]. simpl.
    rewrite lookup_insert_ne; [done|]. intros ->. apply Hne. by eapply Hinj.
  - intros other Hne. by rewrite lookup_delete_ne.
  - by rewrite lookup_delete_eq.
Qed.

Lemma list_loop_length users keys room :
  length (list_loop users keys room) = Nat.min (length keys) room.
Proof. revert room. induction keys as [|k keys IH]; intros [|room]; simpl; auto. Qed.

(** A page token is the decimal offset of the next page, but the service uses
    the length of the token as the offset: with more than twelve users and the
    default page size, the second page starts at the third user instead of the eleventh,
    and from then on every page repeats the same users and the same token, so
    that the listing never ends. *)
Theorem list_users_never_ends keys s :
  (12 < length keys)%nat →
  let page1 := ListUsers keys 0 "" s in
  let page2 := ListUsers keys 0 page1.2 s in
  page1 = (list_loop (us_users s) keys 10, "10"%string) ∧
  page2 = (list_loop (us_users s) (drop 2 keys) 10, "12"%string) ∧
  ListUsers keys 0 page2.2 s = page2.
Proof.
  intros Hlen. cbn zeta.
  assert (ListUsers keys 0 "" s = (list_loop (us_users s) keys 10, "10"%string)) as H1.
  { unfold ListUsers. change (Z.to_nat _) with 10%nat. rewrite decide_False by tauto.
    rewrite drop_0, list_loop_length, Nat.min_r by lia.
    destruct (Nat.ltb_spec (0 + 10) (length keys)); [done|lia]. }
  assert (∀ t, String.length t = 2%nat → t ≠ ""%string →
    ListUsers keys 0 t s = (list_loop (us_users s) (drop 2 keys) 10, "12"%string)) as H2.
  { intros t Ht Hne. unfold ListUsers. change (Z.to_nat _) with 10%nat.
    rewrite decide_True, Ht by done. rewrite list_loop_length, length_drop, Nat.min_r by lia.
    destruct (Nat.ltb_spec (2 + 10) (length keys)); [done|lia]. }
  rewrite H1. cbn [snd]. rewrite H2 by done. cbn [snd]. by rewrite H2.
Qed.

(** ** Concrete inputs *)

Lemma user_store_crud_witness :
  let '(s', r) := CreateUser 5 "bob" "b@x" (user_New "u1") in
  read_user s' "1" = Some (mkUser "1" "bob" "b@x" 5 5).
Proof.
  pose proof (user_store_crud "u1" (user_New "u1") 5 "bob" "b@x" "9" (rtc_refl _ _)
    ltac:(reflexivity) ltac:(discriminate) ltac:(discriminate)) as Hc.
  exact (proj1 (proj2 Hc)).
Defined.

Lemma list_users_never_ends_witness :
  let keys := replicate 13 "k"%string in
  let page1 := ListUsers keys 0 "" (user_New "u1") in
  let page2 := ListUsers keys 0 page1.2 (user_New "u1") in
  ListUsers keys 0 page2.2 (user_New "u1") = page2.
Proof.
  apply (list_users_never_ends (replicate 13 "k"%string) (user_New "u1")). simpl. lia.
Defined.
