(* ===== verification/Auth.v ===== *)
(** * Player authentication

    [pkg/auth/jwt.go].  The token library is third-party code: signing and
    verifying, which depends on the time, are parameters.  The player id travels as a [float64]; what the
    conversions between [int64] and [float64] do is written out. *)

From S2P Require Import Prelude GoLib Models.
#[local] Open Scope Z_scope.

(** ** [float64] values that are integers, and conversions *)

(** Division rounding to nearest, ties to even. *)
Definition round_div (n d : Z) : Z :=
  let q := n / d in let r := n mod d in
  if 2 * r <? d then q else if d <? 2 * r then q + 1 else if Z.even q then q else q + 1.

(** [float64(z)] for an [int64]: the nearest number with 53 significant bits. *)
Definition float64 (z : Z) : Z :=
  let a := Z.abs z in
  if a <=? 2 ^ 53 then z
  else let k := 2 ^ (Z.log2 a - 52) in Z.sgn z * (round_div a k * k).

(** [int64(f)] for a [float64] with the value [n / d]: truncation; a value out of
    range gives the smallest [int64], as on amd64. *)
Definition int64_of_float (n : Z) (d : positive) : Z :=
  let t := Z.quot n (Zpos d) in if bool_decide (in_int64 t) then t else min_int64.

(** ** Tokens *)

(** A claim is a [float64], as every JSON number is decoded, or something else. *)
Inductive claim := CFloat (n : Z) (d : positive) | COther.
Abbreviation claims := (gmap string claim) (only parsing).

(** [HS256] signing, and [jwt.Parse] at a given time (in seconds) with the key
    function of [ValidateJWT], which refuses every method that is not HMAC. *)
Class Jwt := {
  SignedString : claims → string → string;
  jwt_Parse : Z → string → string → option claims;
}.

(** The claims as they are decoded again: a number that was an [int64] or an
    integral [float64] is a [float64]. *)
Definition claim_ok (c : claim) : Prop :=
  match c with CFloat n d => d = 1%positive ∧ ∃ z, in_int64 z ∧ n = float64 z | COther => True end.

(** A time that the library checks: it must be a number, and 0 is no time. *)
Definition time_ok (ok : Z → bool) (c : option claim) : bool :=
  match c with
  | None => true
  | Some (CFloat n _) => (n =? 0) || ok n
  | Some COther => false
  end.

(** [jwt.Parse] checks the times [exp] (now is before it) and [nbf] (now is not
    before it); it ignores [iat]. *)
Definition current (now : Z) (c : claims) : bool :=
  time_ok (λ e, now <? e) (c !! "exp"%string) && time_ok (λ b, b <=? now) (c !! "nbf"%string).

(** A token verifies under the secret it was signed with, and its claims are the
    signed ones, if their times allow it; otherwise it is refused. *)
Class JwtLaws `{Jwt} := parse_signed now c secret :
  map_Forall (λ _, claim_ok) c →
  jwt_Parse now (SignedString c secret) secret = if current now c then Some c else None.

Section auth.
Context `{Jwt}.

Definition GenerateJWT (now : Z) (playerID : Z) (secret : string) : string :=
  SignedString (<["playerId"%string := CFloat (float64 playerID) 1]>
                  {["iat"%string := CFloat (float64 now) 1]}) secret.

Definition float_claim (c : option claim) : option (Z * positive) :=
  match c with Some (CFloat n d) => Some (n, d) | _ => None end.

(** [ValidateJWT] at the time [now]; [None] stands for any of its errors. *)
Definition ValidateJWT (now : Z) (token secret : string) : option Z :=
  match jwt_Parse now token secret with
  | None => None
  | Some c =>
      let pid := match float_claim (c !! "playerId"%string) with
                 | Some p => Some p
                 | None => float_claim (c !! "user_id"%string)
                 end in
      match pid with
      | None => None
      | Some (n, d) => if n =? 0 then None else Some (int64_of_float n d)
      end
  end.
End auth.

(** * Theorems *)

Section theorems.
Context `{JwtLaws}.

(** A generated token never expires: it has no [exp]. *)
Lemma validate_generated issued now pid secret :
  in_int64 issued → in_int64 pid →
  ValidateJWT now (GenerateJWT issued pid secret) secret =
    if float64 pid =? 0 then None else Some (int64_of_float (float64 pid) 1).
Proof.
  intros Hi Hp. unfold ValidateJWT, GenerateJWT. rewrite parse_signed; [done|].
  apply map_Forall_insert_2; [|apply map_Forall_singleton]; simpl; eauto.
Qed.

Lemma int64_of_float_int z : in_int64 z → int64_of_float z 1 = z.
Proof.
  intros Hz. unfold int64_of_float. rewrite Z.quot_1_r. by rewrite bool_decide_true.
Qed.

Lemma validate_own issued now pid secret :
  in_int64 issued → Z.abs pid ≤ 2 ^ 53 →
  ValidateJWT now (GenerateJWT issued pid secret) secret = if pid =? 0 then None else Some pid.
Proof.
  intros Hi Hp. rewrite validate_generated by (unfold_ints; lia). unfold float64.
  destruct (Z.leb_spec (Z.abs pid) (2 ^ 53)); [|lia].
  by rewrite int64_of_float_int by (unfold_ints; lia).
Qed.

(** A token issued for a player id between 1 and 2^53 in absolute value
    authenticates exactly that player, at any time; player 0 is always refused. *)
Theorem jwt_roundtrip issued now pid secret :
  in_int64 issued → Z.abs pid ≤ 2 ^ 53 →
  ValidateJWT now (GenerateJWT issued pid secret) secret = if pid =? 0 then None else Some pid.
Proof. apply validate_own. Qed.

(** A token with an expiry time is refused from that time on. *)
Theorem jwt_expired_refused c secret exp now :
  map_Forall (λ _, claim_ok) c → c !! "exp"%string = Some (CFloat exp 1) → exp ≠ 0 → exp ≤ now →
  ValidateJWT now (SignedString c secret) secret = None.
Proof.
  intros Hc He Hne Hle. unfold ValidateJWT. rewrite parse_signed by done. unfold current. rewrite He.
  simpl. by rewrite (proj2 (Z.eqb_neq exp 0) Hne), (proj2 (Z.ltb_ge now exp) Hle).
Qed.

(** Above 2^53 two different players share a token identity: the token
    issued for player 2^53 + 1 authenticates player 2^53. *)
Theorem jwt_large_ids_collide issued now secret :
  in_int64 issued →
  ValidateJWT now (GenerateJWT issued (2 ^ 53 + 1) secret) secret = Some (2 ^ 53) ∧
  ValidateJWT now (GenerateJWT issued (2 ^ 53) secret) secret = Some (2 ^ 53).
Proof. intros Hi. rewrite !validate_generated by (unfold_ints; lia). split; reflexivity. Qed.
End theorems.

(** ** Concrete inputs *)

(** Tokens that carry the claims and the secret in the open. *)
#[export] Instance claim_eq_dec : EqDecision claim.
Proof. solve_decision. Defined.
#[export] Instance claim_countable : Countable claim.
Proof.
  refine (inj_countable' (λ c, match c with CFloat n d => Some (n, d) | COther => None end)
    (λ o, match o with Some (n, d) => CFloat n d | None => COther end) _).
  by intros [].
Defined.

#[export] Instance open_jwt : Jwt := {|
  SignedString c secret := of_bytes (bits_of (encode (c, secret)));
  jwt_Parse now token secret :=
    '(c, s) ← (of_bits (to_bytes token) ≫= decode (A := gmap string claim * string));
    if decide (s = secret) then if current now c then Some c else None else None |}.

#[export] Instance open_jwt_laws : JwtLaws.
Proof.
  intros now c secret _. unfold SignedString, jwt_Parse, open_jwt. rewrite to_of_bytes, of_bits_of.
  cbn [mbind option_bind]. rewrite decode_encode. cbn [mbind option_bind]. by rewrite decide_True.
Qed.

Lemma jwt_roundtrip_witness : ValidateJWT 9 (GenerateJWT 5 42 "secret") "secret" = Some 42.
Proof. apply (jwt_roundtrip 5 9 42 "secret"); [evaluate|lia]. Defined.

Lemma jwt_large_ids_collide_witness :
  ValidateJWT 9 (GenerateJWT 5 (2 ^ 53 + 1) "secret") "secret" = Some (2 ^ 53).
Proof. apply (jwt_large_ids_collide 5 9 "secret"). evaluate. Defined.

Lemma jwt_expired_refused_witness :
  ValidateJWT 9000 (SignedString (<["exp"%string := CFloat 5400 1]>
    {["playerId"%string := CFloat 42 1]}) "secret") "secret" = None.
Proof.
  apply (jwt_expired_refused _ "secret" 5400 9000).
  - apply map_Forall_insert_2; [|apply map_Forall_singleton]; (split; [reflexivity|]).
    + exists 5400. split; [evaluate|reflexivity].
    + exists 42. split; [evaluate|reflexivity].
  - reflexivity.
  - lia.
  - lia.
Defined.
