(* ===== verification/Discovery.v ===== *)
(** * Service discovery of the gRPC services

    [pkg/etcdutil] (registration under a lease, the resolver), [pkg/grpcserver]
    and [pkg/grpcclient].  The etcd cluster is a parameter: the class [Etcd] has
    the calls the code makes and the contents they act on, [EtcdLaws] what they
    are documented to do.  A call that fails returns [None] and the code's error
    path is taken. *)

From Stdlib Require Import Ascii.
From S2P Require Import Prelude GoLib GoStrings.
#[local] Open Scope Z_scope.

(** ** The cluster *)

(** [EKvs]: each key with its value and the lease it is attached to. *)
Class Etcd (E : Type) := {
  EKvs : E → gmap string (string * N);
  EGrant : E → Z → option (N * E);
  EPut : E → string → string → N → option E;
  EKeepAlive : E → N → bool;
  ERevoke : E → N → option E;
  EGetPrefix : E → string → option (list (string * string));
}.

(** A lease is new when it is granted, a put replaces one key, revoking a lease
    deletes its keys, a range lists the keys with the prefix. *)
Class EtcdLaws (E : Type) `{Etcd E} := {
  grant_kvs e ttl l e' : EGrant e ttl = Some (l, e') → EKvs e' = EKvs e;
  grant_fresh e ttl l e' k v : EGrant e ttl = Some (l, e') → EKvs e !! k ≠ Some (v, l);
  put_kvs e k v l e' : EPut e k v l = Some e' → EKvs e' = <[k := (v, l)]> (EKvs e);
  revoke_kvs e l e' :
    ERevoke e l = Some e' → EKvs e' = filter (λ kv, kv.2.2 ≠ l) (EKvs e);
  get_prefix e p kvs k v :
    EGetPrefix e p = Some kvs →
    (k, v) ∈ kvs ↔ is_Some (strip_prefix p k) ∧ ∃ l, EKvs e !! k = Some (v, l);
}.

Section discovery.
Context `{Etcd E}.
Implicit Types (e : E).

(** ** Registration ([register.go], [client.go]) *)

Definition ServiceKey (serviceName instanceID : string) : string :=
  "/services/" +:+ serviceName +:+ "/" +:+ instanceID.

(** [Config] with the defaults of [NewConfig]; times in nanoseconds. *)
Record EtcdConfig := mkEtcdConfig {
  ec_Endpoints : list string; ec_DialTimeout : Z; ec_TTL : Z }.
Definition NewConfig (endpoints : list string) : EtcdConfig :=
  mkEtcdConfig endpoints (5 * 1000000000) 10.

Inductive RegisterError := GrantFailed | PutFailed | KeepAliveFailed.

(** [Register] with the client's [TTL]: the lease that the returned function
    revokes, or an error.  What was done before an error stays done. *)
Definition Register (ttl : Z) (key value : string) e : E * (N + RegisterError) :=
  match EGrant e ttl with
  | None => (e, inr GrantFailed)
  | Some (lease, e) =>
      match EPut e key value lease with
      | None => (e, inr PutFailed)
      | Some e => if EKeepAlive e lease then (e, inl lease) else (e, inr KeepAliveFailed)
      end
  end.

(** The function [Register] returns: an error of [Revoke] is only logged. *)
Definition register_cancel (lease : N) e : E := default e (ERevoke e lease).

(** ** The resolver ([resolver.go]) *)

Record Address := mkAddress { ad_Addr : string; ad_ServerName : string }.

(** [r_state] is the last state handed to gRPC, [r_watching] whether the watch
    goroutine runs, [r_done] whether the channel [done] is closed. *)
Record etcdResolver := mkResolver {
  r_prefix : string; r_state : option (list Address); r_watching : bool; r_done : bool }.

(** [update]; an error of [Get] is only logged. *)
Definition resolver_update e (r : etcdResolver) : etcdResolver :=
  match EGetPrefix e (r_prefix r) with
  | None => r
  | Some kvs =>
      mkResolver (r_prefix r)
        (Some ((λ kv, mkAddress kv.2 (TrimPrefix kv.1 (r_prefix r))) <$> kvs))
        (r_watching r) (r_done r)
  end.

(** [Build] and [start], for a target with the given host and endpoint; the
    result is [None] for a target that names no service. *)
Definition Build (host endpoint : string) e : option etcdResolver :=
  let serviceName := if decide (host = ""%string) then endpoint else host in
  if decide (serviceName = ""%string) then None
  else
    let prefix := "/services/" +:+ serviceName +:+ "/" in
    let r := resolver_update e (mkResolver prefix None false false) in
    Some (mkResolver (r_prefix r) (r_state r) true (r_done r)).

(** What the [select] of [watch] receives. *)
Inductive WatchEvent := WatchClosed | WatchError | WatchChange | WatchDone.

Definition watch_step e (ev : WatchEvent) (r : etcdResolver) : etcdResolver :=
  if negb (r_watching r) then r
  else
    match ev with
    | WatchClosed | WatchDone => mkResolver (r_prefix r) (r_state r) false (r_done r)
    | WatchError => r
    | WatchChange => resolver_update e r
    end.

Definition ResolveNow e (r : etcdResolver) : etcdResolver := resolver_update e r.

(** [Close] closes [done], which panics the second time. *)
Definition resolver_Close (r : etcdResolver) : result etcdResolver :=
  if r_done r then Panic "close of closed channel"
  else Ok (mkResolver (r_prefix r) (r_state r) (r_watching r) true).

(** ** The gRPC server ([grpcserver/server.go]) *)

Record GrpcConfig := mkGrpcConfig {
  g_Name : string; g_Addr : string; g_ID : string; g_EtcdEndpoints : list string }.

(** [gs_health] is the status set for the whole server, if one was set;
    [gs_cancel] the lease behind [etcdCancel]; [gs_client] whether an etcd client
    is open. *)
Record GrpcServer := mkGrpcServer {
  gs_cfg : GrpcConfig; gs_health : option bool; gs_cancel : option N; gs_client : bool }.

Inductive GrpcServerError := ConnectEtcd | RegisterInEtcd (err : RegisterError) | ListenFailed.

(** [cfg.ID = cfg.Name + "-" + randomHex(4)] when there is none; [rnd] are the
    bytes [rand.Read] gives. *)
Definition with_id (rnd : bytes) (cfg : GrpcConfig) : GrpcConfig :=
  if decide (g_ID cfg = ""%string) then
    mkGrpcConfig (g_Name cfg) (g_Addr cfg) (g_Name cfg +:+ "-" +:+ hex rnd) (g_EtcdEndpoints cfg)
  else cfg.

(** [New]; [connect] says whether the etcd client could be created. *)
Definition grpcserver_New (rnd : bytes) (connect : bool) (cfg : GrpcConfig) e :
    E * (GrpcServer + GrpcServerError) :=
  let cfg := with_id rnd cfg in
  if (0 <? length (g_EtcdEndpoints cfg))%nat then
    if negb connect then (e, inr ConnectEtcd)
    else
      match Register (ec_TTL (NewConfig (g_EtcdEndpoints cfg)))
              (ServiceKey (g_Name cfg) (g_ID cfg)) (g_Addr cfg) e with
      | (e, inr err) => (e, inr (RegisterInEtcd err))
      | (e, inl lease) => (e, inl (mkGrpcServer cfg None (Some lease) true))
      end
  else (e, inl (mkGrpcServer cfg None None false)).

(** [Serve] up to [GRPC.Serve], which blocks. *)
Definition Serve (listen : bool) (s : GrpcServer) : GrpcServer + GrpcServerError :=
  if listen then inl (mkGrpcServer (gs_cfg s) (Some true) (gs_cancel s) (gs_client s))
  else inr ListenFailed.

Definition GracefulStop (s : GrpcServer) e : GrpcServer * E :=
  (mkGrpcServer (gs_cfg s) (Some false) (gs_cancel s) false,
   match gs_cancel s with Some lease => register_cancel lease e | None => e end).

(** [ID], and [WaitForShutdown] once a signal has arrived. *)
Definition server_ID (s : GrpcServer) : string := g_ID (gs_cfg s).
Definition WaitForShutdown (s : GrpcServer) e : GrpcServer * E := GracefulStop s e.

(** The recovery interceptor: a handler that panics is answered with the status
    [Internal] and this text. *)
Definition recovered {A} (r : result A) : A + string :=
  match r with Ok a => inl a | Panic _ => inr "internal error"%string end.

(** ** The gRPC client ([grpcclient/client.go]) *)

Definition Scheme : string := "etcd".

(** The target [NewConn] dials, and whether it registers the resolver first;
    [None] when the etcd client cannot be created. *)
Definition NewConn_target (serviceName : string) (endpoints : list string) (directAddr : string)
    (connect : bool) : option (string * bool) :=
  if (0 <? length endpoints)%nat then
    if connect then Some (Scheme +:+ ":///" +:+ serviceName, true) else None
  else Some (directAddr, false).
End discovery.

(** * Theorems *)

(** A name without a slash. *)
Fixpoint no_slash (s : string) : bool :=
  match s with
  | EmptyString => true
  | String a s => negb (bool_decide (a = "/"%char)) && no_slash s
  end.

Lemma no_slash_split n i n' i' :
  no_slash n = true → no_slash n' = true →
  n +:+ String "/" i = n' +:+ String "/" i' → n = n' ∧ i = i'.
Proof.
  revert n'. induction n as [|a n IH]; intros [|b n']; simpl.
  - by intros _ _ [= ->].
  - intros _ Hb [= <- _]. by rewrite bool_decide_true in Hb.
  - intros Ha _ [= -> _]. by rewrite bool_decide_true in Ha.
  - intros [_ Ha]%andb_true_iff [_ Hb]%andb_true_iff [= -> Heq].
    by destruct (IH n' Ha Hb Heq) as [-> ->].
Qed.

Lemma ServiceKey_prefix n i :
  strip_prefix ("/services/" +:+ n +:+ "/") (ServiceKey n i) = Some i.
Proof.
  apply strip_prefix_Some. unfold ServiceKey. by rewrite <-!string_app_assoc.
Qed.

Lemma ServiceKey_inj n i i' : ServiceKey n i = ServiceKey n i' → i = i'.
Proof.
  unfold ServiceKey. intros Heq%string_app_inv%string_app_inv%string_app_inv. done.
Qed.

Section theorems.
Context `{EtcdLaws E}.
Implicit Types (e : E).

(** Instance [i] of service [n] is registered with address [a]. *)
Definition registered e (n i a : string) : Prop :=
  ∃ l, EKvs e !! ServiceKey n i = Some (a, l).

(** A successful fetch gives exactly the registered instances. *)
Lemma resolver_update_exact e n r addrs i a :
  r_prefix r = "/services/" +:+ n +:+ "/" → EGetPrefix e (r_prefix r) ≠ None →
  r_state (resolver_update e r) = Some addrs →
  mkAddress a i ∈ addrs ↔ registered e n i a.
Proof.
  intros Hp Hget. unfold resolver_update. destruct (EGetPrefix e (r_prefix r)) as [kvs|] eqn:Hk;
    [|done]. simpl. intros [= <-]. rewrite list_elem_of_fmap. split.
  - intros ([k v] & [= -> ->] & Hin). apply (get_prefix _ _ _ _ _ Hk) in Hin as [[j Hj] Hl].
    unfold TrimPrefix, registered. simpl. rewrite Hj. simpl.
    rewrite Hp in Hj. apply strip_prefix_Some in Hj. rewrite <-!string_app_assoc in Hj.
    unfold ServiceKey. by rewrite <-Hj.
  - intros Hreg. exists (ServiceKey n i, a). simpl. split.
    + unfold TrimPrefix. by rewrite Hp, ServiceKey_prefix.
    + apply (get_prefix _ _ _ _ _ Hk). rewrite Hp, ServiceKey_prefix. eauto.
Qed.

Lemma Register_kvs ttl key value e e' lease :
  Register ttl key value e = (e', inl lease) →
  EKvs e' = <[key := (value, lease)]> (EKvs e) ∧ ∀ k v, EKvs e !! k ≠ Some (v, lease).
Proof.
  unfold Register. destruct (EGrant e ttl) as [[l e1]|] eqn:Hg; [|done].
  destruct (EPut e1 key value l) as [e2|] eqn:Hp; [|done].
  destruct (EKeepAlive e2 l); [|done]. intros [= <- <-].
  rewrite (put_kvs _ _ _ _ _ Hp), (grant_kvs _ _ _ _ Hg). split; [done|].
  intros k v. by eapply grant_fresh.
Qed.

Lemma registered_insert e e' n i a l n' i' a' :
  EKvs e' = <[ServiceKey n i := (a, l)]> (EKvs e) →
  registered e' n' i' a' ↔
    if decide (ServiceKey n' i' = ServiceKey n i) then a' = a else registered e n' i' a'.
Proof.
  intros He. unfold registered. rewrite He. case_decide as Hd.
  - rewrite Hd, lookup_insert_eq. naive_solver.
  - by rewrite lookup_insert_ne by done.
Qed.

(** What a client that resolves service [n] now is given. *)
Definition resolves e (n : string) (addrs : list Address) : Prop :=
  ∃ r, Build "" n e = Some r ∧ r_state r = Some addrs.

Lemma resolves_exact e n addrs i a :
  resolves e n addrs → mkAddress a i ∈ addrs ↔ registered e n i a.
Proof.
  intros (r & Hb & Hst). unfold Build in Hb.
  destruct (decide (""%string = ""%string)) as [_|]; [|done].
  case_decide; [done|]. injection Hb as <-. simpl in Hst.
  eapply resolver_update_exact; [| |exact Hst]; [done|]. simpl. intros Hn.
  unfold resolver_update in Hst. simpl in Hst. by rewrite Hn in Hst.
Qed.

Lemma grpcserver_New_kvs rnd cfg e e' srv :
  g_EtcdEndpoints cfg ≠ [] → grpcserver_New rnd true cfg e = (e', inl srv) →
  ∃ lease, gs_cancel srv = Some lease ∧ (∀ k v, EKvs e !! k ≠ Some (v, lease)) ∧
    EKvs e' = <[ServiceKey (g_Name cfg) (g_ID (gs_cfg srv)) := (g_Addr cfg, lease)]> (EKvs e).
Proof.
  intros Hne. unfold grpcserver_New.
  assert (g_EtcdEndpoints (with_id rnd cfg) = g_EtcdEndpoints cfg ∧
    g_Name (with_id rnd cfg) = g_Name cfg ∧ g_Addr (with_id rnd cfg) = g_Addr cfg)
    as (-> & -> & ->) by (unfold with_id; by case_decide).
  destruct (g_EtcdEndpoints cfg); [done|]. simpl.
  destruct (Register _ _ _ e) as [e1 [lease|err]] eqn:HR; [|done]. intros [= <- <-].
  apply Register_kvs in HR as [Hk Hf]. by exists lease.
Qed.

(** C27: Discovery follows registration.  Once a gRPC server has registered, a
    client that resolves its service is given that instance with its address and
    every other registered instance, and nothing else; once the server has
    stopped and its lease is revoked, the same without that instance.  Services
    with other names are not affected, as long as names contain no slash. *)
Theorem discovery_follows_registration rnd cfg e e' srv :
  g_EtcdEndpoints cfg ≠ [] → grpcserver_New rnd true cfg e = (e', inl srv) →
  let n := g_Name cfg in let id := g_ID (gs_cfg srv) in
  (∀ addrs i a, resolves e' n addrs →
     mkAddress a i ∈ addrs ↔ if decide (i = id) then a = g_Addr cfg else registered e n i a) ∧
  (∀ lease addrs i a, gs_cancel srv = Some lease → is_Some (ERevoke e' lease) →
     resolves (GracefulStop srv e').2 n addrs →
     mkAddress a i ∈ addrs ↔ i ≠ id ∧ registered e n i a) ∧
  (∀ n' addrs i a, no_slash n = true → no_slash n' = true → n' ≠ n → resolves e' n' addrs →
     mkAddress a i ∈ addrs ↔ registered e n' i a).
Proof.
  intros Hne HN n id. destruct (grpcserver_New_kvs _ _ _ _ _ Hne HN) as (lease & Hc & Hfr & Hk).
  fold n id in Hk. split_and!.
  - intros addrs i a Hr. rewrite (resolves_exact _ _ _ _ _ Hr), (registered_insert _ _ _ _ _ _ _ _ _ Hk).
    destruct (decide (i = id)) as [->|Hi]; [by rewrite decide_True|].
    by rewrite decide_False by (intros ?%ServiceKey_inj; done).
  - intros l addrs i a Hl [e2 He2] Hr. rewrite (resolves_exact _ _ _ _ _ Hr).
    unfold GracefulStop, register_cancel, registered. simpl. rewrite Hl, He2. simpl.
    rewrite (revoke_kvs _ _ _ He2), Hk. rewrite Hc in Hl. injection Hl as <-.
    setoid_rewrite map_lookup_filter_Some. simpl. split.
    + intros (l & [[Heq [= <- <-]]|[Hne' Hl]]%lookup_insert_Some & Hll); [done|].
      split; [congruence|eauto].
    + intros [Hi [l Hl]]. exists l. split.
      * rewrite lookup_insert_ne by (intros ?%ServiceKey_inj; congruence). done.
      * intros ->. by apply (Hfr _ _ Hl).
  - intros n' addrs i a Hs Hs' Hn Hr.
    rewrite (resolves_exact _ _ _ _ _ Hr), (registered_insert _ _ _ _ _ _ _ _ _ Hk).
    rewrite decide_False; [done|]. unfold ServiceKey. intros Heq%string_app_inv.
    destruct (no_slash_split n' i n id Hs' Hs Heq). done.
Qed.

(** When the keep-alive cannot be started the key has been written already: the
    caller gets an error, and the instance stays visible until the lease ends. *)
Theorem failed_keepalive_leaves_key ttl key value e lease e1 e2 :
  EGrant e ttl = Some (lease, e1) → EPut e1 key value lease = Some e2 →
  EKeepAlive e2 lease = false →
  Register ttl key value e = (e2, inr KeepAliveFailed) ∧ EKvs e2 !! key = Some (value, lease).
Proof.
  intros Hg Hp Ha. unfold Register. rewrite Hg, Hp, Ha. split; [done|].
  rewrite (put_kvs _ _ _ _ _ Hp). apply lookup_insert_eq.
Qed.
End theorems.

(** ** A cluster in memory *)

Record MemEtcd := mkMemEtcd { me_kvs : gmap string (string * N); me_next : N }.

(** Every lease in use is below [me_next]; a cluster that breaks this does not
    grant leases. *)
Definition leases_below (n : N) (m : gmap string (string * N)) : bool :=
  forallb (λ kv, kv.2.2 <? n)%N (map_to_list m).

#[export] Instance mem_etcd : Etcd MemEtcd := {|
  EKvs := me_kvs;
  EGrant e _ := if leases_below (me_next e) (me_kvs e)
                then Some (me_next e, mkMemEtcd (me_kvs e) (me_next e + 1)) else None;
  EPut e k v l := Some (mkMemEtcd (<[k := (v, l)]> (me_kvs e)) (me_next e));
  EKeepAlive _ _ := true;
  ERevoke e l := Some (mkMemEtcd (filter (λ kv, kv.2.2 ≠ l) (me_kvs e)) (me_next e));
  EGetPrefix e p := Some (omap (λ kv, if strip_prefix p kv.1 is Some _ then Some (kv.1, kv.2.1)
                                      else None) (map_to_list (me_kvs e)));
|}.

#[export] Instance mem_etcd_laws : EtcdLaws MemEtcd.
Proof.
  split; simpl.
  - intros e ttl l e'. case_match; [|done]. by intros [= <- <-].
  - intros e ttl l e' k v. case_match eqn:Hb; [|done]. intros [= <- <-] Hk.
    apply elem_of_map_to_list, list_elem_of_In in Hk. unfold leases_below in Hb.
    rewrite forallb_forall in Hb. apply Hb in Hk. simpl in Hk. apply N.ltb_lt in Hk. lia.
  - intros e k v l e'. by intros [= <-].
  - intros e l e'. by intros [= <-].
  - intros e p kvs k v [= <-]. rewrite list_elem_of_omap. split.
    + intros ([k' [v' l]] & Hin & Hs). simpl in Hs.
      destruct (strip_prefix p k') eqn:Hp; [|done]. injection Hs as <- <-.
      apply elem_of_map_to_list in Hin. eauto.
    + intros [[r Hr] [l Hl]]. exists (k, (v, l)). split; [by apply elem_of_map_to_list|].
      simpl. by rewrite Hr.
Qed.

Definition wit_grpc_cfg : GrpcConfig :=
  mkGrpcConfig "user-service" ":50051" "" ["127.0.0.1:2379"%string].
Definition wit_rnd : bytes := [Byte.x01; Byte.xab; Byte.x00; Byte.xff].

Lemma discovery_follows_registration_witness :
  ∃ e' srv, grpcserver_New wit_rnd true wit_grpc_cfg (mkMemEtcd ∅ 0) = (e', inl srv) ∧
    g_ID (gs_cfg srv) = "user-service-01ab00ff"%string ∧
    ∃ addrs, resolves e' "user-service" addrs ∧
      mkAddress ":50051" "user-service-01ab00ff" ∈ addrs.
Proof.
  do 2 eexists. split; [reflexivity|]. split; [reflexivity|].
  eexists. split; [eexists; split; reflexivity|].
  eapply (proj1 (discovery_follows_registration wit_rnd wit_grpc_cfg (mkMemEtcd ∅ 0) _ _ ltac:(discriminate) eq_refl)).
  - eexists; split; reflexivity.
  - reflexivity.
Defined.
