(* ===== verification/UserApps.v ===== *)
(** * The programs of the user domain

    [apps/user/user-service/cmd] and [apps/user/user-job/cmd]: the configuration
    with its defaults and overrides, the gRPC server that is registered and
    serves, and the job that creates users from messages and pings the service.
    The YAML and JSON decoders, NATS and the transport of gRPC are third-party
    code and are arguments; [log.Fatalf] ends the process.  There may be several
    instances of the service, each with its own users and its own ids: the
    balancer of the job's connection (round_robin) chooses one for each call. *)

From Stdlib Require Import Ascii.
From S2P Require Import Prelude GoLib GoStrings Discovery User.
#[local] Open Scope Z_scope.

(** ** The service *)

(** [serviceConfig] with its [etcdConfig]. *)
Record serviceConfig := mkServiceConfig { sc_Addr : string; sc_Endpoints : list string }.

Inductive Fatal :=
  | LoadConfig
  | CreateServer (err : GrpcServerError)
  | ServeFailed (err : GrpcServerError)
  | ConnectUserService
  | ConnectNATS.

Section service.
(** [yaml.Unmarshal(data, cfg)] on a configuration that has the defaults. *)
Context (yaml : bytes → serviceConfig → option serviceConfig).

Definition loadConfig (file : option bytes) : option serviceConfig :=
  match file with
  | None => None
  | Some data => yaml data (mkServiceConfig ":50051" [])
  end.

(** The overrides of the environment; an unset variable is the empty string. *)
Definition with_env (getenv : string → string) (cfg : serviceConfig) : serviceConfig :=
  let addr := getenv "LISTEN_ADDR"%string in
  let endpoints := getenv "ETCD_ENDPOINTS"%string in
  mkServiceConfig
    (if decide (addr ≠ ""%string) then addr else sc_Addr cfg)
    (if decide (endpoints ≠ ""%string) then Split ","%char endpoints else sc_Endpoints cfg).

Context `{Etcd E}.
Implicit Types (e : E).

(** [main] up to the point where it serves: the server and the handler with its
    instance id.  [listen] says whether the address can be listened on. *)
Definition user_service_main (getenv : string → string) (file : option bytes) (rnd : bytes)
    (connect listen : bool) e : E * (GrpcServer * UserServiceServer + Fatal) :=
  match loadConfig file with
  | None => (e, inr LoadConfig)
  | Some cfg =>
      let cfg := with_env getenv cfg in
      match grpcserver_New rnd connect
              (mkGrpcConfig "user-service" (sc_Addr cfg) "" (sc_Endpoints cfg)) e with
      | (e, inr err) => (e, inr (CreateServer err))
      | (e, inl srv) =>
          let handler := user_New (server_ID srv) in
          match Serve listen srv with
          | inr err => (e, inr (ServeFailed err))
          | inl srv => (e, inl (srv, handler))
          end
      end
  end.
End service.

(** ** The job *)

(** [jobConfig] *)
Record jobConfig := mkJobConfig { jc_Endpoints : list string; jc_NATS : string; jc_Target : string }.

(** [nats.DefaultURL] *)
Definition DefaultURL : string := "nats://127.0.0.1:4222".

(** The target of the gRPC connection, whether it is resolved through etcd, and
    the NATS server the job listens to. *)
Record Job := mkJob { jb_target : string; jb_resolved : bool; jb_nats : string }.

Section job.
Context (yaml : bytes → jobConfig → option jobConfig).

Definition loadJobConfig (file : option bytes) : option jobConfig :=
  match file with
  | None => None
  | Some data => yaml data (mkJobConfig [] DefaultURL "localhost:50051")
  end.

(** [main] up to the point where it waits: [etcd], [dial] and [nats] say whether
    the etcd client, the gRPC client and the NATS connection can be made. *)
Definition user_job_main (file : option bytes) (etcd dial nats : bool) : Job + Fatal :=
  match loadJobConfig file with
  | None => inr LoadConfig
  | Some cfg =>
      match NewConn_target "user-service" (jc_Endpoints cfg) (jc_Target cfg) etcd with
      | None => inr ConnectUserService
      | Some (target, resolved) =>
          if negb dial then inr ConnectUserService
          else if negb nats then inr ConnectNATS
          else inl (mkJob target resolved (jc_NATS cfg))
      end
  end.
End job.

(** What becomes of a call of the service: it never arrives, it is carried out
    and the answer lost, or it is answered. *)
Inductive Rpc := NotSent | AnswerLost | Answered.

Section messages.
(** [json.Unmarshal] of a [CreateUserRequest]: the name and the address. *)
Context (json : bytes → option (string * string)).
Implicit Types (s : UserServiceServer).

(** One call of [CreateUser] on the instance [s]: the instance afterwards and the
    id of the answer, if there is one. *)
Definition call_create (now : Z) (rpc : Rpc) (username email : string) s :
    UserServiceServer * option string :=
  match rpc with
  | NotSent => (s, None)
  | _ =>
      let '(s, r) := CreateUser now username email s in
      match rpc, r with
      | Answered, inl p => (s, u_Id <$> us_heap s !! p)
      | _, _ => (s, None)
      end
  end.

(** The handler of [user.create] together with the instances of the service; the
    call goes to instance [k]: the instances afterwards and the id it logs, if it
    gets one. *)
Definition on_user_create (now : Z) (k : nat) (rpc : Rpc) (msg : bytes)
    (services : list UserServiceServer) : list UserServiceServer * option string :=
  match json msg with
  | None => (services, None)
  | Some (username, email) =>
      match services !! k with
      | None => (services, None)
      | Some s =>
          let '(s, id) := call_create now rpc username email s in
          (<[k := s]> services, id)
      end
  end.

(** One tick of the cron loop: what it logs, the server id of the instance that
    answers. *)
Definition cron_tick (rpc : Rpc) s : option string :=
  match rpc with Answered => Some (user_Ping s).2 | _ => None end.

(** The messages of a run, in the order NATS delivers them: a subscription calls
    its handler for one message at a time. *)
Fixpoint consume (msgs : list (Z * nat * Rpc * bytes)) (services : list UserServiceServer) :
    list UserServiceServer * list (option string) :=
  match msgs with
  | [] => (services, [])
  | (now, k, rpc, msg) :: msgs =>
      let '(services, id) := on_user_create now k rpc msg services in
      let '(services, ids) := consume msgs services in
      (services, id :: ids)
  end.
End messages.

(** * Theorems *)

Section theorems.
Context (yaml : bytes → serviceConfig → option serviceConfig) `{EtcdLaws E}.
Implicit Types (e : E).

(** A running user service can be found.  When its main function serves with
    etcd endpoints, from the file or from the environment, the instance is
    registered under its id with the address it was told to listen on
    ([LISTEN_ADDR] first, then the file, then [:50051]), the handler has the same
    id, and a client that resolves [user-service] is given it; stopping it
    removes it. *)
Theorem user_service_discoverable getenv file rnd listen e e' srv handler :
  user_service_main yaml getenv file rnd true listen e = (e', inl (srv, handler)) →
  ∃ cfg, loadConfig yaml file = Some cfg ∧
    let cfg := with_env getenv cfg in
    us_id handler = g_ID (gs_cfg srv) ∧ gs_health srv = Some true ∧ listen = true ∧
    (sc_Endpoints cfg ≠ [] →
      registered e' "user-service" (us_id handler) (sc_Addr cfg) ∧
      (∀ addrs, resolves e' "user-service" addrs →
         mkAddress (sc_Addr cfg) (us_id handler) ∈ addrs) ∧
      ∀ lease a, gs_cancel srv = Some lease → is_Some (ERevoke e' lease) →
        ¬ registered (GracefulStop srv e').2 "user-service" (us_id handler) a) ∧
    (sc_Endpoints cfg = [] → e' = e).
Proof.
  unfold user_service_main. destruct (loadConfig yaml file) as [cfg|]; [|done].
  cbv zeta. set (cfg' := with_env getenv cfg).
  set (g := mkGrpcConfig "user-service" (sc_Addr cfg') "" (sc_Endpoints cfg')).
  destruct (grpcserver_New rnd true g e) as [e1 [srv1|err]] eqn:HN; [|done].
  destruct listen; [|done]. cbn [Serve]. intros [= <- <- <-]. exists cfg. fold cfg'.
  split_and!; [done..| |].
  - intros Hne. destruct (grpcserver_New_kvs rnd g e e1 srv1 Hne HN) as (lease & Hc & Hfr & Hk).
    cbn [g_Name g_Addr g] in Hk. cbn [gs_cfg user_New us_id gs_cancel].
    assert (registered e1 "user-service" (g_ID (gs_cfg srv1)) (sc_Addr cfg')) as Hreg
      by (exists lease; rewrite Hk; apply lookup_insert_eq).
    split_and!; [done| |].
    + intros addrs Hr. by apply (resolves_exact _ _ _ _ _ Hr).
    + intros l a Hl [e2 He2] [l' Hl']. unfold GracefulStop, register_cancel in Hl'. simpl in Hl'.
      rewrite Hl, He2 in Hl'. simpl in Hl'. rewrite (revoke_kvs _ _ _ He2), Hk in Hl'.
      apply map_lookup_filter_Some in Hl' as [Hx Hne']. rewrite lookup_insert_eq in Hx.
      by simplify_eq.
  - intros Hnil. unfold grpcserver_New in HN.
    assert (g_EtcdEndpoints (with_id rnd g) = []) as Hn by (unfold with_id; by case_decide).
    rewrite Hn in HN. by injection HN as <-.
Qed.

(** A service that cannot listen has already registered: [log.Fatalf] ends it
    without [GracefulStop], and clients are given its address until the lease
    ends. *)
Lemma listen_failure_leaves_registration getenv file rnd e e' err :
  user_service_main yaml getenv file rnd true false e = (e', inr (ServeFailed err)) →
  ∃ cfg, loadConfig yaml file = Some cfg ∧
    (sc_Endpoints (with_env getenv cfg) ≠ [] →
     ∃ id, registered e' "user-service" id (sc_Addr (with_env getenv cfg))).
Proof.
  unfold user_service_main. destruct (loadConfig yaml file) as [cfg|]; [|done]. cbv zeta.
  set (g := mkGrpcConfig _ _ _ _). destruct (grpcserver_New rnd true g e) as [e1 [srv|?]] eqn:HN; [|done].
  cbn [Serve]. intros [= <- _]. exists cfg. split; [done|]. intros Hne.
  destruct (grpcserver_New_kvs rnd g e e1 srv Hne HN) as (lease & _ & _ & Hk).
  exists (g_ID (gs_cfg srv)), lease. rewrite Hk. apply lookup_insert_eq.
Qed.
End theorems.

Section consumer.
Context (json : bytes → option (string * string)).
Implicit Types (s : UserServiceServer).

(** [id] was given out between [s] and [s'], and [s'] has under it the user. *)
Definition created (s s' : UserServiceServer) (now : Z) (username email id : string) : Prop :=
  ∃ n, us_nextID s < n ≤ us_nextID s' ∧ id = FormatInt n ∧
    read_user s' id = Some (mkUser id username email now now).

(** [s'] comes after [s], with at most [n] users more. *)
Definition extends (n : Z) (s s' : UserServiceServer) : Prop :=
  user_ok s' ∧ us_nextID s ≤ us_nextID s' ≤ us_nextID s + n ∧
  ∀ id u, read_user s id = Some u → read_user s' id = Some u.

Lemma extends_refl n s : user_ok s → 0 ≤ n → extends n s s.
Proof. intros. split_and!; try done; lia. Qed.

Lemma extends_trans n n' s1 s2 s3 : extends n s1 s2 → extends n' s2 s3 → extends (n + n') s1 s3.
Proof. intros (_ & ? & K1) (? & ? & K2). split_and!; [done|lia|lia|auto]. Qed.

Lemma call_create_spec now rpc username email s s' r :
  user_ok s → us_nextID s < max_int64 →
  call_create now rpc username email s = (s', r) →
  extends 1 s s' ∧ ∀ id, r = Some id → rpc = Answered ∧ created s s' now username email id.
Proof.
  intros Hok Hmax. unfold call_create.
  assert (∀ s1 r1, CreateUser now username email s = (s1, r1) → extends 1 s s1 ∧
    ∀ p, r1 = inl p → ∀ id, u_Id <$> us_heap s1 !! p = Some id →
      created s s1 now username email id) as Hc.
  { intros s1 r1 HC. pose proof (CreateUser_ok now username email s Hok Hmax) as Hok1. rewrite HC in Hok1.
    destruct (decide (username = ""%string)) as [->|Hu].
    { unfold CreateUser in HC. simpl in HC. simplify_eq. split; [by apply extends_refl|done]. }
    destruct (decide (email = ""%string)) as [->|He].
    { unfold CreateUser in HC. rewrite decide_False in HC by done. simpl in HC. simplify_eq.
      split; [by apply extends_refl|done]. }
    destruct (CreateUser_read now username email s Hok Hmax Hu He) as (Heq & Hfree & Hnew & Hold).
    rewrite HC in *. cbn [fst] in *. set (new := FormatInt _) in *. simplify_eq.
    split; [split_and!; [done|simpl; lia|simpl; lia|]|].
    - intros id u Hr. rewrite Hold; [done|]. intros ->. unfold read_user in Hr. by rewrite Hfree in Hr.
    - intros p [= <-] id Hid. cbn [us_heap] in Hid. rewrite lookup_insert_eq in Hid. simpl in Hid.
      injection Hid as <-. exists (us_nextID s + 1). split_and!; [lia|simpl; lia|done|done]. }
  destruct rpc; [intros [= <- <-]; split; [by apply extends_refl|done]|..];
    destruct (CreateUser now username email s) as [s1 r1]; destruct (Hc s1 r1 eq_refl) as [? Hid].
  - intros [= <- <-]. done.
  - destruct r1 as [p|err]; intros [= <- <-]; (split; [done|]); [|done].
    intros id Hx. split; [done|]. by eapply Hid.
Qed.

(** The same for the instances: each extends what it was. *)
Definition all_extend (n : Z) (ss ss' : list UserServiceServer) : Prop :=
  Forall2 (λ s s', extends n s s') ss ss'.

(** The id a message was answered with: instance [k] has the message's user. *)
Definition created_at (ss ss' : list UserServiceServer) (m : Z * nat * Rpc * bytes)
    (id : string) : Prop :=
  ∃ now k msg username email s s', m = (now, k, Answered, msg) ∧
    json msg = Some (username, email) ∧ ss !! k = Some s ∧ ss' !! k = Some s' ∧
    created s s' now username email id.

Lemma all_extend_refl n ss : Forall user_ok ss → 0 ≤ n → all_extend n ss ss.
Proof.
  intros Hok Hn. apply Forall_Forall2_diag. eapply Forall_impl; [exact Hok|].
  intros s Hs. by apply extends_refl.
Qed.

Lemma all_extend_trans n n' ss1 ss2 ss3 :
  all_extend n ss1 ss2 → all_extend n' ss2 ss3 → all_extend (n + n') ss1 ss3.
Proof.
  unfold all_extend. rewrite !Forall2_lookup. intros H1 H2 k. specialize (H1 k). specialize (H2 k).
  destruct H1; inversion H2; subst; constructor. by eapply extends_trans.
Qed.

Lemma all_extend_ok n ss ss' : all_extend n ss ss' → Forall user_ok ss'.
Proof. intros Ha. eapply Forall2_Forall_r; [exact Ha|]. apply Forall_true. by intros s s' [? _]. Qed.

Lemma on_user_create_spec now k rpc msg ss ss' r :
  Forall (λ s, user_ok s ∧ us_nextID s < max_int64) ss →
  on_user_create json now k rpc msg ss = (ss', r) →
  all_extend 1 ss ss' ∧ ∀ id, r = Some id → created_at ss ss' (now, k, rpc, msg) id.
Proof.
  intros Hss. assert (Forall user_ok ss) as Hok by (eapply Forall_impl; [exact Hss|]; by intros s [? _]).
  unfold on_user_create.
  destruct (json msg) as [[username email]|] eqn:Hj;
    [|intros [= <- <-]; split; [by apply all_extend_refl|done]].
  destruct (ss !! k) as [s|] eqn:Hk; [|intros [= <- <-]; split; [by apply all_extend_refl|done]].
  destruct (Forall_lookup_1 _ _ _ _ Hss Hk) as [Hs Hmax].
  destruct (call_create now rpc username email s) as [s1 id1] eqn:HC. intros [= <- <-].
  apply call_create_spec in HC as [Hex Hid]; [|done|done].
  pose proof (lookup_lt_Some _ _ _ Hk) as Hlt. split.
  - rewrite <-(list_insert_id ss k s Hk) at 1. apply Forall2_insert; [|done]. by apply all_extend_refl.
  - intros id ->. destruct (Hid id eq_refl) as [-> Hcr].
    exists now, k, msg, username, email, s, s1. split_and!; try done. by apply list_lookup_insert_eq.
Qed.

(** The instance and the id of each id that is logged. *)
Definition logged (msgs : list (Z * nat * Rpc * bytes)) (ids : list (option string)) :
    list (nat * string) :=
  omap (λ mr : Z * nat * Rpc * bytes * option string, pair mr.1.1.1.2 <$> mr.2) (zip msgs ids).

Lemma logged_ids msgs ids :
  length msgs = length ids → snd <$> logged msgs ids = omap (λ r, r) ids.
Proof.
  revert ids. induction msgs as [|m msgs IH]; intros [|[id|] ids] Hl; simplify_eq/=; try done.
  - f_equal. by apply IH.
  - by apply IH.
Qed.

Lemma logged_elem msgs ids k id :
  (k, id) ∈ logged msgs ids → ∃ i m, msgs !! i = Some m ∧ m.1.1.2 = k ∧ ids !! i = Some (Some id).
Proof.
  intros ([m o] & Hin & Ho)%list_elem_of_omap. destruct o as [id'|]; [|done].
  simpl in Ho. injection Ho as <- <-. apply list_elem_of_lookup in Hin as [i Hi].
  apply lookup_zip_with_Some in Hi as (m1 & o1 & [= -> ->] & Hm & Ho). eauto.
Qed.

(** The whole run: an answered message keeps its user, whatever comes later. *)
Lemma consume_spec msgs ss ss' ids :
  Forall (λ s, user_ok s ∧ us_nextID s + Z.of_nat (length msgs) ≤ max_int64) ss →
  consume json msgs ss = (ss', ids) →
  all_extend (Z.of_nat (length msgs)) ss ss' ∧
  Forall2 (λ m r, ∀ id, r = Some id → created_at ss ss' m id) msgs ids ∧
  NoDup (logged msgs ids).
Proof.
  revert ss ids. induction msgs as [|[[[now k] rpc] msg] msgs IH]; intros ss ids Hss; cbn [consume].
  { intros [= <- <-]. split_and!; [|constructor..]. apply all_extend_refl; [|simpl; lia].
    eapply Forall_impl; [exact Hss|]. by intros s [? _]. }
  destruct (on_user_create json now k rpc msg ss) as [ss1 r] eqn:H1.
  apply on_user_create_spec in H1 as [Hx1 Hr1].
  2: { eapply Forall_impl; [exact Hss|]. intros s [? Hn]. simpl in Hn. split; [done|lia]. }
  destruct (consume json msgs ss1) as [ss2 rs] eqn:H2. intros [= <- <-].
  apply IH in H2 as (Hx2 & Hr2 & Hnd).
  2: { apply Forall_lookup. intros i s1 Hi. destruct (Forall2_lookup_r _ _ _ _ _ Hx1 Hi) as (s & Hs & Hok & Hn & _).
       destruct (Forall_lookup_1 _ _ _ _ Hss Hs) as [_ Hb]. simpl in Hb. split; [done|lia]. }
  split_and!.
  - replace (Z.of_nat (length _)) with (1 + Z.of_nat (length msgs)) by (simpl; lia).
    by eapply all_extend_trans.
  - constructor.
    + intros id Hid. destruct (Hr1 id Hid) as (now' & k' & m & u & em & s & s1 & Hm & Hj & Hk & Hk1 & n & Hn & Heq & Hrd).
      destruct (Forall2_lookup_l _ _ _ _ _ Hx2 Hk1) as (s2 & Hk2 & _ & Hn2 & Hkeep).
      exists now', k', m, u, em, s, s2. split_and!; try done. exists n. split_and!; [lia|lia|done|auto].
    + eapply Forall2_impl; [exact Hr2|]. intros m o Hmo id Hid.
      destruct (Hmo id Hid) as (now' & k' & m' & u & em & s1 & s2 & Hm & Hj & Hk1 & Hk2 & n & Hn & ?).
      destruct (Forall2_lookup_r _ _ _ _ _ Hx1 Hk1) as (s & Hk & _ & Hn1 & _).
      exists now', k', m', u, em, s, s2. split_and!; try done. exists n. split; [lia|done].
  - destruct r as [id|]; [|exact Hnd]. change (NoDup ((k, id) :: logged msgs rs)).
    apply NoDup_cons. split; [|done]. intros (i & m & Hm & Hk' & Ho)%logged_elem.
    pose proof (Forall2_lookup_lr _ _ _ _ _ _ Hr2 Hm Ho id eq_refl)
      as (? & k2 & ? & ? & ? & s1 & s2 & -> & _ & Hk1 & Hk2 & n & Hn & Heq & _).
    simpl in Hk'. subst k2.
    destruct (Hr1 id eq_refl) as (? & ? & ? & ? & ? & s & s1' & [= <- <- -> <-] & _ & Hk & Hk1' & n' & Hn' & Heq' & _).
    simplify_eq.
    destruct (Forall_lookup_1 _ _ _ _ Hss Hk) as [Hok Hb]. destruct Hok.
    destruct (Forall2_lookup_r _ _ _ _ _ Hx2 Hk2) as (s1'' & Hk1'' & Hok2 & Hn2 & _). simplify_eq.
    destruct (Forall2_lookup_r _ _ _ _ _ Hx1 Hk1) as (s0 & Hk0 & _ & Hn0 & _). simplify_eq.
    simpl in Hb. apply FormatInt_inj in Heq'; unfold_ints; lia.
Qed.
End consumer.

(** C33: The job's messages become users.  The service runs in any number of
    instances, each in any reachable state, and the balancer sends each call to
    one of them.  After any sequence of [user.create] messages, some bad, some
    whose call fails before or after it is carried out, every id the job logs
    belongs to the message it logs it for: the call was answered, and the
    instance that answered still has, under that id, the user of that message; no
    id of an instance is logged twice (so no id at all if there is one
    instance), and the users that an instance had before are as they were. *)
Theorem job_creates_users json services msgs services' ids :
  Forall (λ s, (∃ instanceID, rtc user_step (user_New instanceID) s) ∧
               us_nextID s + Z.of_nat (length msgs) ≤ max_int64) services →
  consume json msgs services = (services', ids) →
  length ids = length msgs ∧ length services' = length services ∧
  (∀ i id, ids !! i = Some (Some id) → ∃ now k msg username email s',
     msgs !! i = Some (now, k, Answered, msg) ∧ json msg = Some (username, email) ∧
     services' !! k = Some s' ∧
     read_user s' id = Some (mkUser id username email now now)) ∧
  NoDup (logged msgs ids) ∧
  (length services = 1%nat → NoDup (omap (λ r, r) ids)) ∧
  ∀ k s id u, services !! k = Some s → read_user s id = Some u →
    ∃ s', services' !! k = Some s' ∧ read_user s' id = Some u.
Proof.
  intros Hss HC.
  destruct (consume_spec json msgs services services' ids) as (Hx & Hall & Hnd); [|done|].
  { eapply Forall_impl; [exact Hss|]. intros s [[iid Hrun%user_reachable_ok] ?]. done. }
  assert (∀ i id, ids !! i = Some (Some id) → ∃ now k msg username email s',
     msgs !! i = Some (now, k, Answered, msg) ∧ json msg = Some (username, email) ∧
     services' !! k = Some s' ∧ read_user s' id = Some (mkUser id username email now now)) as Hone.
  { intros i id Hi. destruct (Forall2_lookup_r _ _ _ _ _ Hall Hi) as (m & Hm & Hc).
    destruct (Hc id eq_refl) as (now & k & msg & u & em & s & s' & -> & Hj & _ & Hk & n & _ & _ & Hr).
    by exists now, k, msg, u, em, s'. }
  split_and!; [symmetry; by eapply Forall2_length|symmetry; by eapply Forall2_length|done|done| |].
  - intros Hlen. rewrite <-(logged_ids msgs) by (by eapply Forall2_length).
    assert (∀ k id, (k, id) ∈ logged msgs ids → k = 0%nat) as H0.
    { intros k id (i & m & Hm & <- & Hi)%logged_elem.
      destruct (Hone i id Hi) as (now & k & msg & u & em & s' & Hm' & _ & Hk & _). simplify_eq. simpl.
      apply lookup_lt_Some in Hk. apply Forall2_length in Hx. lia. }
    apply NoDup_fmap_2_strong; [|done]. intros [k1 x1] [k2 x2] Hx1 Hx2 ?. simplify_eq/=.
    apply H0 in Hx1 as ->, Hx2 as ->. done.
  - intros k s id u Hk Hr. destruct (Forall2_lookup_l _ _ _ _ _ Hx Hk) as (s' & Hk' & _ & _ & Hkeep).
    exists s'. auto.
Qed.

(** ** Concrete inputs *)

Definition wit_service_yaml (_ : bytes) (cfg : serviceConfig) : option serviceConfig :=
  Some (mkServiceConfig (sc_Addr cfg) ["127.0.0.1:2379"%string]).
Definition wit_getenv (name : string) : string :=
  if decide (name = "LISTEN_ADDR"%string) then "10.0.0.4:50051" else "".

Lemma user_service_discoverable_witness :
  ∃ e' srv handler,
    user_service_main wit_service_yaml wit_getenv (Some []) wit_rnd true true (mkMemEtcd ∅ 0) =
      (e', inl (srv, handler)) ∧
    us_id handler = "user-service-01ab00ff"%string ∧
    registered e' "user-service" (us_id handler) "10.0.0.4:50051".
Proof.
  destruct (user_service_main wit_service_yaml wit_getenv (Some []) wit_rnd true true (mkMemEtcd ∅ 0))
    as [e' [[srv handler]|]] eqn:HM; [|vm_compute in HM; discriminate].
  pose proof HM as Hid. vm_compute in Hid. exists e', srv, handler. split; [done|].
  split; [by injection Hid as _ _ <-|].
  destruct (user_service_discoverable wit_service_yaml wit_getenv (Some []) wit_rnd true
    (mkMemEtcd ∅ 0) e' srv handler HM) as (cfg & Hc & _ & _ & _ & Hreg & _).
  injection Hc as <-. apply (proj1 (Hreg ltac:(discriminate))).
Defined.

(** A decoder for messages of the form name,address. *)
Definition wit_json (msg : bytes) : option (string * string) :=
  match Split ","%char (of_bytes msg) with [u; e] => Some (u, e) | _ => None end.

(** Two instances, called in turn. *)
Definition wit_msgs : list (Z * nat * Rpc * bytes) :=
  [(5, 0%nat, Answered, to_bytes "ann,a@x"); (6, 1%nat, Answered, to_bytes "nonsense");
   (7, 1%nat, AnswerLost, to_bytes "bob,b@x"); (8, 0%nat, Answered, to_bytes "cid,c@x");
   (9, 1%nat, Answered, to_bytes "dan,d@x")].

Lemma job_creates_users_witness :
  ∃ services' ids s', consume wit_json wit_msgs [user_New "u1"; user_New "u2"] = (services', ids) ∧
    ids = [Some "1"; None; None; Some "2"; Some "2"]%string ∧
    services' !! 1%nat = Some s' ∧ read_user s' "2" = Some (mkUser "2" "dan" "d@x" 9 9).
Proof.
  destruct (consume wit_json wit_msgs [user_New "u1"; user_New "u2"]) as [services' ids] eqn:HC.
  assert (ids = [Some "1"; None; None; Some "2"; Some "2"]%string) as Hids.
  { change (ids = (consume wit_json wit_msgs [user_New "u1"; user_New "u2"]).2). by rewrite HC. }
  destruct (job_creates_users wit_json [user_New "u1"; user_New "u2"] wit_msgs services' ids)
    as (_ & _ & Hread & _).
  - repeat constructor; [eexists; apply rtc_refl|vm_compute; discriminate
      |eexists; apply rtc_refl|vm_compute; discriminate].
  - exact HC.
  - subst ids.
    destruct (Hread 4%nat "2"%string eq_refl) as (now & k & msg & u & em & s' & Hm & Hj & Hk & Hr).
    injection Hm as <- <- <-. vm_compute in Hj. injection Hj as <- <-.
    eexists services', _, s'. split; [reflexivity|]. split; [reflexivity|]. split; [exact Hk|exact Hr].
Defined.

(** Ids are unique only within an instance: the users of two messages get the
    same one when two fresh instances answer them. *)
Lemma instances_share_ids json now now' msg msg' username email username' email' i1 i2 :
  json msg = Some (username, email) → json msg' = Some (username', email') →
  username ≠ ""%string → email ≠ ""%string → username' ≠ ""%string → email' ≠ ""%string →
  (consume json [(now, 0%nat, Answered, msg); (now', 1%nat, Answered, msg')]
     [user_New i1; user_New i2]).2 = [Some "1"; Some "1"]%string.
Proof.
  intros Hj Hj' Hu He Hu' He'. cbn [consume]. unfold on_user_create. rewrite Hj, Hj'.
  cbn [lookup list_lookup]. unfold call_create, CreateUser.
  rewrite !decide_False by done. simpl. by rewrite !decide_False by done.
Qed.
