(* ===== verification/Svchelper.v ===== *)
(** * The service helper

    [tools/svchelper]: building, starting and stopping the services, docker
    commands and the queries.  The program is a tree of calls to the operating
    system (file OS); what it writes to standard error is not represented. *)

From Stdlib Require Import Ascii.
From S2P Require Import Prelude GoLib GoStrings Proto Conf OS Auth.
#[local] Open Scope Z_scope.

Definition millisecond : Z := 1000000.
Definition newline_char : ascii := "010"%char.

Record instance := mkInstance { in_svc : string; in_id : string; in_port : Z }.

Record svcInstance := mkSvcInstance {
  si_id : string; si_svc : string; si_port : Z; si_wsPort : Z; si_tcpPort : Z }.

Section svchelper.
(** Whether the path separator is the backslash. *)
Context (windows : bool).
(** The YAML decoder (as in the file Conf), the signer of tokens, and the JSON
    decoder of etcd's answers: the keys and values, in base 64. *)
Context (yaml : bytes → Config * bool) `{Jwt} (kvs_json : string → list (string * string)).

Definition exeExt : string := if windows then ".exe" else "".

(** ** Finding services in the source tree *)

(** The inner loop of [discoverServices]: the directories of domain [d]. *)
Fixpoint discover_nested (d : string) (entries : list (string * bool)) : prog (list string) :=
  match entries with
  | [] => mret []
  | (e, isDir) :: entries =>
      if negb isDir then discover_nested d entries
      else
        st ← call (Stat ("apps/" +:+ d +:+ "/" +:+ e +:+ "/cmd"));
        rest ← discover_nested d entries;
        mret (if st is StatOk then e :: rest else rest)
  end.

Fixpoint discover_loop (domains : list (string * bool)) : prog (list string) :=
  match domains with
  | [] => mret []
  | (d, isDir) :: domains =>
      if negb isDir then discover_loop domains
      else
        st ← call (Stat ("apps/" +:+ d +:+ "/cmd"));
        match st with
        | StatOk => rest ← discover_loop domains; mret (d :: rest)
        | _ =>
            entries ← call (ReadDir ("apps/" +:+ d));
            svcs ← discover_nested d entries;
            rest ← discover_loop domains;
            mret (svcs ++ rest)
        end
  end.

Definition discoverServices : prog (list string) :=
  domains ← call (ReadDir "apps"); discover_loop domains.

Fixpoint find_path_loop (svc : string) (domains : list (string * bool)) : prog string :=
  match domains with
  | [] =>
      let p := "apps/" +:+ svc +:+ "/cmd" in
      st ← call (Stat p); mret (if st is StatOk then p else ""%string)
  | (d, isDir) :: domains =>
      if negb isDir then find_path_loop svc domains
      else
        let p := "apps/" +:+ d +:+ "/" +:+ svc +:+ "/cmd" in
        st ← call (Stat p);
        match st with StatOk => mret p | _ => find_path_loop svc domains end
  end.

Definition findServicePath (svc : string) : prog string :=
  domains ← call (ReadDir "apps"); find_path_loop svc domains.

(** ** The configuration

    [g] is [conf.GlobalConfig], which may be nil; [cfg] is what it points to
    once it has been loaded. *)

Definition isGRPCService (g : option Config) (svc : string) : bool :=
  match g with
  | None => false
  | Some cfg => bool_decide (is_Some (cfg_GRPC cfg !! svc))
  end.

Definition grpcPort (g : option Config) (svc : string) : Z :=
  match g with
  | None => 0
  | Some cfg => default 0 (cfg_GRPC cfg !! svc)
  end.

Definition listenAddr (n : ServerNode) : string :=
  if decide (sn_WSListen n ≠ ""%string) then sn_WSListen n else sn_Listen n.

(** The two loops of [findServiceNode], over the services in the order of the
    iteration. *)
Fixpoint find_node (id : string) (svcs : list (string * list ServerNode)) :
    string * option ServerNode :=
  match svcs with
  | [] => (""%string, None)
  | (svcName, nodes) :: svcs =>
      match list_find (λ n, sn_ID n = id) nodes with
      | Some (_, n) => (svcName, Some n)
      | None => find_node id svcs
      end
  end.

Definition findServiceNode (cfg : Config) (id : string) : prog (string * option ServerNode) :=
  order ← call (RangeServices (cfg_Services cfg)); mret (find_node id (`order)).

(** The nodes of one service as [listInstances] sees them. *)
Fixpoint node_instances (svc : string) (nodes : list ServerNode) : result (list instance) :=
  match nodes with
  | [] => Ok []
  | n :: nodes =>
      if decide (sn_ID n = ""%string) then node_instances svc nodes
      else
        ParseHostPort (listenAddr n) ≫= λ '(_, p),
        node_instances svc nodes ≫= λ rest, Ok (mkInstance svc (sn_ID n) p :: rest)
  end.

(** The loop of [listInstances], with [backends] and [gateways]. *)
Fixpoint list_loop_instances (svcs : list (string * list ServerNode))
    (backends gateways : list instance) : result (list instance) :=
  match svcs with
  | [] => Ok (backends ++ gateways)
  | (svcName, nodes) :: svcs =>
      node_instances svcName nodes ≫= λ insts,
      if decide (svcName = SvcGateway) then list_loop_instances svcs backends (gateways ++ insts)
      else list_loop_instances svcs (backends ++ insts) gateways
  end.

Definition listInstances (cfg : Config) : prog (list instance) :=
  order ← call (RangeServices (cfg_Services cfg)); of_result (list_loop_instances (`order) [] []).

(** The instance [listInstancesOf] and [listInstancesOrdered] make of a node. *)
Definition svc_instance (svc : string) (n : ServerNode) : result svcInstance :=
  if decide (svc = SvcGateway) then
    ParseHostPort (sn_WSListen n) ≫= λ '(_, ws),
    ParseHostPort (sn_TCPListen n) ≫= λ '(_, tcp),
    Ok (mkSvcInstance (sn_ID n) svc 0 ws tcp)
  else ParseHostPort (sn_Listen n) ≫= λ '(_, p), Ok (mkSvcInstance (sn_ID n) svc p 0 0).

Fixpoint svc_instances (svc : string) (nodes : list ServerNode) : result (list svcInstance) :=
  match nodes with
  | [] => Ok []
  | n :: nodes =>
      svc_instance svc n ≫= λ i, svc_instances svc nodes ≫= λ rest, Ok (i :: rest)
  end.

Definition listInstancesOf (cfg : Config) (svc : string) : result (list svcInstance) :=
  svc_instances svc (services_of cfg svc).

Fixpoint ordered_loop (svcs : list (string * list ServerNode))
    (backends gateways : list svcInstance) : result (list svcInstance) :=
  match svcs with
  | [] => Ok (backends ++ gateways)
  | (svcName, nodes) :: svcs =>
      svc_instances svcName nodes ≫= λ insts,
      if decide (svcName = SvcGateway) then ordered_loop svcs backends (gateways ++ insts)
      else ordered_loop svcs (backends ++ insts) gateways
  end.

Definition listInstancesOrdered (cfg : Config) : prog (list svcInstance) :=
  order ← call (RangeServices (cfg_Services cfg)); of_result (ordered_loop (`order) [] []).

Fixpoint group_loop (cfg : Config) (svcs : list string) (m : gmap string (list svcInstance)) :
    result (gmap string (list svcInstance)) :=
  match svcs with
  | [] => Ok m
  | svc :: svcs =>
      if decide (svc = SvcGateway) then group_loop cfg svcs m
      else listInstancesOf cfg svc ≫= λ l, group_loop cfg svcs (<[svc := l]> m)
  end.

Definition groupByService (cfg : Config) : prog (gmap string (list svcInstance)) :=
  order ← call (RangeServices (cfg_Services cfg)); of_result (group_loop cfg (`order).*1 ∅).

(** ** The network table *)

(** [fmt.Sprintf(":%d ", port)] *)
Definition port_field (port : Z) : string := ":" +:+ FormatInt port +:+ " ".

(** What [portOccupied] and [findPIDByPort] read off the output of [netstat]. *)
Definition occupied_in (out : string) (port : Z) : bool :=
  Contains out (port_field port) && Contains out "LISTENING".

Definition portOccupied (port : Z) : prog bool :=
  r ← call Netstat; mret (occupied_in r.1 port).

Definition listens (line : string) (port : Z) : bool :=
  Contains line (port_field port) && Contains line "LISTENING".

Fixpoint pid_of_lines (lines : list string) (port : Z) : Z :=
  match lines with
  | [] => 0
  | line :: lines =>
      if listens line port then
        let fs := Fields line in
        if (5 <=? length fs)%nat then Atoi (default ""%string (last fs)) else pid_of_lines lines port
      else pid_of_lines lines port
  end.

Definition findPIDByPort (port : Z) : prog Z :=
  r ← call Netstat;
  mret (if (r.2 : bool) then 0 else pid_of_lines (Split newline_char r.1) port).

Definition established (line : string) (pid port : Z) : bool :=
  Contains line (":" +:+ FormatInt port) && Contains line "ESTABLISHED" &&
  Contains line (FormatInt pid).

Fixpoint connPID (nets : list string) (pid port : Z) : bool :=
  match nets with
  | [] => false
  | line :: nets => if established line pid port then true else connPID nets pid port
  end.

Fixpoint connState (nets : list string) (pid port : Z) : string :=
  match nets with
  | [] => "NOT CONNECTED"
  | line :: nets => if established line pid port then "ESTABLISHED" else connState nets pid port
  end.

(** ** Building *)

Definition buildSelf : prog unit :=
  Println ">>> Building svchelper...";;
  call (RunCmd [] ["go"; "build"; "-o"; "bin/svchelper" +:+ exeExt; "./tools/svchelper/"])%string;;
  Println ("  -> bin/svchelper" +:+ exeExt).

Definition buildOne (svc : string) : prog unit :=
  path ← findServicePath svc;
  if decide (path = ""%string) then exit 1
  else
    Println (">>> Building " +:+ svc +:+ "...");;
    ok ← call (RunCmd [] ["go"; "build"; "-o"; "bin/" +:+ svc +:+ exeExt; "./" +:+ path])%string;
    if (ok : bool) then Println ("  -> bin/" +:+ svc +:+ exeExt) else exit 1.

Definition doBuild (cfg : Config) (target : string) : prog unit :=
  if decide (target = "all"%string) then
    svcs ← discoverServices; for_each svcs buildOne;; buildSelf
  else
    svcs ← discoverServices;
    if decide (target ∈ svcs) then buildOne target
    else
      found ← findServiceNode cfg target;
      if decide (found.1 = ""%string) then discoverServices;; exit 1
      else buildOne found.1.

(** ** Starting *)

Definition printLogTail (path : string) : prog unit :=
  data ← call (ReadFile path);
  match data with
  | None => mret tt
  | Some data =>
      let lines := Split newline_char data in
      let start := if (6 <? length lines)%nat then (length lines - 6)%nat else 0%nat in
      for_each (drop start lines) Println
  end.

(** Up to [n] polls of the port, 400ms apart. *)
Fixpoint poll (n : nat) (port : Z) : prog bool :=
  match n with
  | O => mret false
  | S n =>
      call (Sleep (400 * millisecond));;
      up ← portOccupied port;
      if (up : bool) then mret true else poll n port
  end.

(** The end of [startOne] and of [startGRPCService]: wait for the port, record
    the process, or kill it. *)
Definition await_port (svc : string) (port pid : Z) (logPath : string) : prog unit :=
  up ← poll 20 port;
  if (up : bool) then
    Println ("  OK (pid:" +:+ FormatInt pid +:+ ", port:" +:+ FormatInt port +:+ ", log:" +:+
             logPath +:+ ")");;
    call (MkdirAll "bin/.pids");;
    call (WriteFile ("bin/.pids/" +:+ svc +:+ ".pid") (FormatInt pid));;
    mret tt
  else
    Println ("  FAILED - port " +:+ FormatInt port +:+ " not listening after 8s. Tail log:");;
    call (KillProc pid);;
    printLogTail logPath;;
    exit 1.

Definition already_running (svc id : string) (port : Z) : prog unit :=
  Println ("  " +:+ svc +:+ " (" +:+ id +:+ ") is already running on port " +:+ FormatInt port).

(** The log of an instance, and its binary, which is built if it is missing. *)
Definition log_path (svc id : string) : string :=
  "log/" +:+ (if decide (id ≠ ""%string) then svc +:+ "-" +:+ id else svc) +:+ ".log".

Definition ensure_binary (svc : string) : prog unit :=
  st ← call (Stat ("bin/" +:+ svc +:+ exeExt));
  if st is StatNotExist then buildOne svc else mret tt.

Definition startGRPCService (cfg : Config) (svc id : string) : prog unit :=
  let port := grpcPort (Some cfg) svc in
  busy ← (if 0 <? port then portOccupied port else mret false);
  if (busy : bool) then already_running svc id port
  else
    ensure_binary svc;;
    call (MkdirAll "log");;
    Println (">>> Starting " +:+ svc +:+ "...");;
    p ← findServicePath svc;
    confPath ←
      (if decide (p = ""%string) then mret "config.yml"%string
       else
         dir ← of_result (drop_end 4 p);
         let svcConf := dir +:+ "config.yml" in
         st ← call (Stat svcConf);
         mret (if st is StatOk then svcConf else "config.yml"%string));
    call (OpenLog (log_path svc id));;
    started ← call (StartCmd (log_path svc id) ["bin/" +:+ svc +:+ exeExt; "-conf"; confPath])%string;
    match started with
    | None => exit 1
    | Some pid =>
        if port =? 0 then
          Println ("  OK (pid:" +:+ FormatInt pid +:+ ", worker, log:" +:+ log_path svc id +:+ ")")
        else await_port svc port pid (log_path svc id)
    end.

Definition startOne (cfg : Config) (svc id : string) (port : Z) (configPath : string) : prog unit :=
  if isGRPCService (Some cfg) svc then startGRPCService cfg svc id
  else
    busy ← portOccupied port;
    if (busy : bool) then already_running svc id port
    else
      ensure_binary svc;;
      call (MkdirAll "log");;
      Println (">>> Starting " +:+ svc +:+ " (conf=" +:+ configPath +:+ ", id=" +:+ id +:+ ")...");;
      call (OpenLog (log_path svc id));;
      let args := ["-conf"; configPath]%string ++
                  (if decide (id ≠ ""%string) then ["-id"%string; id] else []) in
      started ← call (StartCmd (log_path svc id) (("bin/" +:+ svc +:+ exeExt) :: args));
      match started with
      | None => exit 1
      | Some pid => await_port svc port pid (log_path svc id)
      end.

Definition doStart (cfg : Config) (target configPath : string) : prog unit :=
  if decide (target = "all"%string) then
    Println ("Starting all from " +:+ configPath +:+ "...");;
    insts ← listInstances cfg;
    for_each insts (λ i,
      startOne cfg (in_svc i) (in_id i) (in_port i) configPath;;
      call (Sleep (1000 * millisecond)))
  else if isGRPCService (Some cfg) target then startOne cfg target target 0 configPath
  else
    found ← findServiceNode cfg target;
    match found with
    | (svc, Some node) =>
        if decide (svc = ""%string) then exit 1
        else
          addr ← of_result (ParseHostPort (listenAddr node));
          startOne cfg svc target addr.2 configPath
    | (_, None) => exit 1
    end.

(** ** Stopping *)

Definition killByPort (port : Z) (svc : string) : prog unit :=
  Println (">>> Stopping " +:+ svc +:+ " (port " +:+ FormatInt port +:+ ")...");;
  pid ← findPIDByPort port;
  if 0 <? pid then
    p ← call (FindProcess pid);
    if negb p then Halt (Panics "invalid memory address or nil pointer dereference")
    else call (KillProc pid);; call (Sleep (300 * millisecond));; Println "  Stopped"
  else Println "  Not running".

Definition doStop (cfg : Config) (target : string) : prog unit :=
  if decide (target = "all"%string) then
    insts ← listInstances cfg;
    for_each insts (λ i, killByPort (in_port i) (in_svc i));;
    order ← call (RangePorts (cfg_GRPC cfg));
    for_each (`order) (λ '(svc, port), if 0 <? port then killByPort port svc else mret tt)
  else if isGRPCService (Some cfg) target then
    let port := grpcPort (Some cfg) target in
    if 0 <? port then killByPort port target
    else
      Println (">>> Stopping " +:+ target +:+ " (worker, no port)...");;
      Println "  Not running (worker services are not tracked)"
  else
    found ← findServiceNode cfg target;
    match found with
    | (svc, Some node) =>
        if decide (svc = ""%string) then exit 1
        else
          addr ← of_result (ParseHostPort (listenAddr node));
          killByPort addr.2 svc
    | (_, None) => exit 1
    end.

(** ** Docker *)

Definition doDockerBuild (svc version registry : string) : prog unit :=
  path ← findServicePath svc;
  if decide (path = ""%string) then exit 1
  else
    dir ← of_result (drop_end 4 path);
    let dockerfile := dir +:+ "/Dockerfile" in
    st ← call (Stat dockerfile);
    match st with
    | StatNotExist => exit 1
    | _ =>
        let binName := "bin/" +:+ svc +:+ "-linux" in
        Println (">>> Cross-compiling " +:+ svc +:+ " (linux/amd64)...");;
        ok ← call (RunCmd ["GOOS=linux"; "CGO_ENABLED=0"]
                     ["go"; "build"; "-mod=vendor"; "-ldflags=-s -w"; "-o"; binName; "./" +:+ path])%string;
        if negb ok then exit 1
        else
          Println ("  -> " +:+ binName);;
          let image := registry +:+ "/cardwar/" +:+ svc +:+ ":" +:+ version in
          let latestImage := registry +:+ "/cardwar/" +:+ svc +:+ ":latest" in
          Println (">>> docker build -t " +:+ image +:+ " -t " +:+ latestImage +:+ " ...");;
          ok ← call (RunCmd [] ["docker"; "build"; "-f"; dockerfile; "-t"; image; "-t"; latestImage; "."])%string;
          if negb ok then exit 1
          else Println ("  -> " +:+ image);; Println ("  -> " +:+ latestImage)
    end.

(** [cmd.Run] of a docker command: "Done", or exit. *)
Definition run_docker (args : list string) : prog unit :=
  ok ← call (RunCmd [] ("docker"%string :: args));
  if (ok : bool) then Println "  Done" else exit 1.

Definition doDockerPush (svc version registry : string) : prog unit :=
  let image := registry +:+ "/cardwar/" +:+ svc +:+ ":" +:+ version in
  Println (">>> docker push " +:+ image +:+ " ...");;
  run_docker ["push"%string; image].

Definition doDockerUp (svc : string) : prog unit :=
  let args := ["compose"; "up"; "-d"; "--pull"; "always"]%string ++
              (if decide (svc ≠ "all"%string) then [svc] else []) in
  Println (">>> docker " +:+ Join " " args +:+ " ...");;
  run_docker args.

Definition doDockerDown (svc : string) : prog unit :=
  let args := ["compose"; "down"]%string ++
              (if decide (svc ≠ "all"%string) then [svc] else []) in
  Println (">>> docker " +:+ Join " " args +:+ " ...");;
  run_docker args.

(** ** Status *)

(** The loops of [showStatus] that find out which instance runs: [pidInfo] and
    [portPid]. *)
Fixpoint status_nodes (svc : string) (nodes : list ServerNode)
    (pidInfo : gmap Z runInfo) (portPid : gmap Z Z) : prog (gmap Z runInfo * gmap Z Z) :=
  match nodes with
  | [] => mret (pidInfo, portPid)
  | n :: nodes =>
      if decide (sn_ID n = ""%string) then status_nodes svc nodes pidInfo portPid
      else
        addr ← of_result (ParseHostPort (listenAddr n));
        let p := addr.2 in
        pid ← findPIDByPort p;
        status_nodes svc nodes
          (if 0 <? pid then <[pid := mkRunInfo svc (sn_ID n) p]> pidInfo else pidInfo)
          (<[p := pid]> portPid)
  end.

Fixpoint status_scan (svcs : list (string * list ServerNode))
    (pidInfo : gmap Z runInfo) (portPid : gmap Z Z) : prog (gmap Z runInfo * gmap Z Z) :=
  match svcs with
  | [] => mret (pidInfo, portPid)
  | (svc, nodes) :: svcs =>
      maps ← status_nodes svc nodes pidInfo portPid; status_scan svcs maps.1 maps.2
  end.

(** The connections of process [pid] to the other instances; [printed] are the
    pairs already shown. *)
Fixpoint status_conns (nets : list string) (id : string) (pid : Z)
    (infos : list (Z * runInfo)) (printed : gset string) : prog (gset string) :=
  match infos with
  | [] => mret printed
  | (otherPID, info) :: infos =>
      let key := id +:+ "→" +:+ ri_id info in
      if (otherPID =? pid) || negb (connPID nets pid (ri_port info)) ||
         bool_decide (key ∈ printed)
      then status_conns nets id pid infos printed
      else
        Println ("    └── " +:+ ri_id info +:+ " (" +:+ ri_svc info +:+ ") :" +:+
                 FormatInt (ri_port info) +:+ " ESTABLISHED");;
        status_conns nets id pid infos ({[key]} ∪ printed)
  end.

Fixpoint status_topology (nets : list string) (pidInfo : gmap Z runInfo) (portPid : gmap Z Z)
    (insts : list svcInstance) (printed : gset string) : prog unit :=
  match insts with
  | [] => mret tt
  | inst :: insts =>
      let gw := bool_decide (si_svc inst = SvcGateway) in
      let p := if gw then si_wsPort inst else si_port inst in
      let pid := default 0 (portPid !! p) in
      let label := if gw then si_id inst +:+ " (ws:" +:+ FormatInt (si_wsPort inst) +:+ ")"
                   else si_id inst in
      if 0 <? pid then
        Println ("  " +:+ pad_right 30 (label +:+ " pid:" +:+ FormatInt pid) +:+
                 " [" +:+ si_svc inst +:+ "]");;
        order ← call (RangePids pidInfo);
        printed ← status_conns nets (si_id inst) pid (`order) printed;
        status_topology nets pidInfo portPid insts printed
      else
        Println ("  " +:+ pad_right 30 label +:+ " [" +:+ si_svc inst +:+ "]  DOWN");;
        status_topology nets pidInfo portPid insts printed
  end.

Definition showStatus (cfg : Config) : prog unit :=
  r ← call Netstat;
  let nets := Split newline_char r.1 in
  order ← call (RangeServices (cfg_Services cfg));
  maps ← status_scan (`order) ∅ ∅;
  Println "";;
  Println "=== Service Topology ===";;
  insts ← listInstancesOrdered cfg;
  status_topology nets maps.1 maps.2 insts ∅.

(** ** [showEtcd] *)

Definition etcd_url : string := "http://192.168.1.110:2379/v3/kv/range".
(** The body, with its quotation marks as the byte 34. *)
Definition quoted (s : string) : string := String "034"%char (s +:+ String "034"%char "").
Definition etcd_body : string :=
  "{" +:+ quoted "key" +:+ ":" +:+ quoted "L3NlcnZpY2VzLw==" +:+ "," +:+
  quoted "range_end" +:+ ":" +:+ quoted "L3NlcnZpY2VzMA==" +:+ "}".

Definition showEtcd : prog unit :=
  resp ← call (HttpPost etcd_url etcd_body);
  match resp with
  | None => exit 1
  | Some body =>
      match kvs_json body with
      | [] => Println "No services registered in etcd"
      | kvs =>
          Println "Registered services:";;
          for_each kvs (λ '(k, v), Println ("  " +:+ DecodeString k +:+ " -> " +:+ DecodeString v))
      end
  end.

(** ** Commands *)

Definition load_config (path : string) : prog Config :=
  data ← call (ReadFile path);
  match Load yaml (to_bytes <$> data) with
  | (cfg, None) => mret cfg
  | (_, Some _) => exit 1
  end.

Definition usage : prog unit :=
  for_each
    ["Usage: svchelper <cmd> <instance|all> [config.yml]"; "";
     "Commands:";
     "  build <xxx>        compile binary";
     "  start <xxx>        run binary";
     "  stop <xxx>         kill process by port";
     "  restart <xxx>      stop + start";
     "  reboot <xxx>       stop + build + start";
     "  docker-build <svc> [ver] [reg]  cross-compile linux + docker build";
     "  docker-push <svc> [ver] [reg]   docker push to registry";
     "  docker-up <svc|all>             start/restart containers";
     "  docker-down <svc|all>           stop & remove containers";
     "  status             show full cluster topology & connections";
     "  list [config]      show all instances";
     "  type <id>          get service type for instance";
     "  port <id>          get listen port for instance";
     "  jwt <playerId>     generate JWT token for player"]%string Println.

(** [args[i]], which the code reads after checking the length. *)
Definition arg (args : list string) (i : nat) : string := default ""%string (args !! i).

Definition handleQuery (args : list string) : prog unit :=
  let configPath :=
    if (3 <=? length args)%nat && HasSuffix (default ""%string (last args)) ".yml"
    then default ""%string (last args) else "config.yml"%string in
  cfg ← load_config configPath;
  let cmd := arg args 1 in
  let short := (length args <? 3)%nat in
  if decide (cmd = "list"%string) then
    order ← call (RangeServices (cfg_Services cfg));
    for_each (`order) (λ '(svcName, nodes),
      for_each nodes (λ n, if decide (sn_ID n = ""%string) then mret tt
                           else Println (sn_ID n +:+ " " +:+ svcName)))
  else if decide (cmd = "type"%string) then
    if short then exit 1
    else
      found ← findServiceNode cfg (arg args 2);
      if decide (found.1 = ""%string) then exit 1 else Println found.1
  else if decide (cmd = "port"%string) then
    if short then exit 1
    else
      found ← findServiceNode cfg (arg args 2);
      match found.2 with
      | None => exit 1
      | Some node => addr ← of_result (ParseHostPort (listenAddr node)); Println (FormatInt addr.2)
      end
  else if decide (cmd = "jwt"%string) then
    if short then exit 1
    else
      now ← call Now;
      Println (GenerateJWT now (ParseInt (arg args 2)).1 (gc_JWTSecret (cfg_Gateway cfg)))
  else if decide (cmd = "status"%string ∨ cmd = "conns"%string) then showStatus cfg
  else if decide (cmd = "etcd"%string) then showEtcd
  else mret tt.

Definition svchelper_main (args : list string) : prog unit :=
  if (length args <? 2)%nat then usage;; exit 1
  else
    let cmd := arg args 1 in
    let target := arg args 2 in
    if decide (cmd ∈ ["list"; "type"; "port"; "jwt"; "status"; "conns"; "etcd"]%string)
    then handleQuery args
    else if decide (cmd ∈ ["docker-build"; "docker-push"]%string) then
      if (length args <? 3)%nat then exit 1
      else
        let version := default "latest"%string (args !! 3%nat) in
        let registry := default "localhost:5000"%string (args !! 4%nat) in
        if decide (cmd = "docker-build"%string) then doDockerBuild target version registry
        else doDockerPush target version registry
    else if decide (cmd ∈ ["docker-up"; "docker-down"]%string) then
      if (length args <? 3)%nat then exit 1
      else if decide (cmd = "docker-up"%string) then doDockerUp target else doDockerDown target
    else if (length args <? 3)%nat then exit 1
    else
      let configPath := default "config.yml"%string (args !! 3%nat) in
      cfg ← load_config configPath;
      if decide (cmd = "build"%string) then doBuild cfg target
      else if decide (cmd = "start"%string) then doStart cfg target configPath
      else if decide (cmd = "stop"%string) then doStop cfg target
      else if decide (cmd = "restart"%string) then
        doStop cfg target;; call (Sleep (1000 * millisecond));; doStart cfg target configPath
      else if decide (cmd = "reboot"%string) then
        doStop cfg target;; doBuild cfg target;; doStart cfg target configPath
      else usage;; exit 1.
End svchelper.

(** * Facts *)

(** ** Starting *)

(** The exits of the program after an error. *)
Definition fails (h : halt) : Prop := h = Exit 1.

Section starting.
Context (windows : bool).

Lemma find_path_loop_only P svc domains :
  (∀ path, P (Stat path)) → only P fails (find_path_loop svc domains).
Proof.
  intros HP. induction domains as [|[d []] domains IH]; simpl; auto.
  split; [done|]. intros []; [done|apply IH..].
Qed.

Lemma findServicePath_quiet svc : only quiet fails (findServicePath svc).
Proof. apply only_bind; [done|]. intros domains. by apply find_path_loop_only. Qed.

Lemma buildOne_quiet svc : only quiet fails (buildOne windows svc).
Proof.
  apply only_bind; [apply findServicePath_quiet|]. intros path. case_decide; [done|].
  split; [done|]. intros ?. split; [done|]. by intros [].
Qed.

Lemma ensure_binary_quiet svc : only quiet fails (ensure_binary windows svc).
Proof. split; [done|]. intros []; try done. apply buildOne_quiet. Qed.

Lemma printLogTail_quiet path : only quiet fails (printLogTail path).
Proof. split; [done|]. intros [data|]; [|done]. by apply only_for_each. Qed.

(** Polling: how long it took and what it saw. *)
Definition polled (n : nat) (port : Z) (tr : list event) (up : bool) (tr' : list event) : Prop :=
  started tr' = started tr ∧ killed tr' = killed tr ∧
  ∃ outs : list string,
    listed tr' = listed tr ++ outs ∧
    slept tr' = slept tr ++ replicate (length outs) (400 * millisecond) ∧
    (length outs ≤ n)%nat ∧
    if up then ∃ out, last outs = Some out ∧ occupied_in out port = true
    else length outs = n ∧ Forall (λ out, occupied_in out port = false) outs.

Lemma wp_poll n port tr :
  wp (poll n port) tr (λ o tr', ∃ up, o = inl up ∧ polled n port tr up tr').
Proof.
  revert tr. induction n as [|n IH]; intros tr.
  - exists false. split; [done|]. split_and!; [done..|]. exists []. by trace.
  - cbn -[occupied_in wp millisecond]. intros []. intros [out failed]. cbn -[occupied_in].
    destruct (occupied_in out port) eqn:Hocc.
    + exists true. split; [done|]. split_and!; [by trace..|].
      exists [out]. trace. split_and!; [done|done|lia|by exists out].
    + eapply wp_mono; [|apply IH].
      intros o tr' (up & -> & Hs & Hk & outs & Hl & Hsl & Hn & Hup).
      exists up. split; [done|]. unfold polled. rewrite Hs, Hk.
      split_and!; [by trace..|]. exists (out :: outs). rewrite Hl, Hsl. trace.
      rewrite <-!app_assoc. simpl. split_and!; [done|done|lia|].
      destruct up.
      * destruct Hup as (x & Hx & ?). exists x. split; [|done].
        destruct outs; [done|]. by rewrite last_cons_cons.
      * destruct Hup as [-> ?]. split; [done|]. by constructor.
Qed.

(** What starting a service does, with the port [p] it waits for: the processes
    [new] started and [dead] killed, and the network tables [outs] read while
    waiting.  At most one process is started; it is left running only when the
    last table shows its port, and otherwise killed after twenty tables that do
    not show it. *)
Definition start_effect (p : option Z) (new dead : list Z) (outs : list string)
    (o : unit + halt) : Prop :=
  match new, o with
  | [], _ => dead = [] ∧ outs = []
  | [_], inl _ =>
      dead = [] ∧
      match p with
      | None => outs = []
      | Some q => ∃ out, last outs = Some out ∧ occupied_in out q = true
      end
  | [pid], inr _ =>
      dead = [pid] ∧ length outs = 20%nat ∧
      ∃ q, p = Some q ∧ Forall (λ out, occupied_in out q = false) outs
  | _, _ => False
  end.

(** The same of a part of a run, from the events [tr] to [tr']. *)
Definition start_post (p : option Z) (tr : list event) (o : unit + halt) (tr' : list event) : Prop :=
  ∃ new dead outs,
    started tr' = started tr ++ new ∧ killed tr' = killed tr ++ dead ∧
    listed tr' = listed tr ++ outs ∧
    slept tr' = slept tr ++ replicate (length outs) (400 * millisecond) ∧
    (length outs ≤ 20)%nat ∧ (∀ h, o = inr h → fails h) ∧
    start_effect p new dead outs o.

Lemma start_post_nothing p tr o tr' :
  same_effects tr tr' → (∀ h, o = inr h → fails h) → start_post p tr o tr'.
Proof.
  intros (Hs & Hk & Hsl & Hl) Ho. exists [], [], []. rewrite Hs, Hk, Hsl, Hl. simpl.
  rewrite !app_nil_r. split_and!; auto with lia.
Qed.

Lemma start_post_after p tr tr1 o tr' :
  same_effects tr tr1 → start_post p tr1 o tr' → start_post p tr o tr'.
Proof.
  intros (Hs & Hk & Hsl & Hl) (new & dead & outs & H). exists new, dead, outs.
  by rewrite <-Hs, <-Hk, <-Hsl, <-Hl.
Qed.

(** A quiet step on the way to a start. *)
Lemma wp_start_step {A} R p (s : prog A) (f : A → prog unit) tr :
  only quiet fails s → returns R s →
  (∀ a tr', R a → wp (f a) tr' (start_post p tr')) →
  wp (s ≫= f) tr (start_post p tr).
Proof.
  intros Hs HR Hf. eapply wp_quiet_bind; [done..| |].
  - intros tr' h Heff Hh. apply start_post_nothing; [done|]. by intros ? [= <-].
  - intros tr' a Heff Ha. eapply wp_mono; [|by apply Hf]. intros o tr''. by apply start_post_after.
Qed.

Lemma wp_await_port svc port pid logPath tr :
  wp (await_port svc port pid logPath) tr (λ o tr',
    ∃ dead outs,
      started tr' = started tr ∧ killed tr' = killed tr ++ dead ∧
      listed tr' = listed tr ++ outs ∧
      slept tr' = slept tr ++ replicate (length outs) (400 * millisecond) ∧
      (length outs ≤ 20)%nat ∧ (∀ h, o = inr h → fails h) ∧
      start_effect (Some port) [pid] dead outs o).
Proof.
  apply wp_bind. eapply wp_mono; [|apply wp_poll].
  intros ? tr1 (up & -> & Hs & Hk & outs & Hl & Hsl & Hn & Hup). destruct up.
  - eapply wp_mono; [|apply (wp_quiet (λ _, False) (λ _, True)); repeat split].
    intros o tr2 [(-> & -> & -> & ->) Ho]. destruct o as [[]|]; [|done].
    exists [], outs. rewrite app_nil_r. by split_and!.
  - apply wp_call. intros []. apply wp_call. intros [].
    eapply wp_quiet_bind; [apply printLogTail_quiet|apply returns_any|..];
      intros tr2 r (Hs2 & Hk2 & Hsl2 & Hl2) Hr; revert Hs2 Hk2 Hsl2 Hl2; trace; rewrite Hs, Hk, Hl, Hsl;
      intros Hs2 Hk2 Hsl2 Hl2; exists [pid], outs; destruct Hup; split_and!; try done;
      try (by intros ? [= <-]); eauto 10.
Qed.

(** The process is started, then waited for unless it has no port. *)
Lemma wp_launch p log argv (k : Z → prog unit) tr :
  (∀ pid, (p = None ∧ only quiet (λ _, False) (k pid)) ∨
          (∃ q svc, p = Some q ∧ k pid = await_port svc q pid log)) →
  wp (pid ← call (StartCmd log argv);
      match pid with None => exit 1 | Some pid => k pid end) tr (start_post p tr).
Proof.
  intros Hk. apply wp_call. intros [pid|].
  - destruct (Hk pid) as [[-> Hq]|(q & svc & -> & ->)].
    + eapply wp_mono; [|apply wp_quiet; [done|apply returns_any]].
      intros o tr2 [(Hs & Hkl & Hsl & Hl) Ho]. destruct o as [[]|]; [|done].
      exists [pid], [], []. rewrite Hs, Hkl, Hl, Hsl. trace. split_and!; by auto with lia.
    + eapply wp_mono; [|apply wp_await_port].
      intros o tr2 (dead & outs & Hs & Hkl & Hl & Hsl & H). exists [pid], dead, outs.
      rewrite Hs, Hkl, Hl, Hsl. by trace.
  - simpl. exists [], [], []. trace. split_and!; auto with lia. by intros ? [= <-].
Qed.

(** The port [startOne] waits for: none for a gRPC worker. *)
Definition awaited (cfg : Config) (svc : string) (port : Z) : option Z :=
  if isGRPCService (Some cfg) svc then
    let port := grpcPort (Some cfg) svc in if port =? 0 then None else Some port
  else Some port.

(** The whole start, with the network tables [pre] read to see whether the
    service already runs. *)
Definition start_run (p : option Z) (tr : list event) (o : unit + halt) (tr' : list event) : Prop :=
  ∃ pre tr1,
    started tr1 = started tr ∧ killed tr1 = killed tr ∧ slept tr1 = slept tr ∧
    listed tr1 = listed tr ++ pre ∧ (length pre ≤ 1)%nat ∧ start_post p tr1 o tr' ∧
    ∀ q, p = Some q → 0 < q → ∃ out, pre = [out] ∧
      (occupied_in out q = true → started tr' = started tr).

(** Reading the table first, and stopping there if it shows the port. *)
Lemma wp_unless_running q svc id (k : prog unit) tr :
  (∀ tr', wp k tr' (start_post (Some q) tr')) →
  wp (busy ← portOccupied q; if (busy : bool) then already_running svc id q else k) tr
     (start_run (Some q) tr).
Proof.
  intros Hk. apply wp_bind. intros [out failed]. cbn -[occupied_in wp already_running].
  set (tr1 := tr ++ [existT Netstat (out, failed)]).
  assert (∀ o tr', start_post (Some q) tr1 o tr' →
    (occupied_in out q = true → started tr' = started tr) → start_run (Some q) tr o tr') as Hrun.
  { intros o tr' Hpost Hocc. exists [out], tr1. unfold tr1. trace. split_and!; try done.
    intros q' [= <-] _. by exists out. }
  destruct (occupied_in out q) eqn:Hocc.
  - intros []. apply Hrun; [|intros _; unfold tr1; by trace].
    apply start_post_nothing; [|done]. unfold same_effects. by trace.
  - apply (wp_mono k tr1 (start_post (Some q) tr1)); [|apply Hk]. intros o tr' Hpost. by apply Hrun.
Qed.

(** A path that was found ends in [/cmd]. *)
Lemma findServicePath_returns svc :
  returns (λ p, p = ""%string ∨ ∃ dir, p = dir +:+ "/cmd") (findServicePath svc).
Proof.
  intros domains. induction (domains : list _) as [|[d []] l IH]; simpl; [|intros []; [|apply IH..]|apply IH].
  - intros []; simpl; [right|by left..]. exists ("apps/" +:+ svc). by rewrite string_app_assoc.
  - right. exists ("apps/" +:+ d +:+ "/" +:+ svc). by rewrite <-!string_app_assoc.
Qed.

Lemma wp_startGRPCService cfg svc id tr :
  isGRPCService (Some cfg) svc = true →
  wp (startGRPCService windows cfg svc id) tr (start_run (awaited cfg svc 0) tr).
Proof.
  intros Hg. unfold startGRPCService, awaited. rewrite Hg.
  set (port := grpcPort (Some cfg) svc). cbv zeta.
  set (p := if port =? 0 then None else Some port).
  match goal with |- wp (_ ≫= λ busy, if busy then _ else ?k) _ _ => set (launch := k) end.
  assert (∀ tr', wp launch tr' (start_post p tr')) as Hl.
  { intros tr'. unfold launch.
    apply (wp_start_step (λ _, True)); [apply ensure_binary_quiet|apply returns_any|].
    intros _ tr1 _. do 2 (apply (wp_start_step (λ _, True)); [done..|]; intros _ ? _).
    eapply wp_start_step; [apply findServicePath_quiet|apply findServicePath_returns|].
    intros path tr2 Hp. apply (wp_start_step (λ _, True)); [|apply returns_any|].
    { case_decide; [done|]. destruct Hp as [|[dir ->]]; [done|].
      change 4%nat with (String.length "/cmd"). by rewrite drop_end_app. }
    intros conf tr3 _. apply (wp_start_step (λ _, True)); [done..|]. intros _ tr4 _.
    apply wp_launch. intros pid. unfold p. destruct (port =? 0); [by left|right; by eexists _, _]. }
  destruct (Z.ltb_spec 0 port) as [Hpos|Hpos].
  - unfold p in *. destruct (Z.eqb_spec port 0); [lia|]. by apply wp_unless_running.
  - eapply wp_mono; [|apply Hl]. intros o tr' Hpost. exists [], tr. rewrite app_nil_r.
    split_and!; auto with lia. unfold p. intros q. destruct (port =? 0); intros [= <-]. lia.
Qed.

Lemma wp_startOne cfg svc id port configPath tr :
  wp (startOne windows cfg svc id port configPath) tr (start_run (awaited cfg svc port) tr).
Proof.
  unfold startOne, awaited. destruct (isGRPCService (Some cfg) svc) eqn:Hg.
  - generalize (wp_startGRPCService cfg svc id tr Hg). unfold awaited. by rewrite Hg.
  - apply wp_unless_running. intros tr1.
    apply (wp_start_step (λ _, True)); [apply ensure_binary_quiet|apply returns_any|].
    intros _ tr2 _. do 3 (apply (wp_start_step (λ _, True)); [done..|]; intros _ ? _).
    apply wp_launch. intros pid. right. by eexists _, _.
Qed.
End starting.

(** ** The instances of the configuration *)

(** The nodes that have an id, with the names of their services. *)
Definition named_nodes (svcs : list (string * list ServerNode)) : list (string * ServerNode) :=
  svcs ≫= λ '(svc, nodes), (svc,.) <$> filter (λ n, sn_ID n ≠ ""%string) nodes.
Definition backend_nodes (svcs : list (string * list ServerNode)) : list (string * ServerNode) :=
  filter (λ x, x.1 ≠ SvcGateway) (named_nodes svcs).
Definition gateway_nodes (svcs : list (string * list ServerNode)) : list (string * ServerNode) :=
  filter (λ x, x.1 = SvcGateway) (named_nodes svcs).

(** The instance of a node. *)
Definition instance_of (x : string * ServerNode) (i : instance) : Prop :=
  in_svc i = x.1 ∧ in_id i = sn_ID x.2 ∧
  ∃ host, ParseHostPort (listenAddr x.2) = Ok (host, in_port i).

Lemma node_instances_spec svc nodes insts :
  node_instances svc nodes = Ok insts →
  Forall2 instance_of ((svc,.) <$> filter (λ n, sn_ID n ≠ ""%string) nodes) insts.
Proof.
  revert insts. induction nodes as [|n nodes IH]; intros insts; simpl.
  { intros [= <-]. constructor. }
  case_decide as Hid.
  - rewrite filter_cons_False; [apply IH|]. naive_solver.
  - rewrite filter_cons_True; [|done].
    destruct (ParseHostPort (listenAddr n)) as [[host port]|] eqn:Hp; [|done]. simpl.
    destruct (node_instances svc nodes) as [rest|]; [|done]. simpl. intros [= <-].
    constructor; [|by apply IH]. by split_and!; [..|exists host].
Qed.

Lemma list_loop_instances_spec svcs backends gateways insts :
  list_loop_instances svcs backends gateways = Ok insts →
  ∃ bs gs, insts = (backends ++ bs) ++ gateways ++ gs ∧
    Forall2 instance_of (backend_nodes svcs) bs ∧ Forall2 instance_of (gateway_nodes svcs) gs.
Proof.
  revert backends gateways. induction svcs as [|[svc nodes] svcs IH]; intros backends gateways; simpl.
  { intros [= <-]. exists [], []. rewrite !app_nil_r. by split_and!; [|constructor..]. }
  destruct (node_instances svc nodes) as [l|] eqn:Hn; [|done]. simpl.
  apply node_instances_spec in Hn.
  unfold backend_nodes, gateway_nodes, named_nodes. simpl. rewrite !filter_app.
  set (here := (svc,.) <$> _) in *.
  assert (∀ x, x ∈ here → x.1 = svc) as Hsvc
    by (intros x (n & -> & _)%list_elem_of_fmap; done).
  case_decide as Hg; intros (bs & gs & -> & Hbs & Hgs)%IH.
  - exists bs, (l ++ gs). split_and!; [by rewrite <-!app_assoc|..].
    + rewrite filter_Forall_nil; [done|]. apply Forall_forall. intros x Hx. rewrite (Hsvc x Hx). auto.
    + apply Forall2_app; [|done]. rewrite filter_Forall_id; [done|]. apply Forall_forall.
      intros x Hx. by rewrite (Hsvc x Hx).
  - exists (l ++ bs), gs. split_and!; [by rewrite <-!app_assoc|..].
    + apply Forall2_app; [|done]. rewrite filter_Forall_id; [done|]. apply Forall_forall.
      intros x Hx. by rewrite (Hsvc x Hx).
    + rewrite filter_Forall_nil; [done|]. apply Forall_forall. intros x Hx. by rewrite (Hsvc x Hx).
Qed.

(** A run of [listInstances] visits the services in some order. *)
Lemma wp_listInstances cfg tr :
  wp (listInstances cfg) tr (λ o tr',
    same_effects tr tr' ∧
    match o with
    | inl insts => ∃ order, order ≡ₚ map_to_list (cfg_Services cfg) ∧
        Forall2 instance_of (backend_nodes order ++ gateway_nodes order) insts
    | inr h => ∃ why, h = Panics why
    end).
Proof.
  apply wp_call. intros [order Horder]. apply wp_of_result; cbn [proj1_sig].
  - intros insts (bs & gs & -> & Hbs & Hgs)%list_loop_instances_spec.
    split; [unfold same_effects; by trace|]. exists order. split; [done|]. by apply Forall2_app.
  - intros why _. split; [unfold same_effects; by trace|by exists why].
Qed.

(** The number of nodes of the configuration. *)
Definition node_count (cfg : Config) : nat :=
  sum_list (length ∘ snd <$> map_to_list (cfg_Services cfg)).

Lemma named_nodes_length order :
  (length (named_nodes order) ≤ sum_list (length ∘ snd <$> order))%nat.
Proof.
  induction order as [|[svc nodes] order IH]; simpl; [done|].
  unfold named_nodes in *. simpl. rewrite length_app, length_fmap.
  apply Nat.add_le_mono; [apply length_filter|exact IH].
Qed.

Lemma split_nodes_length order :
  length (backend_nodes order ++ gateway_nodes order) = length (named_nodes order).
Proof.
  unfold backend_nodes, gateway_nodes. induction (named_nodes order) as [|x l IH]; [done|].
  rewrite !filter_cons. rewrite length_app in *.
  destruct (decide (x.1 = SvcGateway)), (decide (x.1 ≠ SvcGateway)); try done; simpl; lia.
Qed.

Lemma listed_instances_length cfg order insts :
  order ≡ₚ map_to_list (cfg_Services cfg) →
  Forall2 instance_of (backend_nodes order ++ gateway_nodes order) insts →
  (length insts ≤ node_count cfg)%nat.
Proof.
  intros Hord Hl%Forall2_length. rewrite split_nodes_length in Hl.
  unfold node_count. rewrite <-Hord, <-Hl. apply named_nodes_length.
Qed.

(** ** How long starting takes *)

(** At most [n] starts' worth of waiting and of network tables: 20 polls of
    400ms and a second after each start, one table before and one per poll. *)
Definition within_starts (n : nat) (tr : list event) : Prop :=
  foldr Z.add 0 (slept tr) ≤ Z.of_nat n * (9000 * millisecond) ∧ (length (listed tr) ≤ 21 * n)%nat.

Lemma sum_replicate n x : foldr Z.add 0 (replicate n x) = Z.of_nat n * x.
Proof. induction n; simpl; lia. Qed.

Lemma sum_app l l' : foldr Z.add 0 (l ++ l') = foldr Z.add 0 l + foldr Z.add 0 l'.
Proof. induction l; simpl; lia. Qed.

(** What one start adds. *)
Lemma start_run_cost p tr o tr' :
  start_run p tr o tr' →
  foldr Z.add 0 (slept tr') ≤ foldr Z.add 0 (slept tr) + 8000 * millisecond ∧
  (length (listed tr') ≤ length (listed tr) + 21)%nat.
Proof.
  intros (pre & tr1 & _ & _ & Hs1 & Hl1 & Hpre & (? & ? & outs & _ & _ & Hl & Hs & Hn & _) & _).
  rewrite Hl, Hl1, Hs, Hs1, sum_app, sum_replicate, !length_app. unfold millisecond. lia.
Qed.

Lemma within_starts_mono n n' tr : (n ≤ n')%nat → within_starts n tr → within_starts n' tr.
Proof. unfold within_starts, millisecond. lia. Qed.

Lemma wp_start_all windows cfg insts configPath tr :
  within_starts 0 tr →
  wp (for_each insts (λ i,
        startOne windows cfg (in_svc i) (in_id i) (in_port i) configPath;;
        call (Sleep (1000 * millisecond)))) tr
     (λ _, within_starts (length insts)).
Proof.
  intros H0. eapply (wp_mono _ _ (λ o tr', match o with
    | inl _ => within_starts (length insts) tr'
    | inr _ => within_starts (length insts) tr' end)); [by intros []|].
  apply (wp_for_each _ _ _ within_starts); [done|].
  intros i x tr1 Hi%lookup_lt_Some [Hsum Hlen]. apply wp_bind.
  eapply wp_mono; [|apply wp_startOne].
  intros [[]|h] tr2 [Hs Hl]%start_run_cost.
  - cbn [wp call]. intros []. unfold within_starts in *. trace. rewrite sum_app. simpl.
    unfold millisecond in *. split; lia.
  - unfold within_starts, millisecond in *. split; lia.
Qed.

(** ** Stopping *)

(** The ports the configuration names: of a node with an address, or of a gRPC
    service. *)
Definition configured_port (cfg : Config) (port : Z) : Prop :=
  (∃ svc nodes n host, cfg_Services cfg !! svc = Some nodes ∧ n ∈ nodes ∧
     ParseHostPort (listenAddr n) = Ok (host, port)) ∨
  (∃ svc, cfg_GRPC cfg !! svc = Some port).

(** The network table [out] has a line that says process [pid] listens on
    [port]. *)
Definition names_listener (out : string) (pid port : Z) : Prop :=
  ∃ line, line ∈ Split newline_char out ∧ listens line port = true ∧
    (5 ≤ length (Fields line))%nat ∧ Atoi (default ""%string (last (Fields line))) = pid.

(** Every process killed was shown to listen on a port of the configuration. *)
Definition kills_listeners (cfg : Config) (tr : list event) : Prop :=
  ∀ pid, pid ∈ killed tr →
    0 < pid ∧ ∃ out port, out ∈ listed tr ∧ configured_port cfg port ∧ names_listener out pid port.

Lemma pid_of_lines_spec lines port :
  0 < pid_of_lines lines port →
  ∃ line, line ∈ lines ∧ listens line port = true ∧ (5 ≤ length (Fields line))%nat ∧
    Atoi (default ""%string (last (Fields line))) = pid_of_lines lines port.
Proof.
  induction lines as [|line lines IH]; [done|]. cbn [pid_of_lines].
  destruct (listens line port) eqn:Hl; [destruct (Nat.leb_spec 5 (length (Fields line)))|].
  - intros _. exists line. by repeat split; [left|..].
  - intros (l & Hin & Hx)%IH. exists l. split; [by right|done].
  - intros (l & Hin & Hx)%IH. exists l. split; [by right|done].
Qed.

Lemma kills_listeners_same cfg tr tr' :
  killed tr' = killed tr → (∀ out, out ∈ listed tr → out ∈ listed tr') →
  kills_listeners cfg tr → kills_listeners cfg tr'.
Proof.
  intros Hk Hl H pid. rewrite Hk. intros (Hpos & out & port & Hin & Hr)%H.
  split; [done|]. exists out, port. auto.
Qed.

Lemma wp_findPIDByPort {A} port (f : Z → prog A) tr Q :
  (∀ out (failed : bool),
     wp (f (if failed then 0 else pid_of_lines (Split newline_char out) port))
        (tr ++ [existT Netstat (out, failed)]) Q) →
  wp (findPIDByPort port ≫= f) tr Q.
Proof. intros Hf [out failed]. apply Hf. Qed.

Lemma wp_killByPort cfg port svc tr :
  configured_port cfg port → kills_listeners cfg tr →
  wp (killByPort port svc) tr (λ _, kills_listeners cfg).
Proof.
  intros Hport Htr. apply wp_call. intros []. apply wp_findPIDByPort. intros out failed.
  match goal with |- wp _ ?t _ => set (tr1 := t) end.
  assert (kills_listeners cfg tr1 ∧ out ∈ listed tr1 ∧ killed tr1 = killed tr) as (Htr1 & Hout & Hk1).
  { unfold tr1. trace. split_and!; [|set_solver|done].
    eapply kills_listeners_same; [| |done]; trace; [done|set_solver]. }
  set (pid := if failed then 0 else _).
  destruct (Z.ltb_spec 0 pid) as [Hpos|Hpos].
  - intros []; [|by eapply kills_listeners_same; [| |done]; trace; [|set_solver]].
    intros [] [] []. intros p. trace. rewrite Hk1. intros [Hp| ->%list_elem_of_singleton]%elem_of_app.
    + apply Htr1. by rewrite Hk1.
    + split; [done|]. exists out, port. split; [done|]. split; [done|].
      unfold pid in *. destruct failed; [lia|]. by apply pid_of_lines_spec.
  - intros []. eapply kills_listeners_same; [| |done]; trace; [done|set_solver].
Qed.

Lemma find_node_spec id svcs svc n :
  find_node id svcs = (svc, Some n) → ∃ nodes, (svc, nodes) ∈ svcs ∧ n ∈ nodes ∧ sn_ID n = id.
Proof.
  induction svcs as [|[s nodes] svcs IH]; [done|]. cbn [find_node].
  destruct (list_find _ nodes) as [[i x]|] eqn:Hf.
  - intros [= <- <-]. apply list_find_Some in Hf as (Hx%list_elem_of_lookup_2 & Hid & _).
    exists nodes. by repeat split; [left|..].
  - intros (l & Hin & Hx)%IH. exists l. split; [by right|done].
Qed.

(** A node of the configuration has a configured port. *)
Lemma node_port_configured cfg order svc nodes n host port :
  order ≡ₚ map_to_list (cfg_Services cfg) → (svc, nodes) ∈ order → n ∈ nodes →
  ParseHostPort (listenAddr n) = Ok (host, port) → configured_port cfg port.
Proof.
  intros Hord Hin Hn Hp. rewrite Hord in Hin. apply elem_of_map_to_list in Hin. left. eauto 10.
Qed.

Lemma listed_instance_configured cfg order insts k i :
  order ≡ₚ map_to_list (cfg_Services cfg) →
  Forall2 instance_of (backend_nodes order ++ gateway_nodes order) insts →
  insts !! k = Some i → configured_port cfg (in_port i).
Proof.
  intros Hord Hl Hi. destruct (Forall2_lookup_r _ _ _ _ _ Hl Hi) as ([svc n] & Hx & Hof).
  apply list_elem_of_lookup_2 in Hx.
  assert ((svc, n) ∈ named_nodes order) as Hin.
  { apply elem_of_app in Hx as [Hx|Hx]; by apply list_elem_of_filter in Hx as [_ ?]. }
  unfold named_nodes in Hin. apply list_elem_of_bind in Hin as ([s nodes] & Hin & Ho).
  apply list_elem_of_fmap in Hin as (m & [= -> ->] & [_ Hm]%list_elem_of_filter).
  destruct Hof as (_ & _ & host & Hp). eapply node_port_configured; eauto.
Qed.

(** A loop of stops. *)
Lemma wp_kill_each {A} cfg (l : list A) (f : A → prog unit) tr :
  kills_listeners cfg tr →
  (∀ i x tr', l !! i = Some x → kills_listeners cfg tr' → wp (f x) tr' (λ _, kills_listeners cfg)) →
  wp (for_each l f) tr (λ _, kills_listeners cfg).
Proof.
  intros H0 Hf. eapply wp_mono;
    [|apply (wp_for_each l f tr (λ _, kills_listeners cfg) (λ _, kills_listeners cfg)); [done|]].
  - by intros [].
  - intros i x tr' Hx Htr. eapply wp_mono; [|by eapply Hf]. by intros [].
Qed.

Lemma kills_listeners_quiet cfg tr tr' :
  same_effects tr tr' → kills_listeners cfg tr → kills_listeners cfg tr'.
Proof. intros (_ & Hk & _ & Hl). apply kills_listeners_same; [done|]. by rewrite Hl. Qed.

Lemma wp_stop_all cfg tr :
  kills_listeners cfg tr → wp (doStop cfg "all") tr (λ _, kills_listeners cfg).
Proof.
  intros H0. unfold doStop. rewrite decide_True by done.
  apply wp_bind. eapply wp_mono; [|apply wp_listInstances].
  intros [insts|h] tr1 [Heff Hl]; [|by eapply kills_listeners_quiet].
  destruct Hl as (order & Hord & Hl). apply wp_bind.
  eapply wp_mono; [|apply wp_kill_each; [by eapply kills_listeners_quiet|]].
  - intros [[]|h] tr2 H2; [|done]. apply wp_call. intros [ports Hports].
    apply wp_kill_each; [by eapply kills_listeners_same; [| |done]; trace|].
    intros i [svc port] tr3 Hi H3. case_match; [|done]. apply wp_killByPort; [|done]. right. exists svc.
    apply elem_of_map_to_list. rewrite <-Hports. by eapply list_elem_of_lookup_2.
  - intros i x tr2 Hi H2. apply wp_killByPort; [|done]. by eapply listed_instance_configured.
Qed.

(** C37: [svchelper stop] kills only processes that [netstat] showed to listen on
    a port of the configuration.  In every run of [doStop], whatever the target
    and the answers of the operating system, each process killed has a positive
    id that is the last field of a line of at least five fields, marked
    LISTENING and holding the port, of a table the run read; and that port is
    the one of a configured node or of a gRPC service. *)
Theorem stop_kills_listeners_only cfg target :
  every_run (doStop cfg target) (λ _, kills_listeners cfg).
Proof.
  assert (kills_listeners cfg []) as H0 by (intros ? Hp; by apply elem_of_nil in Hp).
  destruct (decide (target = "all"%string)) as [->|Ht]; [by apply wp_stop_all|].
  unfold every_run, doStop. rewrite decide_False by done.
  destruct (isGRPCService (Some cfg) target) eqn:Hg.
  - unfold isGRPCService in Hg. apply bool_decide_eq_true in Hg as [port Hport].
    unfold grpcPort. rewrite Hport. cbv [default from_option id]. destruct (0 <? port).
    + apply wp_killByPort; [|done]. right. by exists target.
    + by intros [] [] p Hp%elem_of_nil.
  - apply wp_call. intros [order Hord].
    assert (kills_listeners cfg ([] ++ [existT (RangeServices (cfg_Services cfg)) (order ↾ Hord)]))
      as H1 by by eapply kills_listeners_same; [| |done].
    simpl. destruct (find_node target order) as [svc [n|]] eqn:Hf; [|done].
    apply find_node_spec in Hf as (nodes & Hin & Hn & _). case_decide; [done|].
    apply wp_bind, wp_of_result; [|done]. intros [host port] Hp.
    apply wp_killByPort; [by eapply node_port_configured|done].
Qed.

(** C38: Starting is bounded.  A run of [svchelper start] waits at most nine
    seconds and reads the network table at most 21 times for every node of the
    configuration (for one start, when the target is not [all]), whatever the
    operating system answers: it never waits for ever for a port. *)
Theorem start_is_bounded windows cfg target configPath :
  every_run (doStart windows cfg target configPath)
    (λ _, within_starts (if decide (target = "all"%string) then node_count cfg else 1)).
Proof.
  assert (within_starts 0 []) as H0 by done.
  assert (∀ svc id port tr, slept tr = [] → listed tr = [] →
    wp (startOne windows cfg svc id port configPath) tr (λ _, within_starts 1)) as Hone.
  { intros svc id port tr Hs Hl. eapply wp_mono; [|apply wp_startOne].
    intros o tr' [Hs' Hl']%start_run_cost. rewrite Hs, Hl in *. unfold within_starts, millisecond in *.
    simpl in *. lia. }
  unfold every_run, doStart. case_decide as Ht.
  - apply wp_call. intros []. apply wp_bind. eapply wp_mono; [|apply wp_listInstances].
    intros o tr1 [(_ & _ & Hs & Hl) Hinsts].
    assert (within_starts 0 tr1) as H1 by (unfold within_starts; by rewrite Hs, Hl).
    destruct o as [insts|h]; [|eapply within_starts_mono; [|done]; lia].
    destruct Hinsts as (order & Hord & Hin).
    eapply wp_mono; [|by apply wp_start_all].
    intros o tr2. apply within_starts_mono. by eapply listed_instances_length.
  - case_match; [by apply Hone|]. apply wp_call. intros [order Hord]. simpl.
    assert (∀ tr, slept tr = [] → listed tr = [] → within_starts 1 tr) as H1
      by (intros tr Hs Hl; unfold within_starts; rewrite Hs, Hl; simpl; unfold millisecond; lia).
    destruct (find_node target order) as [svc [n|]]; [|by apply H1].
    case_decide; [by apply H1|].
    apply wp_bind, wp_of_result; [|intros; by apply H1]. intros [host port] _. by apply Hone.
Qed.

(** C36: [svchelper] leaves no process behind unobserved.  In every run of
    [startOne], at most one process is started; it is still there at the end only
    if it is a worker without a port or the last network table read shows its
    port, and otherwise it was killed after twenty tables that did not show it,
    and the program exits with 1.  Nothing is started when the first table
    already shows the port. *)
Theorem start_accounts_for_process windows cfg svc id port configPath :
  every_run (startOne windows cfg svc id port configPath) (λ o tr,
    (∀ h, o = inr h → h = Exit 1) ∧
    ∃ pre outs, listed tr = pre ++ outs ∧
      start_effect (awaited cfg svc port) (started tr) (killed tr) outs o ∧
      ∀ q, awaited cfg svc port = Some q → 0 < q → ∃ out, pre = [out] ∧
        (occupied_in out q = true → started tr = [])).
Proof.
  eapply wp_mono; [|apply wp_startOne].
  intros o tr (pre & tr1 & Hs1 & Hk1 & _ & Hl1 & _ & Hpost & Hocc).
  destruct Hpost as (new & dead & outs & Hs & Hk & Hl & _ & _ & Ho & Heff).
  rewrite Hs1 in Hs. rewrite Hk1 in Hk. rewrite Hl1 in Hl. simpl in *.
  split; [done|]. exists pre, outs. rewrite Hs, Hk. split_and!; [done..|].
  intros q Hq Hpos. destruct (Hocc q Hq Hpos) as (out & -> & Hst). exists out.
  split; [done|]. intros H1. rewrite <-Hs. by apply Hst.
Qed.

(** ** Building everything *)

Section building.
(** A file system: the entries of a directory and the result of [os.Stat]. *)
Context (windows : bool) (dirs : string → list (string * bool)) (stat : string → StatResult).

(** The events of a run on that file system with a compiler that succeeds. *)
Definition on_file_system (e : event) : Prop :=
  let 'existT c r := e in
  match c return Ans c → Prop with
  | ReadDir path => λ r, r = dirs path
  | Stat path => λ r, r = stat path
  | RunCmd _ _ => λ r, r = true
  | _ => λ _, True
  end r.

Definition exists_dir (path : string) : bool := if stat path is StatOk then true else false.
Definition subdirs (path : string) : list string := (filter (λ e, e.2 = true) (dirs path)).*1.

(** The services of the tree: [apps/<name>/cmd], or [apps/<domain>/<name>/cmd]
    in a domain that is not a service itself. *)
Definition domain_services (d : string) : list string :=
  if exists_dir ("apps/" +:+ d +:+ "/cmd") then [d]
  else filter (λ e, exists_dir ("apps/" +:+ d +:+ "/" +:+ e +:+ "/cmd") = true) (subdirs ("apps/" +:+ d)).
Definition services_in_tree : list string := subdirs "apps" ≫= domain_services.

(** Where a service is built from: the first domain that has it, or itself. *)
Definition source_path (svc : string) : string :=
  let nested := (λ d, "apps/" +:+ d +:+ "/" +:+ svc +:+ "/cmd") <$> subdirs "apps" in
  default ""%string (head (filter (λ p, exists_dir p = true) (nested ++ ["apps/" +:+ svc +:+ "/cmd"]))).

Definition build_command (svc : string) : list string :=
  ["go"; "build"; "-o"; "bin/" +:+ svc +:+ exeExt windows; "./" +:+ source_path svc]%string.
Definition self_command : list string :=
  ["go"; "build"; "-o"; "bin/svchelper" +:+ exeExt windows; "./tools/svchelper/"]%string.

(** The value returned, after running no command. *)
Definition yields {A} (v : A) (tr : list event) (o : A + halt) (tr' : list event) : Prop :=
  o = inl v ∧ ran tr' = ran tr.

Lemma discover_nested_yields d entries tr :
  given on_file_system (discover_nested d entries) tr
    (yields (filter (λ e, exists_dir ("apps/" +:+ d +:+ "/" +:+ e +:+ "/cmd") = true)
               (filter (λ e, e.2 = true) entries).*1) tr).
Proof.
  revert tr. induction entries as [|[e []] entries IH]; intros tr; [by split| |].
  - cbn [discover_nested negb]. apply given_call. intros r Hst. simpl in Hst. subst r. apply given_bind.
    eapply given_mono; [|apply IH]. intros o tr' [-> Hr]. intros _.
    split; [|by rewrite Hr; trace].
    rewrite filter_cons_True by done. rewrite fmap_cons, filter_cons. cbn [fst]. unfold exists_dir.
    destruct (stat ("apps/" +:+ d +:+ "/" +:+ e +:+ "/cmd")); by case_decide.
  - cbn [discover_nested negb]. rewrite filter_cons_False by done. apply IH.
Qed.

Lemma discover_loop_yields domains tr :
  given on_file_system (discover_loop domains) tr
    (yields ((filter (λ e, e.2 = true) domains).*1 ≫= domain_services) tr).
Proof.
  revert tr. induction domains as [|[d []] domains IH]; intros tr; [by split| |].
  - cbn [discover_loop negb]. rewrite filter_cons_True by done. rewrite fmap_cons. cbn [fst].
    apply given_call. intros r Hr.
    rewrite bind_cons. unfold domain_services at 1, exists_dir at 1.
    simpl in Hr. rewrite <-Hr.
    assert (∀ pre tr1, ran tr1 = ran tr →
      given on_file_system (rest ← discover_loop domains; mret (pre ++ rest)) tr1
        (yields (pre ++ (filter (λ e, e.2 = true) domains).*1 ≫= domain_services) tr)) as Hrest.
    { intros pre tr1 Htr. apply given_bind. eapply given_mono; [|apply IH].
      intros o tr' [-> Hr']. intros _. split; [done|]. by rewrite Hr'. }
    destruct r.
    1: { apply (Hrest [d]). by trace. }
    all: apply given_call; intros entries He; simpl in He; subst entries;
      apply given_bind; (eapply given_mono; [|apply discover_nested_yields]);
      intros o tr' [-> Hr']; apply Hrest; rewrite Hr'; by trace.
  - cbn [discover_loop negb]. rewrite filter_cons_False by done. apply IH.
Qed.

Lemma find_path_loop_yields svc domains tr :
  given on_file_system (find_path_loop svc domains) tr
    (yields (default ""%string (head (filter (λ p, exists_dir p = true)
       (((λ d, "apps/" +:+ d +:+ "/" +:+ svc +:+ "/cmd") <$> (filter (λ e, e.2 = true) domains).*1) ++
        ["apps/" +:+ svc +:+ "/cmd"])))) tr).
Proof.
  revert tr. induction domains as [|[d []] domains IH]; intros tr; cbn [find_path_loop negb].
  - apply given_call. intros r Hst. simpl in Hst. subst r. intros _. split; [|by trace].
    rewrite app_nil_l, filter_cons. unfold exists_dir.
    destruct (stat ("apps/" +:+ svc +:+ "/cmd")); by case_decide.
  - rewrite filter_cons_True by done. rewrite !fmap_cons. cbn [fst app]. rewrite filter_cons.
    set (path := "apps/" +:+ d +:+ "/" +:+ svc +:+ "/cmd").
    apply given_call. intros r Hst. simpl in Hst.
    case_decide as He; unfold exists_dir in He; rewrite <-Hst in He; destruct r; try done.
    { intros _. split; [done|by trace]. }
    all: eapply given_mono; [|apply IH]; intros o tr' [-> Hr]; split; [done|by rewrite Hr; trace].
  - rewrite filter_cons_False by done. apply IH.
Qed.

Lemma findServicePath_yields svc tr :
  given on_file_system (findServicePath svc) tr (yields (source_path svc) tr).
Proof.
  apply given_call. intros domains Hd. simpl in Hd. subst domains.
  eapply given_mono; [|apply find_path_loop_yields]. intros o tr' [-> Hr].
  split; [done|by rewrite Hr; trace].
Qed.

(** The path of a service of the tree exists. *)
Lemma source_path_exists svc :
  svc ∈ services_in_tree → exists_dir (source_path svc) = true.
Proof.
  intros (d & Hsvc & Hd)%list_elem_of_bind. unfold source_path.
  set (l := filter _ _).
  assert (∃ p, p ∈ l) as [p Hp].
  { unfold domain_services in Hsvc. destruct (exists_dir ("apps/" +:+ d +:+ "/cmd")) eqn:Hflat.
    - apply list_elem_of_singleton in Hsvc as ->. exists ("apps/" +:+ d +:+ "/cmd").
      apply list_elem_of_filter. split; [done|]. apply elem_of_app. right. by left.
    - apply list_elem_of_filter in Hsvc as [Hex _]. exists ("apps/" +:+ d +:+ "/" +:+ svc +:+ "/cmd").
      apply list_elem_of_filter. split; [done|]. apply elem_of_app. left.
      apply list_elem_of_fmap. by exists d. }
  destruct l as [|q l'] eqn:Hl; [by apply elem_of_nil in Hp|].
  assert (q ∈ l) as Hq by (rewrite Hl; by left). by apply list_elem_of_filter in Hq as [? _].
Qed.

Lemma buildOne_runs svc tr :
  source_path svc ≠ ""%string →
  given on_file_system (buildOne windows svc) tr
    (λ o tr', o = inl tt ∧ ran tr' = ran tr ++ [build_command svc]).
Proof.
  intros Hp. apply given_bind. eapply given_mono; [|apply findServicePath_yields].
  intros o tr1 [-> Hr1]. rewrite decide_False by done.
  apply given_call. intros [] _. apply given_call. intros ok Hok. simpl in Hok. subst ok.
  intros [] _. split; [done|]. trace. by rewrite Hr1.
Qed.

Lemma build_list_runs l tr :
  (∀ svc, svc ∈ l → source_path svc ≠ ""%string) →
  given on_file_system (for_each l (buildOne windows)) tr
    (λ o tr', o = inl tt ∧ ran tr' = ran tr ++ (build_command <$> l)).
Proof.
  revert tr. induction l as [|svc l IH]; intros tr Hl.
  - intros _. split; [done|]. by rewrite app_nil_r.
  - cbn [for_each]. apply given_bind. eapply given_mono; [|apply buildOne_runs, Hl; by left].
    intros o tr1 [-> Hr1]. eapply given_mono; [|apply IH; intros; apply Hl; by right].
    intros o tr2 [-> Hr2]. split; [done|]. by rewrite Hr2, Hr1, <-app_assoc.
Qed.

(** Building everything builds every service of the tree.  On a file system
    where the empty path does not exist, and with a compiler that
    succeeds, every run of [svchelper build all] ends normally, having run the
    compiler on exactly the services [discoverServices] finds, in order, each on
    a directory that exists ([findServicePath] finds what [discoverServices]
    finds), and then on the tool itself. *)
Theorem build_all_builds_tree cfg :
  stat ""%string ≠ StatOk →
  every_run (doBuild windows cfg "all") (λ o tr,
    Forall on_file_system tr →
    o = inl tt ∧ ran tr = (build_command <$> services_in_tree) ++ [self_command] ∧
    Forall (λ svc, stat (source_path svc) = StatOk) services_in_tree).
Proof.
  intros Hempty.
  assert (∀ svc, svc ∈ services_in_tree → stat (source_path svc) = StatOk) as Hex.
  { intros svc Hsvc%source_path_exists. unfold exists_dir in Hsvc. by destruct (stat (source_path svc)). }
  unfold every_run, doBuild. rewrite decide_True by done.
  apply given_call. intros domains Hd. simpl in Hd. subst domains.
  apply given_bind. eapply given_mono; [|apply discover_loop_yields].
  intros o tr1 [-> Hr1]. apply given_bind. eapply given_mono; [|apply build_list_runs].
  - intros o tr2 [-> Hr2]. intros [] ok [] _. trace. rewrite Hr2, Hr1. trace.
    split_and!; [done..|]. by apply Forall_forall.
  - intros svc Hsvc%Hex Hp. by rewrite Hp in Hsvc.
Qed.
End building.

(** A tree with a flat service and a domain with one. *)
Definition tree_dirs (path : string) : list (string * bool) :=
  if decide (path = "apps"%string) then [("chatsvr"%string, true); ("user"%string, true); ("doc.md"%string, false)]
  else if decide (path = "apps/user"%string) then [("api"%string, true); ("user-service"%string, true)]
  else [].
Definition tree_stat (path : string) : StatResult :=
  if decide (path ∈ ["apps/chatsvr/cmd"; "apps/user/user-service/cmd"]%string) then StatOk
  else StatNotExist.

Lemma build_all_builds_tree_witness :
  services_in_tree tree_dirs tree_stat = ["chatsvr"; "user-service"]%string ∧
  source_path tree_dirs tree_stat "user-service" = "apps/user/user-service/cmd"%string ∧
  every_run (doBuild false zero_config "all") (λ o tr,
    Forall (on_file_system tree_dirs tree_stat) tr →
    o = inl tt ∧
    ran tr = (build_command false tree_dirs tree_stat <$> services_in_tree tree_dirs tree_stat) ++
             [self_command false] ∧
    Forall (λ svc, tree_stat (source_path tree_dirs tree_stat svc) = StatOk)
      (services_in_tree tree_dirs tree_stat)).
Proof.
  split; [vm_compute; reflexivity|]. split; [vm_compute; reflexivity|].
  apply (build_all_builds_tree false tree_dirs tree_stat). vm_compute. discriminate.
Defined.

(** ** Observations *)

(** A listener that [findPIDByPort] finds is one that [portOccupied] sees. *)
Lemma listener_occupied out pid port : names_listener out pid port → occupied_in out port = true.
Proof.
  intros (line & Hin & [Hp Hl]%andb_prop & _). apply andb_true_intro.
  split; by eapply Contains_Split.
Qed.

(** The converse fails: [portOccupied] looks for the port and for LISTENING in
    the whole table, not in one line.  A client connected to a remote port 8001
    and any listener make port 8001 look occupied. *)
Lemma occupied_without_listener :
  let out := ("  TCP 10.0.0.5:50123 10.0.0.9:8001  ESTABLISHED 812" +:+ String newline_char
              "  TCP 0.0.0.0:22 0.0.0.0:0  LISTENING 7")%string in
  occupied_in out 8001 = true ∧ pid_of_lines (Split newline_char out) 8001 = 0.
Proof. vm_compute. done. Qed.

(** The configuration file [startGRPCService] looks for: the slash between the
    directory of the service and [config.yml] is missing. *)
Lemma service_config_path dir :
  drop_end 4 (dir +:+ "/cmd") ≫= (λ d, Ok (d +:+ "config.yml")) = Ok (dir +:+ "config.yml").
Proof. change 4%nat with (String.length "/cmd"). by rewrite drop_end_app. Qed.

(** [connState] and [connPID] agree. *)
Lemma connState_connPID nets pid port :
  connState nets pid port = (if connPID nets pid port then "ESTABLISHED" else "NOT CONNECTED")%string.
Proof. induction nets as [|line nets IH]; simpl; [done|]. by destruct (established line pid port). Qed.
