(* ===== verification/Wiring.v ===== *)
(** * How the backends are put together

    The servers that the main functions of [apps/chatsvr], [apps/matchsvr],
    [apps/roomsvr] and [apps/sessionsvr] set up: the routers each registers and
    the message ids it announces to the gateways (the rest of the main functions
    is in the file Mains).  The network library hands a message to the
    router registered for its id and drops a message without one. *)

From S2P Require Import Prelude GoLib Proto Zinx Conf Broadcast Registry Room Match Chat Models.
#[local] Open Scope Z_scope.

(** What a backend announces, and the routers of its server. *)
Record Backend := mkBackend {
  be_service : string; be_forward : list Z; be_send : list Z; be_routers : list (Z * Router) }.

(** [server.New] followed by the server's own [AddRouter] calls. *)
Definition backend (service : string) (forward send : list Z) (own : list (Z * Router)) : Backend :=
  mkBackend service forward send (server_New service forward send ++ own).

Definition chatsvr_backend : Backend :=
  backend SvcChatSvr [MsgIdChatReq] [MsgIdChatResp] [(MsgIdChatReq, ChatRouter)].

Definition matchsvr_backend : Backend :=
  backend SvcMatchSvr
    [MsgIdMatchEnterReq; MsgIdMatchAllocateReq; MsgIdMatchQueryReq; MsgIdRoomDestroyedPush]
    [MsgIdMatchEnterResp; MsgIdMatchResultPush; MsgIdMatchAllocateResp; MsgIdMatchQueryResp]
    [(MsgIdMatchEnterReq, MatchRouter); (MsgIdMatchAllocateReq, MatchRouter);
     (MsgIdMatchQueryReq, MatchRouter); (MsgIdRoomDestroyedPush, MatchRouter)].

Definition roomsvr_backend : Backend :=
  backend SvcRoomSvr [MsgIdRoomJoinReq; MsgIdRoomLeaveReq]
    [MsgIdRoomJoinResp; MsgIdRoomLeaveResp; MsgIdRoomEventPush]
    [(MsgIdRoomJoinReq, RoomRouter); (MsgIdRoomLeaveReq, RoomRouter)].

Definition sessionsvr_backend : Backend :=
  backend SvcSessionSvr [] []
    [(MsgIdSessionSave, SessionRouter); (MsgIdSessionGet, SessionRouter);
     (MsgIdSessionDisconnect, SessionRouter); (MsgIdSessionReconnect, SessionRouter)].

(** The router a message goes to. *)
Definition dispatch (b : Backend) (msgID : Z) : option Router :=
  snd <$> (snd <$> list_find (λ r, r.1 = msgID) (be_routers b)).

Section serve.
Context `{Proto, Zinx W, BackendRouter R}.

(** A request on the server of backend [b], whose own routers do [own]; [w] is the
    state of the network library and [st] the state of the routers. *)
Definition serve {S} (b : Backend) (own : W → S → S * list Effect) (request : Request)
    (w : W) (st : S) : W * S * list Effect :=
  match dispatch b (rq_msgID request) with
  | None => (w, st, [])
  | Some PingRouter => (w, st, ping_Handle request)
  | Some (ServiceIdentityRouter service forward send) =>
      let '(w, es) := identity_Handle service forward send w request in (w, st, es)
  | Some _ => let '(st, es) := own w st in (w, st, es)
  end.

(** The chat, match and room servers. *)
Definition chat_serve (now : Z) (request : Request) : W → unit → W * unit * list Effect :=
  serve chatsvr_backend (λ w _, (tt, chat_Handle w now request)) request.

Definition match_serve (cfg : Config) (ck : Clock) (request : Request) :
    W → MatchSt → W * MatchSt * list Effect :=
  serve matchsvr_backend (λ _, match_Handle cfg ck request) request.

Definition room_serve (reg : option R) (request : Request) :
    W → gmap string (list roomPlayer) → W * gmap string (list roomPlayer) * list Effect :=
  serve roomsvr_backend (λ _, room_Handle reg request) request.
End serve.

(** * Theorems *)

(** Every message an effect list sends has one of these ids. *)
Definition sends_only (ids : list Z) (es : list Effect) : Prop :=
  Forall (λ e, ∃ c id data, e = SendMsg c id data ∧ id ∈ ids) es.

Lemma sends_only_app ids es es' :
  sends_only ids es → sends_only ids es' → sends_only ids (es ++ es').
Proof. intros. by apply Forall_app. Qed.

Lemma sends_only_nil ids : sends_only ids [].
Proof. constructor. Qed.

Lemma sends_only_one ids c id data : id ∈ ids → sends_only ids [SendMsg c id data].
Proof. intros. apply Forall_singleton. eauto. Qed.

Lemma sends_only_fmap {A} ids id (f : A → Conn) (g : A → bytes) l :
  id ∈ ids → sends_only ids ((λ x, SendMsg (f x) id (g x)) <$> l).
Proof. intros Hid. apply Forall_fmap, Forall_true. intros x. simpl. eauto. Qed.

Lemma sends_only_extend ids ids' es : sends_only ids es → sends_only (ids' ++ ids) es.
Proof.
  intros Hs. eapply Forall_impl; [exact Hs|]. intros e (c & id & data & -> & ?).
  exists c, id, data. split; [done|]. apply elem_of_app. by right.
Qed.

#[export] Hint Resolve sends_only_nil sends_only_one sends_only_app sends_only_fmap : cardwar.

Section contract.
Context `{Proto, Zinx W, BackendRouter R}.

Ltac in_list := repeat (apply list_elem_of_here || apply list_elem_of_further).
Ltac sends := repeat first [apply sends_only_nil | apply sends_only_app | apply sends_only_one; in_list].

Lemma broadcast_sends ids m members p event n :
  MsgIdRoomEventPush ∈ ids → sends_only ids (broadcastRoomEvent m members p event n).
Proof.
  intros Hid. apply Forall_forall. intros e (rp & _ & ->)%broadcastRoomEvent_elem. eauto.
Qed.

Lemma room_sends (reg : option R) request rooms :
  sends_only (MsgIdRoomDestroyedPush :: be_send roomsvr_backend) (room_Handle reg request rooms).2.
Proof.
  assert (∀ m p c rooms, sends_only (MsgIdRoomDestroyedPush :: be_send roomsvr_backend)
    (leave_room reg m p c rooms).2) as Hleave.
  { intros m p c rooms'. destruct (rooms' !! m) as [l|] eqn:Hm.
    2: { unfold leave_room. rewrite Hm. sends. }
    destruct (find_player p l) as [[i rp]|] eqn:Hf.
    2: { unfold leave_room. rewrite Hm, Hf. sends. }
    rewrite (leave_room_Some _ _ _ _ _ _ _ _ Hm Hf). cbn [snd].
    apply sends_only_app; [|sends]. destruct (_ =? 0)%nat.
    - unfold notifyMatchSvr. destruct reg as [r|]; [|sends].
      destruct (RouteTo r _ _); sends.
    - apply broadcast_sends. in_list. }
  unfold room_Handle. destruct (unmarshal _) as [env|]; [|sends].
  repeat case_match; [..|sends].
  - unfold handleJoin. destruct (unmarshal (ev_Data env)) as [req|]; [|unfold sendJoinResp; sends].
    destruct (join_load _ _) as [players rooms']. unfold join_store.
    destruct (find_player _ _); cbn [snd]; unfold sendJoinResp; [sends|].
    apply sends_only_app; [sends|]. destruct (_ <? _)%nat; [|sends].
    apply broadcast_sends. in_list.
  - destruct (unmarshal (A := RoomLeaveReq) (ev_Data env)) as [req|] eqn:Hr.
    + by rewrite (handleLeave_room _ _ _ _ _ Hr).
    + unfold handleLeave. rewrite Hr. sends.
  - unfold handleReconnected. repeat case_match; sends.
  - destruct (unmarshal (A := SessionData) (rq_data request)) as [d|] eqn:Hd.
    + by rewrite (handleForceLeave_room _ _ _ _ Hd).
    + unfold handleForceLeave. rewrite Hd. sends.
Qed.

Lemma match_sends cfg ck request st :
  sends_only (be_send matchsvr_backend) (match_Handle cfg ck request st).2.
Proof.
  unfold match_Handle. destruct (rq_msgID request =? _).
  { unfold handleForceLeaveQueue. repeat case_match; sends. }
  destruct (unmarshal _) as [env|]; [|sends].
  repeat case_match; [| | | |sends].
  - unfold handleEnter. destruct (unmarshal _) as [req|]; [|sends].
    destruct (_ <=? _)%nat; cbn [snd matchPool]; [|sends].
    apply (sends_only_fmap _ MsgIdMatchResultPush qp_conn). in_list.
  - unfold handleAllocate, sendAllocateResp. repeat case_match; sends.
  - unfold handleQuery. destruct (unmarshal _) as [req|]; [|sends].
    destruct (ms_activeMatches st !! _); sends.
  - unfold handleDestroyed. repeat case_match; sends.
Qed.

Lemma chat_sends (w : W) now request :
  sends_only (be_send chatsvr_backend) (chat_Handle w now request).
Proof.
  unfold chat_Handle. destruct (unmarshal _) as [env|]; [|sends].
  destruct (unmarshal _) as [req|]; [|sends].
  unfold ToPlayer, ToConn, ToAll, sendToAll.
  destruct (negb _); [apply sends_only_app; [|sends]|];
    apply (sends_only_fmap _ MsgIdChatResp (λ c, c)); in_list.
Qed.

(** What the routers of every server send: a pong for a ping, and the hello for an
    identity. *)
Definition common_ids (msgID : Z) : list Z :=
  if decide (msgID = MsgIdPing) then [MsgIdPong]
  else if decide (msgID = MsgIdServiceIdentity) then [MsgIdServiceHello] else [].

Lemma dispatch_backend service forward send own msgID :
  dispatch (backend service forward send own) msgID =
    if decide (msgID = MsgIdPing) then Some PingRouter
    else if decide (msgID = MsgIdServiceIdentity) then
      Some (ServiceIdentityRouter service forward send)
    else snd <$> (snd <$> list_find (λ r, r.1 = msgID) own).
Proof.
  unfold dispatch, backend, server_New. cbn [be_routers app list_find fst].
  repeat case_decide; simplify_eq; try done. by destruct (list_find _ own) as [[? ?]|].
Qed.

Lemma serve_sends {S} service forward send own_routers (own : W → S → S * list Effect) request
    (w : W) st ids :
  Forall (λ r, r.2 ≠ PingRouter ∧ ∀ s f n, r.2 ≠ ServiceIdentityRouter s f n) own_routers →
  sends_only ids (own w st).2 →
  sends_only (common_ids (rq_msgID request) ++ ids)
    (serve (backend service forward send own_routers) own request w st).2.
Proof.
  intros Hown Hs. unfold serve, common_ids. rewrite dispatch_backend.
  case_decide; [apply sends_only_one; by left|]. case_decide.
  { unfold identity_Handle. destruct (_ && _); [apply sends_only_nil|].
    apply sends_only_one. by left. }
  destruct (list_find _ own_routers) as [[i [id r]]|] eqn:Hf; simpl; [|apply sends_only_nil].
  apply list_find_Some in Hf as (Hl & _ & _).
  apply (Forall_lookup_1 _ _ _ _ Hown) in Hl as [Hnp Hni]. simpl in *.
  destruct (own w st) as [st' es]. destruct r; simpl; try done; try (by apply sends_only_extend). by edestruct Hni.
Qed.

(** C35: Every message id a backend announces that it handles has a router on
    that backend.  And the announcements of what it sends are true: whatever
    request they receive, the chat, match and room servers send only messages
    whose ids they announced to the gateways, apart from the room server's notice
    to the match server, the pong that answers a ping and the hello that answers
    an identity. *)
Theorem announcements_hold (reg : option R) (w : W) cfg ck now request rooms st :
  (∀ b id, b ∈ [chatsvr_backend; matchsvr_backend; roomsvr_backend; sessionsvr_backend] →
     id ∈ be_forward b → is_Some (dispatch b id)) ∧
  let common := common_ids (rq_msgID request) in
  sends_only (common ++ be_send chatsvr_backend) (chat_serve now request w ()).2 ∧
  sends_only (common ++ be_send matchsvr_backend) (match_serve cfg ck request w st).2 ∧
  sends_only (common ++ MsgIdRoomDestroyedPush :: be_send roomsvr_backend)
    (room_serve reg request w rooms).2.
Proof.
  split; [|split_and!; (apply serve_sends; [by repeat constructor|]);
    [apply chat_sends|apply match_sends|apply room_sends]].
  intros b id Hb Hid.
  repeat (apply elem_of_cons in Hb as [->|Hb]; [
    repeat (apply elem_of_cons in Hid as [->|Hid]; [vm_compute; eauto|]);
    by apply elem_of_nil in Hid|]).
  by apply elem_of_nil in Hb.
Qed.

(** C40: The notices about a player's session never take effect: the room server
    has no router for reconnections and forced leaves and the match server none
    for forced leaves of a queue, so both drop these messages although their
    routers have handlers for them. *)
Theorem session_notices_dropped (reg : option R) (w : W) cfg ck c data rooms st :
  room_serve reg (mkRequest c MsgIdSessionForceLeave data) w rooms = (w, rooms, []) ∧
  room_serve reg (mkRequest c MsgIdSessionReconnected data) w rooms = (w, rooms, []) ∧
  match_serve cfg ck (mkRequest c MsgIdSessionForceLeaveQueue data) w st = (w, st, []).
Proof. split_and!; reflexivity. Qed.
End contract.
