(* ===== verification/Mains.v ===== *)
(** * The main functions of the servers

    [apps/chatsvr], [apps/matchsvr], [apps/roomsvr], [apps/sessionsvr] and
    [apps/gateway]: loading the configuration, finding the server in it, the
    backends each dials, the session server's store, and the server it hands to
    the network library.  A panic is the end of the process.  The flags are
    arguments; what the operating system and the network answer is an argument
    too ([file] the configuration file, [dw] what [Dial] meets). *)

From S2P Require Import Prelude GoLib Proto Zinx Models Conf Broadcast Pool Registry Store Session.
From S2P Require Import Gateway Wiring.
#[local] Open Scope Z_scope.

(** [zconf.Config], as the main functions fill it. *)
Record ServerCfg := mkServerCfg { sv_Name : string; sv_Host : string; sv_TCPPort : Z }.

(** A server that is about to serve: its configuration, its routers and
    announcements, its registry if it has one, and the messages sent on the way. *)
Record Running (W : Type) := mkRunning {
  rn_cfg : ServerCfg; rn_backend : Backend; rn_reg : option (Registry W); rn_w : W;
  rn_effects : list Effect }.
Arguments mkRunning {W}.
Arguments rn_cfg {W}.
Arguments rn_backend {W}.
Arguments rn_reg {W}.
Arguments rn_w {W}.
Arguments rn_effects {W}.

Section mains.
Context (yaml : bytes → Config * bool).
Context `{Proto, SessionJson, Zinx W}.
Implicit Types (w : W) (dw : DialWorld).

(** [conf.Load], whose error is fatal. *)
Definition must_load (file : option bytes) : result Config :=
  match Load yaml file with
  | (cfg, None) => Ok cfg
  | (_, Some _) => Panic "load config"
  end.

(** The configuration, and the server [id] of service [svc] in it. *)
Definition find_self (file : option bytes) (svc id : string) : result (Config * ServerCfg) :=
  must_load file ≫= λ cfg,
  LookupServer (services_of cfg svc) id svc ≫= λ node,
  ParseHostPort (sn_Listen node) ≫= λ '(host, port),
  Ok (cfg, mkServerCfg svc host port).

Definition chatsvr_main (file : option bytes) (csID : string) w : result (Running W) :=
  find_self file SvcChatSvr csID ≫= λ '(_, cfg),
  Ok (mkRunning cfg chatsvr_backend None w []).

(** An error of [conf.Watch] is only logged; its callback only logs too. *)
Definition matchsvr_main (file : option bytes) (svrID : string) w : result (Running W) :=
  find_self file SvcMatchSvr svrID ≫= λ '(_, cfg),
  Ok (mkRunning cfg matchsvr_backend None w []).

Definition roomsvr_main (file : option bytes) (svrID : string) w dw : result (Running W) :=
  find_self file SvcRoomSvr svrID ≫= λ '(global, cfg),
  reg_Dial global (NewRegistry SvcRoomSvr) w SvcMatchSvr [] HashRoute dw ≫= λ '(reg, w, es),
  Ok (mkRunning cfg roomsvr_backend (Some reg) w es).

(** [InitStore]: the package's variables afterwards, and whether it failed. *)
Definition InitStore (o : OpenOutcome) (files : Files) : SessSt * bool :=
  match OpenStore session_store_config o files ∅ with
  | (m, files, inl (store, _)) => (mkSessSt m (Some store) files, false)
  | (m, files, inr _) => (mkSessSt m None files, true)
  end.

(** [StartAutoSnapshot] does something only when there is a store. *)
Definition auto_snapshot (st : SessSt) : bool := bool_decide (is_Some (ss_store st)).

(** [CloseStore], which [main] defers *)
Definition CloseStore (close_ok : bool) (st : SessSt) : SessSt :=
  match ss_store st with
  | None => st
  | Some store => mkSessSt (ss_sessions st) (Some (store_Close close_ok store).1) (ss_files st)
  end.

(** The server, the sessions, and whether the snapshot loop runs; the expiry
    scanner always does.  An error of [InitStore] is only logged. *)
Definition sessionsvr_main (file : option bytes) (svrID : string) (o : OpenOutcome)
    (files : Files) w (dw_room dw_match : DialWorld) : result (Running W * SessSt * bool) :=
  find_self file SvcSessionSvr svrID ≫= λ '(global, cfg),
  let st := (InitStore o files).1 in
  reg_Dial global (NewRegistry SvcSessionSvr) w SvcRoomSvr [] HashRoute dw_room ≫= λ '(reg, w, es),
  reg_Dial global reg w SvcMatchSvr [] HashRoute dw_match ≫= λ '(reg, w, es'),
  Ok (mkRunning cfg sessionsvr_backend (Some reg) w (es ++ es'), st, auto_snapshot st).

(** The routes are visited in the orders [order] and [order_dial]; [hellos] are the
    hellos handled while a service is dialled. *)
Definition gateway_main (file : option bytes) (gwID : string)
    (order order_dial : Config → list (string * BackendRoute)) (dws : string → DialWorld)
    (hellos : string → list Request) w : result (GatewayServer W * list Effect) :=
  must_load file ≫= λ cfg, gateway_New cfg (order cfg) (order_dial cfg) dws hellos gwID w.
End mains.

(** * Theorems *)

Section theorems.
Context (yaml : bytes → Config * bool).
Context `{Proto, SessionJson, Zinx W}.
Implicit Types (w : W) (r : Registry W).

(** The configuration names this server with an address. *)
Definition configured (file : option bytes) (svc id : string) (global : Config) (cfg : ServerCfg) : Prop :=
  ∃ data node, file = Some data ∧ yaml data = (global, false) ∧
    LookupServer (services_of global svc) id svc = Ok node ∧
    ParseHostPort (sn_Listen node) = Ok (sv_Host cfg, sv_TCPPort cfg) ∧ sv_Name cfg = svc.

Lemma find_self_spec file svc id global cfg :
  find_self yaml file svc id = Ok (global, cfg) ↔ configured file svc id global cfg.
Proof.
  unfold find_self, must_load, Load, configured. destruct file as [data|]; simpl;
    [|split; [done|]; by intros (? & ? & ? & _)].
  destruct (yaml data) as [g failed] eqn:Hy. destruct failed; simpl.
  { split; [done|]. intros (? & ? & [= <-] & Hy' & _). by rewrite Hy in Hy'. }
  destruct (LookupServer _ _ _) as [node|] eqn:Hl; simpl.
  2: { split; [done|]. intros (? & ? & [= <-] & Hy' & Hl' & _). rewrite Hy in Hy'. simplify_eq. by rewrite Hl in Hl'. }
  destruct (ParseHostPort _) as [[host port]|] eqn:Hp; simpl.
  2: { split; [done|]. intros (? & ? & [= <-] & Hy' & Hl' & Hp' & _). rewrite Hy in Hy'. simplify_eq.
       rewrite Hl in Hl'. simplify_eq. by rewrite Hp in Hp'. }
  split.
  - intros [= <- <-]. by exists data, node.
  - intros (? & ? & [= <-] & Hy' & Hl' & Hp' & Hn). destruct cfg. simpl in *. rewrite Hy in Hy'. simplify_eq.
    rewrite Hl in Hl'. simplify_eq. rewrite Hp in Hp'. by simplify_eq.
Qed.

(** Dialling a service: it returns for a dialable one, and then the registry
    has a pool with its servers and the pools it had. *)
Lemma reg_Dial_spec cfg r w svc routers routeFn dw :
  match reg_Dial cfg r w svc routers routeFn dw with
  | Ok (r', _, _) =>
      dialable cfg svc ∧
      (∃ p, reg_Pool r' svc = Some p ∧ ServerAddrs p = sn_Listen <$> services_of cfg svc) ∧
      ∀ svc', svc' ≠ svc → reg_Pool r' svc' = reg_Pool r svc'
  | Panic _ => ¬ dialable cfg svc
  end.
Proof.
  unfold reg_Dial. pose proof (Dial_returns cfg w svc routers routeFn (rg_identity r) dw) as Hret.
  destruct (Dial _ _ _ _ _ _ _) as [[[[p w'] es] sp]|] eqn:HD; simpl.
  2: { intros [? ?]%Hret. done. }
  split_and!; [by apply Hret; eauto| |].
  - exists p. split; [apply lookup_insert_eq|by eapply Dial_servers].
  - intros svc' Hne. by apply lookup_insert_ne.
Qed.

(** The registry can reach service [svc]: it has a pool with its servers. *)
Definition pooled (global : Config) r (svc : string) : Prop :=
  ∃ p, reg_Pool r svc = Some p ∧ ServerAddrs p = sn_Listen <$> services_of global svc.

(** C23: The session server starts exactly when it should.  Its main function
    panics only when the configuration cannot be loaded, does not name this
    server with an address, or has no parsable list of room or of match servers;
    otherwise, whatever the network does and whether or not a backend can be
    reached, it serves on the configured address, with a pool for every room and
    match server.  The sessions are those recovered from the files as far as
    they can be read, and the store is open (and snapshots are taken) exactly if
    its directory and journal can be opened: a failing store does not keep the
    server from starting. *)
Theorem session_server_starts file id o files w dw_room dw_match :
  match sessionsvr_main yaml file id o files w dw_room dw_match with
  | Panic _ =>
      ¬ ∃ global cfg, configured file SvcSessionSvr id global cfg ∧
          dialable global SvcRoomSvr ∧ dialable global SvcMatchSvr
  | Ok (run, st, snapshots) =>
      (∃ global reg, configured file SvcSessionSvr id global (rn_cfg run) ∧ rn_reg run = Some reg ∧
         pooled global reg SvcRoomSvr ∧ pooled global reg SvcMatchSvr) ∧
      rn_backend run = sessionsvr_backend ∧
      (oo_mkdir o = true →
         ss_sessions st = (replayJournal replaySession files (oo_open o)
           (load_snapshot loadSnapshot files (oo_read o) ∅)).1) ∧
      snapshots = oo_mkdir o && oo_append o ∧ snapshots = bool_decide (is_Some (ss_store st))
  end.
Proof.
  unfold sessionsvr_main. destruct (find_self yaml file SvcSessionSvr id) as [[global cfg]|] eqn:Hf.
  2: { simpl. intros (global & cfg & Hc%find_self_spec & _). by rewrite Hf in Hc. }
  apply find_self_spec in Hf as Hc. simpl.
  assert (∀ svc, ¬ dialable global svc → svc ∈ [SvcRoomSvr; SvcMatchSvr] →
    ¬ ∃ g cfg', configured file SvcSessionSvr id g cfg' ∧
        dialable g SvcRoomSvr ∧ dialable g SvcMatchSvr) as Hnot.
  { intros svc Hnd Hin (g & cfg' & Hc'%find_self_spec & Hr & Hm). rewrite Hf in Hc'. simplify_eq.
    apply Hnd. set_unfold. by destruct Hin as [->|[->|[]]]. }
  pose proof (reg_Dial_spec global (NewRegistry SvcSessionSvr) w SvcRoomSvr [] HashRoute dw_room) as Hd1.
  destruct (reg_Dial global (NewRegistry SvcSessionSvr) _ _ _ _ _) as [[[r1 w1] es1]|]; simpl;
    [|apply (Hnot SvcRoomSvr Hd1); set_solver].
  destruct Hd1 as (_ & Hroom & _).
  pose proof (reg_Dial_spec global r1 w1 SvcMatchSvr [] HashRoute dw_match) as Hd2.
  destruct (reg_Dial global r1 _ _ _ _ _) as [[[r2 w2] es2]|]; simpl;
    [|apply (Hnot SvcMatchSvr Hd2); set_solver].
  destruct Hd2 as (_ & Hmatch & Hkeep).
  split. { exists global, r2. split_and!; [done|done| |done]. unfold pooled. by rewrite Hkeep. }
  split; [done|]. unfold InitStore, OpenStore, auto_snapshot. simpl.
  destruct (oo_mkdir o); [|done]. simpl. by destruct (oo_append o).
Qed.

(** A route that one of the hellos handled while [services] are dialled asks for. *)
Definition announced_by (services : list string) (hellos : string → list Request)
    (cfgs : gmap string BackendRouteCfg) (m : Z) (info : BackendRouteInfo) : Prop :=
  ∃ svc request, svc ∈ services ∧ request ∈ hellos svc ∧ announces cfgs request m info.

(** What dialling [services] does to a gateway. *)
Definition dialled (global : Config) (services : list string) (hellos : string → list Request)
    (gw gw' : GatewayServer W) : Prop :=
  (∀ svc, svc ∈ services → dialable global svc ∧ pooled global (gw_Registry gw') svc) ∧
  (∀ svc, pooled global (gw_Registry gw) svc → pooled global (gw_Registry gw') svc) ∧
  gw_ID gw' = gw_ID gw ∧ gw_PlayerConns gw' = gw_PlayerConns gw ∧
  gw_backendCfgs gw' = gw_backendCfgs gw ∧
  routes_grow (announced_by services hellos (gw_backendCfgs gw)) gw gw'.

Lemma dialled_trans global s1 s2 hellos gw1 gw2 gw3 :
  dialled global s1 hellos gw1 gw2 → dialled global s2 hellos gw2 gw3 →
  dialled global (s1 ++ s2) hellos gw1 gw3.
Proof.
  intros (A1 & K1 & I1 & P1 & B1 & R1) (A2 & K2 & I2 & P2 & B2 & R2).
  split_and!; [|by auto|congruence..|].
  - intros svc [Hs|Hs]%elem_of_app; [|by apply A2]. destruct (A1 svc Hs). auto.
  - eapply routes_grow_trans; eapply routes_grow_mono; [|exact R1| |exact R2].
    + intros m info (svc & rq & ? & ?). exists svc, rq. rewrite elem_of_app. tauto.
    + rewrite B1. intros m info (svc & rq & ? & ?). exists svc, rq. rewrite elem_of_app. tauto.
Qed.

Lemma pools_kept_pooled global r r' svc : pools_kept r r' → pooled global r svc → pooled global r' svc.
Proof.
  intros Hk (p & Hp & Ha). specialize (Hk svc). rewrite Hp in Hk.
  destruct (reg_Pool r' svc) as [p'|] eqn:Hp'; [|done]. exists p'. split; [done|].
  destruct Hk as [Hk _]. congruence.
Qed.

Lemma gw_Dial_spec global svc routers routeFn dw hellos (gw : GatewayServer W) :
  match gw_Dial global svc routers routeFn dw (hellos svc) gw with
  | Ok (gw', _) => dialled global [svc] hellos gw gw'
  | Panic _ => ¬ dialable global svc
  end.
Proof.
  unfold gw_Dial. destruct (handle_hellos_frame (hellos svc) gw) as ((HI & Hw & HP & HB & _) & Hk & Hg).
  destruct (handle_hellos (hellos svc) gw) as [gw1 es1]. simpl in *.
  pose proof (reg_Dial_spec global (gw_Registry gw1) (gw_w gw1) svc routers routeFn dw) as Hd.
  destruct (reg_Dial _ _ _ _ _ _ _) as [[[r w] es]|]; simpl; [|done].
  destruct Hd as (Hdial & Hp & Hkeep). split_and!; simpl; [|  |done..|].
  - by intros svc' ->%list_elem_of_singleton.
  - intros svc' Hs. destruct (decide (svc' = svc)) as [->|Hne]; [done|]. unfold pooled.
    rewrite Hkeep by done. by eapply pools_kept_pooled.
  - assert (routes_grow (announced_by [svc] hellos (gw_backendCfgs gw)) gw gw1) as Hg1.
    { eapply routes_grow_mono, Hg. intros m info (rq & ? & ?). exists svc, rq. set_solver. }
    exact Hg1.
Qed.

(** Dialling a list of backends. *)
Lemma dial_backends_spec global dws hellos order (gw : GatewayServer W) :
  match dial_backends global dws hellos order gw with
  | Ok (gw', _) => dialled global order.*1 hellos gw gw'
  | Panic _ => ∃ svc, svc ∈ order.*1 ∧ ¬ dialable global svc
  end.
Proof.
  revert gw. induction order as [|[svc rc] order IH]; intros gw; cbn [dial_backends].
  { split_and!; [by intros ? ?%elem_of_nil|done..|apply routes_grow_refl]. }
  pose proof (gw_Dial_spec global svc backendRouters (RouteFuncFor (br_RouteType rc)) (dws svc) hellos gw) as Hd.
  destruct (gw_Dial _ _ _ _ _ _ _) as [[gw1 es1]|]; simpl; [|by exists svc; split; [left|]].
  specialize (IH gw1). destruct (dial_backends _ _ _ _ gw1) as [[gw2 es2]|]; simpl.
  - exact (dialled_trans global [svc] order.*1 hellos gw gw1 gw2 Hd IH).
  - destruct IH as (svc' & ? & ?). exists svc'. split; [by right|done].
Qed.

(** What the configuration must have for the gateway [id]. *)
Definition gateway_configured (file : option bytes) (id : string) (global : Config)
    (services : list string) : Prop :=
  (∃ data, file = Some data ∧ yaml data = (global, false)) ∧
  (∃ node ws tcp, LookupServer (services_of global SvcGateway) id SvcGateway = Ok node ∧
     ParseHostPort (sn_WSListen node) = Ok ws ∧ ParseHostPort (sn_TCPListen node) = Ok tcp) ∧
  ∀ svc, svc ∈ SvcSessionSvr :: services → dialable global svc.

Lemma initWebSocket_returns global id :
  (∃ a, initWebSocket global id = Ok a) ↔
  ∃ node ws tcp, LookupServer (services_of global SvcGateway) id SvcGateway = Ok node ∧
    ParseHostPort (sn_WSListen node) = Ok ws ∧ ParseHostPort (sn_TCPListen node) = Ok tcp.
Proof.
  unfold initWebSocket. split.
  - intros [r Hr]. destruct (LookupServer _ _ _) as [node|]; [|done]. simpl in Hr. exists node.
    destruct (ParseHostPort (sn_WSListen node)) as [[? ?]|]; [|done]. simpl in Hr.
    destruct (ParseHostPort (sn_TCPListen node)) as [[? ?]|]; [|done]. eauto.
  - intros (node & [? ?] & [? ?] & -> & Hws & Htcp). simpl. rewrite Hws. simpl. rewrite Htcp. simpl. eauto.
Qed.

(** C24: The gateway starts exactly when its configuration is complete: the file
    loads and names the gateway with its two addresses, and every backend of the
    route table and the session service have parsable servers.  It then has a
    pool, with every configured server, for each of them, and no player; an
    unreachable backend does not stop it.  Its routes are those of the
    configuration, except for the message ids it has registered for the hellos
    handled while it dialled, which go to the service that announced them; so
    they are exactly the configuration's when there was none. *)
Theorem gateway_starts file id order order_dial dws hellos w :
  match gateway_main yaml file id order order_dial dws hellos w with
  | Panic _ => ∀ global, ¬ gateway_configured file id global (order_dial global).*1
  | Ok (gw, _) => ∃ global, gateway_configured file id global (order_dial global).*1 ∧
      let services := SvcSessionSvr :: (order_dial global).*1 in
      let index := BuildRouteIndex (order global) in
      (∀ svc, svc ∈ services → pooled global (gw_Registry gw) svc) ∧
      gw_ID gw = id ∧ gw_PlayerConns gw = ∅ ∧ gw_backendCfgs gw = index.2 ∧
      (∀ m, if decide (m ∈ gw_fwdRegistered gw)
            then ∃ info, gw_routes gw !! m = Some info ∧ announced_by services hellos index.2 m info
            else gw_routes gw !! m = index.1 !! m) ∧
      ((∀ svc, svc ∈ services → hellos svc = []) →
         (gw_routes gw, gw_backendCfgs gw) = BuildRouteIndex (order global))
  end.
Proof.
  unfold gateway_main, must_load, Load, gateway_configured.
  destruct file as [data|]; simpl; [|by intros global ((? & ? & _) & _)].
  destruct (yaml data) as [g failed] eqn:Hy. destruct failed; simpl.
  { intros global ((? & [= <-] & Hy') & _). by rewrite Hy in Hy'. }
  assert (∀ P : Config → Prop, ¬ P g →
    ∀ global, ¬ ((∃ d, Some data = Some d ∧ yaml d = (global, false)) ∧ P global)) as Hnot.
  { intros P HP global [(? & [= <-] & Hy') HP']. rewrite Hy in Hy'. by simplify_eq. }
  unfold gateway_New. destruct (BuildRouteIndex (order g)) as [ri bc] eqn:Hb.
  set (gw0 := mkGateway _ _ _ _ _ _ _ _ _ _ _).
  pose proof (initWebSocket_returns g id) as Hws.
  destruct (initWebSocket g id) as [[? es]|]; simpl.
  2: { apply Hnot. intros [[? ?]%Hws _]. done. }
  pose proof (dial_backends_spec g dws hellos (order_dial g) gw0) as Hd.
  destruct (dial_backends _ _ _ _ _) as [[gw1 es1]|]; simpl.
  2: { apply Hnot. intros [_ Hall]. destruct Hd as (svc & Hin & Hnd). apply Hnd, Hall. by right. }
  pose proof (gw_Dial_spec g SvcSessionSvr sessionRouters HashRoute (dws SvcSessionSvr) hellos gw1) as Hs.
  destruct (gw_Dial _ _ _ _ _ _ _) as [[gw2 es2]|]; simpl.
  2: { apply Hnot. intros [_ Hall]. apply Hs, Hall. by left. }
  destruct (dialled_trans _ _ _ _ _ _ _ Hd Hs) as (Hall & _ & HI & HP & HB & _ & Hg).
  assert (∀ svc, svc ∈ SvcSessionSvr :: (order_dial g).*1 → svc ∈ (order_dial g).*1 ++ [SvcSessionSvr])
    as Hsv by set_solver.
  exists g. split.
  { split_and!; [by exists data|by apply Hws; eauto|]. intros svc Hin. by apply Hall, Hsv. }
  cbn zeta. rewrite Hb.
  assert (∀ m, if decide (m ∈ gw_fwdRegistered gw2)
    then ∃ info, gw_routes gw2 !! m = Some info ∧
      announced_by (SvcSessionSvr :: (order_dial g).*1) hellos bc m info
    else gw_routes gw2 !! m = ri !! m) as Hroutes.
  { intros m. specialize (Hg m). cbn [gw0 gw_routes gw_fwdRegistered] in Hg.
    destruct (decide (m ∈ gw_fwdRegistered gw2)) as [Hm|Hm].
    - rewrite decide_True in Hg by set_solver. destruct Hg as (info & ? & svc & rq & Hin & ?).
      exists info. split; [done|]. exists svc, rq. split; [set_solver|done].
    - by rewrite decide_False in Hg by tauto. }
  split_and!; [|done..|].
  - intros svc Hin. by apply Hall, Hsv.
  - intros Hno. rewrite HB. f_equal. apply map_eq. intros m. specialize (Hroutes m).
    case_decide; [|done]. destruct Hroutes as (info & _ & svc & rq & Hin & Hr & _).
    rewrite Hno in Hr by done. by apply elem_of_nil in Hr.
Qed.
End theorems.
