(* ===== verification/Clients.v ===== *)
(** * The clients: [tools/testclient] and [tools/loadtest]

    The test client as a program (file OS) and its routers; the load test as a
    state machine whose steps are what its goroutines do between two waits:
    connecting, a message arriving, the receiver taking one, a tick of the
    sender, and the end.  Delays and what the load test prints while it runs are
    not represented, and of its report only the numbers are. *)

From Stdlib Require Import Ascii.
From S2P Require Import Prelude GoLib GoStrings Proto Zinx Models Conf OS Auth Registry Gateway.
#[local] Open Scope Z_scope.

Inductive ClientRouter := PongRouter | ChatRespRouter | LoadRespRouter.

(** [znet.NewWsClient] with its URL and routers. *)
Record WsClient := mkWsClient {
  wc_Host : string; wc_Port : Z; wc_Path : string; wc_RawQuery : string;
  wc_routers : list (Z * ClientRouter) }.

Definition NewWsClient (host : string) (port : Z) (token : string)
    (routers : list (Z * ClientRouter)) : WsClient :=
  mkWsClient host port "/ws" ("token=" +:+ QueryEscape token) routers.

(** ** The test client *)

Section testclient.
Context `{Proto, Jwt} (yaml : bytes → Config * bool) (show : LoadError → string).

(** [chatLoop] on a connection, from message [i] on, with the outcomes of the
    sends so far: what it sent and whether it has returned. *)
Fixpoint chatLoop (playerID : Z) (conn : Conn) (i : Z) (sends : list bool) : list Effect * bool :=
  match sends with
  | [] => ([], false)
  | ok :: sends =>
      let msg := mkChatReq ("Hello #" +:+ FormatInt i +:+ " from " +:+ FormatInt playerID) 0 in
      let e := SendMsg conn MsgIdChatReq (marshal msg) in
      if (ok : bool) then let '(es, ended) := chatLoop playerID conn (int64 (i + 1)) sends in (e :: es, ended)
      else ([e], true)
  end.

(** [onClientStart]: the line it prints, and the loop it starts. *)
Definition onClientStart (playerID : Z) (conn : Conn) (sends : list bool) : string * (list Effect * bool) :=
  ("Connected to gateway via WebSocket"%string, chatLoop playerID conn 0 sends).

(** [ChatRespRouter.Handle]: the line it prints; [err] is the decoder's error. *)
Definition ChatResp_Handle (err : string) (data : bytes) : string :=
  match unmarshal (A := ChatResp) data with
  | None => "ChatResp parse error: " +:+ err
  | Some msg =>
      if cr_SenderPlayerId msg =? -1 then "[Error] " +:+ cr_Content msg
      else if negb (cr_TargetPlayerId msg =? 0) then
        "[Private] " +:+ FormatInt (cr_SenderPlayerId msg) +:+ " -> " +:+
        FormatInt (cr_TargetPlayerId msg) +:+ ": " +:+ cr_Content msg
      else "[Global] " +:+ FormatInt (cr_SenderPlayerId msg) +:+ ": " +:+ cr_Content msg
  end.

(** [PongRouter.Handle] *)
Definition Pong_Handle : string := "Call PongRouter Handle".

(** [main] up to [client.Start]: the client and [playerID]. *)
Definition testclient_main (args : list string) : prog (WsClient * Z) :=
  let pidStr := default "1"%string (args !! 1%nat) in
  let playerID := (ParseInt pidStr).1 in
  data ← call (ReadFile "config.yml");
  match Load yaml (to_bytes <$> data) with
  | (_, Some err) => Println ("Failed to load config: " +:+ show err);; exit 1
  | (cfg, None) =>
      if decide (gc_JWTSecret (cfg_Gateway cfg) = ""%string) then
        Println "JWT secret not configured";; exit 1
      else
        now ← call Now;
        let token := GenerateJWT now playerID (gc_JWTSecret (cfg_Gateway cfg)) in
        mret (NewWsClient "127.0.0.1" 9000 token
                [(MsgIdPong, PongRouter); (MsgIdChatResp, ChatRespRouter)], playerID)
  end.
End testclient.

(** ** The load test *)

Record Flags := mkFlags {
  fl_Clients : Z; fl_Duration : Z; fl_Host : string; fl_Port : Z; fl_Secret : string; fl_Mode : string }.
Definition default_flags : Flags :=
  mkFlags 10 10 "127.0.0.1" 19000 "change-me-in-production" "global".

(** The counters; [latencies] is never used. *)
Record stats := mkStats { sta_sent : Z; sta_received : Z; sta_errors : Z; sta_latSum : Z }.

Definition add_sent (st : stats) := mkStats (int64 (sta_sent st + 1)) (sta_received st) (sta_errors st) (sta_latSum st).
Definition add_error (st : stats) := mkStats (sta_sent st) (sta_received st) (int64 (sta_errors st + 1)) (sta_latSum st).
Definition add_received (lat : Z) (st : stats) :=
  mkStats (sta_sent st) (int64 (sta_received st + 1)) (sta_errors st) (int64 (sta_latSum st + lat)).

(** The goroutine of a client waits for the connection, sends, or has ended;
    [lc_receiving] is its receiver, [lc_ch] the channel [recvCh]. *)
Inductive Phase := Connecting | Sending | Ended.
Record LoadClient := mkLoadClient { lc_phase : Phase; lc_receiving : bool; lc_ch : list ChatResp }.

(** The capacity of [recvCh]. *)
Definition chan_cap : Z := 10000.

(** [lt_stopped]: [stopCh] is closed; [lt_wg]: the counter of the wait group. *)
Record LoadTest := mkLoadTest {
  lt_stats : stats; lt_clients : gmap Z LoadClient; lt_stopped : bool; lt_wg : Z }.

Section loadtest.
Context `{Proto, Jwt} (f : Flags) (conn_of : Z → Conn).

(** The client [connectClient] makes for a player. *)
Definition load_client (now playerID : Z) : WsClient :=
  NewWsClient (fl_Host f) (fl_Port f) (GenerateJWT now playerID (fl_Secret f))
    [(MsgIdChatResp, LoadRespRouter)].

(** The first lines of [runClient]: whom the client writes to, 0 for everybody. *)
Definition target_of (myID : Z) : Z :=
  if decide (fl_Mode f = "private"%string ∨ fl_Mode f = "mixed"%string ∧ Z.rem myID 2 = 0) then
    let targetID := int64 (myID + 1) in
    if fl_Clients f <? targetID then 1 else targetID
  else 0.

(** [chatRespRouter.Handle]: a message is dropped when the channel is full. *)
Definition load_Handle (data : bytes) (ch : list ChatResp) : list ChatResp :=
  match unmarshal (A := ChatResp) data with
  | None => ch
  | Some msg => if Z.of_nat (length ch) <? chan_cap then ch ++ [msg] else ch
  end.

(** What the receiver adds to [latSum] at time [now], in nanoseconds. *)
Definition latency (now : Z) (rsp : ChatResp) : Z :=
  int64 (now - int64 (cr_Timestamp rsp * 1000000)).

Inductive LoadEvent :=
  | EvConnected (id : Z)
  | EvConnectTimeout (id : Z)
  | EvMessage (id : Z) (data : bytes)
  | EvReceive (id now : Z)
  | EvReceiverStops (id : Z)
  | EvTick (id : Z) (ok : bool)
  | EvSenderStops (id : Z)
  | EvStop.

(** The goroutines started so far have each added one to the wait group. *)
Definition load_init : LoadTest :=
  let ids := (λ i, Z.of_nat i + 1) <$> seq 0 (Z.to_nat (fl_Clients f)) in
  mkLoadTest (mkStats 0 0 0 0) (list_to_map ((λ id, (id, mkLoadClient Connecting false [])) <$> ids))
    false (Z.of_nat (length ids)).

Definition set_client (id : Z) (c : LoadClient) (wg : Z) (st : stats) (t : LoadTest) : LoadTest :=
  mkLoadTest st (<[id := c]> (lt_clients t)) (lt_stopped t) wg.

(** One step; [None] when it cannot happen. *)
Definition load_step (t : LoadTest) (ev : LoadEvent) : option (LoadTest * list Effect) :=
  let st := lt_stats t in
  match ev with
  | EvStop => Some (mkLoadTest st (lt_clients t) true (lt_wg t), [])
  | EvConnected id =>
      c ← lt_clients t !! id;
      if lc_phase c is Connecting then
        Some (set_client id (mkLoadClient Sending true (lc_ch c)) (lt_wg t + 1) st t, [])
      else None
  | EvConnectTimeout id =>
      c ← lt_clients t !! id;
      if lc_phase c is Connecting then
        Some (set_client id (mkLoadClient Ended false (lc_ch c)) (lt_wg t - 1) (add_error st) t, [])
      else None
  | EvMessage id data =>
      c ← lt_clients t !! id;
      Some (set_client id (mkLoadClient (lc_phase c) (lc_receiving c) (load_Handle data (lc_ch c)))
              (lt_wg t) st t, [])
  | EvReceive id now =>
      c ← lt_clients t !! id;
      match lc_receiving c, lc_ch c with
      | true, rsp :: ch =>
          Some (set_client id (mkLoadClient (lc_phase c) true ch) (lt_wg t)
                  (add_received (latency now rsp) st) t, [])
      | _, _ => None
      end
  | EvReceiverStops id =>
      c ← lt_clients t !! id;
      if lc_receiving c && lt_stopped t then
        Some (set_client id (mkLoadClient (lc_phase c) false (lc_ch c)) (lt_wg t - 1) st t, [])
      else None
  | EvTick id ok =>
      c ← lt_clients t !! id;
      if lc_phase c is Sending then
        let req := mkChatReq ("msg-from-" +:+ FormatInt id) (target_of id) in
        Some (set_client id c (lt_wg t) (add_sent (if ok : bool then st else add_error st)) t,
              [SendMsg (conn_of id) MsgIdChatReq (marshal req)])
      else None
  | EvSenderStops id =>
      c ← lt_clients t !! id;
      match lc_phase c, lt_stopped t with
      | Sending, true =>
          Some (set_client id (mkLoadClient Ended (lc_receiving c) (lc_ch c)) (lt_wg t - 1) st t, [])
      | _, _ => None
      end
  end.

Fixpoint load_run (t : LoadTest) (evs : list LoadEvent) : option (LoadTest * list Effect) :=
  match evs with
  | [] => Some (t, [])
  | ev :: evs =>
      '(t, es) ← load_step t ev; '(t, es') ← load_run t evs; Some (t, es ++ es')
  end.
End loadtest.

(** The numbers of [printReport]: sent, received, errors, the two numbers whose
    quotient is the throughput, and the average latency in nanoseconds. *)
Record Report := mkReport {
  rp_sent : Z; rp_received : Z; rp_errors : Z; rp_throughput : Z * Z; rp_latency : option Z }.
Definition printReport (st : stats) (elapsed : Z) : Report :=
  mkReport (sta_sent st) (sta_received st) (sta_errors st) (sta_sent st, elapsed)
    (if 0 <? sta_received st then Some (Z.quot (sta_latSum st) (sta_received st)) else None).

(** * Theorems *)

(** ** Getting in *)

Section admission.
Context `{Proto, JwtLaws, ZinxLaws W, BackendRouter R}.

(** C25: A client gets in as the player it says it is.  The query that the test
    client and the load test put into their URL gives the gateway back the token
    they generated, whatever characters it has; with the same secret and a player
    id between 1 and 2^53 the gateway accepts the connection, at any later time
    (the token has no expiry), and binds it to that player.  A request without a
    token or with one that does not validate at that time, because it is expired
    for instance ([jwt_expired_refused]), is refused with status 401 and changes
    nothing. *)
Theorem client_admitted (reg : option R) gw issued now pid secret host port routers addr ch conn :
  in_int64 issued → GenerateJWT issued pid secret ≠ ""%string → 0 < pid ≤ 2 ^ 53 →
  RemoteAddr conn = addr →
  let validate := λ token, ValidateJWT now token secret in
  let query := wc_RawQuery (NewWsClient host port (GenerateJWT issued pid secret) routers) in
  (∃ gw1 b gw2 es,
     websocket_auth validate query addr gw = Ok (None, gw1, []) ∧
     OnConnStart reg ch conn gw1 = Ok (b, gw2, es) ∧ StopConn conn ∉ es ∧
     GetProperty (gw_w gw2) conn PropPlayerID = Some (AInt64 pid) ∧
     gw_PlayerConns gw2 !! pid = Some (GetConnID conn)) ∧
  websocket_auth validate "" addr gw = Ok (Some (mkHTTPError 401 "missing token"), gw, []) ∧
  ∀ token, token ≠ ""%string → ValidateJWT now token secret = None →
    websocket_auth validate (wc_RawQuery (NewWsClient host port token routers)) addr gw =
      Ok (Some (mkHTTPError 401 "invalid token"), gw, []).
Proof.
  intros Hissued Htok Hpid Haddr validate query. split_and!; [|done|].
  - unfold query, websocket_auth. cbn [wc_RawQuery NewWsClient]. rewrite Query_Get_escape.
    rewrite decide_False by done. unfold validate. rewrite validate_own by (done || lia).
    destruct (Z.eqb_spec pid 0); [lia|].
    set (gw1 := set_pendingAuths (<[addr := pid]> (gw_pendingAuths gw)) gw).
    assert (gw_pendingAuths gw1 !! RemoteAddr conn = Some pid) as Hpend
      by (rewrite Haddr; apply lookup_insert_eq).
    assert (∃ b gw2 es, OnConnStart reg ch conn gw1 = Ok (b, gw2, es) ∧ StopConn conn ∉ es ∧
      GetProperty (gw_w gw2) conn PropPlayerID = Some (AInt64 pid) ∧
      gw_PlayerConns gw2 !! pid = Some (GetConnID conn)) as (b & gw2 & es & Hconn).
    { unfold OnConnStart. run_gw. rewrite Hpend. unfold CheckReconnect_send. run_gw.
      destruct reg as [r|]; [destruct (RouteTo r SvcSessionSvr (FormatInt pid))|];
        do 3 eexists; (split; [reflexivity|]); cbn -[lookup insert elem_of];
        rewrite get_set_eq, lookup_insert_eq; (split; [|done]); set_solver. }
    exists gw1, b, gw2, es. split; [done|exact Hconn].
  - intros token Hne Hinv. unfold websocket_auth. cbn [wc_RawQuery NewWsClient].
    rewrite Query_Get_escape, decide_False by done. unfold validate. by rewrite Hinv.
Qed.
End admission.

(** ** The load test's books *)

Section books.
Context `{Proto, Jwt} (f : Flags) (conn_of : Z → Conn).
Implicit Types (t : LoadTest) (m : gmap Z LoadClient).

(** The goroutines of a client that have not ended. *)
Definition goroutines (c : LoadClient) : Z :=
  (if lc_phase c is Ended then 0 else 1) + (if lc_receiving c then 1 else 0).

(** A quantity summed over the clients. *)
Definition total (q : LoadClient → Z) m : Z := foldr Z.add 0 (q ∘ snd <$> map_to_list m).

Lemma foldr_add_perm l l' : l ≡ₚ l' → foldr Z.add 0 l = foldr Z.add 0 l'.
Proof. induction 1; simpl; lia. Qed.

Lemma total_insert_new q m id c : m !! id = None → total q (<[id := c]> m) = q c + total q m.
Proof.
  intros Hn. unfold total. rewrite (foldr_add_perm _ (q ∘ snd <$> ((id, c) :: map_to_list m))); [done|].
  by rewrite map_to_list_insert.
Qed.

Lemma total_insert q m id c c' :
  m !! id = Some c → total q (<[id := c']> m) = total q m - q c + q c'.
Proof.
  intros Hc. rewrite <-(insert_delete_id m id c Hc) at 2. rewrite <-insert_delete_eq.
  rewrite !total_insert_new by apply lookup_delete_eq. lia.
Qed.

(** What the events say should be in the books. *)
Definition ticks (evs : list LoadEvent) : Z :=
  foldr (λ ev n, if ev is EvTick _ _ then n + 1 else n) 0 evs.
Definition failures (evs : list LoadEvent) : Z :=
  foldr (λ ev n, match ev with EvTick _ false | EvConnectTimeout _ => n + 1 | _ => n end) 0 evs.
Definition messages (evs : list LoadEvent) : Z :=
  foldr (λ ev n, if ev is EvMessage _ _ then n + 1 else n) 0 evs.

Definition queued (c : LoadClient) : Z := Z.of_nat (length (lc_ch c)).

(** The counters, from [t] to [t'], after the events [evs]. *)
Record books (t : LoadTest) (evs : list LoadEvent) (es : list Effect) (t' : LoadTest) : Prop := {
  bk_sent : sta_sent (lt_stats t') = sta_sent (lt_stats t) + ticks evs;
  bk_effects : Z.of_nat (length es) = ticks evs;
  bk_errors : sta_errors (lt_stats t') = sta_errors (lt_stats t) + failures evs;
  bk_receives : sta_received (lt_stats t) ≤ sta_received (lt_stats t') ≤
    sta_received (lt_stats t) + Z.of_nat (length evs);
  bk_received : sta_received (lt_stats t') + total queued (lt_clients t') ≤
    sta_received (lt_stats t) + total queued (lt_clients t) + messages evs;
  bk_wg : lt_wg t' - total goroutines (lt_clients t') = lt_wg t - total goroutines (lt_clients t) }.

Lemma books_set t id c c' wg st ev es :
  lt_clients t !! id = Some c →
  sta_sent st = sta_sent (lt_stats t) + ticks [ev] → Z.of_nat (length es) = ticks [ev] →
  sta_errors st = sta_errors (lt_stats t) + failures [ev] →
  sta_received (lt_stats t) ≤ sta_received st ≤ sta_received (lt_stats t) + 1 →
  sta_received st + queued c' ≤ sta_received (lt_stats t) + queued c + messages [ev] →
  wg - goroutines c' = lt_wg t - goroutines c →
  books t [ev] es (set_client id c' wg st t).
Proof.
  intros Hc H1 H2 H3 H4 H5 H6. split; [done..| |]; cbn [set_client lt_clients lt_stats lt_wg];
    rewrite (total_insert _ _ _ c c') by done; lia.
Qed.

Lemma load_Handle_bound data ch :
  Z.of_nat (length ch) ≤ chan_cap →
  Z.of_nat (length ch) ≤ Z.of_nat (length (load_Handle data ch)) ≤ Z.of_nat (length ch) + 1 ∧
  Z.of_nat (length (load_Handle data ch)) ≤ chan_cap.
Proof.
  intros Hc. unfold load_Handle. destruct (unmarshal data); [|lia].
  destruct (Z.ltb_spec (Z.of_nat (length ch)) chan_cap); [|lia]. rewrite length_app. simpl. lia.
Qed.

(** A channel never holds more than its capacity, and there is no receiver before
    the connection. *)
Definition client_ok (c : LoadClient) : Prop :=
  queued c ≤ chan_cap ∧ (lc_phase c = Connecting → lc_receiving c = false).
Definition bounded t : Prop := ∀ id c, lt_clients t !! id = Some c → client_ok c.

(** The counters are far from their limits. *)
Definition below t (n : Z) : Prop :=
  0 ≤ sta_sent (lt_stats t) ∧ sta_sent (lt_stats t) + n ≤ max_int64 ∧
  0 ≤ sta_errors (lt_stats t) ∧ sta_errors (lt_stats t) + n ≤ max_int64 ∧
  0 ≤ sta_received (lt_stats t) ∧ sta_received (lt_stats t) + n ≤ max_int64.

Lemma load_step_books t ev t' es :
  bounded t → below t 1 → load_step f conn_of t ev = Some (t', es) →
  books t [ev] es t' ∧ bounded t'.
Proof.
  intros Hb Hl Hs.
  assert (∀ z, 0 ≤ z → z + 1 ≤ max_int64 → int64 (z + 1) = z + 1) as Hi
    by (intros; apply int64_id; unfold_ints; lia).
  destruct Hl as (Hl1 & Hl2 & Hl3 & Hl4 & Hl5 & Hl6).
  assert (∀ id c' st wg, client_ok c' →
    bounded (set_client id c' wg st t)) as Hbd.
  { intros id c' st wg Hq id' c''. simpl. rewrite lookup_insert. case_decide; [|apply Hb].
    by intros [= <-]. }
  destruct ev; simpl in Hs; try (destruct (lt_clients t !! id) as [c|] eqn:Hc; [simpl in Hs|done]);
    try destruct (Hb _ _ Hc) as [Hq Hr].
  8: { injection Hs as <- <-. split; [|done]. split; simpl; lia. }
  all: destruct c as [phase receiving ch]; simpl in Hs, Hq, Hr; unfold queued in Hq; simpl in Hq.
  - destruct phase; [|done..]. injection Hs as <- <-. rewrite Hr in Hc by done.
    split; [|by apply Hbd]. eapply books_set; [done|unfold goroutines, queued; simpl; lia..].
  - destruct phase; [|done..]. injection Hs as <- <-. rewrite Hr in Hc by done.
    split; [|by apply Hbd]. eapply books_set; [done|unfold goroutines, queued; simpl; rewrite ?Hi; lia..].
  - injection Hs as <- <-. destruct (load_Handle_bound data ch Hq) as [Hn Hcap].
    split; [|by apply Hbd]. eapply books_set; [done|unfold goroutines, queued; simpl; lia..].
  - destruct receiving, ch as [|rsp ch]; try done. injection Hs as <- <-. simpl in Hq.
    split; [|apply Hbd; split; [unfold queued; simpl; lia|done]].
    eapply books_set; [done|unfold goroutines, queued; simpl; rewrite ?Hi; lia..].
  - destruct receiving; [|done]. destruct (lt_stopped t); [|done]. injection Hs as <- <-.
    split; [|by apply Hbd]. eapply books_set; [done|unfold goroutines, queued; simpl; lia..].
  - destruct phase; [done| |done]. injection Hs as <- <-. split; [|by apply Hbd].
    eapply books_set; [done|..]; destruct ok; unfold goroutines, queued; simpl; rewrite ?Hi; lia.
  - destruct phase; [done| |done]. destruct (lt_stopped t); [|done]. injection Hs as <- <-.
    split; [|by apply Hbd]. eapply books_set; [done|unfold goroutines, queued; simpl; lia..].
Qed.

Lemma ticks_bounds evs :
  0 ≤ ticks evs ≤ Z.of_nat (length evs) ∧ 0 ≤ failures evs ≤ Z.of_nat (length evs).
Proof. induction evs as [|[] evs IH]; simpl; try case_match; lia. Qed.

Lemma total_nonneg q m : (∀ c, 0 ≤ q c) → 0 ≤ total q m.
Proof.
  intros Hq. unfold total. induction (map_to_list m) as [|x l IH]; [done|]. rewrite fmap_cons. cbn [foldr].
  change ((q ∘ snd) x) with (q x.2). specialize (Hq x.2). lia.
Qed.

Lemma total_const q c ids :
  NoDup ids → total q (list_to_map ((λ id, (id, c)) <$> ids)) = Z.of_nat (length ids) * q c.
Proof.
  induction ids as [|id ids IH]; intros Hnd; [done|]. apply NoDup_cons in Hnd as [Hni Hnd].
  cbn [fmap list_fmap list_to_map foldr length uncurry fst snd].
  rewrite total_insert_new; [rewrite IH by done; lia|].
  apply not_elem_of_list_to_map. rewrite <-list_fmap_compose.
  by intros (x & -> & Hx)%list_elem_of_fmap.
Qed.

Lemma load_init_ok :
  bounded (load_init f) ∧ lt_wg (load_init f) = total goroutines (lt_clients (load_init f)) ∧
  total queued (lt_clients (load_init f)) = 0.
Proof.
  unfold load_init. cbn [lt_clients lt_wg]. split_and!.
  - intros id c Hc%elem_of_list_to_map_2. apply list_elem_of_fmap in Hc as (i & [= _ ->] & _). done.
  - rewrite total_const; [unfold goroutines; simpl; lia|].
    apply NoDup_fmap_2; [intros x y Hxy; lia|apply NoDup_seq].
  - rewrite total_const; [unfold queued; simpl; lia|].
    apply NoDup_fmap_2; [intros x y Hxy; lia|apply NoDup_seq].
Qed.

Lemma load_run_books t evs t' es :
  bounded t → below t (Z.of_nat (length evs)) → load_run f conn_of t evs = Some (t', es) →
  0 ≤ sta_received (lt_stats t') ∧ books t evs es t' ∧ bounded t'.
Proof.
  revert t es. induction evs as [|ev evs IH]; intros t es Hb Hl; cbn [load_run].
  { intros [= <- <-]. destruct Hl as (_ & _ & _ & _ & ? & _).
    split_and!; [done|split; simpl; lia|done]. }
  destruct (load_step f conn_of t ev) as [[t1 es1]|] eqn:Hs; [|done]. simpl.
  destruct (load_run f conn_of t1 evs) as [[t2 es2]|] eqn:Hr; [|done]. simpl. intros [= <- <-].
  cbn [length] in Hl. rewrite Nat2Z.inj_succ in Hl.
  assert (below t 1) as Hl1 by (unfold below in *; lia).
  destruct (load_step_books t ev t1 es1 Hb Hl1 Hs) as [[H1 H2 H3 H4 H5 H6] Hb1].
  pose proof (ticks_bounds [ev]) as Ht. simpl in Ht, H4.
  assert (below t1 (Z.of_nat (length evs))) as Hl2 by (unfold below in *; simpl in *; lia).
  destruct (IH t1 es2 Hb1 Hl2 Hr) as (Hnn & [G1 G2 G3 G4 G5 G6] & Hb2).
  assert (∀ evs, ticks (ev :: evs) = ticks [ev] + ticks evs ∧
    failures (ev :: evs) = failures [ev] + failures evs ∧
    messages (ev :: evs) = messages [ev] + messages evs) as Hcons
    by (intros; destruct ev; simpl; try case_match; lia).
  destruct (Hcons evs) as (C1 & C2 & C3).
  split_and!; [done| |done]. split; rewrite ?C1, ?C2, ?C3, ?length_app; cbn [length]; lia.
Qed.

(** The load test keeps its books.  In every state it can reach, the numbers
    it will report are true: [sent] is the number of ticks and of messages handed
    to the connections, [errors] the number of failed sends and of failed
    connections, [received] with what still waits in the channels at most the
    number of messages that arrived; no channel holds more than 10000; and the
    wait group counts the goroutines that have not ended, so the report is
    printed only when every one has. *)
Theorem loadtest_keeps_books evs t es :
  Z.of_nat (length evs) ≤ max_int64 →
  load_run f conn_of (load_init f) evs = Some (t, es) →
  sta_sent (lt_stats t) = ticks evs ∧ Z.of_nat (length es) = ticks evs ∧
  sta_errors (lt_stats t) = failures evs ∧
  sta_received (lt_stats t) + total queued (lt_clients t) ≤ messages evs ∧
  (∀ id c, lt_clients t !! id = Some c → queued c ≤ chan_cap) ∧
  lt_wg t = total goroutines (lt_clients t) ∧
  (lt_wg t = 0 → ∀ id c, lt_clients t !! id = Some c → lc_phase c = Ended ∧ lc_receiving c = false).
Proof.
  intros Hn Hrun. destruct load_init_ok as (Hb & Hwg & Hq).
  assert (below (load_init f) (Z.of_nat (length evs))) as Hl by (unfold below; simpl; lia).
  destruct (load_run_books _ _ _ _ Hb Hl Hrun) as (_ & [H1 H2 H3 _ H5 H6] & Hb').
  cbn [load_init lt_stats sta_sent sta_errors sta_received] in H1, H3, H5.
  split_and!; [done|done|done|lia| |lia|].
  - intros id c Hc. by destruct (Hb' id c Hc).
  - intros Hz id c Hc. assert (total goroutines (lt_clients t) = 0) as Ht by lia.
    rewrite <-(insert_delete_id _ _ _ Hc), total_insert_new in Ht by apply lookup_delete_eq.
    assert (∀ c, 0 ≤ goroutines c) as Hg by (intros []; unfold goroutines; repeat case_match; lia).
    pose proof (total_nonneg goroutines (delete id (lt_clients t)) Hg). unfold goroutines in Ht at 1.
    repeat case_match; [lia..|done].
Qed.
End books.

(** In private mode a client writes to another one of them. *)
Lemma target_is_another f myID :
  fl_Mode f = "private"%string → 2 ≤ fl_Clients f < max_int64 → 1 ≤ myID ≤ fl_Clients f →
  1 ≤ target_of f myID ≤ fl_Clients f ∧ target_of f myID ≠ myID.
Proof.
  intros Hm Hc Hid. unfold target_of. rewrite decide_True by auto.
  rewrite int64_id by (unfold_ints; lia).
  destruct (Z.ltb_spec (fl_Clients f) (myID + 1)); lia.
Qed.

(** The chat server stamps its answers in seconds and the load test takes the
    stamp for milliseconds: a message received at the very second it was stamped
    has, on the clock of 2026, a latency of 56 years. *)
Lemma latency_of_seconds s sender content target :
  0 ≤ s ≤ 9000000000 →
  latency (s * 1000000000) (mkChatResp sender content s target) = s * 999000000.
Proof.
  intros Hs. unfold latency. cbn [cr_Timestamp].
  rewrite (int64_id (s * 1000000)) by (unfold_ints; lia). rewrite int64_id by (unfold_ints; lia). lia.
Qed.

(** ** Concrete inputs *)

Lemma client_admitted_witness :
  ∃ gw1 b gw2 es,
    websocket_auth (λ token, ValidateJWT 9 token "s")
      (wc_RawQuery (NewWsClient "h" 9001 (GenerateJWT 5 42 "s") [])) "10.0.0.1:6" wit_gateway =
      Ok (None, gw1, []) ∧
    OnConnStart (H := count_proto) (Some wit_route) 2%N 6%N gw1 = Ok (b, gw2, es) ∧ StopConn 6 ∉ es ∧
    GetProperty (gw_w gw2) 6%N PropPlayerID = Some (AInt64 42) ∧
    gw_PlayerConns gw2 !! 42 = Some (GetConnID (W := World) 6%N).
Proof.
  refine (proj1 (client_admitted (H := count_proto) (W := World) (Some wit_route) wit_gateway 5 9 42 "s"
    "h" 9001 [] "10.0.0.1:6" 2%N 6%N _ _ _ _)).
  - evaluate.
  - vm_compute. discriminate.
  - lia.
  - reflexivity.
Defined.

(** Two clients: one connects, sends twice (once in vain), gets a message; the
    other does not connect. *)
Definition wit_flags : Flags := mkFlags 2 10 "h" 9001 "s" "private".
Definition wit_events : list LoadEvent :=
  [EvConnected 1; EvConnectTimeout 2; EvTick 1 true; EvMessage 1 (marshal (mkChatResp 2 "x" 3 1));
   EvTick 1 false; EvReceive 1 3000000000; EvStop; EvSenderStops 1; EvReceiverStops 1].

Lemma loadtest_keeps_books_witness :
  ∃ t es, load_run wit_flags Z.to_N (load_init wit_flags) wit_events = Some (t, es) ∧
    sta_sent (lt_stats t) = 2 ∧ sta_errors (lt_stats t) = 2 ∧ lt_wg t = 0 ∧
    sta_received (lt_stats t) + total queued (lt_clients t) ≤ 1.
Proof.
  destruct (load_run wit_flags Z.to_N (load_init wit_flags) wit_events) as [[t es]|] eqn:Hr.
  2: { vm_compute in Hr. discriminate. }
  destruct (loadtest_keeps_books wit_flags Z.to_N wit_events t es) as (Hs & _ & He & Hq & _ & Hw & _).
  { vm_compute. discriminate. }
  { exact Hr. }
  exists t, es. split; [done|]. rewrite Hs, He. split; [reflexivity|]. split; [reflexivity|].
  split; [|exact Hq]. transitivity (default 0 (lt_wg ∘ fst <$>
    load_run wit_flags Z.to_N (load_init wit_flags) wit_events)); [by rewrite Hr|]. vm_compute. reflexivity.
Defined.
