(* ===== verification/System.v ===== *)
(** * The servers together

    Theorems that follow one message through several components: every message
    a component sends is decoded and handled by the component it is sent to. *)

From S2P Require Import Prelude GoLib Proto Zinx Broadcast Pool Registry Store Session Room Match Gateway Chat Conf Models.
#[local] Open Scope Z_scope.

(** What the other end of connection [c] receives of the effects [es], in order:
    its handlers are called on [link], its own object for the connection. *)
Definition inbox (c link : Conn) (es : list Effect) : list Request :=
  omap (λ e, match e with
             | SendMsg c' msgID data =>
                 if decide (c' = c) then Some (mkRequest link msgID data) else None
             | _ => None
             end) es.

Lemma elem_of_inbox c link es r :
  r ∈ inbox c link es ↔ rq_conn r = link ∧ SendMsg c (rq_msgID r) (rq_data r) ∈ es.
Proof.
  unfold inbox. rewrite list_elem_of_omap. split.
  - intros (e & He & Heq). destruct e; try done. case_decide; simplify_eq/=. done.
  - intros [<- Hin]. eexists. split; [exact Hin|]. simpl. rewrite decide_True by done.
    by destruct r.
Qed.

Section system.
Context `{ProtoLaws, ZinxLaws W, SessionJson, BackendRouter R}.
Implicit Types (gw : GatewayServer W) (reg : R) (w : W).

(** ** A room that ends *)

(** C7: When the last player leaves a room, the message the room server sends
    makes the match server forget the match and take it off the load of its
    room server. *)
Theorem room_end_cleans_match reg c link env conn rooms req cfg ck st dir :
  let m := lq_MatchId req in let p := mget (ev_ConnTags env) TagPlayerID in
  unmarshal (ev_Data env) = Some req → utf8 m → rooms_ok rooms → players_of rooms m = [p] →
  RouteTo reg SvcMatchSvr m = Some c →
  ms_activeMatches st !! m = Some dir → loads_ok st →
  Z.of_nat (size (ms_activeMatches st)) < max_int64 →
  ∃ r, r ∈ inbox c link (handleLeave (Some reg) env conn rooms).2 ∧
    rq_msgID r = MsgIdRoomDestroyedPush ∧
    let st' := (match_Handle cfg ck r st).1 in
    ms_activeMatches st' = delete m (ms_activeMatches st) ∧
    loads_ok st' ∧
    matches_on (md_ServerID dir) (ms_activeMatches st) =
      S (matches_on (md_ServerID dir) (ms_activeMatches st')).
Proof.
  intros m p Hr Hu Hok Hpl Hc Hdir Hl Hsz.
  exists (mkRequest link MsgIdRoomDestroyedPush
    (marshal (mkEnvelope 0 (marshal (mkRoomDestroyedPush m)) None))).
  split; [|split; [done|]].
  - apply elem_of_inbox. split; [done|]. cbn [rq_msgID rq_data]. rewrite (handleLeave_room _ _ _ _ _ Hr). fold m p.
    unfold players_of in Hpl. destruct (rooms !! m) as [l|] eqn:Hm; [|done]. simpl in Hpl.
    destruct (find_player p l) as [[i rp]|] eqn:Hf.
    2: { apply find_player_None in Hf. rewrite Hpl in Hf. exfalso. apply Hf. left. }
    rewrite (leave_room_Some _ _ _ _ _ _ _ _ Hm Hf). cbn [snd].
    apply find_player_Some in Hf as [Hi _]. apply (f_equal length) in Hpl.
    rewrite length_fmap in Hpl. simpl in Hpl. apply lookup_lt_Some in Hi.
    pose proof (remove_at_length i l Hi).
    replace (length (remove_at i l)) with 0%nat by lia. simpl.
    unfold notifyMatchSvr. rewrite Hc. left.
  - cbn zeta. unfold match_Handle. cbn [rq_msgID rq_data].
    change (MsgIdRoomDestroyedPush =? MsgIdSessionForceLeaveQueue) with false.
    change (MsgIdRoomDestroyedPush =? MsgIdMatchEnterReq) with false.
    change (MsgIdRoomDestroyedPush =? MsgIdMatchAllocateReq) with false.
    change (MsgIdRoomDestroyedPush =? MsgIdMatchQueryReq) with false.
    change (MsgIdRoomDestroyedPush =? MsgIdRoomDestroyedPush) with true.
    rewrite (unmarshal_marshal (A := Envelope)) by (split; [simpl; unfold_ints; lia|done]).
    cbn [canon Envelope_canon]. unfold handleDestroyed. cbn [ev_Data].
    rewrite unmarshal_marshal by done. cbn [canon RoomDestroyedPush_canon rd_MatchId].
    rewrite Hdir. cbn [fst].
    assert (ms_activeMatches (decLoad (md_ServerID dir)
      (set_active st (delete m (ms_activeMatches st)))) = delete m (ms_activeMatches st)) as ->
      by (unfold decLoad; by destruct (ms_loadCounts _ !! _)).
    split; [done|]. split; [by apply remove_match_ok|].
    rewrite (matches_on_delete _ _ _ _ Hdir), decide_True by done. lia.
Qed.

(** ** A player who moves to another gateway *)

(** C4: A player who reconnects through a second gateway is cut off at the
    first one, and stays connected.  From the second gateway's reconnect request
    on: the session server's invalidation makes the first gateway stop its old
    connection, the disconnect report that gateway then sends reaches the session
    server, and the session server ignores it.  (A gateway sends that request
    only when the session is marked disconnected; the other case is
    [connected_elsewhere_not_cut_off].) *)
Theorem takeover_end_to_end reg w env env' now req st d s gw connID ws link c link' back :
  rq_msgID req = MsgIdSessionReconnect → unmarshal (rq_data req) = Some d →
  ss_sessions st !! sd_PlayerId d = Some s →
  in_int64 (sd_PlayerId d) → sd_PlayerId d ≠ 0 →
  s_GatewayID s = gw_ID gw → gw_ID gw ≠ ""%string → utf8 (gw_ID gw) →
  sd_GatewayId d ≠ ""%string → sd_GatewayId d ≠ gw_ID gw →
  link ∈ ConnMgrRange w →
  gw_PlayerConns gw !! sd_PlayerId d = Some connID → ConnMgrGet (gw_w gw) connID = Some ws →
  GetProperty (gw_w gw) ws PropPlayerID = Some (AInt64 (sd_PlayerId d)) →
  RouteTo reg SvcSessionSvr (FormatInt (sd_PlayerId d)) = Some c →
  ∃ inv gw1 gw2 es disc,
    let st1 := (session_Handle env (Some w) req st).1 in
    inv ∈ inbox link link' (session_Handle env (Some w) req st).2 ∧
    session_response_Handle (Some reg) inv gw = Ok (tt, gw1, [StopConn ws]) ∧
    OnConnStop (Some reg) now ws gw1 = Ok (tt, gw2, es) ∧
    inbox c back es = [disc] ∧ rq_msgID disc = MsgIdSessionDisconnect ∧
    session_Handle env' (Some w) disc st1 = (st1, []) ∧
    gw_PlayerConns gw2 !! sd_PlayerId d = None ∧
    (s_DisconnectedAt <$> ss_sessions st1 !! sd_PlayerId d) = Some 0.
Proof.
  intros Hid Hd Hs Hp Hp0 Hsg Hg Hgu Hn Hne Hlink Hpc Hws Hprop Hc.
  assert (∀ g, utf8 g → unmarshal (marshal (mkSessionData (sd_PlayerId d) g None 0)) =
    Some (mkSessionData (sd_PlayerId d) g None 0)) as Hwire.
  { intros g Hgg. rewrite unmarshal_marshal; [done|]. split_and!; done. }
  set (data := marshal (mkSessionData (sd_PlayerId d) (gw_ID gw) None 0)).
  exists (mkRequest link' MsgIdSessionInvalidate data).
  eexists _, _, [SendMsg c MsgIdSessionDisconnect data],
    (mkRequest back MsgIdSessionDisconnect data). cbn zeta.
  assert (∀ st, session_Handle env (Some w) req st = handleReconnect env (Some w) req st) as HR
    by (intros; unfold session_Handle; rewrite Hid; done).
  rewrite !HR.
  destruct (handleReconnect_Some env (Some w) req st d s Hd Hs) as (tags & Hst & _).
  split_and!.
  - apply elem_of_inbox. split; [done|]. unfold handleReconnect. rewrite Hd, Hs. cbn [snd].
    rewrite Hsg.
    rewrite !bool_decide_true by done. apply elem_of_cons. right.
    apply list_elem_of_fmap. by exists link.
  - unfold session_response_Handle. cbn [rq_msgID].
    change (MsgIdSessionInvalidate =? MsgIdSessionGet) with false.
    change (MsgIdSessionInvalidate =? MsgIdSessionReconnect) with false.
    change (MsgIdSessionInvalidate =? MsgIdSessionInvalidate) with true. cbn iota.
    unfold HandleSessionInvalidate, data. cbn [rq_data]. rewrite Hwire by done. run_gw.
    cbn [sd_GatewayId sd_PlayerId]. rewrite decide_False by (intros Hx; by apply Hx).
    apply Z.eqb_neq in Hp0. rewrite Hp0, Hpc. run_gw. rewrite Hws. reflexivity.
  - unfold OnConnStop. run_gw. cbn [gw_w set_PlayerConns]. rewrite Hprop.
    unfold MarkDisconnected. run_gw. rewrite Hc. reflexivity.
  - unfold inbox. simpl. by rewrite decide_True.
  - done.
  - unfold session_Handle at 1. cbn [rq_msgID].
    change (MsgIdSessionDisconnect =? MsgIdSessionSave) with false.
    change (MsgIdSessionDisconnect =? MsgIdSessionGet) with false.
    change (MsgIdSessionDisconnect =? MsgIdSessionDisconnect) with true. cbn iota.
    eapply handleDisconnect_stale; [by apply Hwire| | |].
    + rewrite Hst. apply lookup_insert_eq.
    + done.
    + done.
  - simpl. apply lookup_delete_None. by left.
  - rewrite Hst, lookup_insert_eq. done.
Qed.

(** ** A match result on its way to the session server *)

Lemma collectTags_lookup w conn k :
  k ∈ SyncTagKeys →
  collectTags w conn !! k =
    match GetProperty w conn k with
    | Some (AString v) => if decide (v ≠ ""%string) then Some v else None
    | _ => None
    end.
Proof.
  intros Hk. unfold SyncTagKeys in Hk. unfold collectTags, SyncTagKeys. cbn [foldl].
  rewrite !elem_of_cons, elem_of_nil in Hk.
  destruct (GetProperty w conn TagRoomSvrID) as [[]|] eqn:E1,
    (GetProperty w conn TagMatchID) as [[]|] eqn:E2,
    (GetProperty w conn TagMatchType) as [[]|] eqn:E3;
    destruct Hk as [->|[->|[->|[]]]]; rewrite ?E1, ?E2, ?E3; repeat case_decide;
    simplify_map_eq; done.
Qed.

Lemma collectTags_ok w conn :
  (∀ k v, k ∈ SyncTagKeys → GetProperty w conn k = Some (AString v) → utf8 v) →
  tags_ok (Some (collectTags w conn)).
Proof.
  intros Hu k v Hk.
  assert (k ∈ SyncTagKeys) as Hin.
  { destruct (decide (k ∈ SyncTagKeys)) as [|Hni]; [done|]. exfalso.
    revert Hk. unfold SyncTagKeys in Hni. rewrite !not_elem_of_cons in Hni.
    destruct Hni as (N1 & N2 & N3 & _). unfold collectTags, SyncTagKeys. cbn [foldl].
    destruct (GetProperty w conn TagRoomSvrID) as [[]|],
      (GetProperty w conn TagMatchID) as [[]|], (GetProperty w conn TagMatchType) as [[]|];
      repeat case_decide; rewrite ?lookup_insert_ne by done; done. }
  rewrite collectTags_lookup in Hk by done.
  destruct (GetProperty w conn k) as [[|v']|] eqn:Hg; try done. case_decide; simplify_eq.
  split; [|by eapply Hu]. unfold SyncTagKeys in Hin. rewrite !elem_of_cons, elem_of_nil in Hin.
  by destruct Hin as [->|[->|[->|[]]]].
Qed.

Lemma applyConnTags_saves reg conn g gw pid c :
  g ≠ ∅ → PropPlayerID ∉ (map_to_list g).*1 → g !! PropPlayerID = None →
  GetProperty (gw_w gw) conn PropPlayerID = Some (AInt64 pid) → pid ≠ 0 →
  RouteTo reg SvcSessionSvr (FormatInt pid) = Some c →
  let w' := SetProperties (gw_w gw) conn (map_to_list g) in
  collectTags w' conn ≠ ∅ →
  applyConnTags (Some reg) conn (Some g) gw =
    Ok (tt, set_w w' gw, [SendMsg c MsgIdSessionSave
      (marshal (mkSessionData pid (gw_ID gw) (Some (collectTags w' conn)) 0))]).
Proof.
  intros Hg Hni Hnp Hp Hp0 Hc w' Hne. unfold applyConnTags.
  destruct (Nat.eqb_spec (size g) 0) as [Hz%map_size_empty_inv|_]; [done|].
  run_gw. rewrite Hnp. unfold SyncSessionTags. run_gw. cbn [gw_w set_w gw_ID]. fold w'.
  assert (GetProperty w' conn PropPlayerID = Some (AInt64 pid)) as ->
    by (unfold w'; rewrite get_sets_other; auto).
  cbn [toPlayerID]. apply Z.eqb_neq in Hp0. rewrite Hp0.
  destruct (Nat.eqb_spec (size (collectTags w' conn)) 0) as [Hz%map_size_empty_inv|_]; [done|].
  run_gw. rewrite Hc. reflexivity.
Qed.

(** When the session is still marked connected, through another gateway, the
    second gateway saves the session instead: the session server sends nothing,
    so the first gateway is never told, and the player's tags are lost, because
    the new connection has none yet. *)
Theorem connected_elsewhere_not_cut_off reg env w gw d connID ws c back st :
  let pid := sd_PlayerId d in
  sd_DisconnectedAt d = 0 → in_int64 pid → utf8 (gw_ID gw) →
  RouteTo reg SvcSessionSvr (FormatInt pid) = Some c →
  (∀ k, k ∈ SyncTagKeys → GetProperty (gw_w gw) ws k = None) →
  ∃ save, session_restore (Some reg) d connID ws gw = Ok (tt, gw, [SendMsg c MsgIdSessionSave save]) ∧
    let r := session_Handle env (Some w) (mkRequest back MsgIdSessionSave save) st in
    r.2 = [] ∧ ∃ s', ss_sessions r.1 !! pid = Some s' ∧
      s_GatewayID s' = gw_ID gw ∧ s_ConnTags s' = None.
Proof.
  intros pid Hdis Hpid Hgu Hc Hk.
  assert (collectTags (gw_w gw) ws = ∅) as Htags.
  { unfold collectTags. unfold SyncTagKeys in *. cbn [foldl].
    by rewrite !Hk by (repeat (apply list_elem_of_here || apply list_elem_of_further)). }
  exists (marshal (mkSessionData pid (gw_ID gw) (Some ∅) 0)). split.
  - unfold session_restore. rewrite Hdis. cbn [negb Z.eqb]. run_gw. fold pid. by rewrite Hc, Htags.
  - unfold session_Handle. cbn [rq_msgID]. rewrite Z.eqb_refl. unfold handleSave. cbn [rq_data].
    rewrite unmarshal_marshal; [|split_and!; done].
    split; [done|]. cbn [fst]. rewrite journalAppend_sessions. eexists.
    split; [apply lookup_insert_eq|]. split; done.
Qed.

(** The tags of a match result, and what the gateway collects once they are
    properties of the connection. *)
Definition result_tags (id server : string) : gmap string string :=
  list_to_map [(TagRoomSvrID, server); (TagMatchID, id)].

Lemma collect_after_result w ws id server :
  utf8 id → id ≠ ""%string → utf8 server →
  (∀ v, GetProperty w ws TagMatchType = Some (AString v) → utf8 v) →
  let w' := SetProperties w ws (map_to_list (result_tags id server)) in
  collectTags w' ws !! TagMatchID = Some id ∧
  default ""%string (collectTags w' ws !! TagRoomSvrID) = server ∧
  tags_ok (Some (collectTags w' ws)).
Proof.
  intros Hid Hidn Hs Hmt w'. set (g := result_tags id server) in w'.
  assert (g !! TagMatchID = Some id ∧ g !! TagRoomSvrID = Some server ∧
    g !! TagMatchType = None) as (Hg1 & Hg2 & Hg3) by done.
  assert (∀ k v, g !! k = Some v → GetProperty w' ws k = Some (AString v)) as Hget.
  { intros k v Hk. apply get_sets; [apply NoDup_fst_map_to_list|]. by apply elem_of_map_to_list. }
  assert (GetProperty w' ws TagMatchType = GetProperty w ws TagMatchType) as Hget'.
  { apply get_sets_other. right. intros ([k' v] & Hk & Hkv)%list_elem_of_fmap.
    apply elem_of_map_to_list in Hkv. simpl in Hk. congruence. }
  rewrite !collectTags_lookup by (unfold SyncTagKeys; set_solver).
  rewrite (Hget _ _ Hg1), (Hget _ _ Hg2), decide_True by done. split_and!; [done| |].
  { destruct (decide (server ≠ ""%string)) as [|Hx%dec_stable]; done. }
  apply collectTags_ok. intros k v Hk Hv. unfold SyncTagKeys in Hk.
  rewrite !elem_of_cons, elem_of_nil in Hk. destruct Hk as [->|[->|[->|[]]]].
  - rewrite (Hget _ _ Hg2) in Hv. congruence.
  - rewrite (Hget _ _ Hg1) in Hv. congruence.
  - rewrite Hget' in Hv. by apply Hmt.
Qed.

(** C6: The result a matched player receives leaves its trace everywhere it
    must.  The gateway hands the player, unchanged, the bytes of the match
    result that the match server sent for that player, and nothing else to
    anybody but a report of the new tags; the tags become properties of the
    connection, and the session server's record of the player then names the
    match and its room server, so that a later reconnection can restore them. *)
Theorem match_result_reaches_session reg env st t id server players p gw pid ws link c back :
  utf8 id → id ≠ ""%string → utf8 server → in_uint64 (qp_senderID p) → qp_senderID p ≠ 0 →
  in_int64 pid → pid ≠ 0 → utf8 (gw_ID gw) →
  ConnMgrGet (gw_w gw) (qp_senderID p) = Some ws →
  GetProperty (gw_w gw) ws PropPlayerID = Some (AInt64 pid) →
  (∀ v, GetProperty (gw_w gw) ws TagMatchType = Some (AString v) → utf8 v) →
  RouteTo reg SvcSessionSvr (FormatInt pid) = Some c →
  ∃ r gw' save s',
    inbox (qp_conn p) link [match_push t id server players p] = [r] ∧
    rq_msgID r = MsgIdMatchResultPush ∧
    response_Handle (Some reg) r gw =
      Ok (tt, gw', [SendMsg c MsgIdSessionSave save;
                    SendMsg ws MsgIdMatchResultPush
                      (marshal (mkMatchResultPush id server players t))]) ∧
    GetProperty (gw_w gw') ws TagMatchID = Some (AString id) ∧
    GetProperty (gw_w gw') ws TagRoomSvrID = Some (AString server) ∧
    ss_sessions (handleSave env (mkRequest back MsgIdSessionSave save) st).1 !! pid = Some s' ∧
    s_GatewayID s' = gw_ID gw ∧ s_DisconnectedAt s' = 0 ∧
    mget (s_ConnTags s') TagMatchID = id ∧ mget (s_ConnTags s') TagRoomSvrID = server.
Proof.
  intros Hid Hidn Hs Hsu Hs0 Hpi Hp0 Hgu Hws Hprop Hmt Hc.
  set (push := marshal (mkMatchResultPush id server players t)).
  set (g := result_tags id server). set (w' := SetProperties (gw_w gw) ws (map_to_list g)).
  destruct (collect_after_result (gw_w gw) ws id server Hid Hidn Hs Hmt) as (Hc1 & Hc2 & Hcok).
  fold g w' in Hc1, Hc2, Hcok.
  assert (collectTags w' ws ≠ ∅) as Hcne by (intros He; by rewrite He in Hc1).
  assert (g ≠ ∅) as Hgne by by apply (insert_non_empty (K := string) (M := gmap string)).
  exists (mkRequest link MsgIdMatchResultPush (marshal (mkEnvelope (qp_senderID p) push (Some g)))).
  exists (set_w w' gw).
  exists (marshal (mkSessionData pid (gw_ID gw) (Some (collectTags w' ws)) 0)).
  exists (mkSession (s_PlayerID (default (fresh_session pid) (ss_sessions st !! pid)))
            (gw_ID gw) (Some (collectTags w' ws)) 0).
  split; [unfold inbox; simpl; by rewrite decide_True|]. split; [done|]. split.
  { unfold response_Handle. cbn [rq_data]. rewrite unmarshal_marshal.
    2: { split; [done|]. by apply (tags_ok_mlit [(TagRoomSvrID, server); (TagMatchID, id)]);
         repeat constructor. }
    run_gw. cbn [canon Envelope_canon ev_ConnTags ev_ConnId ev_Data].
    rewrite canon_tags_nonempty by done. rewrite decide_False by (intros Hx; by apply Hx).
    apply Z.eqb_neq in Hs0. rewrite Hs0. cbn [negb]. rewrite Hws. run_gw.
    rewrite (applyConnTags_saves reg ws g gw pid c); try done.
    intros ([k' v] & Hk & Hkv)%list_elem_of_fmap. apply elem_of_map_to_list in Hkv.
    simpl in Hk. subst k'. discriminate Hkv. }
  assert (∀ k v, g !! k = Some v → GetProperty w' ws k = Some (AString v)) as Hget.
  { intros k v Hk. apply get_sets; [apply NoDup_fst_map_to_list|]. by apply elem_of_map_to_list. }
  split; [by apply Hget|]. split; [by apply Hget|]. split_and!; try done.
  - unfold handleSave. cbn [rq_data]. rewrite unmarshal_marshal.
    2: { split_and!; done. }
    cbn [fst]. rewrite journalAppend_sessions. cbn [canon SessionData_canon sd_PlayerId
      sd_GatewayId sd_ConnTags ss_sessions set_sessions].
    rewrite canon_tags_nonempty by done. apply lookup_insert_eq.
  - cbn [s_ConnTags]. rewrite mget_Some, Hc1. done.
Qed.

(** ** A private message *)

(** C5: A private chat message is delivered end to end: the sender's gateway
    forwards it, the chat server sends it to every gateway, and the gateway the
    target is connected to hands the target, and only the target, a message
    that names the true sender and carries the text unchanged. *)
Theorem private_chat_delivered reg regB now now' gwA gwB wc cs route pidA content target
    cchat link back linkB idB ct :
  gw_routes gwA !! MsgIdChatReq = Some route →
  GetProperty (gw_w gwA) cs PropPlayerID = Some (AInt64 pidA) →
  resolveRouteKey (gw_w gwA) cs route ≠ ""%string →
  RouteTo reg (ri_Backend route) (resolveRouteKey (gw_w gwA) cs route) = Some cchat →
  in_uint64 (GetConnID cs) → in_int64 pidA → utf8 content → in_int64 target → target ≠ 0 →
  in_int64 now' →
  back ∈ ConnMgrRange wc → is_gateway wc back →
  gw_PlayerConns gwB !! target = Some idB → ConnMgrGet (gw_w gwB) idB = Some ct →
  ∃ es fwd push data,
    forward_Handle (Some reg) now
      (mkRequest cs MsgIdChatReq (marshal (mkChatReq content target))) gwA = Ok (tt, gwA, es) ∧
    inbox cchat link es = [fwd] ∧ rq_msgID fwd = MsgIdChatReq ∧
    push ∈ inbox back linkB (chat_Handle wc now' fwd) ∧
    response_Handle (R := R) (Some regB) push gwB =
      Ok (tt, gwB, [SendMsg ct MsgIdChatResp data]) ∧
    unmarshal data = Some (mkChatResp pidA content now' target).
Proof.
  intros Hr Hp Hk Hdst Hid Hpa Hu Ht Ht0 Hn Hb Hgw Hpc Hct.
  set (req := marshal (mkChatReq content target)).
  set (data := marshal (mkChatResp pidA content now' target)).
  set (env := mkEnvelope (GetConnID cs) req (mlit [(TagPlayerID, FormatInt pidA)])).
  exists [SendMsg cchat MsgIdChatReq (marshal env)], (mkRequest link MsgIdChatReq (marshal env)).
  exists (mkRequest linkB MsgIdChatResp
    (marshal (mkEnvelope 0 data (mlit [(TagTargetPlayerID, FormatInt target)])))), data.
  assert (∀ k z, utf8 k → tags_ok (mlit [(k, FormatInt z)])) as Htags.
  { intros k z Hk'. apply tags_ok_mlit, Forall_singleton. split; [done|apply utf8_FormatInt]. }
  split_and!.
  - unfold forward_Handle, RouteFor. run_gw. cbn [rq_conn rq_msgID rq_data].
    rewrite Hr, Hp, decide_False by done. run_gw. rewrite Hdst. reflexivity.
  - unfold inbox. simpl. by rewrite decide_True.
  - done.
  - apply elem_of_inbox. split; [done|]. cbn [rq_msgID rq_data]. assert (unmarshal (marshal env) = Some env) as He.
    { rewrite unmarshal_marshal; [done|]. split; [done|by apply Htags]. }
    assert (unmarshal (ev_Data env) = Some (mkChatReq content target)) as Hq
      by (cbn [env ev_Data]; unfold req; by rewrite unmarshal_marshal).
    rewrite (chat_private wc now' _ env (mkChatReq content target)) by done.
    apply elem_of_app. left. apply elem_of_sendToAll. exists back. split; [done|].
    split; [done|]. do 4 f_equal. unfold env. cbn [ev_ConnTags].
    change (mget (mlit _) TagPlayerID) with (FormatInt pidA). by rewrite ParseInt_FormatInt.
  - unfold response_Handle. cbn [rq_data rq_msgID]. rewrite unmarshal_marshal.
    2: { split; [simpl; unfold_ints; lia|by apply Htags]. }
    run_gw. cbn [canon Envelope_canon ev_ConnTags ev_Data]. rewrite canon_tags_get.
    change (mget (mlit _) TagTargetPlayerID) with (FormatInt target).
    rewrite decide_True by apply FormatInt_nonempty.
    rewrite ParseInt_FormatInt by done. cbn [fst]. rewrite Hpc, Hct. reflexivity.
  - unfold data. by rewrite unmarshal_marshal.
Qed.
End system.

(** ** Concrete inputs *)

Definition wit_sys_gw (id : string) : GatewayServer World :=
  mkGateway id (mkWorld {[ (3%N, PropPlayerID) := AInt64 7 ]} {[ 3%N ]})
    (mkRegistry ∅ SvcGateway) {[ 7 := 3 ]} {[ MsgIdChatReq := mkRouteInfo "chatsvr" "" "" ]}
    ∅ ∅ ∅ ∅ ∅ ∅.

Lemma room_end_cleans_match_witness :
  ∃ r, r ∈ inbox 5 6 (handleLeave wit_room_reg (wit_leave_env "1") 8%N
         {[ "m1"%string := [wit_player "1" 8] ]}).2 ∧
    ms_activeMatches (match_Handle wit_cfg wit_clock r
      (mkMatchSt {[ "m1"%string := mkMatchDir "room1" "1v1" 0 ]} ∅ {[ "room1"%string := 1 ]})).1
      = delete "m1"%string {[ "m1"%string := mkMatchDir "room1" "1v1" 0 ]}.
Proof.
  destruct (room_end_cleans_match (H := count_proto) (λ _ _, Some 5%N) 5%N 6%N (wit_leave_env "1") 8%N
    {[ "m1"%string := [wit_player "1" 8] ]} (mkRoomLeaveReq "m1") wit_cfg wit_clock
    (mkMatchSt {[ "m1"%string := mkMatchDir "room1" "1v1" 0 ]} ∅ {[ "room1"%string := 1 ]})
    (mkMatchDir "room1" "1v1" 0)) as (r & Hin & _ & Hm & _).
  - vm_compute. reflexivity.
  - reflexivity.
  - apply map_Forall_singleton. split; [discriminate|evaluate].
  - vm_compute. reflexivity.
  - reflexivity.
  - reflexivity.
  - intros s. unfold matches_on. cbn [ms_activeMatches ms_loadCounts].
    rewrite map_filter_singleton. destruct (decide (md_ServerID (mkMatchDir "room1" "1v1" 0) = s)) as [<-|Hne].
    + reflexivity.
    + rewrite map_size_empty. apply lookup_singleton_ne. exact Hne.
  - evaluate.
  - exists r. split; [exact Hin|exact Hm].
Defined.

Lemma takeover_end_to_end_witness :
  ∃ inv gw1, inv ∈ inbox 1 6
    (session_Handle wit_env (Some wit_world) (wit_req MsgIdSessionReconnect "gw2" None)
       (wit_st wit_session)).2 ∧
  session_response_Handle (Some wit_reg) inv
    (wit_sys_gw "gw1") = Ok (tt, gw1, [StopConn 3]).
Proof.
  destruct (takeover_end_to_end (H := count_proto) wit_reg wit_world wit_env wit_env 0
    (wit_req MsgIdSessionReconnect "gw2" None) (wit_st wit_session)
    (mkSessionData 7 "gw2" None 0) wit_session (wit_sys_gw "gw1") 3 3%N 1%N 5%N 6%N 9%N)
    as (inv & gw1 & gw2 & es & disc & Hin & Hh & _).
  - reflexivity.
  - vm_compute. reflexivity.
  - reflexivity.
  - evaluate.
  - discriminate.
  - reflexivity.
  - discriminate.
  - reflexivity.
  - discriminate.
  - discriminate.
  - evaluate.
  - reflexivity.
  - reflexivity.
  - reflexivity.
  - reflexivity.
  - exists inv, gw1. split; [exact Hin|exact Hh].
Defined.

Lemma match_result_reaches_session_witness :
  ∃ r gw' save s',
    inbox 1 6 [match_push "1v1" "m1" "room1" [7; 8] (mkQueuedPlayer 7 0 1 3)] = [r] ∧
    rq_msgID r = MsgIdMatchResultPush ∧
    response_Handle (Some wit_reg) r (wit_sys_gw "gw1") =
      Ok (tt, gw', [SendMsg 5 MsgIdSessionSave save;
                    SendMsg 3 MsgIdMatchResultPush
                      (marshal (mkMatchResultPush "m1" "room1" [7; 8] "1v1"))]) ∧
    GetProperty (gw_w gw') 3%N TagMatchID = Some (AString "m1") ∧
    GetProperty (gw_w gw') 3%N TagRoomSvrID = Some (AString "room1") ∧
    ss_sessions (handleSave wit_env (mkRequest 9 MsgIdSessionSave save) (wit_st wit_session)).1 !! 7
      = Some s' ∧
    s_GatewayID s' = "gw1"%string ∧ s_DisconnectedAt s' = 0 ∧
    mget (s_ConnTags s') TagMatchID = "m1"%string ∧ mget (s_ConnTags s') TagRoomSvrID = "room1"%string.
Proof.
  apply (match_result_reaches_session wit_reg wit_env (wit_st wit_session) "1v1" "m1" "room1" [7; 8]
    (mkQueuedPlayer 7 0 1 3) (wit_sys_gw "gw1") 7 3%N 6%N 5%N 9%N).
  - reflexivity.
  - discriminate.
  - reflexivity.
  - evaluate.
  - discriminate.
  - evaluate.
  - discriminate.
  - reflexivity.
  - reflexivity.
  - reflexivity.
  - intros v Hv. discriminate Hv.
  - reflexivity.
Defined.

Lemma private_chat_delivered_witness :
  ∃ es fwd push data,
    forward_Handle (Some wit_reg) 0
      (mkRequest 3 MsgIdChatReq (marshal (mkChatReq "hi" 7))) (wit_sys_gw "gw1") =
      Ok (tt, wit_sys_gw "gw1", es) ∧
    inbox 5 6 es = [fwd] ∧ rq_msgID fwd = MsgIdChatReq ∧
    push ∈ inbox 1 2 (chat_Handle
      (mkWorld {[ (1%N, PropConnType) := AString SvcGateway ]} {[ 1%N ]}) 9 fwd) ∧
    response_Handle (Some wit_reg) push (wit_sys_gw "gw2") =
      Ok (tt, wit_sys_gw "gw2", [SendMsg 3 MsgIdChatResp data]) ∧
    unmarshal data = Some (mkChatResp 7 "hi" 9 7).
Proof.
  apply (private_chat_delivered wit_reg wit_reg 0 9 (wit_sys_gw "gw1") (wit_sys_gw "gw2")
    (mkWorld {[ (1%N, PropConnType) := AString SvcGateway ]} {[ 1%N ]}) 3%N
    (mkRouteInfo "chatsvr" "" "") 7 "hi" 7 5%N 6%N 1%N 2%N 3 3%N).
  - reflexivity.
  - reflexivity.
  - vm_compute. discriminate.
  - reflexivity.
  - evaluate.
  - evaluate.
  - reflexivity.
  - evaluate.
  - discriminate.
  - evaluate.
  - evaluate.
  - evaluate.
  - reflexivity.
  - reflexivity.
Defined.
