(* ===== verification/Handshake.v ===== *)
(** * How a gateway and a backend get to know each other

    When a gateway's connection to a backend comes up, the connect callback sends
    the gateway's identity; the backend marks the connection and answers with the
    message ids it handles and sends; the gateway installs routes and routers for
    them.  Two situations in which it does not: the hello comes while the gateway
    is still dialling the backend, or after a reconnection. *)

From S2P Require Import Prelude GoLib Proto Zinx Models Conf Broadcast Pool Registry Gateway.
From S2P Require Import Wiring System.
#[local] Open Scope Z_scope.

(** The gateway forwards [id] to the service, with the route of [cfg]. *)
Definition forwards {W} (gw : GatewayServer W) (service : string) (cfg : BackendRouteCfg) (id : Z) : Prop :=
  gw_routes gw !! id = Some (mkRouteInfo service (rc_RouteKey cfg) (rc_RouteType cfg)).

(** The entry of [pool] that [AddConnectionRouter] finds for [conn]. *)
Definition connected {W} (pool : Pool W) (conn : Conn) (client : N) (i : nat) (e : connEntry) : Prop :=
  list_find (λ e, ce_conn e = Some conn ∧ is_Some (ce_client e)) (p_conns pool) = Some (i, e) ∧
  ce_client e = Some client.

Section handshake.
Context `{ProtoLaws, ZinxLaws W}.
Implicit Types (gw : GatewayServer W) (w : W) (pool : Pool W).

Lemma register_forward_spec service cfg ids gw :
  MsgIdPing ∉ ids →
  ∃ gw' es, register_forward service cfg ids gw = (gw', es, None) ∧
    gw_Registry gw' = gw_Registry gw ∧
    (∀ id, id ∈ ids → id ∉ gw_fwdRegistered gw →
      forwards gw' service cfg id ∧ ServerAddRouter id ForwardRouter ∈ es) ∧
    ∀ e, e ∈ es → ∃ id, e = ServerAddRouter id ForwardRouter.
Proof.
  revert gw. induction ids as [|i ids IH]; intros gw Hping.
  { exists gw, []. split_and!; [done..|by intros id ?%elem_of_nil|by intros e ?%elem_of_nil]. }
  apply not_elem_of_cons in Hping as [Hi Hping]. cbn [register_forward]. case_decide as Hreg.
  - destruct (IH gw Hping) as (gw' & es & Hr & Hrg & Hall & Hes). exists gw', es. rewrite Hr.
    split_and!; [done..| |done]. intros id [->|Hin]%elem_of_cons Hn; [done|by apply Hall].
  - rewrite decide_False by done.
    set (gw1 := SetRoutes _ _). destruct (IH gw1 Hping) as (gw' & es & Hr & Hrg & Hall & Hes).
    exists gw', (ServerAddRouter i ForwardRouter :: es). rewrite Hr. split_and!; [done..| |].
    2: { intros e [->|He]%elem_of_cons; eauto. }
    intros id Hin Hn. destruct (decide (id = i)) as [->|Hne].
    + split; [|by left]. unfold forwards.
      apply register_forward_frame in Hr as (_ & _ & [_ Hg] & _). specialize (Hg i).
      rewrite decide_False in Hg by (simpl; set_solver). rewrite Hg. apply lookup_insert_eq.
    + apply elem_of_cons in Hin as [->|Hin]; [done|].
      destruct (Hall id Hin) as [Hf He]; [simpl; set_solver|]. split; [done|by right].
Qed.

(** The routers go to the client of the connection, and are remembered for the
    clients that will replace it. *)
Lemma register_responses_spec pool conn client ids i e :
  connected pool conn client i e → NoDup ids → (∀ id, id ∈ ids → id ∉ (ce_routers e).*1) →
  ∃ pool', register_responses pool conn ids =
      (pool', (λ id, ClientAddRouter client id ResponseRouter) <$> ids, None) ∧
    ∃ e', connected pool' conn client i e' ∧
      ce_routers e' = ce_routers e ++ ((λ id, (id, ResponseRouter)) <$> ids).
Proof.
  revert pool e. induction ids as [|id ids IH]; intros pool e Hc Hnd Hnew.
  { exists pool. split; [done|]. exists e. by rewrite app_nil_r. }
  apply NoDup_cons in Hnd as [Hid Hnd].
  cbn [register_responses]. unfold AddConnectionRouter at 1. destruct Hc as [Hf Hcl]. rewrite Hf.
  rewrite decide_False by (apply Hnew; by left). rewrite Hcl.
  set (e1 := entry_add_router id ResponseRouter e).
  set (pool1 := set_conns pool (<[i := e1]> (p_conns pool))).
  assert (connected pool1 conn client i e1) as Hc1.
  { split; [|done]. apply list_find_Some in Hf as (Hi & HP & Hmin). apply list_find_Some. simpl.
    split_and!; [apply list_lookup_insert_eq; by eapply lookup_lt_Some|apply HP|exact (proj2 HP)|].
    intros j y Hj Hlt. rewrite list_lookup_insert_ne in Hj by lia. by eapply Hmin. }
  destruct (IH pool1 e1 Hc1 Hnd) as (pool' & Hr & e' & Hc' & Hrt).
  { intros id' Hin. simpl. rewrite fmap_app, elem_of_app. simpl.
    intros [?| ->%list_elem_of_singleton]; [|done]. by apply (Hnew id'); [right|]. }
  rewrite Hr. exists pool'. split; [done|]. exists e'. split; [done|].
  rewrite Hrt. simpl. by rewrite <-app_assoc.
Qed.

(** The hello of backend [b], as the gateway gets it on its connection [c]. *)
Definition hello_of (b : Backend) (c : Conn) : Request :=
  mkRequest c MsgIdServiceHello
    (marshal (mkServiceHello (be_service b) (be_forward b) (be_send b))).

(** The service name and the message ids can be sent. *)
Definition announceable (b : Backend) : Prop :=
  utf8 (be_service b) ∧ Forall in_uint32 (be_forward b) ∧ Forall in_uint32 (be_send b).

Lemma hello_of_decodes b c :
  announceable b →
  unmarshal (rq_data (hello_of b c)) =
    Some (mkServiceHello (be_service b) (be_forward b) (be_send b)).
Proof. intros (? & ? & ?). cbn [rq_data hello_of]. by rewrite unmarshal_marshal. Qed.

(** C19: A backend that comes up is put to use.  When the gateway's connection to a
    backend is made, the identity it sends marks the connection on the backend as
    one of a gateway, so that the backend's broadcasts reach it.  The hello the
    backend answers with makes the gateway forward every announced message id it
    had not registered yet to that service, with the route the configuration
    gives it, and hand every announced response to the response router; the
    response routers are remembered for later connections.  This is the first
    hello of a backend that the gateway has finished dialling: the pool is in the
    registry, and the connection has no router yet for the ids the backend
    announces to send (each once).  [hello_during_dial] and
    [hello_after_reconnection] are the other cases. *)
Theorem handshake_installs_routes b cfg c link w gw pool client i e :
  announceable b → be_forward b ++ be_send b ≠ [] →
  MsgIdPing ∉ be_forward b → NoDup (be_send b) →
  gw_backendCfgs gw !! be_service b = Some cfg →
  reg_Pool (gw_Registry gw) (be_service b) = Some pool → connected pool c client i e →
  (∀ id, id ∈ be_send b → id ∉ (ce_routers e).*1) →
  ∃ ident w' es1 hello gw' es2,
    inbox c link (send_identity SvcGateway c) = [ident] ∧
    identity_Handle (be_service b) (be_forward b) (be_send b) w ident = (w', es1) ∧
    is_gateway w' link ∧
    inbox link c es1 = [hello] ∧ rq_msgID hello = MsgIdServiceHello ∧
    hello_Handle hello gw = Ok (tt, gw', es2) ∧
    (∀ id, id ∈ be_forward b → id ∉ gw_fwdRegistered gw →
       forwards gw' (be_service b) cfg id ∧ ServerAddRouter id ForwardRouter ∈ es2) ∧
    (∀ id, id ∈ be_send b → ClientAddRouter client id ResponseRouter ∈ es2) ∧
    ∃ pool' e', reg_Pool (gw_Registry gw') (be_service b) = Some pool' ∧
      connected pool' c client i e' ∧
      ∀ id, id ∈ be_send b → (id, ResponseRouter) ∈ ce_routers e'.
Proof.
  intros Hann Hne Hping Hnd Hcfg Hpool Hconn Hnew.
  set (hello := marshal (mkServiceHello (be_service b) (be_forward b) (be_send b))).
  exists (mkRequest link MsgIdServiceIdentity (to_bytes SvcGateway)),
    (SetProperty w link PropConnType (AString SvcGateway)), [SendMsg link MsgIdServiceHello hello],
    (hello_of b c).
  destruct (register_forward_spec (be_service b) cfg (be_forward b) gw Hping)
    as (gw1 & es & Hr & Hreg & Hall & _).
  destruct (register_responses_spec pool c client (be_send b) i e Hconn Hnd Hnew)
    as (pool' & Hrr & e' & Hc' & Hrt).
  eexists _, _. split_and!.
  - unfold inbox. simpl. by rewrite decide_True.
  - unfold identity_Handle. cbn [rq_data rq_conn]. rewrite of_to_bytes.
    destruct (be_forward b), (be_send b); done.
  - unfold is_gateway. apply get_set_eq.
  - unfold inbox. simpl. by rewrite decide_True.
  - done.
  - unfold hello_Handle, hello_run. rewrite hello_of_decodes by done.
    cbn [sh_Service sh_MsgIds sh_SendMsgIds]. rewrite Hcfg, Hr, Hreg, Hpool.
    cbn [rq_conn hello_of]. rewrite Hrr. reflexivity.
  - intros id Hin Hn. destruct (Hall id Hin Hn) as [Hf He]. split; [done|].
    apply elem_of_app. by left.
  - intros id Hin. apply elem_of_app. right. apply list_elem_of_fmap. by exists id.
  - exists pool', e'. split; [apply lookup_insert_eq|]. split; [done|].
    intros id Hin. rewrite Hrt. apply elem_of_app. right. apply list_elem_of_fmap. by exists id.
Qed.

(** A hello that is handled while the gateway is still dialling its backend, whose
    pool is therefore not in the registry, installs the routes of the requests
    but no router for the responses: the pools stay as they are and no client
    gets a router.  Nothing repeats the hello while the connection lasts. *)
Theorem hello_during_dial b cfg c gw :
  announceable b → MsgIdPing ∉ be_forward b →
  gw_backendCfgs gw !! be_service b = Some cfg →
  reg_Pool (gw_Registry gw) (be_service b) = None →
  ∃ gw' es, hello_run (hello_of b c) gw = (gw', es, None) ∧
    (∀ id, id ∈ be_forward b → id ∉ gw_fwdRegistered gw → forwards gw' (be_service b) cfg id) ∧
    gw_Registry gw' = gw_Registry gw ∧
    ∀ client id r, ClientAddRouter client id r ∉ es.
Proof.
  intros Hann Hping Hcfg Hpool.
  destruct (register_forward_spec (be_service b) cfg (be_forward b) gw Hping)
    as (gw1 & es & Hr & Hreg & Hall & Hes).
  exists gw1, es. split_and!.
  - unfold hello_run. rewrite hello_of_decodes by done.
    cbn [sh_Service sh_MsgIds sh_SendMsgIds]. by rewrite Hcfg, Hr, Hreg, Hpool.
  - intros id Hin Hn. by destruct (Hall id Hin Hn).
  - done.
  - intros client id r Hin. destruct (Hes _ Hin) as [? ?]. done.
Qed.

(** After a reconnection, the new client has the remembered response routers, and
    the hello on the new connection registers the first of them again: zinx
    panics, with the lock of the entry held. *)
Theorem hello_after_reconnection b cfg c client gw pool i e id send :
  announceable b → MsgIdPing ∉ be_forward b → be_send b = id :: send →
  gw_backendCfgs gw !! be_service b = Some cfg →
  reg_Pool (gw_Registry gw) (be_service b) = Some pool →
  connected pool c client i (entry_up c client e) → id ∈ (ce_routers e).*1 →
  hello_Handle (hello_of b c) gw = Panic (repeated_api id).
Proof.
  intros Hann Hping Hsend Hcfg Hpool [Hf _] Hid.
  destruct (register_forward_spec (be_service b) cfg (be_forward b) gw Hping)
    as (gw1 & es & Hr & Hreg & _ & _).
  unfold hello_Handle, hello_run. rewrite hello_of_decodes by done.
  cbn [sh_Service sh_MsgIds sh_SendMsgIds rq_conn hello_of].
  rewrite Hcfg, Hr, Hreg, Hpool, Hsend. cbn [register_responses].
  unfold AddConnectionRouter. rewrite Hf. by rewrite decide_True.
Qed.
End handshake.

(** ** Concrete inputs *)

Definition wit_hs_entry : connEntry := entry_up 5%N 9%N (new_entry "127.0.0.1:8001" backendRouters SvcGateway second).
Definition wit_hs_gw : GatewayServer World :=
  mkGateway "gw1" empty_world (mkRegistry {[ SvcChatSvr := mkPool [wit_hs_entry] HashRoute ]} SvcGateway)
    ∅ ∅ {[ SvcChatSvr := mkRouteCfg "playerId" "hash" ]} ∅ ∅ ∅ ∅ ∅.

Lemma handshake_installs_routes_witness :
  ∃ hello gw' es, hello_Handle (W := World) hello wit_hs_gw = Ok (tt, gw', es) ∧
    forwards gw' SvcChatSvr (mkRouteCfg "playerId" "hash") MsgIdChatReq ∧
    ClientAddRouter 9 MsgIdChatResp ResponseRouter ∈ es.
Proof.
  destruct (handshake_installs_routes (H := count_proto) chatsvr_backend (mkRouteCfg "playerId" "hash")
    5%N 6%N empty_world wit_hs_gw (mkPool [wit_hs_entry] HashRoute) 9%N 0%nat wit_hs_entry)
    as (ident & w' & es1 & hello & gw' & es2 & _ & _ & _ & _ & _ & Hh & Hf & Hs & _).
  - split; [reflexivity|]. split; repeat constructor; vm_compute; done.
  - discriminate.
  - evaluate.
  - evaluate.
  - reflexivity.
  - reflexivity.
  - split; reflexivity.
  - intros id Hin. apply (elem_of_list_to_set (C := gset Z)) in Hin.
    revert id Hin. apply set_Forall_list_to_set. repeat constructor; evaluate.
  - exists hello, gw', es2. split; [exact Hh|]. split.
    + apply Hf; [by left|]. evaluate.
    + apply Hs. by left.
Defined.

Lemma hello_during_dial_witness :
  ∃ gw' es, hello_run (W := World) (hello_of chatsvr_backend 5%N)
      (set_Registry (mkRegistry ∅ SvcGateway) wit_hs_gw) = (gw', es, None) ∧
    ∀ client id r, ClientAddRouter client id r ∉ es.
Proof.
  destruct (hello_during_dial (H := count_proto) chatsvr_backend (mkRouteCfg "playerId" "hash")
    5%N (set_Registry (mkRegistry ∅ SvcGateway) wit_hs_gw)) as (gw' & es & Hh & _ & _ & Hes).
  - split; [reflexivity|]. split; repeat constructor; vm_compute; done.
  - evaluate.
  - reflexivity.
  - reflexivity.
  - exists gw', es. split; [exact Hh|exact Hes].
Defined.

(** The chat server's connection breaks after its hello, and comes up again. *)
Lemma hello_after_reconnection_witness :
  ∃ gw' es pool' e',
    hello_Handle (W := World) (hello_of chatsvr_backend 5%N) wit_hs_gw = Ok (tt, gw', es) ∧
    reg_Pool (gw_Registry gw') SvcChatSvr = Some pool' ∧ p_conns pool' = [e'] ∧
    hello_Handle (hello_of chatsvr_backend 6%N)
      (set_Registry (reg_SetPool (gw_Registry gw') SvcChatSvr
         (set_conns pool' [entry_up 6%N 10%N (entry_down e').1])) gw') =
      Panic (repeated_api MsgIdChatResp).
Proof.
  do 4 eexists. split; [reflexivity|]. split; [reflexivity|]. split; [reflexivity|].
  eapply (hello_after_reconnection (H := count_proto) chatsvr_backend (mkRouteCfg "playerId" "hash")
    6%N 10%N).
  - split; [reflexivity|]. split; repeat constructor; vm_compute; done.
  - evaluate.
  - reflexivity.
  - reflexivity.
  - reflexivity.
  - split; reflexivity.
  - evaluate.
Defined.
